(* ===== verification/_CoqProject ===== *)
-Q . S2P
Prelude.v
Rbt.v
RbTree.v
RbtRep.v
RbtOps.v
RbtInsert.v
RbtErase.v
RbtFind.v
RbtCheck.v
Common.v
TreeMm.v
Kheap.v
KheapTrees.v
Demo.v
RbtProps.v
KheapSpec.v
KheapOk.v
KheapFree.v
Page.v
PageInit.v
PageOk.v
PageFrames.v
PageHeap.v
PageCow.v
KernelHeap.v
Machine.v
HeapProps.v
CowProps.v
PageZero.v
Quiet.v
Space.v
BootTables.v
BootFrames.v
Booted.v
SpaceOps.v
CloneStack.v
CloneTable.v
CloneDir.v
Sigset.v
Ctype.v
Bytes.v
Port.v
Printf.v
Denoted.v
Klog.v
KlogOk.v
KlogProps.v
DescTab.v
Errno.v
Fs.v
Elf.v
ElfRam.v
Task.v
TaskQueue.v
TaskOk.v
TaskOps.v
TaskSleep.v
TaskProps.v
TaskDemo.v
Cxx.v
UserSig.v
Initrd.v
Syscall.v
Stack.v
Multiboot.v
Timer.v
KernelEnv.v
BootStack.v
CloneProps.v
KernelTasks.v
PageBoot.v
SpaceDemo.v
Main.v
MainProps.v
KernelBoot.v
BootDemo.v
