(* ===== verification/Prelude.v ===== *)
(** * A verification of the JKOS kernel

    JKOS is a small protected-mode kernel for the i386: [src/src/core] brings
    up descriptor tables, a text screen, paging, a heap, tasks and system
    calls, loads one ELF program from a RAM disk and runs it in user mode
    ([src/initrd.cpp]).  This library models the kernel's C++ code and that
    program as functions on explicit states, and proves what makes each
    component correct.

    ** How the program is modelled

    A function that reads or changes variables is a computation of the state
    monad [M S A] of this file; its results [Panic], [Fault] and [NoFuel] are
    the kernel's [panic] and [kassert], an access the language or the machine
    leaves undefined, and a loop cut short.  The state [S] is a record of the
    file's variables and of the memory its pointers reach; a pointer is an
    address, 0 is [NULL].  Machine integers are [Z] with the wrap-around of
    [u8], [u16], [u32], [s32] written where the code's types have it.  What one
    component gives another is a class ([HeapEnv], [TaskEnv], [ElfEnv],
    [RamDisk], [StackMem], [Syscalls], [CxxEnv], [Printer]); a component's
    theorems are proved against the class's laws, and an instance of the class
    discharges them.

    ** The parts, from the bottom

    - [Prelude], [Common], [Bytes], [Ctype]: the monad and its rules; constants
      and helpers of [include/common.h]; integers in memory; [lib/ctype.h] and
      [lib/cstring.cpp].
    - Trees, [include/lib/rbtree.h]: [Rbt] is the template's pointer code on a
      store of nodes with the colour in the parent pointer; [RbTree] the
      balanced trees it stands for, [RbtRep] the representation, [RbtOps],
      [RbtInsert], [RbtErase], [RbtFind] the refinement, [RbtProps] the
      properties, [RbtCheck] the template's own check ([RBT_DEBUG]).  [TreeMm] is the node allocator of the heap's trees.
    - Heap, [core/kheap.cpp]: [Kheap] is the code, over [HeapEnv]; [KheapSpec]
      the specification (free blocks, live allocations, best fit),
      [KheapTrees], [KheapOk], [KheapFree] the refinement.
    - Paging, [core/page.cpp]: [Page] is the code and the memory accesses the
      processor makes through the tables, page faults included; [PageInit] the
      initialization and the knot between [kmalloc] and [get_page];
      [PageFrames] the accounting of frames, [PageHeap] the laws the heap
      needs, [PageCow], [CowProps] copy-on-write, [PageZero] pages filled on
      demand.  [KernelHeap] and [HeapProps] are the heap on the real tables;
      [Machine] a concrete machine.
    - Address spaces, the rest of [core/page.cpp] on the real heap: [Quiet] is
      what the heap does not notice of a change of the tables, [Space] the
      invariant of all directories (the kernel's tables shared, the others
      owned, the processor's walk agreeing with the kernel's pointers),
      [SpaceOps] new objects, slots and tables; [CloneStack], [CloneTable],
      [CloneDir] follow [clone_directory], [CloneProps] states it by what an
      address space sees, [SpaceDemo] applies it to the machine.
    - The boot of the memory, [Page::init] step by step from the state the
      boot loader leaves: [BootFrames] the memory map and the stack of free
      frames, [BootTables] the tables taken from the static heap, [Booted] the
      address space they make once they are complete, [PageBoot] the whole.
    - Screen, [core/klog.cpp], [core/common.cpp], [include/port.h]: [Port] logs
      the accesses, [Printf] has the conversions the kernel and the program
      share, [Denoted] what a format denotes, independently of them, [Klog] the
      rest, [KlogOk] and [KlogProps] the screen as a
      terminal.
    - [DescTab]: [core/descriptor_table.cpp] and the interrupt controllers.
    - [Errno], [Sigset]: [core/user.cpp], error numbers, [core/signal.cpp].
    - Files: [Fs] is [fs/base.cpp] and [drv/ramdisk.cpp]; [Elf] is
      [core/elf.cpp] over any file and memory, [ElfRam] the loader on the RAM
      disk.
    - Tasks, [core/task.cpp]: [Task] is the code; [TaskQueue] the circular
      queues as lists, [TaskOk] the invariant, [TaskOps], [TaskSleep] its
      preservation, [TaskProps] the properties, [TaskDemo] a concrete system.
      A task switch is a value [Jump c] that says which registers are loaded:
      the code that runs next is the one that stored them.  [Stack] is
      [move_stack].
    - [Cxx]: [lib/cxxsupport.cpp], the exit functions and operators.
    - System calls: [Syscall] is [core/syscall.cpp], the entry of
      [core/asm/syscall.S] and the wrappers of [lib/include/syscall.h];
      [UserSig] the program's [Sigset] in its memory ([lib/include/signal.h]);
      [Initrd] the program [initrd.cpp].
    - The whole: [Multiboot] is [include/multiboot.h]; [Timer] the interrupt
      handlers of [core/main.cpp]; [KernelEnv] gives the real heap and page
      tables to the interfaces above them, [BootStack] moves the boot stack
      through them, and [KernelTasks] proves that they keep [TaskEnvLaws];
      [Main] is [kmain] and its tests on one machine, [MainProps] its refusal
      of other boot loaders, [KernelBoot] its way to the first program,
      [BootDemo] a machine as a boot loader leaves it.

    ** What the theorems show

    - Heap: any sequence of allocations, releases and writes behaves as a
      memory of disjoint buffers ([heap_is_memory]); [kmalloc] gives the best
      fit, keeps the invariant and fails only when no block fits, 511 blocks are
      free or the frames left cannot back a header; [kfree] frees exactly a
      block and merges; freeing twice stops the kernel.
    - Boot: [Page::init] always returns from a memory map with one region of
      useful memory, and leaves the invariant of heap and address spaces, the
      kernel mapped where it is, and exactly the memory above it as free frames
      ([page_init_correct]); [kmain] brings every component up, and what the
      other theorems ask for holds then and after any calls of the task
      component ([kmain_boots]).
    - Paging: [clone_directory] gives a task a space that sees what the old one
      saw, with a stack page of its own ([clone_directory_correct]); after a
      write each side sees its own page ([fork_isolation]); memory given on
      demand is zero ([demand_zero]); other accesses panic.
    - Tasks: no sequence of calls breaks the queues or the tree of numbers
      ([task_system_invariant]), and on the kernel's own heap and page tables
      neither the heap nor any address space ([kernel_task_system]); [fork],
      [sleep], [wakeup] and their errors;
      the scheduler is fair ([round_robin], [timer_preempts]) and resumes a
      task at the program counter, with the stack and frame pointer and in the
      page directory it left ([context_comes_back]).
    - Trees: insertion, removal, search, [clear] are those of a sorted list,
      with a logarithmic search.
    - Loading: after [load_elf] memory holds exactly the segments of the
      program, the one case included where the code zeroes a page with bytes of
      the file on it ([load_elf_correct]); each defect of a file, at whatever
      program header, has its error number ([load_elf_errors]); no file makes
      the loader write outside user memory ([load_elf_confined]).
    - Screen and program: [printf] puts on an abstract terminal the text its
      format denotes, numbers written by place value ([vprintf_correct]), from
      the kernel and from the program alike; system calls reach the function
      they name; the program's signal sets are the kernel's.
    - The rest: interrupt dispatch, the RAM disk, exit functions, the boot
      stack's move, the refusal of an unknown boot loader.

    ** Fuel

    Loops that are not structural carry fuel.  The tree's loops take the number
    of nodes, [kmalloc]'s search the number of free blocks, the page loops the
    number of pages of the interval, the search of [get_next_pid]
    the number of tasks; each is proved enough, and the theorems say that the
    functions return or panic with the messages listed, never that they run
    out.  [kmalloc] calls itself through [get_page] at most once (fuel 2).  A
    memory access retries after a fault at most twice (fuel 3).  [u2s] gets 32
    digits, more than any 32-bit number has.  The loops of [Page::init] are
    bounded by the number of words of the memory map, of frames and of pages,
    which [mmap_memsize_ok], [push_region_ok], [mmap_frames_ok],
    [boot_map_kernel] and [drop_frames_ok] prove enough.  [puts_at] and [wait_loop] have their bound as a
    parameter; the endless loops of the tests take a number of turns.

    ** What is not modelled

    The assembly of [loader.S], [interrupt.S] and [misc.S] (the save and
    restore of registers around a handler) except the entry of system calls;
    the translation buffer and the timing of the hardware; [stdarg.h], whose
    argument lists are lists of values; the constants and structures of
    [elf_base.h], a vendored header, that the loader does not use.  The
    messages [page.cpp] and [kheap.cpp] print are kept as a list of formats
    and numbers, not printed on the screen.  A task's record and the trees'
    nodes lie in stores of their own, by address, not as bytes of the paged
    memory.  User code other than [initrd.cpp] is not modelled: what a program
    does between system calls is any access its pages allow.  The constructors of
    the kernel's global objects are functions of the compiler: [kmain_boots]
    takes the state they leave as its start.

    Smaller departures.  [%f] is modelled, but no theorem says which digits it
    prints: [Printf] rounds to a [double] at every step, and an i386 compiler
    may keep more.  A [Task_t] keeps no flags; a switch pops those of the task
    switched from, and only where a theorem names [eflags] are they followed.
    The flags are not in the RAM disk's state, so [CLI_SAVE_EFLAGS] around its
    copies is left out, and its positions are not cut to 64 bits.  [fork]
    copies the directory before it allocates the new task, an order the
    language leaves open.  The handler of page faults is registered just after
    [Page::init] instead of before the last allocations in it, and [cr3]
    changes with the jump of [switch_task] that loads it. *)
From stdpp Require Export base gmap sets list strings.
From Stdlib Require Export ZArith Lia.
Open Scope Z_scope.

(** * Machine integers *)

(** [u32 z] is the value a [uint32_t] takes when [z] is stored in it. *)
Definition u32 (z : Z) : Z := z mod 2 ^ 32.
Definition u16 (z : Z) : Z := z mod 2 ^ 16.
Definition u8 (z : Z) : Z := z mod 2 ^ 8.
(** [s32 z] is the value an [int] takes (two's complement). *)
Definition s32 (z : Z) : Z := (z + 2 ^ 31) mod 2 ^ 32 - 2 ^ 31.

Lemma s32_small z : 0 ≤ z < 2 ^ 31 → s32 z = z.
Proof. intros Hz. unfold s32. rewrite Z.mod_small by lia. lia. Qed.

(** * Effects: a state monad with the kernel's ways of not returning *)

(** [Panic] is the [panic] macro (or a failed assertion), [Fault] a memory
    access or a computation the language leaves undefined, [NoFuel] a loop cut
    before its exit. *)
Inductive res (A : Type) : Type :=
| Ret (a : A)
| Panic (msg : string)
| Fault
| NoFuel.
Arguments Ret {A} a.
Arguments Panic {A} msg.
Arguments Fault {A}.
Arguments NoFuel {A}.

Definition M (S A : Type) : Type := S → res (A * S).

Global Instance M_ret S : MRet (M S) := λ A a s, Ret (a, s).
Global Instance M_bind S : MBind (M S) := λ A B f m s,
  match m s with
  | Ret (a, s') => f a s'
  | Panic msg => Panic msg
  | Fault => Fault
  | NoFuel => NoFuel
  end.

Definition get {S} : M S S := λ s, Ret (s, s).
Definition put {S} (s : S) : M S unit := λ _, Ret (tt, s).
Definition panic {S A} (msg : string) : M S A := λ _, Panic msg.
Definition fault {S A} : M S A := λ _, Fault.
Definition nofuel {S A} : M S A := λ _, NoFuel.

Lemma bind_assoc {S A B C} (m : M S A) (f : A → M S B) (g : B → M S C) s :
  ((m ≫= f) ≫= g) s = (m ≫= λ a, f a ≫= g) s.
Proof. unfold mbind, M_bind. destruct (m s) as [[? ?]| | |]; done. Qed.

(** Weakest preconditions: [wp m Q E s] says that [m] run from [s] either
    returns in a state satisfying [Q] or panics with a message allowed by [E];
    it never faults and never runs out of fuel. *)
Definition wp {S A} (m : M S A) (Q : A → S → Prop) (E : string → Prop) (s : S) : Prop :=
  match m s with
  | Ret (a, s') => Q a s'
  | Panic msg => E msg
  | Fault | NoFuel => False
  end.

Section wp_rules.
Context {S : Type}.
Implicit Types (s : S) (E : string → Prop).

Lemma wp_ret {A} (a : A) (Q : A → S → Prop) E s : Q a s → wp (mret a) Q E s.
Proof. done. Qed.

Lemma wp_bind {A B} (m : M S A) (f : A → M S B) (Q : B → S → Prop) E s :
  wp m (λ a, wp (f a) Q E) E s → wp (m ≫= f) Q E s.
Proof. unfold wp at 1 3, mbind, M_bind. by destruct (m s) as [[? ?]| | |]. Qed.

Lemma wp_get (Q : S → S → Prop) E s : Q s s → wp get Q E s.
Proof. done. Qed.

Lemma wp_put s' (Q : unit → S → Prop) E s : Q tt s' → wp (put s') Q E s.
Proof. done. Qed.

Lemma wp_panic {A} msg (Q : A → S → Prop) E s : E msg → wp (panic msg) Q E s.
Proof. done. Qed.

Lemma wp_mono {A} (m : M S A) (Q Q' : A → S → Prop) E s :
  wp m Q E s → (∀ a s', Q a s' → Q' a s') → wp m Q' E s.
Proof. unfold wp. destruct (m s) as [[? ?]| | |]; eauto. Qed.

Lemma wp_mono_E {A} (m : M S A) (Q Q' : A → S → Prop) (E E' : string → Prop) s :
  wp m Q E s → (∀ a s', Q a s' → Q' a s') → (∀ msg, E msg → E' msg) → wp m Q' E' s.
Proof. unfold wp. destruct (m s) as [[? ?]| | |]; eauto. Qed.

(** A computation that cannot panic returns. *)
Lemma wp_returns {A} (m : M S A) (Q : A → S → Prop) s :
  wp m Q (λ _, False) s → ∃ a s', m s = Ret (a, s') ∧ Q a s'.
Proof. unfold wp. destruct (m s) as [[a s']| | |]; naive_solver. Qed.

Lemma wp_of_run {A} (m : M S A) (Q : A → S → Prop) E s a s' :
  m s = Ret (a, s') → Q a s' → wp m Q E s.
Proof. unfold wp. by intros ->. Qed.

Lemma wp_same {A} (m m' : M S A) (Q : A → S → Prop) E s s' : m s = m' s' → wp m' Q E s' → wp m Q E s.
Proof. unfold wp. by intros ->. Qed.

Lemma run_bind {A B} (m : M S A) (f : A → M S B) s a s' :
  m s = Ret (a, s') → (m ≫= f) s = f a s'.
Proof. unfold mbind, M_bind. by intros ->. Qed.
End wp_rules.

(** [wp_step] peels one [bind]; [wp_ret!] closes a returning leaf. *)
Ltac wp_step := apply wp_bind.

(** * Distinctness of addresses *)

(** [dj l m]: the lists share no element. *)
Definition dj {A} (l m : list A) : Prop := ∀ x, x ∈ l → x ∈ m → False.

Section dj.
Context {A : Type}.
Implicit Types (l m : list A) (a : A).

Lemma NoDup_app_dj l m : NoDup (l ++ m) ↔ NoDup l ∧ dj l m ∧ NoDup m.
Proof. rewrite NoDup_app. unfold dj. naive_solver. Qed.
Lemma dj_app_l l1 l2 m : dj (l1 ++ l2) m ↔ dj l1 m ∧ dj l2 m.
Proof. unfold dj. setoid_rewrite elem_of_app. naive_solver. Qed.
Lemma dj_app_r l m1 m2 : dj l (m1 ++ m2) ↔ dj l m1 ∧ dj l m2.
Proof. unfold dj. setoid_rewrite elem_of_app. naive_solver. Qed.
Lemma dj_cons_l a l m : dj (a :: l) m ↔ a ∉ m ∧ dj l m.
Proof. unfold dj. setoid_rewrite elem_of_cons. naive_solver. Qed.
Lemma dj_cons_r l a m : dj l (a :: m) ↔ a ∉ l ∧ dj l m.
Proof. unfold dj. setoid_rewrite elem_of_cons. naive_solver. Qed.
Lemma dj_nil_l m : dj [] m ↔ True.
Proof. unfold dj. split; [done|]. intros _ x Hx. by apply elem_of_nil in Hx. Qed.
Lemma dj_nil_r l : dj l [] ↔ True.
Proof. unfold dj. split; [done|]. intros _ x _ Hx. by apply elem_of_nil in Hx. Qed.
Lemma dj_sym l m : dj l m → dj m l.
Proof. unfold dj. eauto. Qed.
End dj.

(** The position of an element of a duplicate-free list is unique. *)
Lemma split_unique {A B} (l1 l2 m1 m2 : list (A * B)) a b b' :
  NoDup (l1 ++ (a, b) :: l2).*1 → l1 ++ (a, b) :: l2 = m1 ++ (a, b') :: m2 →
  l1 = m1 ∧ b = b' ∧ l2 = m2.
Proof.
  revert m1; induction l1 as [|x l1 IH]; intros m1 Hnd Heq; simpl in *.
  - destruct m1 as [|y m1]; simpl in *; [naive_solver|].
    exfalso. apply NoDup_cons in Hnd as [Hn _]. injection Heq as <- ->. simpl in *.
    apply Hn. rewrite fmap_app. simpl. set_solver.
  - destruct m1 as [|y m1]; simpl in *.
    + exfalso. injection Heq as -> <-. apply NoDup_cons in Hnd as [Hn _]. apply Hn.
      simpl. rewrite fmap_app. simpl. set_solver.
    + injection Heq as <- Heq. apply NoDup_cons in Hnd as [_ Hnd].
      destruct (IH _ Hnd Heq) as (-> & -> & ->). done.
Qed.

(** [nd] breaks the [NoDup] hypotheses into atomic facts, [ne] proves an
    inequality or a non-membership from them. *)
Ltac nd :=
  repeat match goal with
  | H : NoDup (_ ++ _) |- _ => apply NoDup_app_dj in H as (? & ? & ?)
  | H : NoDup (_ :: _) |- _ => apply NoDup_cons in H as [? ?]
  | H : NoDup [] |- _ => clear H
  | H : dj (_ ++ _) _ |- _ => apply dj_app_l in H as [? ?]
  | H : dj _ (_ ++ _) |- _ => apply dj_app_r in H as [? ?]
  | H : dj (_ :: _) _ |- _ => apply dj_cons_l in H as [? ?]
  | H : dj _ (_ :: _) |- _ => apply dj_cons_r in H as [? ?]
  | H : dj [] _ |- _ => clear H
  | H : dj _ [] |- _ => clear H
  | H : _ ∉ _ ++ _ |- _ => apply not_elem_of_app in H as [? ?]
  | H : _ ∉ _ :: _ |- _ => apply not_elem_of_cons in H as [? ?]
  | H : _ ∉ [] |- _ => clear H
  end.

Ltac nd_absurd :=
  match goal with
  | H1 : ?x ∈ ?l, H2 : ?x ∉ ?l |- _ => exact (H2 H1)
  | H1 : ?x ∈ ?l, H2 : ?x ∈ ?m, H : dj ?l ?m |- _ => exact (H _ H1 H2)
  | H : ?x ≠ ?x |- _ => exact (H eq_refl)
  end.
Ltac ne :=
  match goal with
  | H : ?a ≠ ?b |- ?a ≠ ?b => exact H
  | H : ?b ≠ ?a |- ?a ≠ ?b => exact (not_eq_sym H)
  | |- _ ≠ _ => let H := fresh in intros H; subst; nd_absurd
  | |- _ ∉ _ => let H := fresh in intros H; nd_absurd
  end.

(** Lookups in a map with several insertions at distinct keys. *)
Ltac lk :=
  repeat first [ rewrite lookup_insert_eq | rewrite lookup_insert_ne by ne
               | rewrite lookup_delete_ne by ne ].

(** * Lists whose elements are pairwise related *)

(** [pairwise R l]: [R] relates any two elements at different positions, for a
    symmetric [R]. *)
Definition pairwise {A} (R : A → A → Prop) (l : list A) : Prop := ForallOrdPairs R l.

Section pairwise.
Context {A : Type} (R : A → A → Prop).
Implicit Types (l : list A) (a : A).

Lemma pairwise_nil : pairwise R [] ↔ True.
Proof. split; [done|]. constructor. Qed.
Lemma pairwise_cons a l : pairwise R (a :: l) ↔ Forall (R a) l ∧ pairwise R l.
Proof. split; [inversion 1; done|]. intros [? ?]. by constructor. Qed.
Lemma pairwise_app l m :
  pairwise R (l ++ m) ↔ pairwise R l ∧ pairwise R m ∧ Forall (λ a, Forall (R a) m) l.
Proof.
  induction l as [|a l IH]; simpl.
  - rewrite pairwise_nil. split; [intros ?; split_and!; try done; by constructor|naive_solver].
  - rewrite !pairwise_cons, Forall_app, Forall_cons, IH. tauto.
Qed.

Global Instance pairwise_perm `{!Symmetric R} : Proper ((≡ₚ) ==> iff) (pairwise R).
Proof.
  assert (∀ l m, l ≡ₚ m → pairwise R l → pairwise R m) as Hp.
  { intros l m Hp. induction Hp as [|a l m Hp IH|a b l|l m n _ IH1 _ IH2]; [done|..].
    - rewrite !pairwise_cons. intros [Hf ?]. rewrite Hp in Hf. auto.
    - rewrite !pairwise_cons, !Forall_cons. intros ([? ?] & ? & ?). split_and!; try done; by symmetry.
    - eauto. }
  intros l m Hlm. split; apply Hp; done.
Qed.
End pairwise.

(** Filtering by a stronger predicate that drops an element. *)
Lemma length_filter_lt {A} (P Q : A → Prop) `{!∀ a, Decision (P a)} `{!∀ a, Decision (Q a)} (l : list A) b :
  (∀ a, P a → Q a) → b ∈ l → Q b → ¬ P b → (length (filter P l) < length (filter Q l))%nat.
Proof.
  intros HPQ Hb HQ HP.
  assert (∀ m, length (filter P m) ≤ length (filter Q m))%nat as Hle.
  { induction m as [|a m IH]; [done|]. rewrite !filter_cons.
    destruct (decide (P a)), (decide (Q a)); simpl; naive_solver lia. }
  induction l as [|a l IH]; [by apply elem_of_nil in Hb|].
  rewrite !filter_cons. apply elem_of_cons in Hb as [->|Hb].
  - rewrite decide_False, decide_True by done. simpl. specialize (Hle l). lia.
  - specialize (IH Hb). destruct (decide (P a)), (decide (Q a)); simpl; naive_solver lia.
Qed.

(** * Loops *)

(** [for (a : l) f(a);] *)
Fixpoint for_each {S A} (l : list A) (f : A → M S unit) : M S unit :=
  match l with
  | [] => mret tt
  | a :: l => f a ;; for_each l f
  end.

(** [for (i = lo; i < hi; i ++)] over indices *)
Definition upto (lo hi : Z) : list Z := Z.add lo <$> (Z.of_nat <$> seq 0 (Z.to_nat (hi - lo))).

Section loop_rules.
Context {S : Type}.

(** A loop keeps what each of its iterations keeps. *)
Lemma wp_for_each {A} (I : list A → S → Prop) E (l : list A) (f : A → M S unit) s :
  (∀ pre a post s, l = pre ++ a :: post → I pre s → wp (f a) (λ _ s', I (pre ++ [a]) s') E s) →
  I [] s → wp (for_each l f) (λ _ s', I l s') E s.
Proof.
  intros Hf.
  assert (∀ post pre s, l = pre ++ post → I pre s →
    wp (for_each post f) (λ _ s', I l s') E s) as H; [|by intros; eapply (H l [])].
  induction post as [|a post IH]; intros pre s0 Hl HI; simpl.
  - apply wp_ret. rewrite app_nil_r in Hl. by subst.
  - apply wp_bind. eapply wp_mono; [by eapply Hf|]. intros ? s1 HI1.
    apply (IH (pre ++ [a])); [by rewrite <- app_assoc|done].
Qed.
End loop_rules.
