(* ===== verification/Rbt.v ===== *)
(** The red-black tree template of [include/lib/rbtree.h], on a store of
    nodes: parent pointers with the colour in their low bit, two child slots,
    one shared sentinel. *)
From S2P Require Import Prelude.

(** [Key_t]'s [operator <] and, for the instances that use it, [operator <=]. *)
Class KeyLt (K : Type) := key_lt : K → K → bool.
Class KeyLe (K : Type) := key_le : K → K → bool.

(** The [Nalloc_func_t] and [Nfree_func_t] a tree is constructed with. *)
Class NodeAlloc (P : Type) := {
  node_alloc : M P Z;
  node_free : Z → M P unit
}.

Record node (K : Type) : Type := Node {
  par_and_color : Z;
  ch0 : Z;
  ch1 : Z;
  key : K
}.
Arguments Node {K} _ _ _ _.
Arguments par_and_color {K} _.
Arguments ch0 {K} _.
Arguments ch1 {K} _.
Arguments key {K} _.

Section Node.
Context {K : Type}.
Implicit Types n from : node K.

Definition is_red n : bool := Z.land (par_and_color n) 1 =? 0.
Definition is_black n : bool := negb (Z.land (par_and_color n) 1 =? 0).
Definition with_pac n (w : Z) : node K := Node w (ch0 n) (ch1 n) (key n).
Definition set_red n : node K := with_pac n (Z.land (par_and_color n) 0xFFFFFFFE).
Definition set_black n : node K := with_pac n (Z.lor (par_and_color n) 1).
Definition copy_color n from : node K :=
  with_pac n (Z.lor (Z.land (par_and_color n) 0xFFFFFFFE) (Z.land (par_and_color from) 1)).
Definition get_par n : Z := Z.land (par_and_color n) 0xFFFFFFFE.
Definition copy_par n from : node K :=
  with_pac n (Z.lor (Z.land (par_and_color n) 1) (Z.land (par_and_color from) 0xFFFFFFFE)).
Definition set_par n (par : Z) : node K :=
  with_pac n (Z.lor (Z.land (par_and_color n) 1) par).
(** [ch[dir]] *)
Definition get_ch n (dir : bool) : Z := if dir then ch1 n else ch0 n.
Definition set_ch n (dir : bool) (c : Z) : node K :=
  if dir then Node (par_and_color n) (ch0 n) c (key n)
  else Node (par_and_color n) c (ch1 n) (key n).
Definition set_key n (k : K) : node K := Node (par_and_color n) (ch0 n) (ch1 n) k.
End Node.

(** A tree object with the memory its nodes live in and the allocator's state. *)
Record rbt (K P : Type) : Type := MkRbt {
  nodes : gmap Z (node K);
  tree_root : Z;
  pool : P
}.
Arguments MkRbt {K P} _ _ _.
Arguments nodes {K P} _.
Arguments tree_root {K P} _.
Arguments pool {K P} _.

(** A [Node *&]: the tree's root variable or a child slot of a node. *)
Inductive slot : Type := RootSlot | ChSlot (p : Z) (dir : bool).

Section Rbt.
Context {K P : Type} `{KeyLt K} `{NodeAlloc P}.
(** the address of [NIL_INSTANCE], and what a fresh node's memory holds *)
Context (NIL : Z) (junk : node K).
#[local] Abbreviation RM := (M (rbt K P)).

Definition rd (p : Z) : RM (node K) := λ t,
  match nodes t !! p with Some n => Ret (n, t) | None => Fault end.
Definition wr (p : Z) (n : node K) : RM unit := λ t,
  match nodes t !! p with
  | Some _ => Ret (tt, MkRbt (<[p:=n]> (nodes t)) (tree_root t) (pool t))
  | None => Fault
  end.
Definition upd (p : Z) (f : node K → node K) : RM unit := n ← rd p; wr p (f n).
Definition get_root : RM Z := λ t, Ret (tree_root t, t).
Definition set_root (p : Z) : RM unit := λ t, Ret (tt, MkRbt (nodes t) p (pool t)).

(** [static_cast<Node*>(node_alloc())] *)
Definition new_node : RM Z := λ t,
  match node_alloc (pool t) with
  | Ret (a, q) => Ret (a, MkRbt (<[a:=junk]> (nodes t)) (tree_root t) q)
  | Panic msg => Panic msg
  | Fault => Fault
  | NoFuel => NoFuel
  end.
(** [node_free(n)]: the node may not be accessed any more *)
Definition free_node (p : Z) : RM unit := λ t,
  match node_free p (pool t) with
  | Ret (_, q) => Ret (tt, MkRbt (delete p (nodes t)) (tree_root t) q)
  | Panic msg => Panic msg
  | Fault => Fault
  | NoFuel => NoFuel
  end.

Definition rd_slot (r : slot) : RM Z :=
  match r with RootSlot => get_root | ChSlot p dir => n ← rd p; mret (get_ch n dir) end.
Definition wr_slot (r : slot) (c : Z) : RM unit :=
  match r with RootSlot => set_root c | ChSlot p dir => upd p (λ n, set_ch n dir c) end.

(** [get_ref(n)] *)
Definition get_ref (n : Z) : RM slot :=
  root ← get_root;
  if n =? root then mret RootSlot
  else
    nn ← rd n;
    p ← rd (get_par nn);
    mret (ChSlot (get_par nn) (get_ch p true =? n)).

(** The constructor, on the memory and allocator it is given. *)
Definition Rbt_init (mem : gmap Z (node K)) (q : P) (nil0 : node K) : rbt K P :=
  let nil := set_par (set_black nil0) NIL in
  MkRbt (<[NIL:=set_ch (set_ch nil false NIL) true NIL]> mem) NIL q.

Definition rotate (root_ref : slot) (dir : bool) : RM unit :=
  root ← rd_slot root_ref;
  rn ← rd root;
  let t := get_ch rn (negb dir) in
  upd t (λ n, copy_par n rn) ;;
  tn ← rd t;
  let x := get_ch tn dir in
  upd root (λ n, set_ch n (negb dir) x) ;;
  upd x (λ n, set_par n root) ;;
  upd t (λ n, set_ch n dir root) ;;
  upd root (λ n, set_par n t) ;;
  wr_slot root_ref t.

(** First loop of [insert]: the node that will be the new node's parent. *)
Fixpoint insert_descend (fuel : nat) (val : K) (par cur : Z) : RM Z :=
  match fuel with
  | O => nofuel
  | S fuel =>
    if cur =? NIL then mret par
    else n ← rd cur; insert_descend fuel val cur (get_ch n (key_lt (key n) val))
  end.

(** Second loop of [insert], with the test after it. *)
Fixpoint insert_fixup (fuel : nat) (cur : Z) : RM unit :=
  match fuel with
  | O => nofuel
  | S fuel =>
    cn ← rd cur;
    let par := get_par cn in
    if par =? NIL then upd cur set_black
    else
      pn ← rd par;
      if negb (is_red pn) then mret tt
      else
        let gpar := get_par pn in
        gn ← rd gpar;
        let par_dir := par =? ch0 gn in
        let uncle := get_ch gn par_dir in
        un ← rd uncle;
        if is_red un then
          upd par set_black ;;
          upd uncle set_black ;;
          upd gpar set_red ;;
          insert_fixup fuel gpar
        else
          par ← (if negb (eqb (cur =? ch0 pn) par_dir) then
                   rotate (ChSlot gpar (negb par_dir)) (negb par_dir) ;;
                   pn' ← rd par;
                   mret (get_par pn')
                 else mret par);
          upd par set_black ;;
          upd gpar set_red ;;
          r ← get_ref gpar;
          rotate r par_dir
  end.

Definition fuel_of (t : rbt K P) : nat := S (size (nodes t)).

Definition insert (val : K) : RM unit :=
  t ← get;
  if tree_root t =? NIL then
    a ← new_node;
    set_root a ;;
    upd a set_black ;;
    upd a (λ n, set_par n NIL) ;;
    upd a (λ n, set_ch (set_ch n true NIL) false NIL) ;;
    upd a (λ n, set_key n val)
  else
    par ← insert_descend (fuel_of t) val NIL (tree_root t);
    cur ← new_node;
    pn ← rd par;
    upd par (λ n, set_ch n (key_lt (key pn) val) cur) ;;
    upd cur set_red ;;
    upd cur (λ n, set_ch (set_ch n true NIL) false NIL) ;;
    upd cur (λ n, set_par n par) ;;
    upd cur (λ n, set_key n val) ;;
    insert_fixup (fuel_of t) cur.

(** The body of [remove_bottom]'s loop once the sibling [s] of [n] is black;
    [again] is the loop, continued at the parent. *)
Definition remove_black_sibling (again : Z → RM unit) (n p s : Z) : RM unit :=
  sn ← rd s;
  s0 ← rd (ch0 sn);
  s1 ← rd (ch1 sn);
  if is_black s0 && is_black s1 then
    upd s set_red ;;
    again p
  else
    pn ← rd p;
    let dir := n =? ch1 pn in
    far ← rd (get_ch sn (negb dir));
    s ← (if is_black far then
           upd (get_ch sn dir) set_black ;;
           upd s set_red ;;
           pn ← rd p;
           rotate (ChSlot p (s =? ch1 pn)) (negb dir) ;;
           pn ← rd p;
           mret (get_ch pn (negb dir))
         else mret s);
    pn ← rd p;
    upd s (λ n, copy_color n pn) ;;
    upd p set_black ;;
    sn ← rd s;
    upd (get_ch sn (negb dir)) set_black ;;
    r ← get_ref p;
    rotate r dir.

(** The loop of [remove_bottom], with the statement after it. *)
Fixpoint remove_fixup (fuel : nat) (n : Z) : RM unit :=
  match fuel with
  | O => nofuel
  | S fuel =>
    root ← get_root;
    nn ← rd n;
    if (n =? root) || negb (is_black nn) then upd n set_black
    else
      let p := get_par nn in
      pn ← rd p;
      let s := get_ch pn (n =? ch0 pn) in
      sn ← rd s;
      s ← (if is_red sn then
             upd p set_red ;;
             upd s set_black ;;
             pn ← rd p;
             let d := s =? ch0 pn in
             r ← get_ref p;
             rotate r d ;;
             pn ← rd p;
             mret (get_ch pn (negb d))
           else mret s);
      remove_black_sibling (remove_fixup fuel) n p s
  end.

Definition remove_bottom (n_ref : slot) : RM unit :=
  t ← get;
  n ← rd_slot n_ref;
  nn ← rd n;
  let c := get_ch nn (ch0 nn =? NIL) in
  upd c (λ m, copy_par m nn) ;;
  wr_slot n_ref c ;;
  if is_red nn then free_node n
  else
    free_node n ;;
    cn ← rd c;
    if is_red cn then upd c set_black
    else remove_fixup (fuel_of t) c.

(** The loop of [erase]: the leftmost node below [cur], or [prev]. *)
Fixpoint erase_succ (fuel : nat) (prev cur : Z) : RM Z :=
  match fuel with
  | O => nofuel
  | S fuel =>
    if cur =? NIL then mret prev else n ← rd cur; erase_succ fuel cur (ch0 n)
  end.

Definition erase (ptr : Z) : RM unit :=
  if (ptr =? NIL) || (ptr =? 0) then mret tt
  else
    t ← get;
    n ← rd ptr;
    prev ← erase_succ (fuel_of t) NIL (ch1 n);
    prev ← (if negb (prev =? NIL) then
              m ← rd prev; upd ptr (λ n, set_key n (key m)) ;; mret prev
            else mret ptr);
    r ← get_ref prev;
    remove_bottom r.

Fixpoint do_find_ge (fuel : nat) (val : K) (cur pos : Z) : RM Z :=
  match fuel with
  | O => nofuel
  | S fuel =>
    if cur =? NIL then mret pos
    else
      n ← rd cur;
      if key_lt (key n) val then do_find_ge fuel val (ch1 n) pos
      else do_find_ge fuel val (ch0 n) cur
  end.
(** [NULL], the address 0, when there is none *)
Definition find_ge (val : K) : RM Z :=
  t ← get;
  pos ← do_find_ge (fuel_of t) val (tree_root t) NIL;
  if pos =? NIL then mret 0 else mret pos.

Fixpoint do_find_le `{KeyLe K} (fuel : nat) (val : K) (cur pos : Z) : RM Z :=
  match fuel with
  | O => nofuel
  | S fuel =>
    if cur =? NIL then mret pos
    else
      n ← rd cur;
      if key_le (key n) val then do_find_le fuel val (ch1 n) cur
      else do_find_le fuel val (ch0 n) pos
  end.
Definition find_le `{KeyLe K} (val : K) : RM Z :=
  t ← get;
  pos ← do_find_le (fuel_of t) val (tree_root t) NIL;
  if pos =? NIL then mret 0 else mret pos.

Definition get_key (p : Z) : RM K := n ← rd p; mret (key n).

(** [do_walk]: the keys the callback is called with, in call order *)
Fixpoint do_walk (fuel : nat) (root : Z) : RM (list K) :=
  match fuel with
  | O => nofuel
  | S fuel =>
    if root =? NIL then mret []
    else
      n ← rd root;
      l ← do_walk fuel (ch0 n);
      r ← do_walk fuel (ch1 n);
      mret (l ++ key n :: r)
  end.
Definition walk : RM (list K) := t ← get; do_walk (fuel_of t) (tree_root t).

Fixpoint do_clear (fuel : nat) (root : Z) : RM unit :=
  match fuel with
  | O => nofuel
  | S fuel =>
    if root =? NIL then mret tt
    else
      n ← rd root;
      do_clear fuel (ch0 n) ;;
      n ← rd root;
      do_clear fuel (ch1 n) ;;
      free_node root
  end.
Definition clear : RM unit :=
  t ← get;
  do_clear (fuel_of t) (tree_root t) ;;
  set_root NIL.

(** With [RBT_DEBUG], without [RBT_SIZE]: [do_check] throws a message at the
    first defect and returns the black nodes of a path. One turn of its loop: *)
Definition check_child (again : Z → RM Z) (root : Z) (dir : bool) : RM Z :=
  n ← rd root;
  let ch := get_ch n dir in
  if ch =? NIL then mret 0
  else
    nb ← again ch;
    n ← rd root;
    cn ← rd ch;
    if (if dir then key_lt (key cn) (key n) else key_lt (key n) (key cn)) then panic "partial order check error"
    else if negb (get_par cn =? root) then panic "parent pointer check error"
    else mret nb.
Fixpoint do_check (fuel : nat) (root : Z) : RM Z :=
  match fuel with
  | O => nofuel
  | S fuel =>
    if root =? NIL then mret 0
    else
      nb0 ← check_child (do_check fuel) root false;
      nb1 ← check_child (do_check fuel) root true;
      if negb (nb0 =? nb1) then panic "black node number check error"
      else n ← rd root; mret (nb0 + (if is_black n then 1 else 0))
  end.
(** what it prints *)
Definition check : RM (list string) :=
  t ← get;
  do_check (fuel_of t) (tree_root t) ;;
  r ← rd (tree_root t);
  n ← rd NIL;
  mret ((if is_black r then [] else ["root is not black"%string]) ++
        (if negb (is_black n) || negb (ch0 n =? NIL) || negb (ch1 n =? NIL) then ["NIL corrupted"%string] else [])).
End Rbt.

Global Arguments fuel_of : simpl never.
