(* ===== verification/RbTree.v ===== *)
(** Red-black trees as mathematical objects: the abstract side of
    [include/lib/rbtree.h].  Nodes carry the address the code keeps them at, a
    context is the path from a node to the root, and the rebalancing of
    [insert] and [remove_bottom] is given on a context and the subtree in its
    hole.  The balance invariant and the in-order contents are preserved. *)
From S2P Require Import Prelude Rbt.
From stdpp Require Import sorting.

Create HintDb rbdb.

Inductive color : Type := Red | Black.

Inductive tree (K : Type) : Type :=
| Leaf
| T (c : color) (a : Z) (l : tree K) (k : K) (r : tree K).
Arguments Leaf {K}.
Arguments T {K} _ _ _ _ _.

(** One level of a context: the hole is child [d] of the node at [a]. *)
Record frame (K : Type) : Type := F {
  f_dir : bool; f_col : color; f_addr : Z; f_key : K; f_sib : tree K
}.
Arguments F {K} _ _ _ _ _.
Arguments f_dir {K} _.
Arguments f_col {K} _.
Arguments f_addr {K} _.
Arguments f_key {K} _.
Arguments f_sib {K} _.

Global Instance color_eq_dec : EqDecision color.
Proof. solve_decision. Defined.

Section Tree.
Context {K : Type}.
Implicit Types (t s x y : tree K) (ctx : list (frame K)).

(** [mk c a d x k y]: child [d] is [x], the other one is [y]. *)
Definition mk (c : color) (a : Z) (d : bool) x (k : K) y : tree K :=
  if d then T c a y k x else T c a x k y.
Definition child (d : bool) t : tree K :=
  match t with Leaf => Leaf | T _ _ l _ r => if d then r else l end.
Definition col t : color := match t with Leaf => Black | T c _ _ _ _ => c end.
Definition set_col (c : color) t : tree K :=
  match t with Leaf => Leaf | T _ a l k r => T c a l k r end.

Definition plug1 (f : frame K) t : tree K :=
  mk (f_col f) (f_addr f) (f_dir f) t (f_key f) (f_sib f).
Fixpoint plug ctx t : tree K :=
  match ctx with [] => t | f :: rest => plug rest (plug1 f t) end.

(** in-order nodes *)
Fixpoint items t : list (Z * K) :=
  match t with Leaf => [] | T _ a l k r => items l ++ (a, k) :: items r end.
Definition addrs t : list Z := (items t).*1.
Definition elems t : list K := (items t).*2.

(** nodes before and after the hole *)
Fixpoint litems ctx : list (Z * K) :=
  match ctx with
  | [] => []
  | F d _ a k s :: rest => litems rest ++ (if d then items s ++ [(a, k)] else [])
  end.
Fixpoint ritems ctx : list (Z * K) :=
  match ctx with
  | [] => []
  | F d _ a k s :: rest => (if d then [] else (a, k) :: items s) ++ ritems rest
  end.

(** Rotation of the subtree [t] towards [dir]. *)
Definition rot (dir : bool) t : tree K :=
  match t with
  | T c a _ k _ =>
    match child (negb dir) t with
    | T c' b _ k' _ as u =>
      mk c' b dir (mk c a (negb dir) (child dir u) k (child dir t)) k' (child (negb dir) u)
    | Leaf => t
    end
  | Leaf => t
  end.

(** Rebalancing after an insertion: [t] is the red node [cur]. *)
Fixpoint ins_fix ctx t : tree K :=
  match ctx with
  | [] => set_col Black t
  | F d Black a k s :: rest => plug ctx t
  | F d Red pa pk ps :: rest =>
    match rest with
    | [] => plug ctx t
    | F gd gc ga gk u :: rest' =>
      match col u with
      | Red => ins_fix rest' (mk Red ga gd (mk Black pa d t pk ps) gk (set_col Black u))
      | Black =>
        let p := mk Red pa d t pk ps in
        let p := if eqb d gd then p else rot gd p in
        plug rest' (rot (negb gd) (mk Red ga gd (set_col Black p) gk u))
      end
    end
  end.

Definition both_black t : bool :=
  bool_decide (col (child false t) = Black ∧ col (child true t) = Black).

(** [t] lacks one black node; its sibling [s] is black with a red child. *)
Definition rem_tail (d : bool) (c : color) (a : Z) (k : K) t s : tree K :=
  let s := match col (child (negb d) s) with
           | Black => rot (negb d)
               match s with
               | T _ sa _ sk _ =>
                 mk Red sa d (set_col Black (child d s)) sk (child (negb d) s)
               | Leaf => s
               end
           | Red => s
           end in
  rot d match s with
        | T _ sa _ sk _ =>
          mk Black a d t k (mk c sa d (child d s) sk (set_col Black (child (negb d) s)))
        | Leaf => mk Black a d t k s
        end.

(** Rebalancing after a deletion: [t] lacks one black node. *)
Fixpoint rem_fix ctx t : tree K :=
  match col t, ctx with
  | Red, _ => plug ctx (set_col Black t)
  | Black, [] => set_col Black t
  | Black, F d c a k s :: rest =>
    match s with
    | T Red sa _ sk _ =>
      let x := child d s in
      plug rest (mk Black sa d
        (if both_black x then mk Black a d t k (set_col Red x)
         else rem_tail d Red a k t x)
        sk (child (negb d) s))
    | _ =>
      if both_black s then rem_fix rest (mk c a d t k (set_col Red s))
      else plug rest (rem_tail d c a k t s)
    end
  end.

(** ** The balance invariant *)
Inductive rb : color → nat → tree K → Prop :=
| rb_leaf : rb Black 0 Leaf
| rb_red n a l k r : rb Black n l → rb Black n r → rb Red n (T Red a l k r)
| rb_black n a c1 c2 l k r :
    rb c1 n l → rb c2 n r → rb Black (S n) (T Black a l k r).
Definition rb_ok t : Prop := ∃ n, rb Black n t.

(** [rbc c n ctx]: a tree of colour [c] and height [n] fits the hole. *)
Inductive rbc : color → nat → list (frame K) → Prop :=
| rbc_nil n : rbc Black n []
| rbc_red d n a k s rest :
    rb Black n s → rbc Red n rest → rbc Black n (F d Red a k s :: rest)
| rbc_black c c' d n a k s rest :
    rb c' n s → rbc Black (S n) rest → rbc c n (F d Black a k s :: rest).

(** ** Contents *)
Lemma items_mk c a d x k y :
  items (mk c a d x k y) =
    if d then items y ++ (a, k) :: items x else items x ++ (a, k) :: items y.
Proof. by destruct d. Qed.

Lemma items_set_col c t : items (set_col c t) = items t.
Proof. by destruct t. Qed.

Lemma items_plug ctx t : items (plug ctx t) = litems ctx ++ items t ++ ritems ctx.
Proof.
  revert t; induction ctx as [|[d c a k s] rest IH]; intros t; simpl.
  - by rewrite app_nil_r.
  - rewrite IH. unfold plug1. rewrite items_mk. simpl.
    destruct d; by rewrite <- ?app_assoc.
Qed.

Lemma items_rot dir t : items (rot dir t) = items t.
Proof.
  destruct t as [|c a l k r]; [done|].
  destruct dir; simpl; [destruct l | destruct r]; simpl; by rewrite <- ?app_assoc.
Qed.

Lemma items_rem_tail d c a k t s : items (rem_tail d c a k t s) = items (mk c a d t k s).
Proof.
  assert (Hs : ∀ s', items match s' with
        | T _ sa _ sk _ =>
          mk Black a d t k (mk c sa d (child d s') sk (set_col Black (child (negb d) s')))
        | Leaf => mk Black a d t k s'
        end = items (mk c a d t k s')).
  { intros [|c' sa l sk r]; rewrite !items_mk; [done|].
    destruct d; simpl; by rewrite items_set_col. }
  unfold rem_tail. rewrite items_rot, Hs, !items_mk.
  assert (items (match col (child (negb d) s) with
           | Black => rot (negb d)
               match s with
               | T _ sa _ sk _ =>
                 mk Red sa d (set_col Black (child d s)) sk (child (negb d) s)
               | Leaf => s
               end
           | Red => s
           end) = items s) as ->; [|done].
  destruct (col (child (negb d) s)); [done|].
  rewrite items_rot. destruct s as [|c' sa l sk r]; [done|].
  rewrite items_mk. destruct d; simpl; by rewrite items_set_col.
Qed.

Lemma items_ins_fix ctx t : items (ins_fix ctx t) = items (plug ctx t).
Proof.
  revert t; induction ctx as [ctx IH] using (induction_ltof1 _ length); intros t.
  destruct ctx as [|[d [] a k s] [|[gd gc ga gk u] rest]]; try done; simpl.
  { by rewrite items_set_col. }
  destruct (col u).
  - rewrite IH by (unfold ltof; simpl; lia). rewrite !items_plug. unfold plug1; simpl.
    by rewrite !items_mk, !items_set_col.
  - rewrite !items_plug, items_rot. unfold plug1; simpl.
    rewrite !items_mk, !items_set_col.
    destruct (eqb d gd); by rewrite ?items_rot, !items_mk.
Qed.

Lemma items_rem_fix ctx t : items (rem_fix ctx t) = items (plug ctx t).
Proof.
  revert t; induction ctx as [|[d c a k s] rest IH]; intros t; simpl.
  { destruct (col t); simpl; by rewrite items_set_col. }
  destruct (col t).
  { rewrite !items_plug. unfold plug1; simpl. by rewrite !items_mk, !items_set_col. }
  destruct s as [|[] sa l sk r]; simpl.
  - rewrite IH, !items_plug. unfold plug1; simpl. by rewrite !items_mk.
  - rewrite !items_plug. unfold plug1; simpl. do 2 f_equal.
    rewrite !items_mk.
    assert (items (if both_black (if d then r else l)
        then mk Black a d t k (set_col Red (if d then r else l))
        else rem_tail d Red a k t (if d then r else l)) =
        items (mk c a d t k (if d then r else l))) as ->.
    { case_match; rewrite ?items_rem_tail, !items_mk, ?items_set_col; done. }
    rewrite items_mk. destruct d; simpl; rewrite <- ?app_assoc; simpl; by rewrite <- ?app_assoc.
  - case_match.
    + rewrite IH, !items_plug. unfold plug1; simpl. by rewrite !items_mk.
    + rewrite !items_plug, items_rem_tail. done.
Qed.

(** ** Balance *)
#[local] Hint Constructors rb rbc : rbdb.

Lemma rb_col c n t : rb c n t → col t = c.
Proof. by destruct 1. Qed.

Lemma rb_height c1 c2 n1 n2 t : rb c1 n1 t → rb c2 n2 t → n1 = n2.
Proof.
  intros H1; revert c2 n2; induction H1; intros c3 n3 H3; inversion H3; subst;
    naive_solver.
Qed.

Lemma rb_mk_red n a d k x y : rb Black n x → rb Black n y → rb Red n (mk Red a d x k y).
Proof. destruct d; simpl; eauto with rbdb. Qed.

Lemma rb_mk_black n a d k c1 c2 x y :
  rb c1 n x → rb c2 n y → rb Black (S n) (mk Black a d x k y).
Proof. destruct d; simpl; eauto with rbdb. Qed.

Lemma rb_set_black n t : rb Red n t → rb Black (S n) (set_col Black t).
Proof. inversion 1; simpl; eauto with rbdb. Qed.

Lemma rb_child_red n t d : rb Red n t → rb Black n (child d t).
Proof. inversion 1; subst; by destruct d. Qed.

Lemma rb_child_black n t d : rb Black (S n) t → ∃ c, rb c n (child d t).
Proof. inversion 1; subst; destruct d; eauto. Qed.

Lemma rbc_weaken n ctx : rbc Red n ctx → rbc Black n ctx.
Proof. inversion 1; subst; eauto with rbdb. Qed.

Lemma plug_rb ctx c n t : rb c n t → rbc c n ctx → rb_ok (plug ctx t).
Proof.
  revert c n t; induction ctx as [|f rest IH]; intros c n t Ht Hc; inversion Hc; subst.
  - by exists n.
  - simpl. unfold plug1; simpl. eauto using rb_mk_red.
  - simpl. unfold plug1; simpl. eauto using rb_mk_black.
Qed.

(** [insert]'s rebalancing restores the invariant. *)
Lemma ins_fix_rb ctx n t : rb Red n t → rbc Black n ctx → rb_ok (ins_fix ctx t).
Proof.
  revert n t; induction ctx as [ctx IH] using (induction_ltof1 _ length); intros n t Ht Hc.
  destruct ctx as [|[d [] a k s] rest].
  - simpl. eexists. by apply rb_set_black.
  - inversion Hc as [|? ? ? ? ? ? Hs Hr|]; subst.
    inversion Hr as [| |? c' gd ? ga gk u rest' Hu Hr']; subst. simpl.
    destruct (col u) eqn:Ecu; rewrite (rb_col _ _ _ Hu) in Ecu; subst.
    + eapply (IH rest'); [unfold ltof; simpl; lia| |exact Hr'].
      apply rb_mk_red; [|by apply rb_set_black].
      by eapply rb_mk_black.
    + eapply plug_rb, Hr'. inversion Ht; subst.
      destruct d, gd; simpl; eauto 6 with rbdb.
  - simpl. inversion Hc as [| |? ? ? ? ? ? ? ? Hs Hr]; subst.
    eapply plug_rb, Hr. by eapply rb_mk_black.
Qed.

Lemma rem_tail_rb d c a k n t s :
  rb Black n t → rb Black (S n) s → both_black s = false →
  rb c (match c with Red => S n | Black => S (S n) end) (rem_tail d c a k t s).
Proof.
  intros Ht Hs Hb. inversion Hs as [| |? ? c1 c2 l sk r Hl Hr]; subst.
  unfold both_black in Hb. simpl in Hb.
  rewrite (rb_col _ _ _ Hl), (rb_col _ _ _ Hr) in Hb.
  apply bool_decide_eq_false in Hb.
  destruct d; unfold rem_tail; simpl;
    rewrite ?(rb_col _ _ _ Hl), ?(rb_col _ _ _ Hr);
    destruct c1, c2; try (destruct Hb; done);
    inversion Hl; inversion Hr; subst; simpl;
    destruct c; eauto 8 with rbdb.
Qed.

Lemma redden_rb n s :
  rb Black (S n) s → both_black s = true → rb Red n (set_col Red s).
Proof.
  inversion 1 as [| |? ? c1 c2 l k r Hl Hr]; subst. unfold both_black; simpl.
  rewrite (rb_col _ _ _ Hl), (rb_col _ _ _ Hr), bool_decide_eq_true.
  intros [-> ->]. eauto with rbdb.
Qed.

(** What [rem_fix] expects of a subtree of which one black node is missing. *)
Definition deficit n t : Prop :=
  match col t with Red => rb Black (S n) (set_col Black t) | Black => rb Black n t end.

Lemma deficit_mk c d n a k t s :
  rb Black n t → rb Red n s → deficit (match c with Red => n | Black => S n end) (mk c a d t k s).
Proof. intros. unfold deficit. destruct d, c; simpl; eauto with rbdb. Qed.

(** [remove_bottom]'s rebalancing restores the invariant. *)
Lemma rem_fix_rb ctx n t :
  deficit n t → rbc Black (S n) ctx ∨ ctx = [] → rb_ok (rem_fix ctx t).
Proof.
  revert n t; induction ctx as [|[d c a k s] rest IH]; intros n t Ht Hc;
    pose proof Ht as Ht'; unfold deficit in Ht'; simpl; destruct (col t) eqn:Et.
  - by eexists.
  - exists n. destruct t; [done|]. simpl in Et. by subst.
  - destruct Hc as [Hc|?]; [|done].
    by eapply (plug_rb (F d c a k s :: rest)).
  - destruct Hc as [Hc|?]; [|done].
    inversion Hc as [|? ? ? ? ? ? Hs Hr|? c' ? ? ? ? ? ? Hs Hr]; subst.
    + pose proof Hs as Hs'. inversion Hs' as [| |? ? c1 c2 l sk r Hl Hrr]; subst.
      destruct (both_black (T Black a0 l sk r)) eqn:Hb.
      * eapply IH; [|left; by apply rbc_weaken].
        by apply (deficit_mk Red), redden_rb.
      * eapply plug_rb, Hr. by apply (rem_tail_rb d Red a k n).
    + pose proof Hs as Hs'. inversion Hs' as [|? ? l sk r Hl Hrr|? ? c1 c2 l sk r Hl Hrr]; subst.
      * eapply plug_rb, Hr.
        pose proof (rb_child_red _ _ d Hs) as Hx.
        pose proof (rb_child_red _ _ (negb d) Hs) as Hy.
        set (x := child d _) in *. set (y := child (negb d) _) in *.
        destruct (both_black x) eqn:Hb; eapply rb_mk_black, Hy.
        -- eapply rb_mk_black; [done|]. by apply redden_rb.
        -- by apply (rem_tail_rb d Red a k n).
      * destruct (both_black (T Black a0 l sk r)) eqn:Hb.
        -- eapply IH; [|by left]. by apply (deficit_mk Black), redden_rb.
        -- eapply plug_rb, Hr. by apply (rem_tail_rb d Black a k n).
Qed.

Lemma plug_rb_inv ctx t : rb_ok (plug ctx t) → ∃ c n, rb c n t ∧ rbc c n ctx.
Proof.
  revert t; induction ctx as [|[d c a k s] rest IH]; intros t Ht.
  - destruct Ht as [n Ht]. exists Black, n. eauto with rbdb.
  - apply IH in Ht as (c' & n & Ht & Hr). unfold plug1 in Ht; simpl in Ht.
    destruct d; inversion Ht; subst; eauto 6 with rbdb.
Qed.

(** the number of nodes on a longest path *)
Fixpoint height t : nat :=
  match t with Leaf => 0 | T _ _ l _ r => S (Nat.max (height l) (height r)) end.

Lemma height_items t : (height t ≤ length (items t))%nat.
Proof. induction t; simpl; [done|]. rewrite length_app; simpl. lia. Qed.

Lemma length_ctx ctx : (length ctx ≤ length (litems ctx ++ ritems ctx))%nat.
Proof.
  induction ctx as [|[d c a k s] rest IH]; simpl; [done|]. rewrite !length_app in *.
  destruct d; simpl; rewrite ?length_app; simpl; lia.
Qed.
Lemma rb_size c n t : rb c n t → (2 ^ n ≤ S (length (items t)))%nat.
Proof.
  induction 1; simpl; rewrite ?length_app; simpl; lia.
Qed.

Lemma rb_height_le c n t :
  rb c n t → (height t ≤ 2 * n + match c with Red => 1 | Black => 0 end)%nat.
Proof. induction 1; simpl; [lia|lia|]. destruct c1, c2; lia. Qed.

(** Every path of a tree of [m] nodes has at most [2 log2 (m + 1)] nodes. *)
Lemma rb_ok_height t : rb_ok t → (height t ≤ 2 * Nat.log2 (S (length (items t))))%nat.
Proof.
  intros [n Hn]. pose proof (rb_height_le _ _ _ Hn) as Hh. simpl in Hh.
  pose proof (rb_size _ _ _ Hn) as Hs.
  apply Nat.log2_le_mono in Hs. rewrite Nat.log2_pow2 in Hs by lia. lia.
Qed.
End Tree.

(** * Search trees over the order of the keys *)

(** [operator <] is a strict weak order. *)
Class KeyLtLaws (K : Type) `{!KeyLt K} : Prop := {
  key_lt_asym a b : key_lt a b = true → key_lt b a = false;
  key_ge_trans a b c : key_lt a b = false → key_lt b c = false → key_lt a c = false
}.
(** and [operator <=] is its weak counterpart. *)
Class KeyLeLaws (K : Type) `{!KeyLt K} `{!KeyLe K} : Prop := {
  key_le_lt a b : key_le a b = negb (key_lt b a)
}.

Section Search.
Context {K : Type} `{!KeyLt K} `{!KeyLtLaws K}.
Implicit Types (t : tree K) (ctx : list (frame K)) (v k : K).

Definition key_leq k v : Prop := key_lt v k = false.
Definition sorted (l : list (Z * K)) : Prop := StronglySorted key_leq l.*2.

(** the path [insert] follows *)
Fixpoint ins_path v ctx t : list (frame K) :=
  match t with
  | Leaf => ctx
  | T c a l k r =>
    if key_lt k v then ins_path v (F true c a k l :: ctx) r
    else ins_path v (F false c a k r :: ctx) l
  end.

Definition insert_tree v (a : Z) t : tree K :=
  match t with
  | Leaf => T Black a Leaf v Leaf
  | _ => ins_fix (ins_path v [] t) (T Red a Leaf v Leaf)
  end.

Lemma plug_ins_path v ctx t : plug (ins_path v ctx t) Leaf = plug ctx t.
Proof.
  revert ctx; induction t as [|c a l IHl k r IHr]; intros ctx; simpl; [done|].
  destruct (key_lt k v); [by rewrite IHr|by rewrite IHl].
Qed.

Lemma length_ins_path v ctx t : (length (ins_path v ctx t) ≤ length ctx + height t)%nat.
Proof.
  revert ctx; induction t as [|c a l IHl k r IHr]; intros ctx; simpl; [lia|].
  destruct (key_lt k v); [rewrite IHr|rewrite IHl]; simpl; lia.
Qed.

Definition head_dir v ctx : Prop :=
  match ctx with [] => True | f :: _ => f_dir f = key_lt (f_key f) v end.
Lemma ins_path_head v ctx t : head_dir v ctx → head_dir v (ins_path v ctx t).
Proof.
  revert ctx; induction t as [|c a l IHl k r IHr]; intros ctx Hc; simpl; [done|].
  destruct (key_lt k v) eqn:Hk; [apply IHr|apply IHl]; simpl; congruence.
Qed.

Lemma ins_path_cons v t : t ≠ Leaf → ins_path v [] t ≠ [].
Proof.
  assert (∀ ctx, ctx ≠ [] → ins_path v ctx t ≠ []) as H.
  { induction t as [|c a l IHl k r IHr]; intros ctx Hc; simpl; [done|].
    destruct (key_lt k v); eauto. }
  destruct t as [|c a l k r]; [done|]. intros _. clear H. simpl.
  assert (∀ (x : tree K) ctx, ctx ≠ [] → ins_path v ctx x ≠ []) as H.
  { induction x as [|? ? ? IHl ? ? IHr]; intros ctx Hc; simpl; [done|].
    case_match; eauto. }
  case_match; by apply H.
Qed.

Definition below v (l : list (Z * K)) : Prop := Forall (λ p, key_lt p.2 v = true) l.
Definition above v (l : list (Z * K)) : Prop := Forall (λ p, key_lt p.2 v = false) l.

Lemma key_lt_le_trans k v w : key_leq w k → key_lt k v = true → key_lt w v = true.
Proof.
  unfold key_leq. intros Hw Hk. destruct (key_lt w v) eqn:E; [done|].
  by rewrite (key_ge_trans k w v Hw E) in Hk.
Qed.

Lemma sorted_app l1 l2 :
  sorted (l1 ++ l2) ↔
  sorted l1 ∧ sorted l2 ∧ ∀ p q, p ∈ l1 → q ∈ l2 → key_leq p.2 q.2.
Proof.
  unfold sorted. rewrite fmap_app.
  induction l1 as [|p l1 IH]; simpl.
  - split; [|naive_solver]. intros H. split_and!; [constructor|done|].
    intros p q Hp. by apply elem_of_nil in Hp.
  - split.
    + intros H. inversion H as [|? ? Hs Hf]; subst. apply IH in Hs as (H1 & H2 & H3).
      rewrite Forall_app in Hf. destruct Hf as [Hf1 Hf2]. split_and!; [by constructor|done|].
      intros q1 q2 Hq1 Hq2. apply elem_of_cons in Hq1 as [->|Hq1]; [|eauto].
      rewrite Forall_forall in Hf2. apply Hf2. apply list_elem_of_fmap. eauto.
    + intros (H1 & H2 & H3). inversion H1 as [|? ? Hs Hf]; subst.
      constructor.
      * apply IH. split_and!; [done..|]. intros; apply H3; [|done]. by apply elem_of_cons; right.
      * apply Forall_app; split; [done|]. apply Forall_forall. intros x Hx.
        apply list_elem_of_fmap in Hx as (q & -> & Hq). apply H3; [|done].
        by apply elem_of_cons; left.
Qed.

Lemma sorted_T c a l k r :
  sorted (items (T c a l k r)) →
  sorted (items l) ∧ sorted (items r) ∧
  (∀ p, p ∈ items l → key_leq p.2 k) ∧ (∀ p, p ∈ items r → key_leq k p.2).
Proof.
  simpl. intros (Hl & Hr & Hlr)%sorted_app.
  apply (sorted_app [(a, k)]) in Hr as (_ & Hr & Hkr). split_and!; [done|done| |].
  - intros p Hp. apply (Hlr p (a, k) Hp). set_solver.
  - intros p Hp. apply (Hkr (a, k) p); set_solver.
Qed.

Lemma ins_path_below v ctx t :
  sorted (items t) → below v (litems ctx) → below v (litems (ins_path v ctx t)).
Proof.
  revert ctx; induction t as [|c a l IHl k r IHr]; intros ctx Hs Hb; simpl; [done|].
  apply sorted_T in Hs as (Hl & Hr & Hlk & _).
  destruct (key_lt k v) eqn:Hk; [apply IHr|apply IHl]; try done; simpl;
    unfold below in *; rewrite ?app_nil_r; [|done].
  rewrite !Forall_app. split_and!; [done| |by constructor].
  apply Forall_forall. intros p Hp. by eapply key_lt_le_trans, Hk; apply Hlk.
Qed.

Lemma ins_path_above v ctx t :
  sorted (items t) → above v (ritems ctx) → above v (ritems (ins_path v ctx t)).
Proof.
  revert ctx; induction t as [|c a l IHl k r IHr]; intros ctx Hs Hb; simpl; [done|].
  apply sorted_T in Hs as (Hl & Hr & _ & Hkr).
  destruct (key_lt k v) eqn:Hk; [apply IHr|apply IHl]; try done; simpl;
    unfold above in *.
  constructor; [done|]. apply Forall_app; split; [|done].
  apply Forall_forall. intros p Hp. by eapply key_ge_trans, Hk; apply Hkr.
Qed.

(** [insert] puts the key after all smaller ones and before all others. *)
Lemma items_insert_tree v a t :
  sorted (items t) →
  ∃ l r, items t = l ++ r ∧ items (insert_tree v a t) = l ++ (a, v) :: r ∧
         below v l ∧ above v r.
Proof.
  intros Hs. destruct t as [|c b l k r].
  - exists [], []. split_and!; [done|done|constructor|constructor].
  - set (t := T c b l k r) in *.
    exists (litems (ins_path v [] t)), (ritems (ins_path v [] t)). split_and!.
    + pose proof (items_plug (ins_path v [] t) Leaf) as H.
      by rewrite plug_ins_path in H.
    + change (insert_tree v a t) with (ins_fix (ins_path v [] t) (T Red a Leaf v Leaf)).
      by rewrite items_ins_fix, items_plug.
    + apply ins_path_below; [done|constructor].
    + apply ins_path_above; [done|constructor].
Qed.

Lemma insert_tree_rb v a t : rb_ok t → rb_ok (insert_tree v a t).
Proof.
  intros Hrb. destruct t as [|c b l k r].
  { exists 1%nat. eapply rb_black; constructor. }
  change (insert_tree v a (T c b l k r)) with
    (ins_fix (ins_path v [] (T c b l k r)) (T Red a Leaf v Leaf)).
  assert (rb_ok (plug (ins_path v [] (T c b l k r)) Leaf)) as H by (by rewrite plug_ins_path).
  apply plug_rb_inv in H as (c' & n & Hl & Hc). inversion Hl; subst.
  eapply ins_fix_rb; [|done]. repeat constructor.
Qed.

Lemma sorted_insert v a l r :
  sorted (l ++ r) → below v l → above v r → sorted (l ++ (a, v) :: r).
Proof.
  intros (Hl & Hr & Hlr)%sorted_app Hb Ha.
  unfold below, above in *. rewrite Forall_forall in Hb, Ha.
  assert (∀ p, p ∈ l → key_leq p.2 v) as Hlv.
  { intros p Hp. by apply key_lt_asym, Hb. }
  apply sorted_app. split_and!; [done| |].
  - apply (sorted_app [(a, v)]). split_and!; [apply StronglySorted_cons; split; constructor|done|].
    intros p q Hp Hq. apply list_elem_of_singleton in Hp as ->. by apply Ha.
  - intros p q Hp Hq. apply elem_of_cons in Hq as [->|Hq]; [by apply Hlv|eauto].
Qed.

(** ** Lookups *)
(** the address of the first node whose key is not below [v], or [pos] *)
Fixpoint first_ge v t (pos : Z) : Z :=
  match t with
  | Leaf => pos
  | T _ a l k r => if key_lt k v then first_ge v r pos else first_ge v l a
  end.
(** the address of the last node whose key is not above [v], or [pos] *)
Fixpoint last_le v t (pos : Z) : Z :=
  match t with
  | Leaf => pos
  | T _ a l k r => if negb (key_lt v k) then last_le v r a else last_le v l pos
  end.

Definition ge_spec v (l : list (Z * K)) (none a : Z) : Prop :=
  (a = none ∧ below v l) ∨
  ∃ l1 k l2, l = l1 ++ (a, k) :: l2 ∧ below v l1 ∧ key_lt k v = false.
Definition beyond v (l : list (Z * K)) : Prop := Forall (λ p, key_lt v p.2 = true) l.
Definition le_spec v (l : list (Z * K)) (none a : Z) : Prop :=
  (a = none ∧ beyond v l) ∨
  ∃ l1 k l2, l = l1 ++ (a, k) :: l2 ∧ key_lt v k = false ∧ beyond v l2.

Lemma first_ge_spec v t pos : sorted (items t) → ge_spec v (items t) pos (first_ge v t pos).
Proof.
  revert pos; induction t as [|c a l IHl k r IHr]; intros pos Hs.
  { left. split; [done|constructor]. }
  apply sorted_T in Hs as (Hl & Hr & Hlk & Hkr). simpl. destruct (key_lt k v) eqn:Hk.
  - assert (below v (items l ++ [(a, k)])) as Hb.
    { apply Forall_app. split; [|by constructor]. apply Forall_forall. intros p Hp.
      by eapply key_lt_le_trans, Hk; apply Hlk. }
    destruct (IHr pos Hr) as [[-> H]|(l1 & k' & l2 & -> & H & Hk')].
    + left. split; [done|]. change (below v (items l ++ [(a, k)] ++ items r)).
      rewrite (assoc_L (++)). by apply Forall_app.
    + right. exists (items l ++ (a, k) :: l1), k', l2. split_and!; [|  |done].
      * rewrite <- (assoc_L (++)). f_equal.
      * change (below v (items l ++ [(a, k)] ++ l1)). rewrite (assoc_L (++)).
        by apply Forall_app.
  - right. destruct (IHl a Hl) as [[-> H]|(l1 & k' & l2 & -> & H & Hk')].
    + by exists (items l), k, (items r).
    + exists l1, k', (l2 ++ (a, k) :: items r). split_and!; [|done|done].
      by rewrite <- (assoc_L (++)).
Qed.

Lemma last_le_spec v t pos : sorted (items t) → le_spec v (items t) pos (last_le v t pos).
Proof.
  revert pos; induction t as [|c a l IHl k r IHr]; intros pos Hs.
  { left. split; [done|constructor]. }
  apply sorted_T in Hs as (Hl & Hr & Hlk & Hkr). simpl. destruct (key_lt v k) eqn:Hk; simpl.
  - assert (beyond v ((a, k) :: items r)) as Hb.
    { constructor; [done|]. apply Forall_forall. intros p Hp.
      destruct (key_lt v p.2) eqn:E; [done|].
      pose proof (key_ge_trans _ _ _ E (Hkr _ Hp)). congruence. }
    destruct (IHl pos Hl) as [[-> H]|(l1 & k' & l2 & -> & Hk' & H)].
    + left. split; [done|]. by apply Forall_app.
    + right. exists l1, k', (l2 ++ (a, k) :: items r). split_and!; [|done|by apply Forall_app].
      by rewrite <- (assoc_L (++)).
  - right. destruct (IHr a Hr) as [[-> H]|(l1 & k' & l2 & -> & Hk' & H)].
    + by exists (items l), k, (items r).
    + exists (items l ++ (a, k) :: l1), k', l2. split_and!; [|done|done].
      by rewrite <- (assoc_L (++)).
Qed.
End Search.

(** * Removal of a node with at most one child *)
Section Splice.
Context {K : Type}.
Implicit Types (t : tree K) (ctx : list (frame K)).

(** the child that takes the node's place *)
Definition only_child (l r : tree K) : tree K := match l with Leaf => r | _ => l end.
Definition splice ctx (c : color) t : tree K :=
  match c with Red => plug ctx t | Black => rem_fix ctx t end.

Lemma items_splice ctx c t : items (splice ctx c t) = litems ctx ++ items t ++ ritems ctx.
Proof. destruct c; simpl; by rewrite ?items_rem_fix, items_plug. Qed.

Lemma splice_rb ctx c a l k r :
  rb_ok (plug ctx (T c a l k r)) → rb_ok (splice ctx c (only_child l r)).
Proof.
  intros (c' & n & Ht & Hc)%plug_rb_inv.
  inversion Ht as [|? ? ? ? ? Hl Hr|? ? c1 c2 ? ? ? Hl Hr]; subst; simpl.
  - apply rbc_weaken in Hc. destruct l; by eapply plug_rb.
  - assert (∃ c3, rb c3 n0 (only_child l r)) as (c3 & H) by (destruct l; eauto).
    eapply rem_fix_rb; [|by left]. unfold deficit. rewrite (rb_col _ _ _ H).
    destruct c3; [by apply rb_set_black|done].
Qed.

Lemma plug_app ctx1 ctx2 t : plug (ctx1 ++ ctx2) t = plug ctx2 (plug ctx1 t).
Proof. revert t; induction ctx1 as [|f ctx1 IH]; intros t; simpl; auto. Qed.
Lemma litems_app ctx1 ctx2 : litems (ctx1 ++ ctx2) = litems ctx2 ++ litems ctx1.
Proof.
  induction ctx1 as [|[d c a k s] ctx1 IH]; simpl; [by rewrite app_nil_r|].
  by rewrite IH, (assoc_L (++)).
Qed.
Lemma ritems_app ctx1 ctx2 : ritems (ctx1 ++ ctx2) = ritems ctx1 ++ ritems ctx2.
Proof.
  induction ctx1 as [|[d c a k s] ctx1 IH]; simpl; [done|].
  by rewrite IH, (assoc_L (++)).
Qed.

(** every node of a tree is the focus of a context *)
Lemma focus_at t a k : (a, k) ∈ items t → ∃ ctx c l r, t = plug ctx (T c a l k r).
Proof.
  induction t as [|c b l IHl k' r IHr]; simpl; intros Hin; [by apply elem_of_nil in Hin|].
  apply elem_of_app in Hin as [Hin|Hin]; [|apply elem_of_cons in Hin as [[= -> ->]|Hin]].
  - destruct (IHl Hin) as (ctx & c' & l' & r' & ->).
    exists (ctx ++ [F false c b k' r]), c', l', r'. by rewrite plug_app.
  - by exists [], c, l, r.
  - destruct (IHr Hin) as (ctx & c' & l' & r' & ->).
    exists (ctx ++ [F true c b k' l]), c', l', r'. by rewrite plug_app.
Qed.
End Splice.
