(* ===== verification/RbtRep.v ===== *)
(** How a store of nodes represents a tree, and what each pointer operation of
    [include/lib/rbtree.h] does to the tree it represents. *)
From S2P Require Import Prelude Rbt RbTree.

(** Node addresses: even, non-null 32-bit values. *)
Definition valid_addr (a : Z) : Prop := 0 < a < 2 ^ 32 ∧ Z.even a = true.

Definition cbit (c : color) : Z := match c with Red => 0 | Black => 1 end.
(** the word [par_and_color] *)
Definition pac (par : Z) (c : color) : Z := par + cbit c.

(** The contract a tree expects of its allocator. *)
Class NodeAllocLaws (P : Type) `{NodeAlloc P} : Type := {
  pool_inv : P → Prop;
  pool_live : P → gset Z;
  pool_room : P → Prop;
  (** what the kernel stops with when there is none *)
  pool_full : string;
  (** what the caller of an allocation sees to *)
  pool_ready : P → Prop;
  (** which node it may be given *)
  pool_gives : P → Z → Prop;
  pool_region : Z → Prop;
  pool_region_valid a : pool_region a → valid_addr a;
  node_alloc_ok q :
    pool_inv q → pool_ready q →
    wp node_alloc (λ a q', pool_region a ∧ a ∉ pool_live q ∧
                           pool_live q' = ({[a]} ∪ pool_live q) ∧ pool_inv q' ∧
                           pool_gives q a)
      (λ msg, ¬ pool_room q ∧ msg = pool_full) q;
  node_free_ok q a :
    pool_inv q → a ∈ pool_live q →
    wp (node_free a) (λ _ q', pool_live q' = (pool_live q ∖ {[a]}) ∧ pool_inv q')
      (λ _, False) q
}.

(** The sentinel's address, outside the allocator's memory. *)
Class NilAddr {P : Type} `{!NodeAlloc P} `{!NodeAllocLaws P} (NIL : Z) : Prop := {
  NIL_valid : valid_addr NIL;
  NIL_out : ¬ pool_region NIL
}.

Section Word.
Lemma land_pac_1 p c : Z.even p = true → Z.land (pac p c) 1 = cbit c.
Proof.
  intros He. change 1 with (Z.ones 1) at 1. rewrite Z.land_ones by lia.
  apply Zeven_bool_iff, Zeven_ex in He as [q ->]. unfold pac.
  change (2 ^ 1) with 2. rewrite Z.add_comm, Z.mul_comm, Z.mod_add by lia. by destruct c.
Qed.

Lemma land_pac_mask p c : valid_addr p → Z.land (pac p c) 0xFFFFFFFE = p.
Proof.
  intros [Hr He]. apply Zeven_bool_iff, Zeven_ex in He as [q ->].
  change 0xFFFFFFFE with (2 * Z.ones 31).
  assert (∀ b : bool, Z.land (2 * q + Z.b2z b) (2 * Z.ones 31) = 2 * q) as Hb.
  { intros b. apply Z.bits_inj'. intros i Hi. rewrite Z.land_spec.
    destruct (Z.eq_dec i 0) as [->|Hi0].
    { by rewrite !Z.testbit_even_0, andb_false_r. }
    replace i with (Z.succ (Z.pred i)) by lia.
    rewrite !Z.testbit_even_succ by lia.
    assert (Z.testbit (2 * q + Z.b2z b) (Z.succ (Z.pred i)) = Z.testbit q (Z.pred i)) as ->.
    { destruct b; simpl Z.b2z; [by rewrite Z.testbit_odd_succ by lia|].
      by rewrite Z.add_0_r, Z.testbit_even_succ by lia. }
    rewrite Z.testbit_ones by lia.
    destruct (decide (Z.pred i < 31)).
    - rewrite (proj2 (Z.leb_le 0 (Z.pred i))), (proj2 (Z.ltb_lt (Z.pred i) 31)) by lia.
      by rewrite andb_true_r.
    - rewrite (Z.bits_above_log2 q); [done|lia|].
      apply Z.log2_lt_pow2; [lia|].
      eapply Z.lt_le_trans with (2 ^ 31); [lia|]. by apply Z.pow_le_mono_r; lia. }
  unfold pac. destruct c; [exact (Hb false) | exact (Hb true)].
Qed.

Lemma lor_cbit p c : Z.even p = true → Z.lor (cbit c) p = pac p c.
Proof.
  intros He. apply Zeven_bool_iff, Zeven_ex in He as [q ->]. unfold pac.
  rewrite Z.lor_comm. destruct c; simpl; [by rewrite Z.lor_0_r, Z.add_0_r|].
  apply Z.bits_inj'. intros i Hi. rewrite Z.lor_spec.
  destruct (Z.eq_dec i 0) as [->|Hi0].
  { by rewrite Z.testbit_even_0, Z.testbit_odd_0. }
  replace i with (Z.succ (Z.pred i)) by lia.
  rewrite Z.testbit_even_succ, Z.testbit_odd_succ by lia.
  rewrite (Z.bits_above_log2 1); [by rewrite orb_false_r|lia|]. simpl. lia.
Qed.

Lemma lor_pac_1 p c : Z.even p = true → Z.lor (pac p c) 1 = pac p Black.
Proof.
  intros He. rewrite <- !lor_cbit by done. rewrite (Z.lor_comm _ p), <- Z.lor_assoc.
  rewrite (Z.lor_comm (cbit Black)). by destruct c.
Qed.

(** the colour and parent written over what a fresh node holds *)
Lemma fresh_black w : Z.land (Z.lor w 1) 1 = 1.
Proof.
  apply Z.bits_inj'. intros i _. rewrite Z.land_spec, Z.lor_spec.
  destruct (Z.testbit w i), (Z.testbit 1 i); done.
Qed.
Lemma fresh_red w : Z.land (Z.land w 0xFFFFFFFE) 1 = 0.
Proof. by rewrite <- Z.land_assoc, Z.land_0_r. Qed.
End Word.

Section NodeWord.
Context {K : Type}.
Implicit Types (k : K) (c : color).

Lemma is_red_pac p c x y k : valid_addr p → is_red (Node (pac p c) x y k) = bool_decide (c = Red).
Proof. intros [_ He]. unfold is_red; simpl. rewrite land_pac_1 by done. by destruct c. Qed.
Lemma is_black_pac p c x y k :
  valid_addr p → is_black (Node (pac p c) x y k) = bool_decide (c = Black).
Proof. intros [_ He]. unfold is_black; simpl. rewrite land_pac_1 by done. by destruct c. Qed.
Lemma get_par_pac p c x y k : valid_addr p → get_par (Node (pac p c) x y k) = p.
Proof. apply land_pac_mask. Qed.
Lemma set_red_pac p c x y k :
  valid_addr p → set_red (Node (pac p c) x y k) = Node (pac p Red) x y k.
Proof.
  intros Hp. unfold set_red, with_pac; simpl. rewrite land_pac_mask by done.
  unfold pac; simpl. by rewrite Z.add_0_r.
Qed.
Lemma set_black_pac p c x y k :
  valid_addr p → set_black (Node (pac p c) x y k) = Node (pac p Black) x y k.
Proof. intros [_ He]. unfold set_black, with_pac; simpl. by rewrite lor_pac_1. Qed.
Lemma set_par_pac p p' c x y k :
  valid_addr p → valid_addr p' → set_par (Node (pac p c) x y k) p' = Node (pac p' c) x y k.
Proof.
  intros [_ He] [_ He']. unfold set_par, with_pac; simpl.
  by rewrite land_pac_1, lor_cbit.
Qed.
Lemma copy_par_pac p p' c c' x y k x' y' k' :
  valid_addr p → valid_addr p' →
  copy_par (Node (pac p c) x y k) (Node (pac p' c') x' y' k') = Node (pac p' c) x y k.
Proof.
  intros [_ He] Hp'. unfold copy_par, with_pac; simpl.
  rewrite land_pac_1, land_pac_mask by done. by rewrite lor_cbit by apply Hp'.
Qed.
Lemma copy_color_pac p p' c c' x y k x' y' k' :
  valid_addr p → valid_addr p' →
  copy_color (Node (pac p c) x y k) (Node (pac p' c') x' y' k') = Node (pac p c') x y k.
Proof.
  intros Hp [_ He']. unfold copy_color, with_pac; simpl.
  rewrite land_pac_1, land_pac_mask by done.
  rewrite Z.lor_comm. by rewrite lor_cbit by apply Hp.
Qed.
End NodeWord.

Section Rep.
Context {K P : Type} `{!KeyLt K} `{!NodeAlloc P} `{!NodeAllocLaws P}.
Context (NIL : Z).
Implicit Types (t x y z : tree K) (ctx : list (frame K)) (ns : gmap Z (node K)).

Definition addr t : Z := match t with Leaf => NIL | T _ a _ _ _ => a end.
Definition caddr ctx : Z := match ctx with [] => NIL | f :: _ => f_addr f end.
Fixpoint caddrs ctx : list Z :=
  match ctx with [] => [] | f :: rest => f_addr f :: addrs (f_sib f) ++ caddrs rest end.

Definition pnode (par : Z) (c : color) (d : bool) (p q : Z) (k : K) : node K :=
  if d then Node (pac par c) q p k else Node (pac par c) p q k.

(** the nodes of [t] are stored, the parent of its root being [par] *)
Fixpoint trep ns (par : Z) t : Prop :=
  match t with
  | Leaf => True
  | T c a l k r =>
    ns !! a = Some (Node (pac par c) (addr l) (addr r) k) ∧ trep ns a l ∧ trep ns a r
  end.
(** the nodes of [ctx] are stored, its hole holding the pointer [p] *)
Fixpoint crep ns ctx (p : Z) : Prop :=
  match ctx with
  | [] => True
  | F d c a k s :: rest =>
    ns !! a = Some (pnode (caddr rest) c d p (addr s) k) ∧ trep ns a s ∧ crep ns rest a
  end.

Record repr (s : rbt K P) t : Prop := {
  repr_tree : trep (nodes s) NIL t;
  repr_root : tree_root s = addr t;
  repr_nil : ∃ p k, nodes s !! NIL = Some (Node (pac p Black) NIL NIL k) ∧ valid_addr p;
  repr_nodup : NoDup (addrs t);
  repr_region a : a ∈ addrs t → pool_region a ∧ a ∈ pool_live (pool s);
  repr_pool : pool_inv (pool s)
}.

Lemma addrs_T c a l (k : K) r : addrs (T c a l k r) = addrs l ++ a :: addrs r.
Proof. unfold addrs. simpl. by rewrite fmap_app. Qed.

Lemma addrs_mk c a d x (k : K) y : addrs (mk c a d x k y) ≡ₚ a :: addrs x ++ addrs y.
Proof. destruct d; simpl mk; rewrite addrs_T; solve_Permutation. Qed.

Lemma addr_mk c a d x (k : K) y : addr (mk c a d x k y) = a.
Proof. by destruct d. Qed.

Lemma addrs_plug ctx t : addrs (plug ctx t) ≡ₚ addrs t ++ caddrs ctx.
Proof.
  revert t; induction ctx as [|[d c a k s] rest IH]; intros t; simpl.
  - by rewrite app_nil_r.
  - rewrite IH. unfold plug1; simpl. rewrite addrs_mk. solve_Permutation.
Qed.

Lemma trep_mk ns par c a d x k y :
  trep ns par (mk c a d x k y) ↔
  ns !! a = Some (pnode par c d (addr x) (addr y) k) ∧ trep ns a x ∧ trep ns a y.
Proof. destruct d; simpl; tauto. Qed.

Lemma trep_plug ns ctx t :
  trep ns NIL (plug ctx t) ↔ trep ns (caddr ctx) t ∧ crep ns ctx (addr t).
Proof.
  revert t; induction ctx as [|[d c a k s] rest IH]; intros t; simpl; [tauto|].
  rewrite IH. unfold plug1; simpl. rewrite trep_mk, addr_mk. tauto.
Qed.

(** frame rules: a write outside a tree does not change what it stores *)
Lemma trep_insert ns par t a n :
  a ∉ addrs t → trep ns par t → trep (<[a:=n]> ns) par t.
Proof.
  revert par; induction t as [|c b l IHl k r IHr]; intros par; [done|].
  rewrite addrs_T. simpl. intros Hn (Hb & Hl & Hr).
  rewrite lookup_insert_ne by set_solver.
  split_and!; [done|apply IHl; set_solver|apply IHr; set_solver].
Qed.
Lemma trep_delete ns par t a :
  a ∉ addrs t → trep ns par t → trep (delete a ns) par t.
Proof.
  revert par; induction t as [|c b l IHl k r IHr]; intros par; [done|].
  rewrite addrs_T. simpl. intros Hn (Hb & Hl & Hr).
  rewrite lookup_delete_ne by set_solver.
  split_and!; [done|apply IHl; set_solver|apply IHr; set_solver].
Qed.
Lemma crep_insert ns ctx p a n :
  a ∉ caddrs ctx → crep ns ctx p → crep (<[a:=n]> ns) ctx p.
Proof.
  revert p; induction ctx as [|[d c b k s] rest IH]; intros p; simpl; [done|].
  intros Hn (Hb & Hs & Hr). rewrite lookup_insert_ne by set_solver.
  split_and!; [done|apply trep_insert; set_solver|apply IH; set_solver].
Qed.
Lemma crep_delete ns ctx p a :
  a ∉ caddrs ctx → crep ns ctx p → crep (delete a ns) ctx p.
Proof.
  revert p; induction ctx as [|[d c b k s] rest IH]; intros p; simpl; [done|].
  intros Hn (Hb & Hs & Hr). rewrite lookup_delete_ne by set_solver.
  split_and!; [done|apply trep_delete; set_solver|apply IH; set_solver].
Qed.

(** the slot that holds the pointer to the subtree in the hole *)
Definition cslot ctx : slot :=
  match ctx with [] => RootSlot | f :: _ => ChSlot (f_addr f) (f_dir f) end.

Lemma addr_plug_cons f ctx t t' : addr (plug (f :: ctx) t) = addr (plug (f :: ctx) t').
Proof.
  revert f t t'; induction ctx as [|g rest IH]; intros f t t'.
  - simpl. unfold plug1. by rewrite !addr_mk.
  - apply IH.
Qed.
Definition nil_ok ns : Prop :=
  ∃ p k, ns !! NIL = Some (Node (pac p Black) NIL NIL k) ∧ valid_addr p.

(** The same representation, seen from the hole of a context. *)
Record cview (s : rbt K P) ctx t : Prop := {
  cv_t : trep (nodes s) (caddr ctx) t;
  cv_c : crep (nodes s) ctx (addr t);
  cv_root : tree_root s = match ctx with [] => addr t | _ => addr (plug ctx Leaf) end;
  cv_nil : nil_ok (nodes s);
  cv_nodup : NoDup (addrs t ++ caddrs ctx);
  cv_region a : a ∈ addrs t ++ caddrs ctx → pool_region a ∧ a ∈ pool_live (pool s);
  cv_pool : pool_inv (pool s)
}.

Lemma repr_cview s ctx t : repr s (plug ctx t) ↔ cview s ctx t.
Proof.
  assert (Hroot : addr (plug ctx t) = match ctx with [] => addr t | _ => addr (plug ctx Leaf) end).
  { destruct ctx; [done|]. apply addr_plug_cons. }
  split; intros [].
  - apply trep_plug in repr_tree0 as [? ?].
    split; try done; [congruence|by rewrite <- addrs_plug|].
    intros a Ha. apply repr_region0. by rewrite addrs_plug.
  - split; try done; [by apply trep_plug|congruence|by rewrite addrs_plug|].
    intros a Ha. apply cv_region0. by rewrite <- addrs_plug.
Qed.

Lemma trep_frame ns ns' par t :
  (∀ p, p ∈ addrs t → ns' !! p = ns !! p) → trep ns par t → trep ns' par t.
Proof.
  revert par; induction t as [|c b l IHl k r IHr]; intros par; [done|].
  rewrite addrs_T. simpl. intros Hn (Hb & Hl & Hr).
  rewrite Hn by set_solver.
  split_and!; [done|apply IHl; set_solver|apply IHr; set_solver].
Qed.
Lemma crep_frame ns ns' ctx p :
  (∀ p, p ∈ caddrs ctx → ns' !! p = ns !! p) → crep ns ctx p → crep ns' ctx p.
Proof.
  revert p; induction ctx as [|[d c b k s] rest IH]; intros p; simpl; [done|].
  intros Hn (Hb & Hs & Hr). rewrite Hn by set_solver.
  split_and!; [done|eapply trep_frame; [|done]; set_solver|apply IH; set_solver].
Qed.
(** The effect of an operation on the represented tree; the allocator is left
    alone. *)
Definition becomes (q : P) ctx t : unit → rbt K P → Prop :=
  λ _ s', cview s' ctx t ∧ pool s' = q.

End Rep.
