(* ===== verification/RbtOps.v ===== *)
(** What each pointer operation of [include/lib/rbtree.h] does to the tree its
    store represents: reads, recolouring, rotation, slots. *)
From S2P Require Import Prelude Rbt RbTree RbtRep.

Section Ops.
Context {K P : Type} `{!KeyLt K} `{!NodeAlloc P} `{!NodeAllocLaws P}.
Context {NIL : Z} `{HNIL : !NilAddr NIL}.
Implicit Types (t x y z : tree K) (ctx : list (frame K)) (ns : gmap Z (node K)).
Implicit Types (s : rbt K P) (E : string → Prop).
Local Abbreviation repr := (repr NIL).
Local Abbreviation cview := (cview NIL).
Local Abbreviation becomes := (becomes NIL).
Local Abbreviation addr := (addr NIL).
Local Abbreviation caddr := (caddr NIL).
Local Abbreviation trep := (trep NIL).
Local Abbreviation crep := (crep NIL).
Local Abbreviation pnode := (@pnode K).

(** ** Rules for the primitive actions *)
Lemma wp_rd p n (Q : node K → rbt K P → Prop) E s :
  nodes s !! p = Some n → Q n s → wp (rd p) Q E s.
Proof. intros Hn HQ. unfold wp, rd. by rewrite Hn. Qed.

Lemma wp_upd p f n (Q : unit → rbt K P → Prop) E s :
  nodes s !! p = Some n →
  Q tt (MkRbt (<[p:=f n]> (nodes s)) (tree_root s) (pool s)) →
  wp (upd p f) Q E s.
Proof.
  intros Hn HQ. unfold upd. apply wp_bind, (wp_rd _ n); [done|].
  unfold wp, wr. by rewrite Hn.
Qed.

Lemma wp_rd_at p n ns root q (Q : node K → rbt K P → Prop) E :
  ns !! p = Some n → Q n (MkRbt ns root q) → wp (rd p) Q E (MkRbt ns root q).
Proof. apply (wp_rd _ _ _ _ (MkRbt ns root q)). Qed.

Lemma wp_upd_at p f n ns root q (Q : unit → rbt K P → Prop) E :
  ns !! p = Some n → Q tt (MkRbt (<[p:=f n]> ns) root q) →
  wp (upd p f) Q E (MkRbt ns root q).
Proof. apply (wp_upd _ _ _ _ _ (MkRbt ns root q)). Qed.

(** ** Addresses *)
Lemma cview_ne_NIL s ctx t a : cview s ctx t → a ∈ addrs t ++ caddrs ctx → a ≠ NIL.
Proof. intros Hv Ha ->. by apply (NIL_out (NIL:=NIL)), (cv_region _ _ _ _ Hv). Qed.

Lemma cview_valid s ctx t a :
  cview s ctx t → a ∈ addrs t ++ caddrs ctx → valid_addr a.
Proof. intros Hv Ha. by apply pool_region_valid, (cv_region _ _ _ _ Hv). Qed.

Lemma cview_caddr_valid s ctx t : cview s ctx t → valid_addr (caddr ctx).
Proof.
  intros Hv. destruct ctx as [|f ctx]; [apply NIL_valid|].
  apply (cview_valid _ _ _ _ Hv). set_solver.
Qed.

Lemma elem_of_root c a (l : tree K) k r : a ∈ addrs (T c a l k r).
Proof. rewrite addrs_T. set_solver. Qed.

(** ** Reading *)
Lemma cview_lookup s ctx c a l k r :
  cview s ctx (T c a l k r) →
  nodes s !! a = Some (Node (pac (caddr ctx) c) (addr l) (addr r) k).
Proof. intros Hv. by destruct (cv_t _ _ _ _ Hv). Qed.

Lemma cview_nil_lookup s ctx t : cview s ctx t → nil_ok NIL (nodes s).
Proof. apply cv_nil. Qed.

(** the node at a subtree's address, be it the sentinel *)
Lemma sub_lookup ns par t :
  nil_ok NIL ns → trep ns par t → valid_addr par →
  ∃ n, ns !! addr t = Some n ∧ is_red n = bool_decide (col t = Red) ∧
       is_black n = bool_decide (col t = Black).
Proof.
  intros (p & k & Hn & Hp) Ht Hpar. destruct t as [|c a l k' r]; simpl.
  - eexists. split; [done|]. by rewrite is_red_pac, is_black_pac.
  - destruct Ht as [Ha _]. eexists. split; [done|]. by rewrite is_red_pac, is_black_pac.
Qed.

(** ** Writing nodes in place *)
Lemma cview_update s ctx c a l k r c' k' ns :
  cview s ctx (T c a l k r) →
  ns = <[a:=Node (pac (caddr ctx) c') (addr l) (addr r) k']> (nodes s) →
  cview (MkRbt ns (tree_root s) (pool s)) ctx (T c' a l k' r).
Proof.
  intros Hv ->.
  assert (Hne : a ≠ NIL) by (eapply cview_ne_NIL; [done|]; rewrite addrs_T; set_solver).
  destruct Hv as [[Ha [Hl Hr]] Hc Hroot Hnil Hnd Hreg Hp]. rewrite addrs_T in *.
  split; simpl; try done; try rewrite addrs_T; try done; nd.
  - split_and!; [by lk| |]; (eapply trep_frame; [|done]; intros ? ?; by lk).
  - eapply crep_frame; [|done]; intros ? ?; by lk.
  - destruct Hnil as (p & kk & Hn & Hval). exists p, kk. by lk.
Qed.
Lemma wp_write s ctx c a l k r c' k' f E :
  cview s ctx (T c a l k r) →
  f (Node (pac (caddr ctx) c) (addr l) (addr r) k) =
    Node (pac (caddr ctx) c') (addr l) (addr r) k' →
  wp (upd a f) (becomes (pool s) ctx (T c' a l k' r)) E s.
Proof.
  intros Hv Hf. eapply wp_upd; [by eapply cview_lookup|]. rewrite Hf.
  split; [|done]. by eapply cview_update.
Qed.

Lemma wp_set_red s ctx c a l k r E :
  cview s ctx (T c a l k r) →
  wp (upd a set_red) (becomes (pool s) ctx (T Red a l k r)) E s.
Proof.
  intros Hv. eapply wp_write; [done|]. apply set_red_pac. by eapply cview_caddr_valid.
Qed.

(** [set_black] on the root of a subtree, or on the sentinel *)
Lemma wp_set_black s ctx t E :
  cview s ctx t → wp (upd (addr t) set_black) (becomes (pool s) ctx (set_col Black t)) E s.
Proof.
  intros Hv. destruct t as [|c a l k r].
  - destruct (cv_nil _ _ _ _ Hv) as (p & k & Hn & Hp).
    eapply wp_upd; [done|]. rewrite set_black_pac by done.
    rewrite insert_id by done. by destruct s.
  - eapply wp_write; [done|]. apply set_black_pac. by eapply cview_caddr_valid.
Qed.

Lemma wp_set_red_mk s ctx c a d x k y E :
  cview s ctx (mk c a d x k y) →
  wp (upd a set_red) (becomes (pool s) ctx (mk Red a d x k y)) E s.
Proof. destruct d; apply wp_set_red. Qed.

Lemma wp_set_black_mk s ctx c a d x k y E :
  cview s ctx (mk c a d x k y) →
  wp (upd a set_black) (becomes (pool s) ctx (mk Black a d x k y)) E s.
Proof.
  intros Hv. pose proof (wp_set_black s ctx _ E Hv) as Hw. by destruct d.
Qed.

(** sequencing: the rest runs where the first part has made its change *)
Lemma wp_then {A} (m : M (rbt K P) unit) (f : M (rbt K P) A) q ctx t s E Q :
  wp m (becomes q ctx t) E s →
  (∀ s', cview s' ctx t → pool s' = q → wp f Q E s') →
  wp (m ;; f) Q E s.
Proof. intros Hm Hf. eapply wp_bind, wp_mono; [done|]. intros [] s' []. eauto. Qed.

Lemma becomes_repr q ctx t s : becomes q ctx t tt s → becomes q [] (plug ctx t) tt s.
Proof.
  intros [Hv Hq]. split; [|done].
  apply (repr_cview NIL s [] (plug ctx t)). simpl. by apply repr_cview.
Qed.

(** ** Slots *)
Lemma wp_rd_slot s ctx t (Q : Z → rbt K P → Prop) E :
  cview s ctx t → Q (addr t) s → wp (rd_slot (cslot ctx)) Q E s.
Proof.
  intros Hv HQ. destruct ctx as [|[d c a k sb] rest]; simpl.
  - unfold wp, get_root. by rewrite (cv_root _ _ _ _ Hv).
  - destruct (cv_c _ _ _ _ Hv) as [Ha _].
    eapply wp_bind, wp_rd; [done|]. apply wp_ret. by destruct d.
Qed.

(** A context is stored around any hole once its slot is written. *)
Lemma wp_wr_slot ns root q ctx p p' (Q : unit → rbt K P → Prop) E :
  crep ns ctx p → NoDup (caddrs ctx) → (∀ a, a ∈ caddrs ctx → a ≠ NIL) →
  (∀ ns' root',
     crep ns' ctx p' →
     (∀ a, a ∉ caddrs ctx → ns' !! a = ns !! a) →
     root' = match ctx with [] => p' | _ => root end →
     Q tt (MkRbt ns' root' q)) →
  wp (wr_slot (cslot ctx) p') Q E (MkRbt ns root q).
Proof.
  intros Hc Hnd Hne HQ. destruct ctx as [|[d c a k sb] rest]; simpl in *.
  { by apply HQ. }
  destruct Hc as (Ha & Hs & Hr). eapply wp_upd; [done|]. apply HQ; [|intros b Hb|done].
  - nd. split_and!.
    + lk. by destruct d.
    + eapply trep_frame; [|done]; intros ? ?; by lk.
    + eapply crep_frame; [|done]; intros ? ?; by lk.
  - nd. simpl. by lk.
Qed.
(** ** Rotation *)
Lemma wp_set_par ns root q x b a (Q : unit → rbt K P → Prop) E :
  trep ns b x → nil_ok NIL ns → NoDup (addrs x) → valid_addr a → valid_addr b →
  (∀ p, p ∈ addrs x → p ≠ NIL) →
  (∀ ns', trep ns' a x → nil_ok NIL ns' →
          (∀ p, p ∉ addrs x → p ≠ NIL → ns' !! p = ns !! p) →
          Q tt (MkRbt ns' root q)) →
  wp (upd (addr x) (λ n, set_par n a)) Q E (MkRbt ns root q).
Proof.
  intros Hx Hnil Hnd Ha Hb Hne HQ. destruct x as [|c p l k r].
  - destruct Hnil as (p & k & Hn & Hp). eapply wp_upd; [done|].
    rewrite set_par_pac by done. apply HQ; [done| |].
    + exists a, k. by rewrite lookup_insert_eq.
    + intros b' _ Hb'. by rewrite lookup_insert_ne.
  - destruct Hx as (Hp & Hl & Hr). eapply wp_upd; [done|].
    rewrite set_par_pac by done. rewrite addrs_T in *.
    assert (p ≠ NIL) by (apply Hne; set_solver).
    apply HQ; nd.
    + split_and!; [by lk| |]; (eapply trep_frame; [|done]; intros ? ?; by lk).
    + destruct Hnil as (? & ? & ? & ?). eexists _, _. lk. done.
    + intros b' Hb' _. nd. by lk.
Qed.

Lemma get_ch_pnode par c d p q k : get_ch (pnode par c d p q k) d = p.
Proof. by destruct d. Qed.
Lemma get_ch_pnode_ne par c d p q k : get_ch (pnode par c (negb d) p q k) d = q.
Proof. by destruct d. Qed.
Lemma set_ch_pnode par c d p q k p' :
  set_ch (pnode par c d p q k) d p' = pnode par c d p' q k.
Proof. by destruct d. Qed.
Lemma set_par_pnode par par' c d p q k :
  valid_addr par → valid_addr par' →
  set_par (pnode par c d p q k) par' = pnode par' c d p q k.
Proof. destruct d; apply set_par_pac. Qed.
Lemma copy_par_pnode par par' c c' d d' p q k p' q' k' :
  valid_addr par → valid_addr par' →
  copy_par (pnode par c d p q k) (pnode par' c' d' p' q' k') = pnode par' c d p q k.
Proof. destruct d, d'; apply copy_par_pac. Qed.

Lemma wp_rotate s ctx dir ca a cb b x y z ka kb E :
  cview s ctx (mk ca a (negb dir) (mk cb b dir x kb z) ka y) →
  wp (rotate (cslot ctx) dir)
    (becomes (pool s) ctx (mk cb b dir (mk ca a (negb dir) x ka y) kb z)) E s.
Proof.
  intros Hv. unfold rotate. eapply wp_bind, wp_rd_slot; [done|]. rewrite addr_mk.
  pose proof (cview_caddr_valid _ _ _ Hv) as Hcv.
  assert (Hne := λ p, cview_ne_NIL _ _ _ p Hv).
  assert (Hva := λ p, cview_valid _ _ _ p Hv).
  destruct Hv as [Ht Hc Hroot Hnil Hnd Hreg Hp].
  set (L := addrs _ ++ caddrs ctx) in *.
  assert (HL : L ≡ₚ (a :: b :: addrs x ++ addrs z ++ addrs y) ++ caddrs ctx).
  { unfold L. rewrite !addrs_mk. solve_Permutation. }
  assert (HL' : L ≡ₚ addrs (mk cb b dir (mk ca a (negb dir) x ka y) kb z) ++ caddrs ctx).
  { rewrite HL, !addrs_mk. solve_Permutation. }
  clearbody L. setoid_rewrite HL in Hne. setoid_rewrite HL in Hva.
  assert (Hva' : valid_addr a) by (apply Hva; set_solver).
  assert (Hvb' : valid_addr b) by (apply Hva; set_solver).
  assert (Hna : a ≠ NIL) by (apply Hne; set_solver).
  assert (Hnb : b ≠ NIL) by (apply Hne; set_solver).
  assert (Hnx : ∀ p, p ∈ addrs x → p ≠ NIL) by (intros; apply Hne; set_solver).
  assert (Hny : ∀ p, p ∈ addrs y → p ≠ NIL) by (intros; apply Hne; set_solver).
  assert (Hnz : ∀ p, p ∈ addrs z → p ≠ NIL) by (intros; apply Hne; set_solver).
  assert (Hnc : ∀ p, p ∈ caddrs ctx → p ≠ NIL) by (intros; apply Hne; set_solver).
  clear Hne Hva. pose proof Hnd as Hnd'. rewrite HL in Hnd'.
  apply trep_mk in Ht as (Ha & Ht & Hy). apply trep_mk in Ht as (Hb & Hx & Hz).
  rewrite addr_mk in *. nd. destruct s as [ns root q]; simpl in *.
  eapply wp_bind, wp_rd_at; [done|]. rewrite get_ch_pnode.
  eapply wp_bind, wp_upd_at; [done|]. rewrite copy_par_pnode by done.
  eapply wp_bind, wp_rd_at; [by lk|]. rewrite get_ch_pnode.
  eapply wp_bind, wp_upd_at; [by lk|]. rewrite set_ch_pnode.
  apply wp_bind.
  eapply (wp_set_par _ _ _ _ b a); [| |done|done|done|done|].
  { eapply trep_frame; [|done]; intros ? ?; by lk. }
  { destruct Hnil as (? & ? & ? & ?). eexists _, _. by lk. }
  intros ns' Hx' Hnil' Hns'.
  eapply wp_bind, wp_upd_at; [rewrite Hns' by ne; by lk|].
  rewrite set_ch_pnode.
  eapply wp_bind, wp_upd_at; [lk; rewrite Hns' by ne; by lk|].
  rewrite set_par_pnode by done.
  eapply wp_wr_slot; [|done|done|].
  { eapply crep_frame; [|done]. intros p Hpc. assert (p ≠ NIL) by auto. lk.
    rewrite Hns' by ne. by lk. }
  intros ns2 root2 Hc2 Hns2 Hroot2. split; [|done]. split; simpl.
  - rewrite !trep_mk, !addr_mk.
    rewrite !Hns2 by ne. split_and!.
    + by lk.
    + by lk.
    + eapply trep_frame; [|done]. intros p Hpx. rewrite Hns2 by ne. by lk.
    + eapply trep_frame; [|exact Hy]. intros p Hpx. assert (p ≠ NIL) by auto.
      rewrite Hns2 by ne. lk. rewrite Hns' by ne. by lk.
    + eapply trep_frame; [|exact Hz]. intros p Hpx. assert (p ≠ NIL) by auto.
      rewrite Hns2 by ne. lk. rewrite Hns' by ne. by lk.
  - by rewrite addr_mk.
  - rewrite Hroot2. destruct ctx; [by rewrite addr_mk|done].
  - destruct Hnil' as (p & kk & Hn & Hval). exists p, kk. rewrite Hns2; [by lk|].
    intros Hin. by apply (Hnc NIL).
  - by rewrite <- HL'.
  - intros p. rewrite <- HL'. apply Hreg.
  - done.
Qed.
(** ** [get_ref] *)
Lemma addr_plug_in f ctx t : addr (plug (f :: ctx) t) ∈ caddrs (f :: ctx).
Proof.
  revert f t; induction ctx as [|g rest IH]; intros f t.
  - simpl. unfold plug1. rewrite addr_mk. set_solver.
  - specialize (IH g (plug1 f t)). simpl in *. set_solver.
Qed.

Lemma addr_in_or t : addr t = NIL ∨ addr t ∈ addrs t.
Proof. destruct t; [by left|right; simpl; apply elem_of_root]. Qed.

Lemma wp_get_ref s ctx c a l k r (Q : slot → rbt K P → Prop) E :
  cview s ctx (T c a l k r) → Q (cslot ctx) s → wp (get_ref a) Q E s.
Proof.
  intros Hv HQ. unfold get_ref. apply wp_bind. unfold wp at 1, get_root.
  rewrite (cv_root _ _ _ _ Hv).
  assert (Hna : a ≠ NIL) by (eapply cview_ne_NIL; [done|]; rewrite addrs_T; set_solver).
  pose proof (cv_nodup _ _ _ _ Hv) as Hnd. rewrite addrs_T in Hnd.
  destruct ctx as [|[d fc fa fk fs] rest].
  { simpl. by rewrite Z.eqb_refl. }
  destruct (Z.eqb_spec a (addr (plug (F d fc fa fk fs :: rest) Leaf))) as [Heq|_].
  { exfalso. pose proof (addr_plug_in (F d fc fa fk fs) rest Leaf) as Hin.
    rewrite <- Heq in Hin. apply NoDup_app in Hnd as (_ & Hnd & _).
    apply (Hnd a); set_solver. }
  simpl in Hnd. nd.
  eapply wp_bind, wp_rd; [by eapply cview_lookup|].
  assert (Hvf : valid_addr fa) by (by apply cview_caddr_valid in Hv).
  rewrite get_par_pac by done. simpl.
  destruct (cv_c _ _ _ _ Hv) as [Hfa _].
  eapply wp_bind, wp_rd; [done|]. apply wp_ret.
  replace (_ =? a) with d; [done|]. destruct d; simpl; symmetry.
  - apply Z.eqb_refl.
  - apply Z.eqb_neq. destruct (addr_in_or fs) as [->|Hin]; [done|].
    intros Heq. rewrite Heq in Hin. nd_absurd.
Qed.
(** ** Moving the focus *)
Lemma cview_up s f ctx t : cview s (f :: ctx) t ↔ cview s ctx (plug1 f t).
Proof. by rewrite <- !repr_cview. Qed.

Lemma mk_flip c a d x (k : K) y : mk c a d x k y = mk c a (negb d) y k x.
Proof. by destruct d. Qed.

(** from a subtree to its sibling *)
Lemma cview_side s d c a k y ctx x :
  cview s (F d c a k y :: ctx) x ↔ cview s (F (negb d) c a k x :: ctx) y.
Proof. rewrite !cview_up. unfold plug1; simpl. by rewrite mk_flip. Qed.

Lemma cview_parent_lookup s d c a k y ctx x :
  cview s (F d c a k y :: ctx) x →
  nodes s !! a = Some (pnode (caddr ctx) c d (addr x) (addr y) k).
Proof. intros Hv. by destruct (cv_c _ _ _ _ Hv). Qed.

Lemma cview_sub_lookup s ctx t :
  cview s ctx t →
  ∃ n, nodes s !! addr t = Some n ∧ is_red n = bool_decide (col t = Red) ∧
       is_black n = bool_decide (col t = Black).
Proof.
  intros Hv. eapply sub_lookup; [by eapply cv_nil|by eapply cv_t|by eapply cview_caddr_valid].
Qed.

(** siblings are stored at different addresses *)
Lemma cview_sib_ne s d c a k y ctx x :
  cview s (F d c a k y :: ctx) x → x ≠ Leaf → addr x ≠ addr y.
Proof.
  intros Hv Hx. pose proof (cv_nodup _ _ _ _ Hv) as Hnd. simpl in Hnd.
  destruct x as [|cx ax lx kx rx]; [done|]. simpl.
  destruct (addr_in_or y) as [->|Hin].
  - eapply cview_ne_NIL; [done|]. rewrite addrs_T. set_solver.
  - rewrite addrs_T in Hnd. nd. ne.
Qed.

Lemma cview_parent_ne s f ctx x : cview s (f :: ctx) x → f_addr f ≠ NIL.
Proof. intros Hv. eapply cview_ne_NIL; [done|]. simpl. set_solver. Qed.

Lemma wp_rot s ctx dir t E :
  cview s ctx t → child (negb dir) t ≠ Leaf →
  wp (rotate (cslot ctx) dir) (becomes (pool s) ctx (rot dir t)) E s.
Proof.
  intros Hv Hch. destruct t as [|c a l k r]; [done|].
  destruct dir; simpl in *; [destruct l as [|c' b x k' z]|destruct r as [|c' b x k' z]]; try done.
  - by apply (wp_rotate s ctx true c a c' b z r x k k').
  - by apply (wp_rotate s ctx false c a c' b x l z k k').
Qed.

Lemma ch0_pnode par c d p q k : ch0 (pnode par c d p q k) = if d then q else p.
Proof. by destruct d. Qed.
Lemma ch1_pnode par c d p q k : ch1 (pnode par c d p q k) = if d then p else q.
Proof. by destruct d. Qed.
Lemma get_ch_pnode_other par c d p q k : get_ch (pnode par c d p q k) (negb d) = q.
Proof. by destruct d. Qed.
Lemma is_red_pnode par c d p q k :
  valid_addr par → is_red (pnode par c d p q k) = bool_decide (c = Red).
Proof. destruct d; apply is_red_pac. Qed.
Lemma get_par_pnode par c d p q k : valid_addr par → get_par (pnode par c d p q k) = par.
Proof. destruct d; apply get_par_pac. Qed.

Lemma cview_sib_ne' s d c a k y ctx x :
  cview s (F d c a k y :: ctx) x → x ≠ Leaf ∨ y ≠ Leaf → addr x ≠ addr y.
Proof.
  intros Hv [?|?]; [by eapply cview_sib_ne|].
  apply cview_side in Hv. apply not_eq_sym. by eapply cview_sib_ne.
Qed.

(** the direction tests of the code: is [x] child 0 (or 1) of its parent? *)
Lemma dir_test0 s d c a k y ctx x n :
  cview s (F d c a k y :: ctx) x → x ≠ Leaf ∨ y ≠ Leaf → nodes s !! a = Some n →
  (addr x =? ch0 n) = negb d.
Proof.
  intros Hv Hor Hn. rewrite (cview_parent_lookup _ _ _ _ _ _ _ _ Hv) in Hn.
  injection Hn as <-. rewrite ch0_pnode. destruct d; [|apply Z.eqb_refl].
  apply Z.eqb_neq. by eapply cview_sib_ne'.
Qed.
Lemma dir_test1 s d c a k y ctx x n :
  cview s (F d c a k y :: ctx) x → x ≠ Leaf ∨ y ≠ Leaf → nodes s !! a = Some n →
  (addr x =? ch1 n) = d.
Proof.
  intros Hv Hor Hn. rewrite (cview_parent_lookup _ _ _ _ _ _ _ _ Hv) in Hn.
  injection Hn as <-. rewrite ch1_pnode. destruct d; [apply Z.eqb_refl|].
  apply Z.eqb_neq. by eapply cview_sib_ne'.
Qed.

(** ** Fuel: a path is shorter than the store is large *)
Lemma trep_in_dom ns par t a : trep ns par t → a ∈ addrs t → is_Some (ns !! a).
Proof.
  revert par; induction t as [|c b l IHl k r IHr]; intros par; [set_solver|].
  rewrite addrs_T. simpl. intros (Hb & Hl & Hr) Ha.
  apply elem_of_app in Ha as [Ha|Ha]; [eauto|].
  apply elem_of_cons in Ha as [->|Ha]; eauto.
Qed.

Lemma repr_size s t : repr s t → (S (length (items t)) ≤ size (nodes s))%nat.
Proof.
  intros Hr. assert (Hv : cview s [] t) by (by apply repr_cview).
  rewrite <- size_dom. pose proof (repr_nodup _ _ _ Hr) as Hnd.
  replace (S (length (items t))) with (size (list_to_set (NIL :: addrs t) : gset Z)).
  - apply subseteq_size. intros a Ha. apply elem_of_list_to_set in Ha.
    apply elem_of_dom. apply elem_of_cons in Ha as [->|Ha].
    + destruct (repr_nil _ _ _ Hr) as (? & ? & Hn & _). eauto.
    + eapply trep_in_dom; [apply (repr_tree _ _ _ Hr)|done].
  - rewrite size_list_to_set; [simpl; unfold addrs; by rewrite length_fmap|].
    constructor; [|done]. intros Ha.
    eapply (cview_ne_NIL _ _ _ NIL Hv); [|done]. simpl. by rewrite app_nil_r.
Qed.

Lemma repr_fuel s ctx t :
  repr s (plug ctx t) → (length ctx + height t + 1 < fuel_of s)%nat.
Proof.
  intros Hr. apply repr_size in Hr. unfold fuel_of.
  pose proof (length_ctx ctx). pose proof (height_items t).
  rewrite items_plug, !length_app in Hr. rewrite length_app in *. lia.
Qed.
End Ops.
