(* ===== verification/RbtInsert.v ===== *)
(** [insert] of [include/lib/rbtree.h]: the pointer code refines the balanced
    insertion on trees. *)
From S2P Require Import Prelude Rbt RbTree RbtRep RbtOps.

Section Insert.
Context {K P : Type} `{!KeyLt K} `{!NodeAlloc P} `{!NodeAllocLaws P}.
Context {NIL : Z} `{HNIL : !NilAddr NIL}.
Context (junk : node K).
Implicit Types (t x y z : tree K) (ctx : list (frame K)).
Implicit Types (s : rbt K P) (E : string → Prop).
Local Abbreviation repr := (repr NIL).
Local Abbreviation cview := (cview NIL).
Local Abbreviation addr := (addr NIL).
Local Abbreviation caddr := (caddr NIL).
Local Abbreviation becomes := (becomes NIL).

(** the red-uncle case *)
Lemma insert_recolor s d pa pk ps gd ga gk u rest t (f : M (rbt K P) unit) Q E :
  cview s (F d Red pa pk ps :: F gd Black ga gk u :: rest) t →
  (∀ s', cview s' rest (mk Red ga gd (mk Black pa d t pk ps) gk (set_col Black u)) →
         pool s' = pool s → wp f Q E s') →
  wp (upd pa set_black ;; upd (addr u) set_black ;; upd ga set_red ;; f) Q E s.
Proof.
  intros Hv Hf. apply cview_up in Hv. unfold plug1 in Hv; simpl in Hv.
  eapply wp_then; [by eapply wp_set_black_mk|]. intros s1 Hv1 Hq1.
  apply (cview_side _ gd) in Hv1.
  eapply wp_then; [by apply wp_set_black|]. intros s2 Hv2 Hq2.
  apply (cview_side _ gd) in Hv2. apply cview_up in Hv2.
  eapply wp_then; [by eapply wp_set_red_mk|]. intros s3 Hv3 Hq3.
  apply Hf; [done|congruence].
Qed.

(** the recolouring and the last rotation *)
Lemma insert_rotate s gd ga gk u rest p E :
  cview s (F gd Black ga gk u :: rest) p → p ≠ Leaf →
  wp (upd (addr p) set_black ;; upd ga set_red ;; r ← get_ref ga; rotate r (negb gd))
    (becomes (pool s) [] (plug rest (rot (negb gd) (mk Red ga gd (set_col Black p) gk u)))) E s.
Proof.
  intros Hv Hp. eapply wp_then; [by apply wp_set_black|]. intros s1 Hv1 Hq1.
  apply cview_up in Hv1. eapply wp_then; [by eapply wp_set_red_mk|]. intros s2 Hv2 Hq2.
  assert (∃ l k r, mk Red ga gd (set_col Black p) gk u = T Red ga l k r) as (l & k & r & He)
    by (destruct gd; simpl; eauto).
  eapply wp_bind, wp_get_ref; [by rewrite <- He|].
  eapply wp_mono; [eapply wp_rot; [done|]|].
  { by destruct p, gd. }
  intros [] s3 H3. apply becomes_repr. by rewrite <- Hq1, <- Hq2.
Qed.

(** the inner rotation, when [cur] and its parent are on different sides *)
Lemma insert_inner s d pa pk ps gd ga gk u rest a l k r pn (Q : Z → rbt K P → Prop) E :
  let p := mk Red pa d (T Red a l k r) pk ps in
  let p' := if eqb d gd then p else rot gd p in
  cview s (F gd Black ga gk u :: rest) p → nodes s !! pa = Some pn →
  (∀ s', cview s' (F gd Black ga gk u :: rest) p' → pool s' = pool s → p' ≠ Leaf → Q (addr p') s') →
  wp (if negb (eqb (a =? ch0 pn) (negb gd)) then
        rotate (ChSlot ga (negb (negb gd))) (negb (negb gd)) ;;
        pn' ← rd pa; mret (get_par pn')
      else mret pa) Q E s.
Proof.
  intros p p' Hv Hpn HQ.
  pose proof (proj2 (cview_up _ (F d Red pa pk ps) _ (T Red a l k r)) Hv) as Hd.
  pose proof (dir_test0 _ _ _ _ _ _ _ _ _ Hd ltac:(by left) Hpn) as Ht. simpl in Ht.
  rewrite Ht, negb_involutive. subst p'.
  destruct (bool_decide_reflect (d = gd)) as [->|Hne].
  { rewrite eqb_reflx in *. simpl. apply wp_ret.
    rewrite <- (addr_mk NIL Red pa gd (T Red a l k r) pk ps).
    apply HQ; [done..|]. by destruct gd. }
  assert (gd = negb d) as -> by (destruct d, gd; naive_solver).
  assert (eqb d (negb d) = false) as He by (by destruct d). rewrite He in HQ.
  replace (eqb (negb d) (negb (negb d))) with false by (by destruct d). cbn [negb].
  eapply wp_then.
  { apply (wp_rot _ (F (negb d) Black ga gk u :: rest) (negb d)); [exact Hv|].
    rewrite negb_involutive. by destruct d. }
  intros s' Hv' Hq'.
  assert (rot (negb d) p = mk Red a (negb d) (mk Red pa d (child (negb d) (T Red a l k r)) pk ps)
            k (child d (T Red a l k r))) as Hrot by (by destruct d).
  pose proof Hv' as Hv2. rewrite Hrot in Hv2.
  apply (cview_up _ (F (negb d) Red a k _)) in Hv2.
  assert (∃ n, nodes s' !! pa = Some n ∧ get_par n = a) as (n & Hn & Hgp).
  { pose proof (cview_caddr_valid _ _ _ Hv2) as Hva. simpl in Hva.
    destruct d; apply cview_lookup in Hv2; eexists; (split; [done|]); by apply get_par_pac. }
  eapply wp_bind, wp_rd; [done|]. apply wp_ret. rewrite Hgp.
  rewrite Hrot in HQ, Hv'. rewrite addr_mk in HQ. apply HQ; [done..|]. by destruct d.
Qed.

Lemma insert_fixup_ok fuel s ctx t n E :
  (length ctx < fuel)%nat → cview s ctx t → rb Red n t → rbc Black n ctx →
  wp (insert_fixup NIL fuel (addr t)) (becomes (pool s) [] (ins_fix ctx t)) E s.
Proof.
  revert s ctx t n; induction fuel as [|fuel IH]; intros s ctx t n Hf Hv Ht Hc; [lia|].
  destruct t as [|c a l k r]; [by inversion Ht|].
  assert (c = Red) as -> by (by inversion Ht). simpl insert_fixup.
  eapply wp_bind, wp_rd; [by eapply cview_lookup|].
  rewrite get_par_pac by (by eapply cview_caddr_valid).
  destruct ctx as [|[d pc pa pk ps] rest].
  { rewrite Z.eqb_refl. by apply (wp_set_black _ [] (T Red a l k r)). }
  pose proof (cview_parent_ne _ _ _ _ Hv) as Hpa. simpl in Hpa.
  rewrite (proj2 (Z.eqb_neq (caddr _) NIL)) by done. simpl caddr.
  pose proof (cview_parent_lookup _ _ _ _ _ _ _ _ Hv) as Hpl.
  eapply wp_bind, wp_rd; [done|].
  pose proof (proj1 (cview_up _ _ _ _) Hv) as Hv'. unfold plug1 in Hv'; simpl in Hv'.
  rewrite is_red_pnode by (by eapply cview_caddr_valid).
  destruct pc; rewrite ?bool_decide_eq_true_2, ?bool_decide_eq_false_2 by done;
    cbn [negb]; [|by apply becomes_repr].
  rewrite get_par_pnode by (by eapply cview_caddr_valid).
  inversion Hc as [|? ? ? ? ? ? Hps Hr|]; subst.
  inversion Hr as [| |? c' gd ? ga gk u rest' Hu Hr']; subst. simpl caddr.
  pose proof (cview_parent_lookup _ _ _ _ _ _ _ _ Hv') as Hgl.
  eapply wp_bind, wp_rd; [done|].
  pose proof (dir_test0 _ _ _ _ _ _ _ _ _ Hv' ltac:(left; by destruct d) Hgl) as Hpd.
  rewrite addr_mk in Hpd |- *. rewrite Hpd, get_ch_pnode_other.
  destruct (cview_sub_lookup _ _ _ (proj1 (cview_side _ _ _ _ _ _ _ _) Hv')) as (un & Hun & Hur & _).
  eapply wp_bind, wp_rd; [done|]. rewrite Hur. simpl ins_fix.
  destruct (col u) eqn:Ecu; rewrite ?bool_decide_eq_true_2, ?bool_decide_eq_false_2 by done.
  - eapply insert_recolor; [done|]. intros s' Hs' Hq'. rewrite <- Hq'.
    rewrite (rb_col _ _ _ Hu) in Ecu. subst.
    assert (Hrb : rb Red (S n) (mk Red ga gd (mk Black pa d (T Red a l k r) pk ps) gk (set_col Black u))).
    { apply rb_mk_red; [by eapply rb_mk_black|by apply rb_set_black]. }
    epose proof (IH s' rest' _ (S n) ltac:(simpl in Hf; lia) Hs' Hrb Hr') as H.
    by rewrite addr_mk in H.
  - apply wp_bind. eapply insert_inner; [done..|]. intros s' Hs' Hq' Hne.
    rewrite <- Hq'. by apply insert_rotate.
Qed.

Lemma insert_descend_ok fuel v s ctx t E :
  (height t < fuel)%nat → cview s ctx t →
  wp (insert_descend NIL fuel v (caddr ctx) (addr t))
    (λ a s', a = caddr (ins_path v ctx t) ∧ s' = s) E s.
Proof.
  revert ctx t; induction fuel as [|fuel IH]; intros ctx t Hf Hv; [lia|].
  destruct t as [|c a l k r]; simpl insert_descend.
  { by rewrite Z.eqb_refl. }
  assert (a ≠ NIL) as Hne by (eapply cview_ne_NIL; [done|]; rewrite addrs_T; set_solver).
  simpl addr. rewrite (proj2 (Z.eqb_neq a NIL)) by done.
  eapply wp_bind, wp_rd; [by eapply cview_lookup|]. simpl. simpl in Hf.
  destruct (key_lt k v).
  - apply (IH (F true c a k l :: ctx) r); [lia|]. by apply cview_up.
  - apply (IH (F false c a k r :: ctx) l); [lia|]. by apply cview_up.
Qed.

Lemma new_node_ok (s : rbt K P) :
  pool_inv (pool s) → pool_ready (pool s) →
  wp (new_node junk) (λ a s', pool_region a ∧ a ∉ pool_live (pool s) ∧
      pool_live (pool s') = {[a]} ∪ pool_live (pool s) ∧ pool_inv (pool s') ∧
      nodes s' = <[a:=junk]> (nodes s) ∧ tree_root s' = tree_root s ∧ pool_gives (pool s) a)
    (λ msg, ¬ pool_room (pool s) ∧ msg = pool_full) s.
Proof.
  intros Hp Hq. pose proof (node_alloc_ok _ Hp Hq) as H. unfold wp, new_node in *.
  destruct (node_alloc (pool s)) as [[a q]| | |]; naive_solver.
Qed.

(** what the initialising writes leave in a fresh node's memory *)
Lemma fresh_red_node par v :
  set_key (set_par (set_ch (set_ch (set_red junk) true NIL) false NIL) par) v =
  Node (pac par Red) NIL NIL v.
Proof.
  unfold set_key, set_par, set_red, with_pac; simpl. f_equal.
  rewrite fresh_red, Z.lor_0_l. unfold pac, cbit. lia.
Qed.

Lemma cview_new s ctx a v q ns :
  cview s ctx Leaf → pool_region a → a ∉ pool_live (pool s) →
  pool_live q = {[a]} ∪ pool_live (pool s) → pool_inv q →
  ns !! a = Some (Node (pac (caddr ctx) Red) NIL NIL v) →
  crep NIL ns ctx a →
  (∀ p, p ∉ a :: caddrs ctx → ns !! p = nodes s !! p) →
  cview (MkRbt ns (match ctx with [] => a | _ => tree_root s end) q) ctx (T Red a Leaf v Leaf).
Proof.
  intros Hv Hreg Hfresh Hlive Hinv Ha Hc Hns.
  assert (Hne : a ≠ NIL) by (intros ->; by apply (NIL_out (NIL:=NIL))).
  pose proof (cview_ne_NIL s ctx Leaf NIL Hv) as Hnn.
  destruct Hv as [_ _ Hroot Hnil Hnd Hr Hp]. simpl in *.
  assert (a ∉ caddrs ctx) by (intros Hin; by apply Hfresh, Hr).
  split; simpl; try done.
  - rewrite Hroot. by destruct ctx.
  - destruct Hnil as (p & k & Hn & Hp'). exists p, k. rewrite Hns; [done|].
    intros [->|Hin]%elem_of_cons; [done|]. by apply Hnn.
  - by constructor.
  - intros p Hp'. rewrite Hlive. apply elem_of_cons in Hp' as [->|Hp']; [set_solver|].
    apply Hr in Hp' as []. set_solver.
Qed.

(** the writes that link and initialise the new node *)
Lemma insert_link s ctx a v q (f : M (rbt K P) unit) Q E :
  cview s ctx Leaf → ctx ≠ [] → head_dir v ctx →
  pool_region a → a ∉ pool_live (pool s) →
  pool_live q = {[a]} ∪ pool_live (pool s) → pool_inv q →
  (∀ s', cview s' ctx (T Red a Leaf v Leaf) → pool s' = q → wp f Q E s') →
  wp (pn ← rd (caddr ctx);
      upd (caddr ctx) (λ n, set_ch n (key_lt (key pn) v) a) ;;
      upd a set_red ;;
      upd a (λ n, set_ch (set_ch n true NIL) false NIL) ;;
      upd a (λ n, set_par n (caddr ctx)) ;;
      upd a (λ n, set_key n v) ;; f) Q E
    (MkRbt (<[a:=junk]> (nodes s)) (tree_root s) q).
Proof.
  intros Hv Hctx Hd Hreg Hfresh Hlive Hinv Hf.
  assert (Hac : a ∉ caddrs ctx).
  { intros Hin. apply Hfresh. by apply (cv_region _ _ _ _ Hv). }
  pose proof (cv_nodup _ _ _ _ Hv) as Hnd. simpl in Hnd.
  destruct ctx as [|[d c pa pk ps] rest]; [done|]. simpl in *. clear Hctx.
  destruct (cv_c _ _ _ _ Hv) as (Hpa & Hps & Hrest). simpl in *.
  pose proof Hac as Hac'. nd.
  eapply wp_bind, wp_rd_at; [by lk|].
  replace (key (pnode _ _ _ _ _ pk)) with pk by (by destruct d). rewrite <- Hd.
  eapply wp_bind, wp_upd_at; [by lk|]. rewrite set_ch_pnode.
  eapply wp_bind, wp_upd_at; [by lk|].
  eapply wp_bind, wp_upd_at; [by lk|].
  eapply wp_bind, wp_upd_at; [by lk|].
  eapply wp_bind, wp_upd_at; [by lk|]. rewrite fresh_red_node.
  apply Hf; [|done].
  eapply (cview_new s (F d c pa pk ps :: rest)); try done; simpl.
  - by lk.
  - split_and!; [by lk| |].
    + eapply trep_frame; [|done]; intros ? ?; by lk.
    + eapply crep_frame; [|done]; intros ? ?; by lk.
  - intros p Hp. nd. by lk.
Qed.

(** the first node of an empty tree *)
Lemma insert_first s a v q E :
  cview s [] Leaf → pool_region a → a ∉ pool_live (pool s) →
  pool_live q = {[a]} ∪ pool_live (pool s) → pool_inv q →
  wp (set_root a ;; upd a set_black ;; upd a (λ n, set_par n NIL) ;;
      upd a (λ n, set_ch (set_ch n true NIL) false NIL) ;; upd a (λ n, set_key n v))
    (becomes q [] (T Black a Leaf v Leaf)) E
    (MkRbt (<[a:=junk]> (nodes s)) (tree_root s) q).
Proof.
  intros Hv Hreg Hfresh Hlive Hinv.
  assert (Hne : a ≠ NIL) by (intros ->; by apply (NIL_out (NIL:=NIL))).
  apply wp_bind. unfold wp at 1, set_root; cbn [nodes tree_root pool].
  eapply wp_bind, wp_upd_at; [by lk|].
  eapply wp_bind, wp_upd_at; [by lk|].
  eapply wp_bind, wp_upd_at; [by lk|].
  eapply wp_upd_at; [by lk|].
  assert (set_key (set_ch (set_ch (set_par (set_black junk) NIL) true NIL) false NIL) v =
          Node (pac NIL Black) NIL NIL v) as ->.
  { unfold set_key, set_par, set_black, with_pac; simpl. f_equal.
    rewrite fresh_black. apply (lor_cbit NIL Black). by apply NIL_valid. }
  split; [|done]. destruct Hv as [_ _ _ Hnil _ _ _]. split; simpl; try done.
  - split_and!; [by lk|done|done].
  - destruct Hnil as (p & k & Hn & Hp). exists p, k. by lk.
  - by apply NoDup_singleton.
  - intros p Hp%list_elem_of_singleton. subst. rewrite Hlive. set_solver.
Qed.

Definition repr_ok s t : Prop := repr s t ∧ rb_ok t.

(** [insert] refines [insert_tree]: it allocates one node, and fails only as
    the allocator does. *)
Lemma insert_refines s t v :
  repr s t → rb_ok t → pool_ready (pool s) →
  wp (insert NIL junk v)
    (λ _ s', ∃ a, repr s' (insert_tree v a t) ∧ pool_region a ∧ a ∉ pool_live (pool s) ∧
                  pool_live (pool s') = {[a]} ∪ pool_live (pool s) ∧ pool_gives (pool s) a)
    (λ msg, ¬ pool_room (pool s) ∧ msg = pool_full) s.
Proof.
  intros Hr Hrb Hrdy. assert (Hv : cview s [] t) by (by apply repr_cview).
  unfold insert. apply wp_bind, wp_get.
  assert (Hroot : tree_root s = addr t) by apply (repr_root _ _ _ Hr). rewrite Hroot.
  pose proof (repr_fuel s [] t Hr) as Hfuel. simpl in Hfuel.
  assert (Hnew := new_node_ok s (repr_pool _ _ _ Hr) Hrdy).
  destruct (decide (height t = 0)%nat) as [Hh|Hh].
  - destruct t; [|done]. simpl. rewrite Z.eqb_refl.
    apply wp_bind. eapply wp_mono; [exact Hnew|].
    intros a [ns' root' q'] (Hreg & Hfresh & Hlive & Hinv & Hn & Hrt & Hgv). simpl in *. subst ns' root'.
    eapply wp_mono; [by eapply insert_first|]. intros [] s' [Hs' Hq']. exists a.
    split_and!; [by apply repr_cview in Hs'|done|done|congruence|done].
  - assert (t ≠ Leaf) as Hne by (by destruct t).
    replace (addr t =? NIL) with false.
    2: { symmetry. apply Z.eqb_neq. destruct t; [done|]. simpl.
         eapply cview_ne_NIL; [done|]. rewrite addrs_T. set_solver. }
    apply wp_bind.
    eapply wp_mono; [apply (insert_descend_ok (fuel_of s) v s [] t); [lia|done]|].
    intros ? ? [-> ->]. set (ctx := ins_path v [] t).
    assert (Hctx : cview s ctx Leaf).
    { apply repr_cview. unfold ctx. by rewrite plug_ins_path. }
    apply wp_bind. eapply wp_mono; [exact Hnew|].
    intros a [ns' root' q'] (Hreg & Hfresh & Hlive & Hinv & Hn & Hrt & Hgv). simpl in *. subst ns' root'.
    eapply insert_link; [done|by apply ins_path_cons|by apply ins_path_head|done..|].
    intros s' Hs' Hq'.
    assert (∃ n, rbc Black n ctx ∧ n = 0%nat) as (n & Hrbc & ->).
    { destruct Hrb as [m Hm]. assert (rb_ok (plug ctx Leaf)) as H.
      { unfold ctx. rewrite plug_ins_path. by exists m. }
      apply plug_rb_inv in H as (c & n & Hl & Hc). inversion Hl; subst. eauto. }
    eapply wp_mono; [eapply (insert_fixup_ok (fuel_of s) s' ctx (T Red a Leaf v Leaf)); [|done|repeat constructor|done]|].
    { pose proof (length_ins_path v [] t). unfold ctx. simpl in *. lia. }
    intros [] s2 [Hs2 Hq2]. exists a. apply repr_cview in Hs2. simpl in Hs2.
    split_and!; [|done|done|congruence|done]. by destruct t.
Qed.
End Insert.
