(* ===== verification/RbtErase.v ===== *)
(** [remove_bottom] and [erase] of [include/lib/rbtree.h]: the pointer code
    refines the balanced removal on trees. *)
From S2P Require Import Prelude Rbt RbTree RbtRep RbtOps.

Section Erase.
Context {K P : Type} `{!KeyLt K} `{!NodeAlloc P} `{!NodeAllocLaws P}.
Context {NIL : Z} `{HNIL : !NilAddr NIL}.
Implicit Types (t x y z : tree K) (ctx : list (frame K)).
Implicit Types (s : rbt K P) (E : string → Prop).
Local Abbreviation repr := (repr NIL).
Local Abbreviation cview := (cview NIL).
Local Abbreviation addr := (addr NIL).
Local Abbreviation caddr := (caddr NIL).
Local Abbreviation becomes := (becomes NIL).

(** a node seen from one side *)
Lemma tree_side d c a l (k : K) r :
  T c a l k r = mk c a d (child d (T c a l k r)) k (child (negb d) (T c a l k r)).
Proof. by destruct d. Qed.

Lemma cview_node s ctx c a d x k y :
  cview s ctx (mk c a d x k y) → nodes s !! a = Some (pnode (caddr ctx) c d (addr x) (addr y) k).
Proof. destruct d; apply cview_lookup. Qed.

Lemma wp_copy_color s ctx c a d x k y n c' E :
  cview s ctx (mk c a d x k y) →
  (∃ par p q k', n = pnode par c' false p q k' ∧ valid_addr par) →
  wp (upd a (λ m, copy_color m n)) (becomes (pool s) ctx (mk c' a d x k y)) E s.
Proof.
  intros Hv (par & p & q & k' & -> & Hpar).
  destruct d; (eapply wp_write; [done|]; apply copy_color_pac; [by eapply cview_caddr_valid|done]).
Qed.

(** the last recolouring and rotation of [remove_bottom] *)
Lemma remove_final s rest d c a k t sc sa sk x y E :
  cview s (F d c a k (mk sc sa d x sk y) :: rest) t →
  wp (pn ← rd a;
      upd sa (λ n, copy_color n pn) ;;
      upd a set_black ;;
      sn ← rd sa;
      upd (get_ch sn (negb d)) set_black ;;
      r ← get_ref a;
      rotate r d)
    (becomes (pool s) []
      (plug rest (rot d (mk Black a d t k (mk c sa d x sk (set_col Black y)))))) E s.
Proof.
  intros Hv. pose proof (cview_parent_lookup _ _ _ _ _ _ _ _ Hv) as Hp.
  eapply wp_bind, wp_rd; [done|]. apply (cview_side _ d) in Hv as Hv0.
  eapply wp_then; [eapply wp_copy_color; [done|]|].
  { destruct d; do 4 eexists; (split; [done|]);
      apply cview_up in Hv; by eapply cview_caddr_valid. }
  intros s1 Hv1 Hq1. apply (cview_side _ d), cview_up in Hv1.
  eapply wp_then; [by eapply wp_set_black_mk|]. intros s2 Hv2 Hq2. simpl in Hv2.
  apply (cview_up _ (F d Black a k _)), (cview_side _ d) in Hv2.
  eapply wp_bind, wp_rd; [by eapply cview_node|]. rewrite get_ch_pnode_other.
  rewrite mk_flip in Hv2. apply (cview_up _ (F (negb d) c sa sk x)) in Hv2.
  eapply wp_then; [by apply wp_set_black|]. intros s3 Hv3 Hq3.
  apply cview_up in Hv3. unfold plug1 in Hv3; simpl in Hv3. rewrite <- mk_flip in Hv3.
  apply (cview_side _ d), cview_up in Hv3. unfold plug1 in Hv3; simpl in Hv3.
  assert (∃ l r, mk Black a d t k (mk c sa d x sk (set_col Black y)) = T Black a l k r)
    as (l & r & He) by (destruct d; simpl; eauto).
  eapply wp_bind, wp_get_ref; [by rewrite <- He|].
  eapply wp_mono; [eapply wp_rot; [done|]; by destruct d|].
  intros [] s4 H4. apply becomes_repr. by rewrite <- Hq1, <- Hq2, <- Hq3.
Qed.

(** the inner rotation, when the far nephew is black *)
Lemma remove_inner s rest d c a k t sc sa sk x y pn (Q : Z → rbt K P → Prop) E :
  let sb := mk sc sa d x sk y in
  let sb' := rot (negb d) (mk Red sa d (set_col Black x) sk y) in
  cview s (F d c a k sb :: rest) t → nodes s !! a = Some pn → x ≠ Leaf →
  (∀ s', cview s' (F d c a k sb' :: rest) t → pool s' = pool s → Q (addr sb') s') →
  wp (upd (addr x) set_black ;;
      upd sa set_red ;;
      pn ← rd a;
      rotate (ChSlot a (sa =? ch1 pn)) (negb d) ;;
      pn ← rd a;
      mret (get_ch pn (negb d))) Q E s.
Proof.
  intros sb sb' Hv Hpn Hx HQ. subst sb sb'. apply (cview_side _ d) in Hv.
  apply (cview_up _ (F d sc sa sk y)) in Hv.
  eapply wp_then; [by apply wp_set_black|]. intros s1 Hv1 Hq1.
  apply cview_up in Hv1. unfold plug1 in Hv1; simpl in Hv1.
  eapply wp_then; [by eapply wp_set_red_mk|]. intros s2 Hv2 Hq2.
  pose proof (cview_parent_lookup _ _ _ _ _ _ _ _ Hv2) as Hp2.
  eapply wp_bind, wp_rd; [done|].
  pose proof (dir_test1 _ _ _ _ _ _ _ _ _ Hv2 ltac:(left; by destruct d) Hp2) as Hdt.
  rewrite addr_mk in Hdt |- *. rewrite Hdt.
  eapply wp_then.
  { apply (wp_rot _ (F (negb d) c a k t :: rest) (negb d)); [exact Hv2|].
    rewrite negb_involutive. by destruct d, x. }
  intros s3 Hv3 Hq3.
  pose proof (cview_parent_lookup _ _ _ _ _ _ _ _ Hv3) as Hp3.
  eapply wp_bind, wp_rd; [done|]. apply wp_ret. rewrite get_ch_pnode.
  apply (cview_side _ d) in Hv3. apply HQ; [done|congruence].
Qed.

Lemma rot_root_col d c a k x y :
  x ≠ Leaf → ∃ cb b x1 kb x2,
    x = mk cb b (negb d) x1 kb x2 ∧
    rot (negb d) (mk c a d x k y) = mk cb b d x2 kb (mk c a d x1 k y).
Proof.
  intros Hx. destruct x as [|cb b l kb r]; [done|].
  destruct d; simpl; [exists cb, b, l, kb, r|exists cb, b, r, kb, l]; done.
Qed.

(** The body of the loop once the sibling is black. *)
Lemma remove_black_sibling_ok again s rest d c a k t sb n E :
  cview s (F d c a k sb :: rest) t → rb Black (S n) sb →
  (both_black sb = true → ∀ s', cview s' rest (mk c a d t k (set_col Red sb)) →
     pool s' = pool s →
     wp (again a) (becomes (pool s) [] (rem_fix rest (mk c a d t k (set_col Red sb)))) E s') →
  wp (remove_black_sibling again (addr t) a (addr sb))
    (becomes (pool s) []
      (if both_black sb then rem_fix rest (mk c a d t k (set_col Red sb))
       else plug rest (rem_tail d c a k t sb))) E s.
Proof.
  intros Hv Hsb Hagain. inversion Hsb as [| |? sa c1 c2 l sk r Hl Hr]; subst.
  unfold remove_black_sibling. apply (cview_side _ d) in Hv as Hs.
  eapply wp_bind, wp_rd; [by eapply cview_lookup|]. simpl ch0. simpl ch1.
  pose proof (proj2 (cview_up _ (F false Black sa sk r) _ l) Hs) as Hvl.
  pose proof (proj2 (cview_up _ (F true Black sa sk l) _ r) Hs) as Hvr.
  destruct (cview_sub_lookup _ _ _ Hvl) as (n0 & Hn0 & _ & Hb0).
  destruct (cview_sub_lookup _ _ _ Hvr) as (n1 & Hn1 & _ & Hb1).
  eapply wp_bind, wp_rd; [done|]. eapply wp_bind, wp_rd; [done|].
  assert (is_black n0 && is_black n1 = both_black (T Black sa l sk r)) as ->.
  { rewrite Hb0, Hb1. unfold both_black. simpl. by rewrite <- bool_decide_and. }
  destruct (both_black _) eqn:Hbb.
  { eapply wp_then; [by eapply wp_set_red|]. intros s' Hs' Hq'.
    apply (cview_side _ d), cview_up in Hs'. by apply Hagain. }
  pose proof (cview_parent_lookup _ _ _ _ _ _ _ _ Hv) as Hp.
  eapply wp_bind, wp_rd; [done|].
  rewrite (dir_test1 _ _ _ _ _ _ _ _ _ Hv ltac:(by right) Hp).
  set (sb := T Black sa l sk r) in *.
  assert (Hsbd : sb = mk Black sa d (child d sb) sk (child (negb d) sb)) by (by destruct d).
  assert (Hcols : ∀ e, ∃ m, nodes s !! addr (child e sb) = Some m ∧
                            is_black m = bool_decide (col (child e sb) = Black)).
  { intros []; eauto. }
  assert (Hch : ∀ e, get_ch (Node (pac (caddr (F (negb d) c a k t :: rest)) Black) (addr l) (addr r) sk) e
                     = addr (child e sb)) by (by intros []).
  rewrite !Hch. destruct (Hcols (negb d)) as (far & Hfar & Hfb).
  eapply wp_bind, wp_rd; [done|]. rewrite Hfb. unfold rem_tail.
  apply wp_bind. destruct (col (child (negb d) sb)) eqn:Hcf.
  - rewrite bool_decide_eq_false_2 by done. apply wp_ret.
    rewrite Hsbd in Hv. pose proof (remove_final _ _ _ _ _ _ _ _ _ _ _ _ E Hv) as H.
    by destruct d.
  - rewrite bool_decide_eq_true_2 by done.
    assert (child d sb ≠ Leaf) as Hnear.
    { intros Hn. unfold both_black in Hbb. apply bool_decide_eq_false in Hbb. apply Hbb.
      destruct d; simpl in *; by rewrite Hn, Hcf. }
    rewrite Hsbd in Hv. eapply remove_inner; [done|done|done|].
    intros s' Hs' Hq'. rewrite <- Hq'.
    assert (set_col Black (child d sb) ≠ Leaf) as Hne by (by destruct (child d sb)).
    destruct (rot_root_col d Red sa sk (set_col Black (child d sb)) (child (negb d) sb) Hne)
      as (cb & b & x1 & kb & x2 & Hx & Hrot).
    change (match sb with Leaf => sb | T _ sa0 _ sk0 _ => _ end) with
      (mk Red sa d (set_col Black (child d sb)) sk (child (negb d) sb)).
    change (addr sb) with sa in *. rewrite Hrot in *. rewrite addr_mk.
    pose proof (remove_final _ _ _ _ _ _ _ _ _ _ _ _ E Hs') as H. by destruct d.
Qed.

(** The focus' parent pointer is right even when the focus is the sentinel. *)
Definition focus_ok s ctx t : Prop :=
  ∃ n, nodes s !! addr t = Some n ∧ get_par n = caddr ctx ∧
       is_black n = bool_decide (col t = Black).

Lemma focus_ok_node s ctx t : cview s ctx t → t ≠ Leaf → focus_ok s ctx t.
Proof.
  intros Hv Ht. destruct t as [|c a l k r]; [done|]. eexists.
  split; [by eapply cview_lookup|].
  rewrite get_par_pac, is_black_pac by (by eapply cview_caddr_valid). done.
Qed.

Lemma root_test s ctx t : cview s ctx t → (addr t =? tree_root s) = bool_decide (ctx = []).
Proof.
  intros Hv. rewrite (cv_root _ _ _ _ Hv). destruct ctx as [|f ctx].
  { by rewrite Z.eqb_refl. }
  rewrite bool_decide_eq_false_2 by done. apply Z.eqb_neq. intros Heq.
  pose proof (addr_plug_in (NIL:=NIL) f ctx Leaf) as Hin. rewrite <- Heq in Hin.
  destruct (addr_in_or (NIL:=NIL) t) as [Hn|Ht].
  - rewrite Hn in Hin. eapply (cview_ne_NIL _ _ _ NIL Hv); [|done]. set_solver.
  - pose proof (cv_nodup _ _ _ _ Hv) as Hnd. nd. nd_absurd.
Qed.

(** dealing with a red sibling *)
Lemma remove_red_sibling s rest d a k t sa x sk y (Q : Z → rbt K P → Prop) E :
  cview s (F d Black a k (mk Red sa d x sk y) :: rest) t →
  (∀ s', cview s' (F d Red a k x :: F d Black sa sk y :: rest) t → pool s' = pool s →
         Q (addr x) s') →
  wp (upd a set_red ;;
      upd sa set_black ;;
      pn ← rd a;
      let d := sa =? ch0 pn in
      r ← get_ref a;
      rotate r d ;;
      pn ← rd a;
      mret (get_ch pn (negb d))) Q E s.
Proof.
  intros Hv HQ. apply cview_up in Hv. unfold plug1 in Hv; simpl in Hv.
  eapply wp_then; [by eapply wp_set_red_mk|]. intros s1 Hv1 Hq1.
  apply (cview_up _ (F d Red a k _)), (cview_side _ d) in Hv1.
  eapply wp_then; [by eapply wp_set_black_mk|]. intros s2 Hv2 Hq2.
  pose proof (cview_parent_lookup _ _ _ _ _ _ _ _ Hv2) as Hp.
  eapply wp_bind, wp_rd; [done|].
  pose proof (dir_test0 _ _ _ _ _ _ _ _ _ Hv2 ltac:(left; by destruct d) Hp) as Hdt.
  rewrite addr_mk in Hdt |- *. rewrite Hdt, negb_involutive.
  apply (cview_side _ d), cview_up in Hv2. unfold plug1 in Hv2; simpl in Hv2.
  assert (∃ l r, mk Red a d t k (mk Black sa d x sk y) = T Red a l k r)
    as (l & r & He) by (destruct d; simpl; eauto).
  eapply wp_bind, wp_get_ref; [by rewrite <- He|].
  eapply wp_then; [apply wp_rot; [exact Hv2|by destruct d]|]. intros s3 Hv3 Hq3.
  replace (rot d _) with (mk Black sa d (mk Red a d t k x) sk y) in Hv3 by (by destruct d).
  apply (cview_up _ (F d Black sa sk y)) in Hv3.
  eapply wp_bind, wp_rd; [by eapply cview_node|]. apply wp_ret.
  rewrite get_ch_pnode_other.
  apply (cview_up _ (F d Red a k x)) in Hv3. apply HQ; [done|congruence].
Qed.

(** the loop stops at a red node and blackens it *)
Lemma remove_fixup_red fuel s ctx d a k x y E :
  (0 < fuel)%nat → cview s ctx (mk Red a d x k y) →
  wp (remove_fixup fuel a) (becomes (pool s) [] (rem_fix ctx (mk Red a d x k y))) E s.
Proof.
  intros Hf Hv. destruct fuel as [|fuel]; [lia|]. simpl remove_fixup.
  apply wp_bind. unfold wp at 1, get_root.
  eapply wp_bind, wp_rd; [by eapply cview_node|].
  replace (is_black _) with false
    by (destruct d; simpl; rewrite is_black_pac by (by eapply cview_caddr_valid); done).
  rewrite orb_true_r. eapply wp_mono; [by eapply wp_set_black_mk|].
  intros [] s' H'. apply becomes_repr in H'.
  replace (rem_fix _ _) with (plug ctx (mk Black a d x k y)); [done|].
  by destruct d, ctx as [|[]].
Qed.

(** one iteration at a red sibling, which is the last but one *)
Lemma remove_fixup_at_red fuel s rest d a k t sa x sk y n E :
  (0 < fuel)%nat → cview s (F d Black a k (mk Red sa d x sk y) :: rest) t →
  rb Black (S n) x →
  wp (s ← (upd a set_red ;; upd sa set_black ;; pn ← rd a;
           let d := sa =? ch0 pn in
           r ← get_ref a; rotate r d ;; pn ← rd a; mret (get_ch pn (negb d)));
      remove_black_sibling (remove_fixup fuel) (addr t) a s)
    (becomes (pool s) [] (plug rest (mk Black sa d
      (if both_black x then mk Black a d t k (set_col Red x) else rem_tail d Red a k t x) sk y))) E s.
Proof.
  intros Hf Hv Hx. apply wp_bind. eapply remove_red_sibling; [done|].
  intros s' Hv' Hq'. rewrite <- Hq'.
  eapply wp_mono; [eapply remove_black_sibling_ok; [done|done|]|].
  { intros _ s2 Hv2 Hq2. rewrite <- Hq2. by apply remove_fixup_red. }
  intros [] s3. destruct (both_black x); [|done].
  replace (rem_fix _ _) with (plug rest (mk Black sa d (mk Black a d t k (set_col Red x)) sk y));
    [done|]. by destruct d.
Qed.

Lemma remove_fixup_ok fuel s ctx t n E :
  (length ctx < fuel)%nat → cview s ctx t → focus_ok s ctx t →
  deficit n t → rbc Black (S n) ctx ∨ ctx = [] →
  wp (remove_fixup fuel (addr t)) (becomes (pool s) [] (rem_fix ctx t)) E s.
Proof.
  revert s ctx t n; induction fuel as [|fuel IH]; intros s ctx t n Hf Hv Hfo Ht Hc; [lia|].
  simpl remove_fixup. apply wp_bind. unfold wp at 1, get_root.
  destruct Hfo as (nn & Hnn & Hpar & Hblk).
  eapply wp_bind, wp_rd; [done|]. rewrite (root_test _ _ _ Hv), Hblk, Hpar.
  destruct (decide (ctx = [])) as [->|Hne].
  { rewrite bool_decide_eq_true_2 by done. simpl.
    destruct (col t); by apply (wp_set_black _ []). }
  rewrite (bool_decide_eq_false_2 (ctx = [])) by done. rewrite orb_false_l.
  destruct Hc as [Hc|?]; [|done]. destruct ctx as [|[d c a k sb] rest]; [done|]. clear Hne.
  destruct (col t) eqn:Et; simpl rem_fix; rewrite Et.
  { simpl. eapply wp_mono; [by apply wp_set_black|].
    intros [] s' H'. by apply becomes_repr in H'. }
  simpl negb. cbv iota. simpl caddr. simpl in Hf.
  assert (∃ c', rb c' (S n) sb ∧ (c' = Red → c = Black) ∧
                rbc Black (if c then S n else S (S n)) rest) as (c' & Hsb & Hcc & Hr).
  { inversion Hc as [|? ? ? ? ? ? ? Hr|]; subst; eauto 6.
    apply rbc_weaken in Hr. by exists Black. }
  assert (Hsne : sb ≠ Leaf) by (by inversion Hsb).
  assert (Htb : rb Black n t) by (unfold deficit in Ht; by rewrite Et in Ht).
  pose proof (cview_parent_lookup _ _ _ _ _ _ _ _ Hv) as Hp.
  eapply wp_bind, wp_rd; [done|].
  rewrite (dir_test0 _ _ _ _ _ _ _ _ _ Hv ltac:(by right) Hp), get_ch_pnode_other.
  destruct (cview_sub_lookup _ _ _ (proj1 (cview_side _ _ _ _ _ _ _ _) Hv)) as (sn & Hsn & Hsr & _).
  eapply wp_bind, wp_rd; [done|]. rewrite Hsr, (rb_col _ _ _ Hsb).
  destruct c'.
  - rewrite Hcc in * by done. rewrite bool_decide_eq_true_2 by done.
    pose proof (rb_child_red _ _ d Hsb) as Hx.
    destruct sb as [|[] sa sl sk sr]; [done| |by inversion Hsb].
    rewrite (tree_side d) in Hv. by apply (remove_fixup_at_red fuel _ _ d) with n; [lia|..].
  - rewrite bool_decide_eq_false_2 by done. apply wp_bind, wp_ret.
    eapply wp_mono; [eapply remove_black_sibling_ok; [done|done|]|].
    { intros Hbb s2 Hv2 Hq2. rewrite <- Hq2.
      assert (mk c a d t k (set_col Red sb) ≠ Leaf) as Hml by (by destruct d).
      pose proof (IH s2 rest _ (if c then n else S n) ltac:(lia) Hv2
                    (focus_ok_node _ _ _ Hv2 Hml)) as H.
      rewrite addr_mk in H. apply H; [by apply deficit_mk, redden_rb|].
      left. by destruct c. }
    intros [] s3. by inversion Hsb.
Qed.

(** ** [remove_bottom] *)
Lemma wp_copy_par ns root q x b a c p1 p2 k (Q : unit → rbt K P → Prop) E :
  trep NIL ns b x → nil_ok NIL ns → NoDup (addrs x) → valid_addr a → valid_addr b →
  (∀ p, p ∈ addrs x → p ≠ NIL) →
  (∀ ns' n, trep NIL ns' a x → nil_ok NIL ns' →
          (∀ p, p ∉ addrs x → p ≠ NIL → ns' !! p = ns !! p) →
          ns' !! addr x = Some n → get_par n = a →
          is_black n = bool_decide (col x = Black) →
          Q tt (MkRbt ns' root q)) →
  wp (upd (addr x) (λ m, copy_par m (Node (pac a c) p1 p2 k))) Q E (MkRbt ns root q).
Proof.
  intros Hx Hnil Hnd Ha Hb Hne HQ. destruct x as [|c' p l k' r].
  - destruct Hnil as (p & k' & Hn & Hp). eapply wp_upd; [done|]. rewrite copy_par_pac by done.
    eapply HQ; [done| | |by apply lookup_insert_eq|by apply get_par_pac|by apply is_black_pac].
    + exists a, k'. by rewrite lookup_insert_eq.
    + intros b' _ Hb'. by rewrite lookup_insert_ne.
  - destruct Hx as (Hp & Hl & Hr). eapply wp_upd; [done|]. rewrite copy_par_pac by done.
    rewrite addrs_T in *. assert (p ≠ NIL) by (apply Hne; set_solver).
    eapply HQ; [| | |by apply lookup_insert_eq|by apply get_par_pac|by apply is_black_pac]; nd.
    + split_and!; [by lk| |]; (eapply trep_frame; [|done]; intros ? ?; by lk).
    + destruct Hnil as (? & ? & ? & ?). eexists _, _. lk. done.
    + intros b' Hb' _. nd. by lk.
Qed.

(** freeing a node that is not in the tree any more *)
Lemma wp_free s ctx t b n E :
  cview s ctx t → b ∉ addrs t ++ caddrs ctx → b ≠ NIL → b ∈ pool_live (pool s) →
  nodes s !! addr t = Some n →
  wp (free_node b) (λ _ s', cview s' ctx t ∧ nodes s' !! addr t = Some n ∧
                            pool_live (pool s') = pool_live (pool s) ∖ {[b]}) E s.
Proof.
  intros Hv Hb Hbn Hlive Hn. pose proof (node_free_ok _ _ (cv_pool _ _ _ _ Hv) Hlive) as H.
  unfold wp, free_node in *. destruct (node_free b (pool s)) as [[u q]| | |]; try done.
  destruct H as [Hl Hinv]. simpl.
  assert (b ≠ addr t) as Hbt.
  { destruct (addr_in_or (NIL:=NIL) t) as [->|Hin]; [done|]. intros ->. set_solver. }
  split_and!; [|by rewrite lookup_delete_ne|done].
  destruct Hv as [Ht Hc Hroot Hnil Hnd Hreg Hp]. nd. split; simpl; try done.
  - eapply trep_frame; [|done]; intros ? ?; by lk.
  - eapply crep_frame; [|done]; intros ? ?; by lk.
  - destruct Hnil as (p & k & Hnl & Hvl). exists p, k. by rewrite lookup_delete_ne.
  - by apply NoDup_app_dj.
  - intros a Ha. rewrite Hl. destruct (Hreg a Ha) as [? ?]. split; [done|].
    assert (a ≠ b); [|set_solver]. intros ->. set_solver.
Qed.

(** unlinking: the only child takes the node's place *)
Lemma remove_unlink s ctx c a l k r (f : M (rbt K P) unit) Q E :
  cview s ctx (T c a l k r) → l = Leaf ∨ r = Leaf →
  (∀ s' n, cview s' ctx (only_child l r) → pool s' = pool s →
    a ∉ addrs (only_child l r) ++ caddrs ctx → a ≠ NIL → a ∈ pool_live (pool s') →
    nodes s' !! addr (only_child l r) = Some n → get_par n = caddr ctx →
    is_black n = bool_decide (col (only_child l r) = Black) → wp f Q E s') →
  wp (upd (addr (only_child l r)) (λ m, copy_par m (Node (pac (caddr ctx) c) (addr l) (addr r) k)) ;;
      wr_slot (cslot ctx) (addr (only_child l r)) ;; f) Q E s.
Proof.
  intros Hv Hlr HQ. pose proof (cview_caddr_valid _ _ _ Hv) as Hcv.
  assert (Hne := λ p, cview_ne_NIL _ _ _ p Hv).
  assert (Ha : valid_addr a) by (eapply cview_valid; [done|]; rewrite addrs_T; set_solver).
  destruct Hv as [(Hta & Htl & Htr) Hc Hroot Hnil Hnd Hreg Hp].
  rewrite addrs_T in *. set (ch := only_child l r) in *.
  assert (Hch : addrs l ++ a :: addrs r ≡ₚ a :: addrs ch).
  { unfold ch. destruct Hlr as [->| ->]; [done|]. destruct l; simpl; solve_Permutation. }
  setoid_rewrite Hch in Hnd. setoid_rewrite Hch in Hne. setoid_rewrite Hch in Hreg.
  assert (Htc : trep NIL (nodes s) a ch) by (unfold ch; by destruct l).
  assert (Han : a ≠ NIL) by (apply Hne; set_solver).
  assert (Hnc : ∀ p, p ∈ caddrs ctx → p ≠ NIL) by (intros; apply Hne; set_solver).
  assert (Hnx : ∀ p, p ∈ addrs ch → p ≠ NIL) by (intros; apply Hne; set_solver).
  simpl in Hnd. apply NoDup_cons in Hnd as [Hna Hnd]. pose proof Hnd as Hnd'.
  apply NoDup_app_dj in Hnd' as (Hn1 & Hn2 & Hn3). destruct s as [ns root q]; simpl in *.
  apply wp_bind. eapply (wp_copy_par ns root q ch a); try done.
  intros ns1 n1 Ht1 Hnil1 Hns1 Hn Hpar Hblk.
  eapply wp_bind, wp_wr_slot; [|done|done|].
  { eapply crep_frame; [|exact Hc]. intros p Hpc. apply Hns1; [|by apply Hnc].
    intros Hin. by eapply Hn2. }
  intros ns2 root2 Hc2 Hns2 Hr2.
  assert (Hn2' : ns2 !! addr ch = Some n1).
  { rewrite Hns2; [done|]. intros Hin. destruct (addr_in_or (NIL:=NIL) ch) as [He|He].
    - rewrite He in Hin. by apply (Hnc NIL).
    - by eapply Hn2. }
  eapply (HQ (MkRbt ns2 root2 q) n1); simpl; try done; [|by apply Hreg; set_solver].
  split; simpl; try done.
  - eapply trep_frame; [|done]. intros p Hpx. apply Hns2. intros ?. by eapply Hn2.
  - rewrite Hr2. by destruct ctx.
  - destruct Hnil1 as (p & k' & Hnl & Hval). exists p, k'. rewrite Hns2; [done|].
    intros Hin. by apply (Hnc NIL).
  - intros b Hb. apply Hreg. set_solver.
Qed.

Lemma remove_bottom_ok s ctx c a l k r E :
  cview s ctx (T c a l k r) → l = Leaf ∨ r = Leaf → rb_ok (plug ctx (T c a l k r)) →
  wp (remove_bottom NIL (cslot ctx))
    (λ _ s', repr s' (splice ctx c (only_child l r)) ∧
             pool_live (pool s') = pool_live (pool s) ∖ {[a]}) E s.
Proof.
  intros Hv Hlr Hrb. unfold remove_bottom. apply wp_bind, wp_get.
  eapply wp_bind, wp_rd_slot; [done|]. simpl addr.
  eapply wp_bind, wp_rd; [by eapply cview_lookup|].
  replace (get_ch _ _) with (addr (only_child l r)).
  2: { simpl. destruct l as [|c' al ll kl rl]; simpl; [by rewrite Z.eqb_refl|].
       rewrite (proj2 (Z.eqb_neq al NIL)); [done|].
       eapply cview_ne_NIL; [done|]. rewrite !addrs_T. set_solver. }
  assert (Hfuel : (length ctx < fuel_of s)%nat).
  { apply (repr_cview NIL), repr_fuel in Hv. lia. }
  rewrite is_red_pac by (by eapply cview_caddr_valid).
  eapply remove_unlink; [done..|]. intros s1 n Hv1 Hq1 Hna Han Hlive Hn Hpar Hblk.
  pose proof (plug_rb_inv _ _ Hrb) as (c' & m & Hnode & Hctx).
  pose proof (λ E, wp_free s1 ctx _ a n E Hv1 Hna Han Hlive Hn) as Hfree.
  destruct c; rewrite ?bool_decide_eq_true_2, ?bool_decide_eq_false_2 by done.
  { eapply wp_mono; [apply Hfree|]. intros [] s2 (Hv2 & _ & Hl2). rewrite <- Hq1.
    by apply repr_cview in Hv2. }
  apply wp_bind. eapply wp_mono; [apply Hfree|]. intros [] s2 (Hv2 & Hn2 & Hl2).
  rewrite <- Hq1, <- Hl2.
  eapply wp_bind, wp_rd; [done|].
  destruct (cview_sub_lookup _ _ _ Hv2) as (n' & Hn' & Hred & _).
  assert (n' = n) as -> by congruence. rewrite Hred.
  set (ch := only_child l r) in *.
  assert (∃ h c3, m = S h ∧ c' = Black ∧ rb c3 h ch) as (h & c3 & -> & -> & Hch).
  { inversion Hnode; subst. unfold ch. destruct l; simpl; eauto. }
  destruct (col ch) eqn:Ec.
  - rewrite bool_decide_eq_true_2 by done.
    eapply wp_mono; [by apply wp_set_black|]. intros [] s3 [Hv3 Hq3].
    apply repr_cview in Hv3. rewrite Hq3. split; [|done]. unfold splice.
    by replace (rem_fix ctx ch) with (plug ctx (set_col Black ch)) by (destruct ctx as [|[]]; simpl; by rewrite Ec).
  - rewrite bool_decide_eq_false_2 by done.
    eapply wp_mono; [eapply (remove_fixup_ok _ s2 ctx ch h); [done|done| | |]|].
    + exists n. split_and!; [done|done|by rewrite Hblk, Ec].
    + unfold deficit. rewrite (rb_col _ _ _ Hch) in Ec. subst c3.
      by rewrite (rb_col _ _ _ Hch).
    + by left.
    + intros [] s3 [Hv3 Hq3]. apply repr_cview in Hv3. rewrite Hq3. done.
Qed.

(** ** [erase] *)
Lemma erase_succ_ok fuel s ctx t prev E :
  (height t < fuel)%nat → cview s ctx t →
  wp (erase_succ NIL fuel prev (addr t))
    (λ b s', s' = s ∧
      match t with
      | Leaf => b = prev
      | _ => ∃ sctx sc sk sr, t = plug sctx (T sc b Leaf sk sr) ∧ litems sctx = []
      end) E s.
Proof.
  revert ctx t prev; induction fuel as [|fuel IH]; intros ctx t prev Hf Hv; [lia|].
  destruct t as [|c a l k r]; simpl erase_succ.
  { by rewrite Z.eqb_refl. }
  assert (a ≠ NIL) as Hne by (eapply cview_ne_NIL; [done|]; rewrite addrs_T; set_solver).
  rewrite (proj2 (Z.eqb_neq a NIL)) by done.
  eapply wp_bind, wp_rd; [by eapply cview_lookup|]. simpl in Hf. simpl ch0.
  apply (cview_up _ (F false c a k r) ctx l) in Hv.
  eapply wp_mono; [eapply (IH _ l); [lia|done]|]. intros b s' [-> H]. split; [done|].
  destruct l as [|c' al ll kl rl].
  - subst b. by exists [], c, k, r.
  - destruct H as (sctx & sc & sk & sr & -> & Hl).
    exists (sctx ++ [F false c a k r]), sc, sk, sr. rewrite plug_app, litems_app.
    split; [done|]. by rewrite Hl.
Qed.

Lemma cview_app s ctx1 ctx2 t : cview s (ctx1 ++ ctx2) t ↔ cview s ctx2 (plug ctx1 t).
Proof. by rewrite <- !repr_cview, plug_app. Qed.

Lemma rb_rekey c h ctx k k' c' p l r :
  rb c h (plug ctx (T c' p l k r)) → rb c h (plug ctx (T c' p l k' r)).
Proof.
  assert (∀ t1 t2 : tree K, (∀ c h, rb c h t1 → rb c h t2) →
          ∀ c h, rb c h (plug ctx t1) → rb c h (plug ctx t2)) as H.
  { induction ctx as [|[d fc fa fk fs] ctx IH]; intros t1 t2 Ht; simpl; [done|].
    apply IH. intros c0 h0. unfold plug1; simpl.
    destruct d; inversion 1; subst; econstructor; eauto. }
  apply H. inversion 1; subst; econstructor; eauto.
Qed.

(** what [erase] leaves behind: one node fewer, the other keys in place *)
Definition erased (s : rbt K P) t (l r : list (Z * K)) (s' : rbt K P) : Prop :=
  ∃ t' b, repr s' t' ∧ rb_ok t' ∧ elems t' = l.*2 ++ r.*2 ∧
          addrs t ≡ₚ b :: addrs t' ∧ pool_live (pool s') = pool_live (pool s) ∖ {[b]}.

Lemma erase_last s t ctx c a l k r L R s' :
  t = plug ctx (T c a l k r) → rb_ok t → (l = Leaf ∨ r = Leaf) →
  (litems ctx ++ items (only_child l r) ++ ritems ctx).*2 = L.*2 ++ R.*2 →
  repr s' (splice ctx c (only_child l r)) →
  pool_live (pool s') = pool_live (pool s) ∖ {[a]} → erased s t L R s'.
Proof.
  intros -> Hrb Hlr Hel Hr Hl. exists (splice ctx c (only_child l r)), a. split_and!; [done| | | |done].
  - by eapply splice_rb.
  - by unfold elems; rewrite items_splice.
  - unfold addrs. rewrite items_splice, items_plug, !fmap_app. simpl. rewrite fmap_app. simpl.
    destruct Hlr as [->| ->]; simpl; [solve_Permutation|].
    destruct l; simpl; rewrite ?fmap_app; simpl; rewrite ?fmap_app; solve_Permutation.
Qed.

Lemma erase_refines s t p k L R E :
  repr s t → rb_ok t → items t = L ++ (p, k) :: R →
  wp (erase NIL p) (λ _ s', erased s t L R s') E s.
Proof.
  intros Hr Hrb Hit.
  destruct (focus_at t p k) as (ctx & c & l & r & ->); [rewrite Hit; set_solver|].
  assert (Hnd : NoDup (L ++ (p, k) :: R).*1).
  { rewrite <- Hit. apply (repr_nodup _ _ _ Hr). }
  rewrite items_plug in Hit. simpl in Hit.
  rewrite <- !(assoc_L (++)), (assoc_L (++) (litems ctx)) in Hit. simpl in Hit.
  symmetry in Hit. apply split_unique in Hit as (-> & _ & ->); [|done].
  pose proof (proj1 (repr_cview NIL s ctx _) Hr) as Hv. unfold erase.
  assert (p ≠ NIL) as Hpn by (eapply cview_ne_NIL; [done|]; rewrite addrs_T; set_solver).
  assert (valid_addr p) as [Hpr _] by (eapply cview_valid; [done|]; rewrite addrs_T; set_solver).
  rewrite (proj2 (Z.eqb_neq p NIL)), (proj2 (Z.eqb_neq p 0)) by (done || lia).
  cbn [orb]. apply wp_bind, wp_get.
  eapply wp_bind, wp_rd; [by eapply cview_lookup|]. simpl ch1.
  pose proof (repr_fuel _ _ _ Hr) as Hfuel. simpl in Hfuel.
  pose proof (proj2 (cview_up _ (F true c p k l) ctx r) Hv) as Hvr.
  apply wp_bind. eapply wp_mono; [eapply (erase_succ_ok _ _ _ r); [lia|done]|].
  intros b s1 [-> Hb]. destruct r as [|cr ar lr kr rr].
  - subst b. rewrite Z.eqb_refl. simpl negb. cbv iota. apply wp_bind, wp_ret.
    eapply wp_bind, wp_get_ref; [done|].
    eapply wp_mono; [eapply remove_bottom_ok; [done|by right|done]|].
    intros [] s' [Hr' Hl']. eapply erase_last; [done|done|by right| |done|done].
    replace (only_child l Leaf) with l by (by destruct l).
    by rewrite <- fmap_app, <- (assoc_L (++)).
  - destruct Hb as (sctx & sc & sk & sr & Hrr & Hlit). rewrite Hrr in *.
    pose proof (proj2 (cview_app _ _ _ _) Hvr) as Hvb.
    assert (b ≠ NIL) as Hbn by (eapply cview_ne_NIL; [exact Hvb|]; rewrite addrs_T; set_solver).
    rewrite (proj2 (Z.eqb_neq b NIL)) by done. cbn [negb].
    apply wp_bind. eapply wp_bind, wp_rd; [by eapply cview_lookup|]. simpl key.
    eapply wp_then; [by eapply (wp_write _ _ c p l k _ c sk)|]. intros s2 Hv2 Hq2. apply wp_ret.
    pose proof (proj2 (cview_up _ (F true c p sk l) ctx _) Hv2) as Hvb2.
    apply (cview_app _ sctx) in Hvb2.
    eapply wp_bind, wp_get_ref; [done|].
    assert (Hrb2 : rb_ok (plug ctx (T c p l sk (plug sctx (T sc b Leaf sk sr))))).
    { destruct Hrb as [h Hrb]. exists h. by eapply rb_rekey. }
    assert (Hplug : plug (sctx ++ F true c p sk l :: ctx) (T sc b Leaf sk sr) =
                    plug ctx (T c p l sk (plug sctx (T sc b Leaf sk sr)))) by (by rewrite plug_app).
    eapply wp_mono; [eapply remove_bottom_ok; [done|by left|by rewrite Hplug]|].
    intros [] s' [Hr' Hl']. rewrite Hq2 in Hl'.
    assert (erased s2 (plug ctx (T c p l sk (plug sctx (T sc b Leaf sk sr))))
              (litems ctx ++ items l) (items (plug sctx (T sc b Leaf sk sr)) ++ ritems ctx) s')
      as (t' & b' & H1 & H2 & H3 & H4 & H5).
    { eapply (erase_last _ _ _ _ _ Leaf); [by rewrite Hplug|done|by left| |done|by rewrite Hq2].
      rewrite litems_app, ritems_app, items_plug, Hlit. simpl.
      rewrite !fmap_app. simpl. by rewrite <- !(assoc_L (++)). }
    exists t', b'. split_and!; [done|done|done| |by rewrite <- Hq2].
    rewrite <- H4. unfold addrs. rewrite !items_plug. simpl. by rewrite !fmap_app.
Qed.
End Erase.
