(* ===== verification/RbtFind.v ===== *)
(** The reading operations of [include/lib/rbtree.h] ([find_ge], [find_le],
    [get_key], [walk]), and the contract of the whole template: a balanced
    search tree that behaves as a sorted list of keys. *)
From S2P Require Import Prelude Rbt RbTree RbtRep RbtOps RbtInsert RbtErase.

Section Find.
Context {K P : Type} `{!KeyLt K} `{!NodeAlloc P} `{!NodeAllocLaws P}.
Context {NIL : Z} `{HNIL : !NilAddr NIL}.
Implicit Types (t x y z : tree K) (ctx : list (frame K)).
Implicit Types (s : rbt K P) (E : string → Prop).
Local Abbreviation repr := (repr NIL).
Local Abbreviation cview := (cview NIL).
Local Abbreviation addr := (addr NIL).

Lemma cview_addr_ne s ctx c a l k r : cview s ctx (T c a l k r) → (a =? NIL) = false.
Proof.
  intros Hv. apply Z.eqb_neq. eapply cview_ne_NIL; [done|]. rewrite addrs_T. set_solver.
Qed.

Lemma do_find_ge_ok fuel v s ctx t pos E :
  (height t < fuel)%nat → cview s ctx t →
  wp (do_find_ge NIL fuel v (addr t) pos) (λ a s', a = first_ge v t pos ∧ s' = s) E s.
Proof.
  revert ctx t pos; induction fuel as [|fuel IH]; intros ctx t pos Hf Hv; [lia|].
  destruct t as [|c a l k r]; simpl do_find_ge; [by rewrite Z.eqb_refl|].
  rewrite (cview_addr_ne _ _ _ _ _ _ _ Hv).
  eapply wp_bind, wp_rd; [by eapply cview_lookup|]. simpl in *.
  destruct (key_lt k v).
  - eapply (IH (F true c a k l :: ctx)); [lia|]. by apply cview_up.
  - eapply (IH (F false c a k r :: ctx)); [lia|]. by apply cview_up.
Qed.

Lemma do_find_le_ok `{!KeyLe K} `{!KeyLeLaws K} fuel v s ctx t pos E :
  (height t < fuel)%nat → cview s ctx t →
  wp (do_find_le NIL fuel v (addr t) pos) (λ a s', a = last_le v t pos ∧ s' = s) E s.
Proof.
  revert ctx t pos; induction fuel as [|fuel IH]; intros ctx t pos Hf Hv; [lia|].
  destruct t as [|c a l k r]; simpl do_find_le; [by rewrite Z.eqb_refl|].
  rewrite (cview_addr_ne _ _ _ _ _ _ _ Hv).
  eapply wp_bind, wp_rd; [by eapply cview_lookup|]. simpl in *. rewrite key_le_lt.
  destruct (negb (key_lt v k)).
  - eapply (IH (F true c a k l :: ctx)); [lia|]. by apply cview_up.
  - eapply (IH (F false c a k r :: ctx)); [lia|]. by apply cview_up.
Qed.

Lemma repr_item_ne s t a k l1 l2 : repr s t → items t = l1 ++ (a, k) :: l2 → (a =? NIL) = false.
Proof.
  intros Hr Hit. apply Z.eqb_neq. apply (repr_cview NIL s []) in Hr.
  eapply (cview_ne_NIL s [] t); [done|]. simpl. rewrite app_nil_r. unfold addrs.
  rewrite Hit, fmap_app. set_solver.
Qed.

Lemma find_ge_refines `{!KeyLtLaws K} s t v E :
  repr s t → sorted (items t) →
  wp (find_ge NIL v) (λ a s', s' = s ∧ ge_spec v (items t) 0 a) E s.
Proof.
  intros Hr Hs. pose proof (proj1 (repr_cview NIL s [] t) Hr) as Hv.
  unfold find_ge. apply wp_bind, wp_get. rewrite (repr_root _ _ _ Hr).
  pose proof (repr_fuel _ [] t Hr). apply wp_bind.
  eapply wp_mono; [eapply do_find_ge_ok; [simpl in *; lia|done]|].
  intros a ? [-> ->]. destruct (first_ge_spec v t NIL Hs) as [[-> Hb]|(l1 & k & l2 & Hit & Hb & Hk)].
  - rewrite Z.eqb_refl. apply wp_ret. split; [done|]. by left.
  - rewrite (repr_item_ne _ _ _ _ _ _ Hr Hit). apply wp_ret. split; [done|]. right. by exists l1, k, l2.
Qed.

Lemma find_le_refines `{!KeyLtLaws K} `{!KeyLe K} `{!KeyLeLaws K} s t v E :
  repr s t → sorted (items t) →
  wp (find_le NIL v) (λ a s', s' = s ∧ le_spec v (items t) 0 a) E s.
Proof.
  intros Hr Hs. pose proof (proj1 (repr_cview NIL s [] t) Hr) as Hv.
  unfold find_le. apply wp_bind, wp_get. rewrite (repr_root _ _ _ Hr).
  pose proof (repr_fuel _ [] t Hr). apply wp_bind.
  eapply wp_mono; [eapply do_find_le_ok; [simpl in *; lia|done]|].
  intros a ? [-> ->]. destruct (last_le_spec v t NIL Hs) as [[-> Hb]|(l1 & k & l2 & Hit & Hk & Hb)].
  - rewrite Z.eqb_refl. apply wp_ret. split; [done|]. by left.
  - rewrite (repr_item_ne _ _ _ _ _ _ Hr Hit). apply wp_ret. split; [done|]. right. by exists l1, k, l2.
Qed.

Lemma get_key_ok s t a k E :
  repr s t → (a, k) ∈ items t → wp (get_key a) (λ k' s', k' = k ∧ s' = s) E s.
Proof.
  intros Hr Hin. destruct (focus_at t a k Hin) as (ctx & c & l & r & ->).
  apply repr_cview in Hr. eapply wp_bind, wp_rd; [by eapply cview_lookup|]. done.
Qed.

Lemma do_walk_ok fuel s ctx t E :
  (height t < fuel)%nat → cview s ctx t →
  wp (do_walk NIL fuel (addr t)) (λ l s', l = elems t ∧ s' = s) E s.
Proof.
  revert ctx t; induction fuel as [|fuel IH]; intros ctx t Hf Hv; [lia|].
  destruct t as [|c a l k r]; simpl do_walk; [by rewrite Z.eqb_refl|].
  rewrite (cview_addr_ne _ _ _ _ _ _ _ Hv).
  eapply wp_bind, wp_rd; [by eapply cview_lookup|]. simpl in *.
  apply wp_bind. eapply wp_mono; [eapply (IH (F false c a k r :: ctx)); [lia|by apply cview_up]|].
  intros ? ? [-> ->].
  apply wp_bind. eapply wp_mono; [eapply (IH (F true c a k l :: ctx)); [lia|by apply cview_up]|].
  intros ? ? [-> ->]. apply wp_ret. split; [|done]. unfold elems. simpl. by rewrite fmap_app.
Qed.

Lemma walk_refines s t E :
  repr s t → wp (walk NIL) (λ l s', l = elems t ∧ s' = s) E s.
Proof.
  intros Hr. unfold walk. apply wp_bind, wp_get. rewrite (repr_root _ _ _ Hr).
  pose proof (repr_fuel _ [] t Hr) as Hf. simpl in Hf.
  apply (do_walk_ok _ _ []); [lia|]. by apply repr_cview.
Qed.
End Find.

(** * The contract of [Rbt<Key_t>] *)
Section Contract.
Context {K P : Type} `{!KeyLt K} `{!KeyLtLaws K} `{!NodeAlloc P} `{!NodeAllocLaws P}.
Context {NIL : Z} `{HNIL : !NilAddr NIL}.
Context (junk : node K).
Implicit Types (t : tree K) (s : rbt K P) (v k : K).

(** A tree object in good order, holding the keys [l] in this order at the
    paired addresses. *)
Definition rbt_ok s (l : list (Z * K)) : Prop :=
  ∃ t, repr NIL s t ∧ rb_ok t ∧ items t = l ∧ sorted l.

Lemma rbt_ok_sorted s l : rbt_ok s l → sorted l.
Proof. by intros (t & _ & _ & _ & Hs). Qed.

Lemma rbt_ok_NoDup s l : rbt_ok s l → NoDup l.*1.
Proof. intros (t & Hr & _ & <- & _). apply (repr_nodup _ _ _ Hr). Qed.

Lemma rbt_ok_live s l a : rbt_ok s l → a ∈ l.*1 → pool_region a ∧ a ∈ pool_live (pool s).
Proof. intros (t & Hr & _ & <- & _). apply (repr_region _ _ _ Hr). Qed.

Lemma rbt_ok_pool s l : rbt_ok s l → pool_inv (pool s).
Proof. intros (t & Hr & _ & <- & _). apply (repr_pool _ _ _ Hr). Qed.

(** The tree is unaffected by what others do to its allocator. *)
Lemma rbt_ok_pool_to (ns : gmap Z (node K)) r q q' l :
  rbt_ok (MkRbt ns r q) l → pool_inv q' → (∀ a, a ∈ l.*1 → a ∈ pool_live q') → rbt_ok (MkRbt ns r q') l.
Proof.
  intros (t & Hr & Hrb & Hit & Hs) Hq Hl. exists t. split_and!; try done.
  destruct Hr as [? ? ? ? Hreg ?]. split; try done.
  intros a Ha. split; [apply Hreg, Ha|]. apply Hl. by rewrite <- Hit.
Qed.

(** The constructor makes an empty tree. *)
Lemma Rbt_init_ok mem q nil0 : pool_inv q → rbt_ok (Rbt_init NIL mem q nil0) [].
Proof.
  intros Hq. exists Leaf. split_and!; [|by exists 0%nat; constructor|done|constructor].
  split; simpl; try done; [|constructor|intros a Ha; by apply elem_of_nil in Ha].
  exists NIL, (key nil0). rewrite lookup_insert_eq. split; [|apply NIL_valid].
  rewrite fresh_black. change 1 with (cbit Black). rewrite lor_cbit; [done|]. apply NIL_valid.
Qed.

Lemma insert_ok s l v :
  rbt_ok s l → pool_ready (pool s) →
  wp (insert NIL junk v)
    (λ _ s', ∃ a l1 l2, l = l1 ++ l2 ∧ below v l1 ∧ above v l2 ∧
       rbt_ok s' (l1 ++ (a, v) :: l2) ∧ a ∉ pool_live (pool s) ∧
       pool_live (pool s') = {[a]} ∪ pool_live (pool s) ∧ pool_gives (pool s) a)
    (λ msg, ¬ pool_room (pool s) ∧ msg = pool_full) s.
Proof.
  intros (t & Hr & Hrb & <- & Hs) Hrdy.
  eapply wp_mono; [by apply insert_refines|]. intros _ s' (a & Hr' & _ & Hfresh & Hlive & Hgv).
  destruct (items_insert_tree v a t Hs) as (l1 & l2 & Hit & Hit' & Hb & Ha).
  exists a, l1, l2. split_and!; try done. exists (insert_tree v a t).
  split_and!; [done| |done|].
  - by apply insert_tree_rb.
  - rewrite Hit in Hs. by apply sorted_insert.
Qed.

Lemma erase_ok s l1 p k l2 E :
  rbt_ok s (l1 ++ (p, k) :: l2) →
  wp (erase NIL p)
    (λ _ s', ∃ l' b, rbt_ok s' l' ∧ l'.*2 = l1.*2 ++ l2.*2 ∧
       (l1 ++ (p, k) :: l2).*1 ≡ₚ b :: l'.*1 ∧
       pool_live (pool s') = pool_live (pool s) ∖ {[b]}) E s.
Proof.
  intros (t & Hr & Hrb & Hit & Hs).
  eapply wp_mono; [by eapply erase_refines|]. intros _ s' (t' & b & Hr' & Hrb' & Hel & Had & Hl).
  exists (items t'), b. split_and!; [|done|by rewrite <- Hit|done].
  exists t'. split_and!; [done..|].
  apply (sorted_app l1 ((p, k) :: l2)) in Hs as (H1 & H2 & H3).
  unfold sorted, elems in *. rewrite Hel, <- fmap_app. apply sorted_app.
  apply (sorted_app [(p, k)] l2) in H2 as (_ & H2 & _).
  split_and!; [done..|]. intros x y Hx Hy. apply H3; [done|set_solver].
Qed.

Lemma find_ge_ok s l v E :
  rbt_ok s l → wp (find_ge NIL v) (λ a s', s' = s ∧ ge_spec v l 0 a) E s.
Proof. intros (t & Hr & Hrb & <- & Hs). by apply find_ge_refines. Qed.

Lemma find_le_ok `{!KeyLe K} `{!KeyLeLaws K} s l v E :
  rbt_ok s l → wp (find_le NIL v) (λ a s', s' = s ∧ le_spec v l 0 a) E s.
Proof. intros (t & Hr & Hrb & <- & Hs). by apply find_le_refines. Qed.

Lemma rbt_get_key_ok s l a k E :
  rbt_ok s l → (a, k) ∈ l → wp (get_key a) (λ k' s', k' = k ∧ s' = s) E s.
Proof. intros (t & Hr & Hrb & <- & Hs). by eapply (get_key_ok (NIL:=NIL)). Qed.

Lemma walk_ok s l E : rbt_ok s l → wp (walk NIL) (λ ks s', ks = l.*2 ∧ s' = s) E s.
Proof. intros (t & Hr & Hrb & <- & Hs). by apply walk_refines. Qed.
End Contract.

Global Arguments rbt_ok {K P _ _ _} NIL s l.
