(* ===== verification/RbtCheck.v ===== *)
(** [check] of [include/lib/rbtree.h], compiled with [RBT_DEBUG]: it accepts
    every tree the operations make, and what it accepts is balanced. *)
From S2P Require Import Prelude Rbt RbTree RbtRep RbtOps RbtInsert RbtErase RbtFind.

Section Check.
Context {K P : Type} `{!KeyLt K} `{!KeyLtLaws K} `{!NodeAlloc P} `{!NodeAllocLaws P}.
Context {NIL : Z} `{HNIL : !NilAddr NIL}.
Implicit Types (t l r : tree K) (ctx : list (frame K)) (s : rbt K P) (c : color) (k : K).
#[local] Abbreviation cview := (cview NIL).
#[local] Abbreviation addr := (addr NIL).

(** * What is checked *)
(** a child's key on the wrong side of its parent's *)
Definition misplaced (dir : bool) k t : bool :=
  match t with Leaf => false | T _ _ _ k' _ => if dir then key_lt k' k else key_lt k k' end.
Definition cblack c : Z := if bool_decide (c = Black) then 1 else 0.
(** the black nodes of every path, if the tree passes *)
Fixpoint tree_check t : option Z :=
  match t with
  | Leaf => Some 0
  | T c _ l k r =>
    match tree_check l, tree_check r with
    | Some nl, Some nr =>
      if misplaced false k l || misplaced true k r || negb (nl =? nr) then None else Some (nl + cblack c)
    | _, _ => None
    end
  end.
(** the black nodes on the way to each leaf *)
Fixpoint paths t : list Z :=
  match t with Leaf => [0] | T c _ l _ r => (λ n, n + cblack c) <$> (paths l ++ paths r) end.

Lemma check_paths t n : tree_check t = Some n → Forall (λ m, m = n) (paths t).
Proof.
  revert n; induction t as [|c a l IHl k r IHr]; intros n Hc; simpl in *.
  - injection Hc as <-. by repeat constructor.
  - destruct (tree_check l) as [nl|], (tree_check r) as [nr|]; try done.
    destruct (misplaced false k l || misplaced true k r); [done|]. destruct (Z.eqb_spec nl nr) as [->|]; [|done].
    injection Hc as <-.
    rewrite Forall_fmap. apply Forall_app. split.
    + eapply Forall_impl; [by apply IHl|]. by intros m ->.
    + eapply Forall_impl; [by apply IHr|]. by intros m ->.
Qed.
Lemma rb_check c n t : rb c n t → sorted (items t) → tree_check t = Some (Z.of_nat n).
Proof.
  induction 1 as [|n a l k r Hl IHl Hr IHr|n a c1 c2 l k r Hl IHl Hr IHr]; intros Hs; [done| |].
  all: simpl in *; apply sorted_app in Hs as (Hsl & Hs & Hlr); apply (sorted_app [(a, k)]) in Hs as (_ & Hsr & Hkr).
  all: assert (H : misplaced false k l = false) by (destruct l as [|? b ? k' ?]; [reflexivity|]; simpl in *; apply (Hlr (b, k') (a, k)); set_solver).
  all: assert (H0 : misplaced true k r = false) by (destruct r as [|? b ? k' ?]; [reflexivity|]; simpl in *; apply (Hkr (a, k) (b, k')); set_solver).
  all: rewrite IHl, IHr by done; rewrite H, H0, Z.eqb_refl; unfold cblack; cbn [orb negb]; f_equal;
    rewrite ?bool_decide_eq_true_2, ?bool_decide_eq_false_2 by done; lia.
Qed.

(** * The pointers *)
Lemma rd_run s p (n : node K) : nodes s !! p = Some n → rd p s = Ret (n, s).
Proof. unfold rd. by intros ->. Qed.
(** what one turn of the loop, and the whole, come to *)
Definition outcome s (r : option Z) (o : res (Z * rbt K P)) : Prop :=
  match r with Some n => o = Ret (n, s) | None => ∃ msg, o = Panic msg end.
Lemma check_child_run again s ctx c a l k r (dir : bool) :
  cview s ctx (T c a l k r) → (let t := if dir then r else l in t ≠ Leaf → outcome s (tree_check t) (again (addr t) s)) →
  outcome s (let t := if dir then r else l in n ← tree_check t; if misplaced dir k t then None else Some n)
    (check_child NIL again a dir s).
Proof.
  intros Hv. set (t := if dir then r else l). cbv zeta. intros Hag. unfold check_child.
  pose proof (cview_lookup _ _ _ _ _ _ _ Hv) as Hn. rewrite (run_bind _ _ _ _ _ (rd_run _ _ _ Hn)).
  assert (Hch : get_ch (Node (pac (caddr NIL ctx) c) (addr l) (addr r) k) dir = addr t) by (unfold t; by destruct dir).
  rewrite Hch. destruct t as [|c' b l' k' r'] eqn:Ht; [by rewrite Z.eqb_refl|].
  assert (Hvt : ∃ f, cview s (f :: ctx) (T c' b l' k' r') ∧ caddr NIL (f :: ctx) = a).
  { destruct dir; unfold t in Ht; subst.
    - exists (F true c a k l). split; [by apply cview_up|done].
    - exists (F false c a k r). split; [by apply cview_up|done]. }
  destruct Hvt as (f & Hvt & Hpar). change (addr (T c' b l' k' r')) with b in *. rewrite (cview_addr_ne _ _ _ _ _ _ _ Hvt).
  specialize (Hag ltac:(done)). destruct (tree_check (T c' b l' k' r')) as [n|]; cbn [outcome] in Hag.
  2:{ destruct Hag as [msg Hag]. exists msg. unfold mbind, M_bind. by rewrite Hag. }
  rewrite (run_bind _ _ _ _ _ Hag), (run_bind _ _ _ _ _ (rd_run _ _ _ Hn)).
  pose proof (cview_lookup _ _ _ _ _ _ _ Hvt) as Hb. rewrite (run_bind _ _ _ _ _ (rd_run _ _ _ Hb)). rewrite Hpar. cbn [key].
  assert (Hmp : (if dir then key_lt k' k else key_lt k k') = misplaced dir k (T c' b l' k' r')) by done. rewrite Hmp.
  cbn [mbind option_bind]. destruct (misplaced dir k (T c' b l' k' r')); [by eexists|].
  rewrite get_par_pac, Z.eqb_refl; [done|]. rewrite <- Hpar. by eapply cview_caddr_valid.
Qed.
Lemma run_fail {A B} (m : M (rbt K P) A) (f : A → M (rbt K P) B) s msg : m s = Panic msg → (m ≫= f) s = Panic msg.
Proof. unfold mbind, M_bind. by intros ->. Qed.
Lemma do_check_run fuel s ctx t :
  (height t < fuel)%nat → cview s ctx t → outcome s (tree_check t) (do_check NIL fuel (addr t) s).
Proof.
  revert ctx t; induction fuel as [|fuel IH]; intros ctx t Hf Hv; [lia|]. cbn [do_check].
  destruct t as [|c a l k r]; [by rewrite Z.eqb_refl|]. change (addr (T c a l k r)) with a.
  rewrite (cview_addr_ne _ _ _ _ _ _ _ Hv). simpl height in Hf.
  assert (Hl := check_child_run (do_check NIL fuel) s ctx c a l k r false Hv). cbv zeta in Hl.
  assert (Hr := check_child_run (do_check NIL fuel) s ctx c a l k r true Hv). cbv zeta in Hr.
  specialize (Hl (λ _, IH (F false c a k r :: ctx) l ltac:(lia) (proj2 (cview_up s (F false c a k r) ctx l) Hv))).
  specialize (Hr (λ _, IH (F true c a k l :: ctx) r ltac:(lia) (proj2 (cview_up s (F true c a k l) ctx r) Hv))).
  cbn [tree_check]. destruct (tree_check l) as [nl|]; cbn [mbind option_bind] in Hl.
  2:{ destruct Hl as [msg Hl]. exists msg. by apply run_fail. }
  destruct (misplaced false k l); cbn [outcome orb] in *.
  { destruct Hl as [msg Hl]. destruct (tree_check r); exists msg; by apply run_fail. }
  rewrite (run_bind _ _ _ _ _ Hl). destruct (tree_check r) as [nr|]; cbn [mbind option_bind] in Hr.
  2:{ destruct Hr as [msg Hr]. exists msg. by apply run_fail. }
  destruct (misplaced true k r); cbn [outcome orb] in *.
  { destruct Hr as [msg Hr]. exists msg. by apply run_fail. }
  rewrite (run_bind _ _ _ _ _ Hr). destruct (nl =? nr); cbn [negb outcome]; [|by eexists].
  rewrite (run_bind _ _ _ _ _ (rd_run _ _ _ (cview_lookup _ _ _ _ _ _ _ Hv))).
  rewrite is_black_pac by (by eapply cview_caddr_valid). unfold cblack. by destruct c.
Qed.

(** * The whole of [check] *)
Lemma check_run s t : repr NIL s t →
  match tree_check t with
  | Some n => check NIL s = Ret (if bool_decide (col t = Black) then [] else ["root is not black"%string], s)
  | None => ∃ msg, check NIL s = Panic msg
  end.
Proof.
  intros Hr. pose proof (proj1 (repr_cview NIL s [] t) Hr) as Hv. unfold check. rewrite (run_bind get _ s s s) by done.
  rewrite (repr_root _ _ _ Hr). pose proof (repr_fuel _ [] t Hr) as Hf. cbn [length plug] in Hf.
  pose proof (do_check_run (fuel_of s) s [] t ltac:(lia) Hv) as Hc.
  destruct (tree_check t) as [n|]; cbn [outcome] in Hc; [|destruct Hc as [msg Hc]; exists msg; by apply run_fail].
  rewrite (run_bind _ _ _ _ _ Hc).
  destruct (sub_lookup (NIL:=NIL) (nodes s) NIL t) as (rn & Hrn & _ & Hbl); [apply (repr_nil _ _ _ Hr)|apply (repr_tree _ _ _ Hr)|apply NIL_valid|].
  rewrite (run_bind _ _ _ _ _ (rd_run _ _ _ Hrn)). destruct (repr_nil _ _ _ Hr) as (p & k & Hn & Hp).
  rewrite (run_bind _ _ _ _ _ (rd_run _ _ _ Hn)), Hbl, is_black_pac by done. cbn [ch0 ch1]. rewrite Z.eqb_refl.
  by destruct (bool_decide (col t = Black)).
Qed.
(** [check] says nothing about a tree the operations have made. *)
Lemma check_accepts s (ks : list (Z * K)) : rbt_ok NIL s ks → check NIL s = Ret ([], s).
Proof.
  intros (t & Hr & [n Hrb] & <- & Hs). pose proof (check_run s t Hr) as Hc. rewrite (rb_check _ _ _ Hrb Hs) in Hc.
  by rewrite (rb_col _ _ _ Hrb) in Hc.
Qed.
(** What it accepts has as many black nodes on every path. *)
Lemma check_balanced s t out s' : repr NIL s t → check NIL s = Ret (out, s') → s' = s ∧ ∃ n, Forall (λ m, m = n) (paths t).
Proof.
  intros Hr Hrun. pose proof (check_run s t Hr) as Hc. destruct (tree_check t) as [n|] eqn:Ht.
  - rewrite Hc in Hrun. split; [by injection Hrun|]. exists n. by apply check_paths.
  - destruct Hc as [msg Hc]. congruence.
Qed.
End Check.
