(* ===== verification/Common.v ===== *)
(** [include/common.h]: the constants and helpers every component uses. *)
From S2P Require Import Prelude.

(** * [common.h] *)
Definition get_aligned (addr palign : Z) : Z :=
  if addr =? 0 then 0
  else u32 (Z.shiftl (u32 (Z.shiftr (u32 (addr - 1)) palign + 1)) palign).

(** [max] and [min], instantiated at the unsigned and signed types in use *)
Definition cmax (a b : Z) : Z := if b <? a then a else b.
Definition cmin (a b : Z) : Z := if a <? b then a else b.

Definition CLOCK_TICK_RATE : Z := 1193180.
Definition KERNEL_HZ : Z := 50.
Definition KERNEL_STACK_POS : Z := 0xFFFFF000.
Definition KERNEL_STACK_SIZE : Z := 4 * 1024.
Definition KERNEL_HEAP_END : Z := Z.land (KERNEL_STACK_POS - KERNEL_STACK_SIZE) 0xFFC00000.
Definition KERNEL_HEAP_BEGIN : Z := KERNEL_HEAP_END - 256 * 1024 * 1024.

(** [addr & 0xFFFFF000] *)
Definition page_floor (addr : Z) : Z := Z.land addr 0xFFFFF000.

(** * Facts *)
Lemma KERNEL_HEAP_END_eq : KERNEL_HEAP_END = 0xFFC00000.
Proof. reflexivity. Qed.
Lemma KERNEL_HEAP_BEGIN_eq : KERNEL_HEAP_BEGIN = 0xEFC00000.
Proof. reflexivity. Qed.

Lemma u32_small z : 0 ≤ z < 2 ^ 32 → u32 z = z.
Proof. apply Z.mod_small. Qed.

Lemma u32_range z : 0 ≤ u32 z < 2 ^ 32.
Proof. apply Z.mod_pos_bound. lia. Qed.

(** [get_aligned] without the wrap: the next multiple of [2^p]. *)
Lemma get_aligned_eq addr p :
  0 ≤ p ≤ 31 → 0 ≤ addr → addr + 2 ^ p ≤ 2 ^ 32 →
  get_aligned addr p = (addr + 2 ^ p - 1) / 2 ^ p * 2 ^ p.
Proof.
  intros Hp Ha Hb. unfold get_aligned.
  assert (0 < 2 ^ p) by (apply Z.pow_pos_nonneg; lia).
  destruct (Z.eqb_spec addr 0) as [->|Hne].
  { rewrite Z.add_0_l, Z.div_small by lia. lia. }
  rewrite (u32_small (addr - 1)) by lia.
  rewrite Z.shiftr_div_pow2, Z.shiftl_mul_pow2 by lia.
  replace (addr + 2 ^ p - 1) with ((addr - 1) + 1 * 2 ^ p) by lia.
  rewrite Z.div_add by lia.
  pose proof (Z.mul_div_le (addr - 1) (2 ^ p) ltac:(lia)).
  assert (0 ≤ (addr - 1) / 2 ^ p) by (apply Z.div_pos; lia).
  set (x := (addr - 1) / 2 ^ p) in *. set (y := 2 ^ p) in *.
  assert ((x + 1) * y < 2 ^ 32) by lia.
  assert (x + 1 ≤ (x + 1) * y) by nia.
  by rewrite (u32_small (x + 1)), u32_small by nia.
Qed.

Lemma get_aligned_spec addr p :
  0 ≤ p ≤ 31 → 0 ≤ addr → addr + 2 ^ p ≤ 2 ^ 32 →
  addr ≤ get_aligned addr p < addr + 2 ^ p ∧ get_aligned addr p mod 2 ^ p = 0.
Proof.
  intros Hp Ha Hb. rewrite get_aligned_eq by done.
  assert (0 < 2 ^ p) by (apply Z.pow_pos_nonneg; lia).
  split; [|by apply Z.mod_mul; lia].
  pose proof (Z.div_mod (addr + 2 ^ p - 1) (2 ^ p) ltac:(lia)).
  pose proof (Z.mod_pos_bound (addr + 2 ^ p - 1) (2 ^ p) ltac:(lia)). lia.
Qed.

Lemma testbit_high z n i : 0 ≤ z < 2 ^ n → n ≤ i → Z.testbit z i = false.
Proof.
  intros Hz Hi. destruct (Z.ltb_spec n 0).
  { rewrite (Z.pow_neg_r 2 n) in Hz by lia. lia. }
  rewrite <- (Z.mod_small z (2 ^ n)) by done. apply Z.mod_pow2_bits_high. lia.
Qed.

Lemma page_floor_eq addr : 0 ≤ addr < 2 ^ 32 → page_floor addr = addr / 2 ^ 12 * 2 ^ 12.
Proof.
  intros Ha. unfold page_floor. rewrite <- Z.shiftr_div_pow2, <- Z.shiftl_mul_pow2 by lia.
  change 0xFFFFF000 with (Z.shiftl (Z.ones 20) 12). apply Z.bits_inj'. intros i Hi.
  rewrite Z.land_spec. destruct (Z.lt_ge_cases i 12).
  { rewrite !(Z.shiftl_spec_low _ 12) by lia. by rewrite andb_false_r. }
  rewrite !Z.shiftl_spec_high, Z.shiftr_spec, Z.testbit_ones_nonneg by lia.
  replace (i - 12 + 12) with i by lia. destruct (Z.ltb_spec (i - 12) 20) as [Hlt|Hge].
  { by rewrite andb_true_r. }
  rewrite (testbit_high addr 32); [done|done|lia].
Qed.

Lemma page_floor_spec addr :
  0 ≤ addr < 2 ^ 32 → page_floor addr ≤ addr < page_floor addr + 4096 ∧ page_floor addr mod 4096 = 0.
Proof.
  intros Ha. rewrite page_floor_eq by done. change (2 ^ 12) with 4096.
  pose proof (Z.div_mod addr 4096 ltac:(lia)). pose proof (Z.mod_pos_bound addr 4096 ltac:(lia)).
  rewrite Z.mod_mul by lia. lia.
Qed.

(** No multiple lies strictly between a value and its rounding. *)
Lemma get_aligned_le addr p e :
  0 ≤ p ≤ 31 → 0 ≤ addr → addr + 2 ^ p ≤ 2 ^ 32 → e mod 2 ^ p = 0 → addr ≤ e →
  get_aligned addr p ≤ e.
Proof.
  intros Hp Ha Hb He Hle. destruct (get_aligned_spec addr p Hp Ha Hb) as [Hg Hm].
  assert (0 < 2 ^ p) by (apply Z.pow_pos_nonneg; lia).
  apply Z.mod_divide in He as [q ->]; [|lia]. apply Z.mod_divide in Hm as [r Hr]; [|lia].
  rewrite Hr in *. set (y := 2 ^ p) in *.
  assert (r < q + 1) by (apply (Z.mul_lt_mono_pos_r y); lia). nia.
Qed.
Lemma page_floor_ge addr e :
  0 ≤ addr < 2 ^ 32 → e mod 4096 = 0 → e ≤ addr → e ≤ page_floor addr.
Proof.
  intros Ha He Hle. destruct (page_floor_spec addr Ha) as [Hg Hm].
  apply Z.mod_divide in He as [q ->]; [|lia]. apply Z.mod_divide in Hm as [r Hr]; [|lia].
  rewrite Hr in *. nia.
Qed.
