(* ===== verification/TreeMm.v ===== *)
(** [Tree_mm] of [core/kheap.cpp]: the node allocator of the kernel heap's two
    trees, and the proof that it is one the tree template can use. *)
From S2P Require Import Prelude Rbt RbtRep.

(** Addresses the linker chooses for the objects of [kheap.cpp]. *)
Class HeapLink := {
  static_mem : Z;
  kernel_img_end : Z;
  NIL_size : Z;
  NIL_start : Z
}.

Definition STATIC_SIZE : Z := 1024.
(** [sizeof(Rbt<Block_t>::Node)]: the word, two children, a 8-byte key *)
Definition TREE_NODE_SIZE : Z := 20.
Definition STATIC_MEM_SIZE : Z := STATIC_SIZE * TREE_NODE_SIZE.

Record tree_mm : Type := TreeMM {
  freed : list Z;
  nstatic_mem : Z;
  nfreed : Z
}.

(** The state before the first allocation. *)
Definition tree_mm_start : tree_mm := TreeMM (replicate (Z.to_nat STATIC_SIZE) 0) 0 0.

Section Ops.
Context `{HeapLink}.

Definition no_tree_node : string := "run out of kernel heap".
Definition mm_alloc : M tree_mm Z := λ q,
  if negb (nfreed q =? 0) then
    match freed q !! Z.to_nat (nfreed q - 1) with
    | Some p => Ret (p, TreeMM (freed q) (nstatic_mem q) (nfreed q - 1))
    | None => Fault
    end
  else if STATIC_MEM_SIZE <=? nstatic_mem q + TREE_NODE_SIZE then
    Panic no_tree_node
  else
    Ret (static_mem + nstatic_mem q,
         TreeMM (freed q) (nstatic_mem q + TREE_NODE_SIZE) (nfreed q)).

Definition mm_free (ptr : Z) : M tree_mm unit := λ q,
  if decide (Z.to_nat (nfreed q) < length (freed q))%nat then
    Ret (tt, TreeMM (<[Z.to_nat (nfreed q):=ptr]> (freed q)) (nstatic_mem q) (nfreed q + 1))
  else Fault.

Global Instance tree_mm_alloc : NodeAlloc tree_mm :=
  {| node_alloc := mm_alloc; node_free := mm_free |}.
End Ops.

(** What the model relies on the linker for: the node array is aligned and in
    the address space, and the two sentinels are elsewhere. *)
Class HeapLinkOk `{HeapLink} : Prop := {
  static_mem_even : Z.even static_mem = true;
  static_mem_range : 0 < static_mem ∧ static_mem + STATIC_MEM_SIZE ≤ 2 ^ 32;
  NIL_size_valid : valid_addr NIL_size;
  NIL_start_valid : valid_addr NIL_start;
  NIL_size_out : ¬ (static_mem ≤ NIL_size < static_mem + STATIC_MEM_SIZE);
  NIL_start_out : ¬ (static_mem ≤ NIL_start < static_mem + STATIC_MEM_SIZE)
}.

Section Laws.
Context `{HeapLinkOk}.
Implicit Types (q : tree_mm) (a : Z).

Definition node_at (i : nat) : Z := static_mem + TREE_NODE_SIZE * Z.of_nat i.
Definition nodes_upto (k : nat) : gset Z := list_to_set (node_at <$> seq 0 k).
Definition freed_nodes q : list Z := take (Z.to_nat (nfreed q)) (freed q).
Definition nused q : nat := Z.to_nat (nstatic_mem q / TREE_NODE_SIZE).
Definition mm_live q : gset Z := nodes_upto (nused q) ∖ list_to_set (freed_nodes q).

Record mm_inv q : Prop := {
  mm_static : nstatic_mem q = TREE_NODE_SIZE * Z.of_nat (nused q);
  mm_bound : (nused q ≤ 1023)%nat;
  mm_nfreed : 0 ≤ nfreed q ≤ 1024;
  mm_len : length (freed q) = 1024%nat;
  mm_nodup : NoDup (freed_nodes q);
  mm_freed a : a ∈ freed_nodes q → a ∈ nodes_upto (nused q)
}.

Lemma elem_of_nodes_upto a k : a ∈ nodes_upto k ↔ ∃ i, (i < k)%nat ∧ a = node_at i.
Proof.
  unfold nodes_upto. rewrite elem_of_list_to_set, list_elem_of_fmap.
  setoid_rewrite elem_of_seq. split; intros (i & ? & ?); exists i; split; try done; lia.
Qed.

Lemma node_at_inj : Inj (=) (=) node_at.
Proof. intros i j. unfold node_at, TREE_NODE_SIZE. lia. Qed.

Lemma size_nodes_upto k : size (nodes_upto k) = k.
Proof.
  unfold nodes_upto. rewrite size_list_to_set; [by rewrite length_fmap, length_seq|].
  apply (@NoDup_fmap_2 _ _ _ node_at_inj), NoDup_seq.
Qed.

Lemma nodes_upto_S k : nodes_upto (S k) = {[node_at k]} ∪ nodes_upto k.
Proof.
  apply set_eq. intros a. rewrite elem_of_union, elem_of_singleton, !elem_of_nodes_upto.
  split.
  - intros (i & Hi & ->). destruct (decide (i = k)) as [->|]; [by left|].
    right. exists i. split; [lia|done].
  - intros [->|(i & Hi & ->)]; [by exists k; split; [lia|]|]. exists i. split; [lia|done].
Qed.

Lemma mm_live_size q : mm_inv q → size (mm_live q) = (nused q - Z.to_nat (nfreed q))%nat.
Proof.
  intros Hq. unfold mm_live. rewrite size_difference.
  - rewrite size_nodes_upto, size_list_to_set by apply Hq.
    unfold freed_nodes. rewrite length_take, (mm_len _ Hq).
    pose proof (mm_nfreed _ Hq). lia.
  - intros a Ha. apply elem_of_list_to_set in Ha. by apply (mm_freed _ Hq).
Qed.

Lemma nfreed_le q : mm_inv q → (Z.to_nat (nfreed q) ≤ nused q)%nat.
Proof.
  intros Hq.
  assert (list_to_set (freed_nodes q) ⊆ nodes_upto (nused q)) as Hs.
  { intros a Ha. apply elem_of_list_to_set in Ha. by apply (mm_freed _ Hq). }
  apply subseteq_size in Hs.
  rewrite size_nodes_upto, size_list_to_set in Hs by apply Hq.
  unfold freed_nodes in Hs. rewrite length_take, (mm_len _ Hq) in Hs.
  pose proof (mm_nfreed _ Hq). lia.
Qed.

Lemma mm_start_inv : mm_inv tree_mm_start.
Proof.
  split; [done|unfold nused; vm_compute; lia|simpl; lia|done|constructor|].
  intros a Ha. by apply elem_of_nil in Ha.
Qed.

Lemma nused_static q k : nstatic_mem q = TREE_NODE_SIZE * Z.of_nat k → nused q = k.
Proof.
  intros Hs. unfold nused. rewrite Hs, Z.mul_comm, Z.div_mul by done. lia.
Qed.

Definition mm_region a : Prop := ∃ i, (i < 1023)%nat ∧ a = node_at i.

Lemma mm_region_valid a : mm_region a → valid_addr a.
Proof.
  intros (i & Hi & ->). pose proof static_mem_range as Hr. pose proof static_mem_even as He.
  unfold STATIC_MEM_SIZE, STATIC_SIZE, TREE_NODE_SIZE in Hr. unfold node_at, TREE_NODE_SIZE.
  split; [lia|]. rewrite Z.even_add, He, Z.even_mul. done.
Qed.

Lemma mm_alloc_ok q :
  mm_inv q →
  wp mm_alloc (λ a q', mm_region a ∧ a ∉ mm_live q ∧
                       mm_live q' = {[a]} ∪ mm_live q ∧ mm_inv q')
    (λ msg, ¬ (size (mm_live q) < 1023)%nat ∧ msg = no_tree_node) q.
Proof.
  intros Hq. pose proof (nfreed_le _ Hq) as Hle. pose proof (mm_nfreed _ Hq) as Hn.
  pose proof (mm_len _ Hq) as Hlen. pose proof (mm_bound _ Hq) as Hb.
  unfold mm_alloc, wp. destruct (Z.eqb_spec (nfreed q) 0) as [Hz|Hnz]; simpl.
  - destruct (Z.leb_spec STATIC_MEM_SIZE (nstatic_mem q + TREE_NODE_SIZE)) as [Hfull|Hroom].
    + split; [|done]. rewrite mm_live_size, Hz by done. rewrite (mm_static _ Hq) in Hfull.
      unfold STATIC_MEM_SIZE, STATIC_SIZE, TREE_NODE_SIZE in Hfull. lia.
    + rewrite (mm_static _ Hq) in Hroom |- *.
      unfold STATIC_MEM_SIZE, STATIC_SIZE in Hroom.
      assert (Hu : nused (TreeMM (freed q) (TREE_NODE_SIZE * Z.of_nat (nused q) + TREE_NODE_SIZE) (nfreed q))
               = S (nused q)) by (apply nused_static; simpl; lia).
      assert (Hnin : node_at (nused q) ∉ nodes_upto (nused q)).
      { rewrite elem_of_nodes_upto. intros (i & Hi & Heq). apply node_at_inj in Heq. lia. }
      assert (freed_nodes q = []) as Hnil by (unfold freed_nodes; by rewrite Hz).
      split_and!.
      * exists (nused q). unfold TREE_NODE_SIZE in *. split; [lia|done].
      * unfold mm_live. set_solver.
      * unfold mm_live. rewrite Hu, nodes_upto_S. unfold freed_nodes in *; simpl in *.
        rewrite Hnil. set_solver.
      * split; rewrite ?Hu; simpl; try done; [lia|unfold TREE_NODE_SIZE in *; lia| |];
          unfold freed_nodes in *; simpl; rewrite Hnil; [constructor|].
        intros a Ha. by apply elem_of_nil in Ha.
  - destruct (freed q !! Z.to_nat (nfreed q - 1)) as [p|] eqn:Hp.
    2:{ apply lookup_ge_None in Hp. lia. }
    set (q' := TreeMM (freed q) (nstatic_mem q) (nfreed q - 1)).
    assert (Hsnoc : freed_nodes q = freed_nodes q' ++ [p]).
    { unfold freed_nodes; simpl.
      replace (Z.to_nat (nfreed q)) with (S (Z.to_nat (nfreed q - 1))) by lia.
      by apply take_S_r. }
    assert (Hu : nused q' = nused q) by done.
    pose proof (mm_nodup _ Hq) as Hnd. rewrite Hsnoc in Hnd.
    assert (p ∉ freed_nodes q') as Hpn by (nd; set_solver).
    assert (p ∈ nodes_upto (nused q)) as Hpin.
    { apply (mm_freed _ Hq). rewrite Hsnoc. set_solver. }
    split_and!.
    + apply elem_of_nodes_upto in Hpin as (i & Hi & ->). exists i. split; [lia|done].
    + unfold mm_live. rewrite Hsnoc. set_solver.
    + apply set_eq. intros a. unfold mm_live. rewrite Hu, Hsnoc.
      rewrite list_to_set_app, elem_of_union, elem_of_singleton, !elem_of_difference.
      rewrite elem_of_union. destruct (decide (a = p)); set_solver.
    + split; rewrite ?Hu; simpl; try done; try apply Hq; [lia|by nd|].
      intros a Ha. apply (mm_freed _ Hq). rewrite Hsnoc. set_solver.
Qed.

Lemma mm_free_ok q a :
  mm_inv q → a ∈ mm_live q →
  wp (mm_free a) (λ _ q', mm_live q' = mm_live q ∖ {[a]} ∧ mm_inv q') (λ _, False) q.
Proof.
  intros Hq Ha. pose proof (mm_nfreed _ Hq) as Hn. pose proof (mm_len _ Hq) as Hlen.
  pose proof (mm_bound _ Hq) as Hb.
  assert (Hlt : (Z.to_nat (nfreed q) < nused q)%nat).
  { assert (size (mm_live q) ≠ 0)%nat as Hs.
    { intros Hs. apply size_empty_iff in Hs. set_solver. }
    rewrite mm_live_size in Hs by done. lia. }
  unfold mm_free, wp. rewrite decide_True by lia.
  set (q' := TreeMM _ _ _).
  assert (Hsnoc : freed_nodes q' = freed_nodes q ++ [a]).
  { unfold freed_nodes; simpl.
    replace (Z.to_nat (nfreed q + 1)) with (S (Z.to_nat (nfreed q))) by lia.
    rewrite (take_S_r _ _ a) by (apply list_lookup_insert_eq; lia).
    by rewrite take_insert_ge. }
  assert (Hu : nused q' = nused q) by done.
  unfold mm_live in Ha. apply elem_of_difference in Ha as [Hin Hnf].
  rewrite elem_of_list_to_set in Hnf.
  split.
  - unfold mm_live. rewrite Hu, Hsnoc, list_to_set_app_L. set_solver.
  - split; rewrite ?Hu, ?Hsnoc; simpl; try done; try apply Hq; [lia|by rewrite length_insert| |].
    + apply NoDup_app_dj. split_and!; [apply Hq|unfold dj; set_solver|]. apply NoDup_singleton.
    + intros b Hb'. apply elem_of_app in Hb' as [?|Hb']; [by apply (mm_freed _ Hq)|].
      apply list_elem_of_singleton in Hb' as ->. done.
Qed.

Lemma mm_alloc_law q :
  mm_inv q →
  wp mm_alloc (λ a q', mm_region a ∧ a ∉ mm_live q ∧
                       mm_live q' = {[a]} ∪ mm_live q ∧ mm_inv q' ∧ True)
    (λ msg, ¬ (size (mm_live q) < 1023)%nat ∧ msg = no_tree_node) q.
Proof. intros Hq. eapply wp_mono; [by apply mm_alloc_ok|]. naive_solver. Qed.

Global Instance tree_mm_laws : NodeAllocLaws tree_mm := {|
  pool_inv := mm_inv;
  pool_live := mm_live;
  pool_room q := (size (mm_live q) < 1023)%nat;
  pool_full := no_tree_node;
  pool_ready _ := True;
  pool_gives _ _ := True;
  pool_region := mm_region;
  pool_region_valid := mm_region_valid;
  node_alloc_ok q Hq _ := mm_alloc_law q Hq;
  node_free_ok := mm_free_ok
|}.

Lemma mm_region_bounds a : mm_region a → static_mem ≤ a < static_mem + STATIC_MEM_SIZE.
Proof.
  intros (i & Hi & ->). unfold node_at, STATIC_MEM_SIZE, STATIC_SIZE, TREE_NODE_SIZE. lia.
Qed.

Global Instance NIL_size_addr : NilAddr NIL_size.
Proof.
  split; [apply NIL_size_valid|]. intros Hr. apply NIL_size_out. by apply mm_region_bounds.
Qed.
Global Instance NIL_start_addr : NilAddr NIL_start.
Proof.
  split; [apply NIL_start_valid|]. intros Hr. apply NIL_start_out. by apply mm_region_bounds.
Qed.
End Laws.
