(* ===== verification/Kheap.v ===== *)
(** [core/kheap.cpp], [include/kheap.h]: the kernel heap.  The free blocks are
    kept in two red-black trees, one ordered by size and one by start address,
    whose nodes come from one allocator; the pages behind the heap belong to
    the page component, reached through the interface [HeapEnv]. *)
From S2P Require Import Prelude Rbt TreeMm Common.

Record Block_t : Type := Block { start : Z; bsize : Z }.
Definition sizeof_Block_t : Z := 8.

Global Instance Block_t_eq_dec : EqDecision Block_t.
Proof. solve_decision. Defined.

(** The key types of the two trees, with their orders. *)
Inductive Block_size_t : Type := Block_size (b : Block_t).
Inductive Block_start_t : Type := Block_start (b : Block_t).
Definition of_size (k : Block_size_t) : Block_t := let 'Block_size b := k in b.
Definition of_start (k : Block_start_t) : Block_t := let 'Block_start b := k in b.

Definition size_lt (b n : Block_t) : bool :=
  (bsize b <? bsize n) || ((bsize b =? bsize n) && (start b <? start n)).
Definition start_lt (b n : Block_t) : bool :=
  (start b <? start n) || ((start b =? start n) && (bsize b <? bsize n)).
Definition start_le (b n : Block_t) : bool :=
  (start b <? start n) || ((start b =? start n) && (bsize b <=? bsize n)).

Global Instance Block_size_lt : KeyLt Block_size_t := λ k n, size_lt (of_size k) (of_size n).
Global Instance Block_start_lt : KeyLt Block_start_t := λ k n, start_lt (of_start k) (of_start n).
Global Instance Block_start_le : KeyLe Block_start_t := λ k n, start_le (of_start k) (of_start n).

(** The variables of [kheap.cpp]; the two trees share [mm]. *)
Record kheap : Type := Kheap {
  kheap_finish_init_called : bool;
  kheap_static_end : Z;
  size_nodes : gmap Z (node Block_size_t);
  size_root : Z;
  start_nodes : gmap Z (node Block_start_t);
  start_root : Z;
  mm : tree_mm;
  USER_MEM_LOW : Z;
  USER_MEM_HIGH : Z
}.

(** What the memory of a node holds before it is written. *)
Class FreshNode := { fresh_word : Z; fresh_ch0 : Z; fresh_ch1 : Z; fresh_key : Block_t }.

(** What the heap needs of the rest of the kernel: pages, memory, the log. *)
Class HeapEnv (X : Type) := {
  lazy_alloc_interval : Z → Z → bool → bool → bool → M (kheap * X) unit;
  free_interval : Z → Z → M (kheap * X) unit;
  get_page : Z → bool → M (kheap * X) Z;
  mem_write : Z → list Z → M (kheap * X) unit;
  mem_read : Z → nat → M (kheap * X) (list Z);
  log_info : string → list Z → M (kheap * X) unit
}.

(** A [uint32_t] in memory, and the two of a [Block_t]. *)
Definition bytes_of_u32 (z : Z) : list Z :=
  [Z.land z 255; Z.land (Z.shiftr z 8) 255; Z.land (Z.shiftr z 16) 255; Z.land (Z.shiftr z 24) 255].
Definition u32_of_bytes (l : list Z) : Z :=
  foldr (λ b acc, Z.lor b (Z.shiftl acc 8)) 0 l.
Definition bytes_of_block (b : Block_t) : list Z := bytes_of_u32 (start b) ++ bytes_of_u32 (bsize b).
Definition block_of_bytes (l : list Z) : Block_t :=
  Block (u32_of_bytes (take 4 l)) (u32_of_bytes (drop 4 l)).

Definition invalid_free : string := "trting to free invalid memory: addr=%p".
Definition out_of_memory : string := "kernel runs out of memory".

Section Kheap.
Context `{HeapLink} `{FreshNode} {X : Type} `{HeapEnv X}.
#[local] Abbreviation KM := (M (kheap * X)).

Definition fresh_size : node Block_size_t :=
  Node fresh_word fresh_ch0 fresh_ch1 (Block_size fresh_key).
Definition fresh_start : node Block_start_t :=
  Node fresh_word fresh_ch0 fresh_ch1 (Block_start fresh_key).

(** An operation of [tree_size], of [tree_start]. *)
Definition size_tree (h : kheap) : rbt Block_size_t tree_mm :=
  MkRbt (size_nodes h) (size_root h) (mm h).
Definition start_tree (h : kheap) : rbt Block_start_t tree_mm :=
  MkRbt (start_nodes h) (start_root h) (mm h).
Definition with_size_tree (h : kheap) (t : rbt Block_size_t tree_mm) : kheap :=
  Kheap (kheap_finish_init_called h) (kheap_static_end h) (nodes t) (tree_root t)
    (start_nodes h) (start_root h) (pool t) (USER_MEM_LOW h) (USER_MEM_HIGH h).
Definition with_start_tree (h : kheap) (t : rbt Block_start_t tree_mm) : kheap :=
  Kheap (kheap_finish_init_called h) (kheap_static_end h) (size_nodes h) (size_root h)
    (nodes t) (tree_root t) (pool t) (USER_MEM_LOW h) (USER_MEM_HIGH h).
Definition on_size {A} (m : M (rbt Block_size_t tree_mm) A) : KM A := λ '(h, x),
  match m (size_tree h) with
  | Ret (a, t) => Ret (a, (with_size_tree h t, x))
  | Panic msg => Panic msg
  | Fault => Fault
  | NoFuel => NoFuel
  end.
Definition on_start {A} (m : M (rbt Block_start_t tree_mm) A) : KM A := λ '(h, x),
  match m (start_tree h) with
  | Ret (a, t) => Ret (a, (with_start_tree h t, x))
  | Panic msg => Panic msg
  | Fault => Fault
  | NoFuel => NoFuel
  end.

Definition size_find_ge (b : Block_t) : KM Z := on_size (find_ge NIL_size (Block_size b)).
Definition size_erase (p : Z) : KM unit := on_size (erase NIL_size p).
Definition size_insert (b : Block_t) : KM unit :=
  on_size (insert NIL_size fresh_size (Block_size b)).
Definition size_key (p : Z) : KM Block_t := k ← on_size (Rbt.get_key p); mret (of_size k).
Definition start_find_ge (b : Block_t) : KM Z := on_start (find_ge NIL_start (Block_start b)).
Definition start_find_le (b : Block_t) : KM Z := on_start (find_le NIL_start (Block_start b)).
Definition start_erase (p : Z) : KM unit := on_start (erase NIL_start p).
Definition start_insert (b : Block_t) : KM unit :=
  on_start (insert NIL_start fresh_start (Block_start b)).
Definition start_key (p : Z) : KM Block_t := k ← on_start (Rbt.get_key p); mret (of_start k).

Definition kmalloc_pre_init (size palign : Z) : KM Z :=
  '(h, x) ← get;
  let ret := get_aligned (kheap_static_end h) palign in
  put (Kheap (kheap_finish_init_called h) (u32 (ret + size)) (size_nodes h) (size_root h)
         (start_nodes h) (start_root h) (mm h) (USER_MEM_LOW h) (USER_MEM_HIGH h), x) ;;
  mret ret.

(** The two splits of the block [got] that is to hold [size] bytes at [s]. *)
Definition kmalloc_split_high (size s : Z) (got : Block_t) : KM Block_t :=
  if u32 (s + size + sizeof_Block_t * 2) <? u32 (start got + bsize got) then
    let nstart := u32 (s + size) in
    let nblk := Block nstart (u32 (start got + bsize got - nstart)) in
    size_insert nblk ;;
    start_insert nblk ;;
    mret (Block (start got) (u32 (bsize got - bsize nblk)))
  else mret got.
Definition kmalloc_split_low (s : Z) (got : Block_t) : KM Block_t :=
  if sizeof_Block_t * 3 <? u32 (s - start got) then
    let nblk := Block (start got) (u32 (s - start got - sizeof_Block_t)) in
    size_insert nblk ;;
    start_insert nblk ;;
    mret (Block (u32 (start got + bsize nblk)) (u32 (bsize got - bsize nblk)))
  else mret got.

(** The body of [kmalloc]'s loop from the point where the block [got], the
    key of the node [ptr], can hold the request at [s]. *)
Definition kmalloc_carve (size ptr : Z) (got : Block_t) (s : Z) : KM Z :=
  size_erase ptr ;;
  q ← start_find_ge got;
  start_erase q ;;
  got ← kmalloc_split_high size s got;
  got ← kmalloc_split_low s got;
  lazy_alloc_interval (page_floor (u32 (s - sizeof_Block_t))) (get_aligned (u32 (s + size)) 12)
    false true false ;;
  mem_write (u32 (s - sizeof_Block_t)) (bytes_of_block got) ;;
  mret s.

Fixpoint kmalloc_loop (fuel : nat) (size palign : Z) (req : Block_t) : KM Z :=
  match fuel with
  | O => nofuel
  | S fuel =>
    ptr ← size_find_ge req;
    if ptr =? 0 then panic out_of_memory
    else
      got ← size_key ptr;
      let s := get_aligned (u32 (start got + sizeof_Block_t)) palign in
      if u32 (start got + bsize got) <? u32 (s + size) then
        kmalloc_loop fuel size palign (Block (u32 (start got + 1)) (bsize got))
      else kmalloc_carve size ptr got s
  end.

Definition kmalloc (size palign : Z) : KM Z :=
  '(h, _) ← get;
  if negb (kheap_finish_init_called h) then kmalloc_pre_init size palign
  else
    kmalloc_loop (S (base.size (size_nodes h))) size palign
      (Block 0 (u32 (size + sizeof_Block_t))).

(** [kfree]'s merge with the free block on the left, then on the right: the
    block, and the bounds of the range whose pages are released. *)
Definition kfree_left (blk : Block_t) (free_start : Z) : KM (Block_t * Z) :=
  ptr ← start_find_le blk;
  if ptr =? 0 then mret (blk, free_start)
  else
    got ← start_key ptr;
    if start blk <? u32 (start got + bsize got) then panic invalid_free
    else if u32 (start got + bsize got) =? start blk then
      let free_start := cmax (page_floor free_start) (start got) in
      start_erase ptr ;;
      q ← size_find_ge got;
      size_erase q ;;
      mret (Block (start got) (u32 (bsize blk + bsize got)), free_start)
    else mret (blk, free_start).

Definition kfree_right (blk : Block_t) (free_end : Z) : KM (Block_t * Z) :=
  ptr ← start_find_ge blk;
  if ptr =? 0 then mret (blk, free_end)
  else
    got ← start_key ptr;
    if start got <? u32 (start blk + bsize blk) then panic invalid_free
    else if u32 (start blk + bsize blk) =? start got then
      let free_end := cmin (get_aligned free_end 12) (u32 (start blk + bsize blk)) in
      start_erase ptr ;;
      q ← size_find_ge got;
      size_erase q ;;
      mret (Block (start blk) (u32 (bsize blk + bsize got)), free_end)
    else mret (blk, free_end).

Definition kfree (addr : Z) : KM unit :=
  bytes ← mem_read (u32 (addr - sizeof_Block_t)) (Z.to_nat sizeof_Block_t);
  let blk := block_of_bytes bytes in
  if (start blk <? KERNEL_HEAP_BEGIN) || (KERNEL_HEAP_END <? u32 (start blk + bsize blk))
  then panic invalid_free
  else
    let free_start := start blk in
    let free_end := u32 (start blk + bsize blk) in
    '(blk, free_start) ← kfree_left blk free_start;
    '(blk, free_end) ← kfree_right blk free_end;
    start_insert blk ;;
    size_insert blk ;;
    free_interval (get_aligned free_start 12) (page_floor free_end).

Definition kheap_get_size_pre_init : KM Z := '(h, _) ← get; mret (kheap_static_end h).

Definition with_static_end (h : kheap) (e : Z) : kheap :=
  Kheap (kheap_finish_init_called h) e (size_nodes h) (size_root h)
    (start_nodes h) (start_root h) (mm h) (USER_MEM_LOW h) (USER_MEM_HIGH h).
Definition kheap_preserve_mem (addr : Z) : KM unit :=
  '(h, x) ← get;
  if kheap_static_end h <? addr then put (with_static_end h addr, x) else mret tt.

(** The constructors of [tree_size] and [tree_start], which the constructor
    table [kheap_start_ctors .. start_ctors] points to. *)
Definition construct_trees (nil_size : node Block_size_t) (nil_start : node Block_start_t) : KM unit :=
  '(h, x) ← get;
  let h := with_size_tree h (Rbt_init NIL_size (size_nodes h) (mm h) nil_size) in
  put (with_start_tree h (Rbt_init NIL_start (start_nodes h) (mm h) nil_start), x).

(** [for (i = begin; i < begin + n * 4096; i += 4096) get_page(i, true)] *)
Fixpoint get_pages (n : nat) (i : Z) : KM unit :=
  match n with
  | O => mret tt
  | S n => get_page i true ;; get_pages n (u32 (i + 0x1000))
  end.

Definition kheap_init (nil_size : node Block_size_t) (nil_start : node Block_start_t) : KM unit :=
  construct_trees nil_size nil_start ;;
  let b := Block KERNEL_HEAP_BEGIN (KERNEL_HEAP_END - KERNEL_HEAP_BEGIN) in
  size_insert b ;;
  start_insert b ;;
  get_pages (Z.to_nat ((KERNEL_HEAP_END - KERNEL_HEAP_BEGIN) / 0x1000)) KERNEL_HEAP_BEGIN.

Definition kheap_finish_init : KM unit :=
  '(h, x) ← get;
  put (Kheap true (kheap_static_end h) (size_nodes h) (size_root h)
         (start_nodes h) (start_root h) (mm h)
         (get_aligned (kheap_static_end h) 22) (KERNEL_HEAP_BEGIN - 1), x) ;;
  log_info "kernel heap address range: %p %p" [KERNEL_HEAP_BEGIN; KERNEL_HEAP_END].

(** [kheap_output_debug_msg]: the numbers and blocks it prints *)
Definition kheap_output_debug_msg : KM (Z * Z * list Block_t * list Block_t) :=
  '(h, _) ← get;
  zs ← on_size (walk NIL_size);
  ss ← on_start (walk NIL_start);
  mret (nstatic_mem (mm h) / TREE_NODE_SIZE, nfreed (mm h), of_size <$> zs, of_start <$> ss).
End Kheap.
