(* ===== verification/KheapTrees.v ===== *)
(** The two trees of the kernel heap as one component: what each operation of
    [tree_size] and [tree_start] does to the blocks the two trees hold. *)
From Stdlib Require Import ZifyBool.
From S2P Require Import Prelude Rbt RbTree RbtRep RbtFind TreeMm Common Kheap.

(** * The two orders *)
Ltac blk_order :=
  repeat match goal with k : Block_size_t |- _ => destruct k | k : Block_start_t |- _ => destruct k
                       | b : Block_t |- _ => destruct b end;
  unfold key_leq, key_lt, key_le, Block_size_lt, Block_start_lt, Block_start_le,
    size_lt, start_lt, start_le in *; simpl in *.

Global Instance Block_size_lt_laws : KeyLtLaws Block_size_t.
Proof. split; intros; blk_order; lia. Qed.
Global Instance Block_start_lt_laws : KeyLtLaws Block_start_t.
Proof. split; intros; blk_order; lia. Qed.
Global Instance Block_start_le_laws : KeyLeLaws Block_start_t.
Proof. split; intros; blk_order; lia. Qed.

Lemma Block_size_antisym (k n : Block_size_t) : key_lt k n = false → key_lt n k = false → k = n.
Proof. intros; blk_order. do 2 f_equal; lia. Qed.
Lemma Block_start_antisym (k n : Block_start_t) : key_lt k n = false → key_lt n k = false → k = n.
Proof. intros; blk_order. do 2 f_equal; lia. Qed.

(** Looking for a key the tree holds finds it. *)
Section Exact.
Context {K : Type} `{!KeyLt K} `{!KeyLtLaws K}.
Context (antisym : ∀ k n : K, key_lt k n = false → key_lt n k = false → k = n).

Lemma ge_spec_exact v (l : list (Z * K)) a :
  sorted l → v ∈ l.*2 → ge_spec v l 0 a → ∃ l1 l2, l = l1 ++ (a, v) :: l2.
Proof.
  assert (key_lt v v = false) as Hirr.
  { destruct (key_lt v v) eqn:E; [|done]. by rewrite (key_lt_asym _ _ E) in E. }
  intros Hs Hv [[_ Hb]|(l1 & k & l2 & -> & Hb & Hk)].
  - apply list_elem_of_fmap in Hv as (p & -> & Hp). unfold below in Hb.
    rewrite Forall_forall in Hb. apply Hb in Hp. congruence.
  - exists l1, l2. f_equal. f_equal. f_equal. apply antisym; [done|].
    apply list_elem_of_fmap in Hv as (p & -> & Hp).
    apply elem_of_app in Hp as [Hp|Hp].
    { unfold below in Hb. rewrite Forall_forall in Hb. apply Hb in Hp. congruence. }
    apply elem_of_cons in Hp as [->|Hp]; [done|].
    apply sorted_app in Hs as (_ & Hs & _). apply (sorted_app [(a, k)] l2) in Hs as (_ & _ & Hs).
    apply (Hs (a, k) p); [set_solver|done].
Qed.
End Exact.

Section Trees.
Context `{HeapLinkOk} `{FreshNode} {X : Type}.
Implicit Types (h : kheap) (x : X) (b g : Block_t).
Implicit Types (lz : list (Z * Block_size_t)) (ls : list (Z * Block_start_t)).

(** The variables of the heap that are not part of a tree. *)
Definition others h := (kheap_finish_init_called h, kheap_static_end h, USER_MEM_LOW h, USER_MEM_HIGH h).

(** The trees hold [lz] and [ls], and nothing else uses their allocator. *)
Record trees_ok h lz ls : Prop := {
  trees_size : rbt_ok NIL_size (size_tree h) lz;
  trees_start : rbt_ok NIL_start (start_tree h) ls;
  trees_dj : dj lz.*1 ls.*1;
  trees_live : mm_live (mm h) = list_to_set (lz.*1 ++ ls.*1)
}.

Definition blocks_size lz : list Block_t := of_size <$> lz.*2.
Definition blocks_start ls : list Block_t := of_start <$> ls.*2.

Lemma blocks_size_app lz lz' : blocks_size (lz ++ lz') = blocks_size lz ++ blocks_size lz'.
Proof. unfold blocks_size. by rewrite !fmap_app. Qed.
Lemma blocks_start_app ls ls' : blocks_start (ls ++ ls') = blocks_start ls ++ blocks_start ls'.
Proof. unfold blocks_start. by rewrite !fmap_app. Qed.

Lemma trees_room h lz ls :
  trees_ok h lz ls → size (mm_live (mm h)) = (length lz + length ls)%nat.
Proof.
  intros Ht. rewrite (trees_live _ _ _ Ht), size_list_to_set.
  - by rewrite length_app, !length_fmap.
  - apply NoDup_app_dj. split_and!.
    + eapply rbt_ok_NoDup, Ht.
    + apply Ht.
    + eapply rbt_ok_NoDup, Ht.
Qed.

Lemma on_size_wp {A} (m : M _ A) (Q : A → kheap * X → Prop) E h x :
  wp m (λ a t, Q a (with_size_tree h t, x)) E (size_tree h) → wp (on_size m) Q E (h, x).
Proof. unfold wp, on_size. by destruct (m (size_tree h)) as [[? ?]| | |]. Qed.
Lemma on_start_wp {A} (m : M _ A) (Q : A → kheap * X → Prop) E h x :
  wp m (λ a t, Q a (with_start_tree h t, x)) E (start_tree h) → wp (on_start m) Q E (h, x).
Proof. unfold wp, on_start. by destruct (m (start_tree h)) as [[? ?]| | |]. Qed.

Lemma with_size_tree_id h : with_size_tree h (size_tree h) = h.
Proof. by destruct h. Qed.
Lemma with_start_tree_id h : with_start_tree h (start_tree h) = h.
Proof. by destruct h. Qed.

(** ** Reading *)
Lemma size_find_ge_ok h x lz ls b E :
  trees_ok h lz ls →
  wp (size_find_ge b) (λ p s', s' = (h, x) ∧ ge_spec (Block_size b) lz 0 p) E (h, x).
Proof.
  intros Ht. apply on_size_wp. eapply wp_mono; [eapply find_ge_ok, Ht|].
  intros p ? [-> ?]. by rewrite with_size_tree_id.
Qed.
Lemma start_find_ge_ok h x lz ls b E :
  trees_ok h lz ls →
  wp (start_find_ge b) (λ p s', s' = (h, x) ∧ ge_spec (Block_start b) ls 0 p) E (h, x).
Proof.
  intros Ht. apply on_start_wp. eapply wp_mono; [eapply find_ge_ok, Ht|].
  intros p ? [-> ?]. by rewrite with_start_tree_id.
Qed.
Lemma start_find_le_ok h x lz ls b E :
  trees_ok h lz ls →
  wp (start_find_le b) (λ p s', s' = (h, x) ∧ le_spec (Block_start b) ls 0 p) E (h, x).
Proof.
  intros Ht. apply on_start_wp. eapply wp_mono; [eapply find_le_ok, Ht|].
  intros p ? [-> ?]. by rewrite with_start_tree_id.
Qed.
Lemma size_key_ok h x lz ls p b E :
  trees_ok h lz ls → (p, Block_size b) ∈ lz →
  wp (size_key p) (λ g s', g = b ∧ s' = (h, x)) E (h, x).
Proof.
  intros Ht Hp. apply wp_bind, on_size_wp. eapply wp_mono; [by eapply rbt_get_key_ok, Hp; apply Ht|].
  intros k ? [-> ->]. rewrite with_size_tree_id. by apply wp_ret.
Qed.
Lemma start_key_ok h x lz ls p b E :
  trees_ok h lz ls → (p, Block_start b) ∈ ls →
  wp (start_key p) (λ g s', g = b ∧ s' = (h, x)) E (h, x).
Proof.
  intros Ht Hp. apply wp_bind, on_start_wp. eapply wp_mono; [by eapply rbt_get_key_ok, Hp; apply Ht|].
  intros k ? [-> ->]. rewrite with_start_tree_id. by apply wp_ret.
Qed.

(** ** Writing *)
Lemma trees_size_change h lz ls t lz' :
  trees_ok h lz ls → rbt_ok NIL_size t lz' → dj lz'.*1 ls.*1 →
  mm_live (pool t) = list_to_set (lz'.*1 ++ ls.*1) → trees_ok (with_size_tree h t) lz' ls.
Proof.
  intros Ht Hok Hd Hl. split; simpl; try done; [by destruct t|].
  eapply rbt_ok_pool_to; [apply Ht|by eapply rbt_ok_pool in Hok|].
  intros a Ha. simpl in *. rewrite Hl. apply elem_of_list_to_set. set_solver.
Qed.
Lemma trees_start_change h lz ls t ls' :
  trees_ok h lz ls → rbt_ok NIL_start t ls' → dj lz.*1 ls'.*1 →
  mm_live (pool t) = list_to_set (lz.*1 ++ ls'.*1) → trees_ok (with_start_tree h t) lz ls'.
Proof.
  intros Ht Hok Hd Hl. split; simpl; try done; [|by destruct t].
  eapply rbt_ok_pool_to; [apply Ht|by eapply rbt_ok_pool in Hok|].
  intros a Ha. simpl in *. rewrite Hl. apply elem_of_list_to_set. set_solver.
Qed.

Lemma size_insert_ok h x lz ls b :
  trees_ok h lz ls →
  wp (size_insert b)
    (λ _ s', ∃ h' lz', s' = (h', x) ∧ others h' = others h ∧ trees_ok h' lz' ls ∧
       blocks_size lz' ≡ₚ b :: blocks_size lz)
    (λ msg, (1023 ≤ length lz + length ls)%nat ∧ msg = no_tree_node) (h, x).
Proof.
  intros Ht. apply on_size_wp. eapply wp_mono_E; [apply insert_ok; [apply Ht|exact I]| |].
  - intros _ t (a & l1 & l2 & -> & _ & _ & Hok & Hfresh & Hl & _). simpl in Hfresh, Hl.
    rewrite (trees_live _ _ _ Ht), elem_of_list_to_set in Hfresh.
    rewrite (trees_live _ _ _ Ht) in Hl. pose proof (trees_dj _ _ _ Ht) as Hd.
    eexists _, _. split; [done|]. split; [done|]. split.
    + eapply trees_size_change; [done..| |].
      * rewrite fmap_app in *. simpl. unfold dj in *. set_solver.
      * rewrite Hl, !fmap_app. simpl. apply set_eq. intros y.
        rewrite elem_of_union, elem_of_singleton, !elem_of_list_to_set. set_solver.
    + rewrite !blocks_size_app. unfold blocks_size at 2. simpl. solve_Permutation.
  - intros msg. simpl. rewrite (trees_room _ _ _ Ht). intros [? ->]. split; [lia|done].
Qed.
Lemma start_insert_ok h x lz ls b :
  trees_ok h lz ls →
  wp (start_insert b)
    (λ _ s', ∃ h' ls', s' = (h', x) ∧ others h' = others h ∧ trees_ok h' lz ls' ∧
       blocks_start ls' ≡ₚ b :: blocks_start ls)
    (λ msg, (1023 ≤ length lz + length ls)%nat ∧ msg = no_tree_node) (h, x).
Proof.
  intros Ht. apply on_start_wp. eapply wp_mono_E; [apply insert_ok; [apply Ht|exact I]| |].
  - intros _ t (a & l1 & l2 & -> & _ & _ & Hok & Hfresh & Hl & _). simpl in Hfresh, Hl.
    rewrite (trees_live _ _ _ Ht), elem_of_list_to_set in Hfresh.
    rewrite (trees_live _ _ _ Ht) in Hl. pose proof (trees_dj _ _ _ Ht) as Hd.
    eexists _, _. split; [done|]. split; [done|]. split.
    + eapply trees_start_change; [done..| |].
      * rewrite fmap_app in *. simpl. unfold dj in *. set_solver.
      * rewrite Hl, !fmap_app. simpl. apply set_eq. intros y.
        rewrite elem_of_union, elem_of_singleton, !elem_of_list_to_set. set_solver.
    + rewrite !blocks_start_app. unfold blocks_start at 2. simpl. solve_Permutation.
  - intros msg. simpl. rewrite (trees_room _ _ _ Ht). intros [? ->]. split; [lia|done].
Qed.

Lemma erase_live {A B} (l l' : list (Z * A)) (m : list (Z * B)) (b : Z) (live live' : gset Z) :
  NoDup l.*1 → dj l.*1 m.*1 → live = list_to_set (l.*1 ++ m.*1) → l.*1 ≡ₚ b :: l'.*1 →
  live' = live ∖ {[b]} →
  dj l'.*1 m.*1 ∧ live' = list_to_set (l'.*1 ++ m.*1) ∧ live' = list_to_set (m.*1 ++ l'.*1).
Proof.
  intros Hnd Hd -> Hp ->. rewrite Hp in Hnd. apply NoDup_cons in Hnd as [Hb _].
  assert (∀ y, y ∈ l.*1 ↔ y = b ∨ y ∈ l'.*1) as Hl by (intros y; rewrite Hp; set_solver).
  unfold dj in *. split_and!.
  - intros y Hy. apply Hd, Hl. by right.
  - apply set_eq. intros y. rewrite elem_of_difference, elem_of_singleton, !elem_of_list_to_set.
    rewrite !elem_of_app, Hl. specialize (Hd b). naive_solver.
  - apply set_eq. intros y. rewrite elem_of_difference, elem_of_singleton, !elem_of_list_to_set.
    rewrite !elem_of_app, Hl. specialize (Hd b). naive_solver.
Qed.

Lemma size_erase_ok h x l1 p b l2 ls E :
  trees_ok h (l1 ++ (p, Block_size b) :: l2) ls →
  wp (size_erase p)
    (λ _ s', ∃ h' lz', s' = (h', x) ∧ others h' = others h ∧ trees_ok h' lz' ls ∧
       blocks_size (l1 ++ (p, Block_size b) :: l2) ≡ₚ b :: blocks_size lz') E (h, x).
Proof.
  intros Ht. apply on_size_wp. eapply wp_mono; [apply erase_ok, Ht|].
  intros _ t (lz' & d & Hok & Hks & Hp & Hl).
  destruct (erase_live _ lz' ls d _ _ (rbt_ok_NoDup _ _ (trees_size _ _ _ Ht))
    (trees_dj _ _ _ Ht) (trees_live _ _ _ Ht) Hp Hl) as (Hd & Hl' & _).
  eexists _, lz'. split; [done|]. split; [done|]. split; [by eapply trees_size_change|].
  unfold blocks_size. rewrite Hks, !fmap_app. simpl. solve_Permutation.
Qed.
Lemma start_erase_ok h x lz l1 p b l2 E :
  trees_ok h lz (l1 ++ (p, Block_start b) :: l2) →
  wp (start_erase p)
    (λ _ s', ∃ h' ls', s' = (h', x) ∧ others h' = others h ∧ trees_ok h' lz ls' ∧
       blocks_start (l1 ++ (p, Block_start b) :: l2) ≡ₚ b :: blocks_start ls') E (h, x).
Proof.
  intros Ht. apply on_start_wp. eapply wp_mono; [apply erase_ok, Ht|].
  intros _ t (ls' & d & Hok & Hks & Hp & Hl).
  destruct (erase_live _ ls' lz d _ (pool_live (pool t)) (rbt_ok_NoDup _ _ (trees_start _ _ _ Ht))
    (dj_sym _ _ (trees_dj _ _ _ Ht)) eq_refl Hp) as (Hd & _ & Hl').
  { rewrite Hl. simpl. rewrite (trees_live _ _ _ Ht), !list_to_set_app_L. by rewrite (union_comm_L (list_to_set _)). }
  eexists _, ls'. split; [done|]. split; [done|].
  split; [eapply trees_start_change; [done..|by apply dj_sym|done]|].
  unfold blocks_start. rewrite Hks, !fmap_app. simpl. solve_Permutation.
Qed.

(** [tree.erase(tree.find_ge(b))] for a block the tree holds *)
Lemma size_take_ok {A} (k : M (kheap * X) A) Q h x lz ls b E :
  trees_ok h lz ls → b ∈ blocks_size lz →
  (∀ h' lz', others h' = others h → trees_ok h' lz' ls →
     blocks_size lz ≡ₚ b :: blocks_size lz' → wp k Q E (h', x)) →
  wp (p ← size_find_ge b; size_erase p ;; k) Q E (h, x).
Proof.
  intros Ht Hb Hk. apply wp_bind. eapply wp_mono; [by eapply size_find_ge_ok|].
  intros p ? [-> Hge].
  apply (ge_spec_exact Block_size_antisym) in Hge as (l1 & l2 & ->).
  - wp_step. eapply wp_mono; [by eapply size_erase_ok|]. intros _ ? (h' & l' & -> & ? & ? & ?).
    by eapply Hk.
  - eapply rbt_ok_sorted, Ht.
  - apply list_elem_of_fmap in Hb as ([g] & -> & ?). done.
Qed.
Lemma start_take_ok {A} (k : M (kheap * X) A) Q h x lz ls b E :
  trees_ok h lz ls → b ∈ blocks_start ls →
  (∀ h' ls', others h' = others h → trees_ok h' lz ls' →
     blocks_start ls ≡ₚ b :: blocks_start ls' → wp k Q E (h', x)) →
  wp (p ← start_find_ge b; start_erase p ;; k) Q E (h, x).
Proof.
  intros Ht Hb Hk. apply wp_bind. eapply wp_mono; [by eapply start_find_ge_ok|].
  intros p ? [-> Hge].
  apply (ge_spec_exact Block_start_antisym) in Hge as (l1 & l2 & ->).
  - wp_step. eapply wp_mono; [by eapply start_erase_ok|]. intros _ ? (h' & l' & -> & ? & ? & ?).
    by eapply Hk.
  - eapply rbt_ok_sorted, Ht.
  - apply list_elem_of_fmap in Hb as ([g] & -> & ?). done.
Qed.
End Trees.
