(* ===== verification/Demo.v ===== *)
(** A concrete configuration — addresses the linker could choose, a tree with
    three keys, a machine with flat memory — at which the properties of the
    other files are instantiated. *)
From S2P Require Import Prelude Rbt RbTree RbtRep RbtFind TreeMm Common Kheap KheapTrees.

Global Instance demo_link : HeapLink :=
  {| static_mem := 0x120000; kernel_img_end := 0x140000; NIL_size := 0x130000; NIL_start := 0x130020 |}.
Global Instance demo_link_ok : HeapLinkOk.
Proof. constructor; unfold valid_addr; repeat split; vm_compute; intuition congruence. Qed.
Global Instance demo_fresh : FreshNode :=
  {| fresh_word := 0; fresh_ch0 := 0; fresh_ch1 := 0; fresh_key := Block 0 0 |}.

Definition demo_tree0 : rbt Block_start_t tree_mm :=
  Rbt_init NIL_start ∅ tree_mm_start fresh_start.
Definition demo_keys : list Block_start_t :=
  Block_start <$> [Block 30 5; Block 10 5; Block 20 5].
Definition insert_all (ks : list Block_start_t) : M (rbt Block_start_t tree_mm) unit :=
  for_each ks (insert NIL_start fresh_start).
Definition demo_tree3 : rbt Block_start_t tree_mm :=
  match insert_all demo_keys demo_tree0 with Ret (_, s) => s | _ => demo_tree0 end.
Definition demo_items : list (Z * Block_start_t) :=
  [(0x120014, Block_start (Block 10 5)); (0x120028, Block_start (Block 20 5));
   (0x120000, Block_start (Block 30 5))].

(** The code computes the sorted list. *)
Example demo_walk : walk NIL_start demo_tree3 = Ret (demo_items.*2, demo_tree3).
Proof. vm_compute. reflexivity. Qed.

Lemma demo_tree0_ok : rbt_ok NIL_start demo_tree0 [].
Proof. apply Rbt_init_ok, mm_start_inv. Qed.

(** The tree in memory, written out. *)
Definition demo_shape : tree Block_start_t :=
  T Black 0x120028 (T Red 0x120014 Leaf (Block_start (Block 10 5)) Leaf) (Block_start (Block 20 5))
    (T Red 0x120000 Leaf (Block_start (Block 30 5)) Leaf).

(** An allocator that has handed out its first [k] nodes and got none back. *)
Lemma mm_inv_prefix (q : tree_mm) (k : nat) :
  nstatic_mem q = TREE_NODE_SIZE * Z.of_nat k → (k ≤ 1023)%nat → nfreed q = 0 →
  length (freed q) = 1024%nat → mm_inv q ∧ mm_live q = nodes_upto k.
Proof.
  intros Hs Hk Hn Hl. pose proof (nused_static q k Hs) as Hu.
  assert (Hf : freed_nodes q = []) by (unfold freed_nodes; by rewrite Hn).
  split.
  - split; rewrite ?Hu, ?Hf; try done; [lia|constructor|]. intros a Ha. by apply elem_of_nil in Ha.
  - unfold mm_live. rewrite Hu, Hf. simpl. by rewrite difference_empty_L.
Qed.

Lemma demo_tree3_ok : rbt_ok NIL_start demo_tree3 demo_items.
Proof.
  destruct (mm_inv_prefix (pool demo_tree3) 3) as [Hinv Hlive]; [vm_compute; done|lia|done|by vm_compute|].
  assert (H1 : nodes demo_tree3 !! 0x120028 = Some (Node (0x130020 + 1) 0x120014 0x120000 (Block_start (Block 20 5))))
    by (vm_compute; reflexivity).
  assert (H2 : nodes demo_tree3 !! 0x120014 = Some (Node 0x120028 0x130020 0x130020 (Block_start (Block 10 5))))
    by (vm_compute; reflexivity).
  assert (H3 : nodes demo_tree3 !! 0x120000 = Some (Node 0x120028 0x130020 0x130020 (Block_start (Block 30 5))))
    by (vm_compute; reflexivity).
  assert (Hroot : tree_root demo_tree3 = 0x120028) by (vm_compute; reflexivity).
  assert (H4 : nodes demo_tree3 !! 0x130020 = Some (Node (0x120000 + 1) 0x130020 0x130020 (Block_start (Block 0 0))))
    by (vm_compute; reflexivity).
  revert Hinv Hlive H1 H2 H3 H4 Hroot. generalize demo_tree3. intros s Hinv Hlive H1 H2 H3 H4 Hroot.
  exists demo_shape. split_and!.
  - split.
    + simpl. by rewrite H1, H2, H3.
    + exact Hroot.
    + exists 0x120000, (Block_start (Block 0 0)). split; [exact H4|]. by split; vm_compute.
    + apply (bool_decide_unpack (NoDup (addrs demo_shape))). by vm_compute.
    + intros a Ha. change (pool_live (pool s)) with (mm_live (pool s)). rewrite Hlive.
      change (addrs demo_shape) with [0x120014; 0x120028; 0x120000] in Ha.
      assert (∃ i, (i < 3)%nat ∧ a = node_at i) as (i & Hi & ->).
      { set_unfold in Ha. destruct Ha as [->|[->|[->|[]]]]; [exists 1%nat|exists 2%nat|exists 0%nat];
          (split; [lia|done]). }
      split; [exists i; split; [lia|done]|]. apply elem_of_nodes_upto. eauto.
    + exact Hinv.
  - exists 1%nat. apply (rb_black _ _ Red Red); apply rb_red; constructor.
  - done.
  - repeat constructor.
Qed.
