(* ===== verification/RbtProps.v ===== *)
(** The properties of the red-black tree template, as its users see it: the
    keys of a tree object form a sorted list, kept by every operation, and a
    search follows a path of logarithmic length. *)
From S2P Require Import Prelude Rbt RbTree RbtRep RbtOps RbtInsert RbtErase RbtFind.
From S2P Require Import TreeMm Common Kheap KheapTrees Demo.

Section Clear.
Context {K P : Type} `{!KeyLt K} `{!NodeAlloc P} `{!NodeAllocLaws P}.
Context {NIL : Z} `{HNIL : !NilAddr NIL}.
Implicit Types (t : tree K) (s : rbt K P).

(** [do_clear] frees the nodes of the subtree and touches no other. *)
Lemma do_clear_ok fuel s par t E :
  (height t < fuel)%nat → trep NIL (nodes s) par t → NoDup (addrs t) →
  (∀ a, a ∈ addrs t → a ≠ NIL ∧ a ∈ pool_live (pool s)) → pool_inv (pool s) →
  wp (do_clear NIL fuel (addr NIL t))
    (λ _ s', tree_root s' = tree_root s ∧ (∀ a, a ∉ addrs t → nodes s' !! a = nodes s !! a) ∧
       pool_live (pool s') = pool_live (pool s) ∖ list_to_set (addrs t) ∧ pool_inv (pool s')) E s.
Proof.
  revert s par t; induction fuel as [|fuel IH]; intros s par t Hf Ht Hnd Hlive Hinv; [lia|].
  destruct t as [|c a l k r]; simpl do_clear.
  { rewrite Z.eqb_refl. apply wp_ret. split_and!; try done. symmetry. apply difference_empty_L. }
  destruct Ht as (Ha & Hl & Hr). rewrite addrs_T in *. simpl in Hf. nd.
  destruct (Hlive a ltac:(set_solver)) as [Hne Hal]. apply Z.eqb_neq in Hne as Hne'.
  simpl addr. rewrite Hne'. wp_step. eapply wp_rd; [exact Ha|]. simpl ch0.
  wp_step. eapply wp_mono; [apply (IH s a l); [lia|done|done| |done]|].
  { intros b Hb. apply Hlive. set_solver. }
  intros _ s1 (Hroot1 & Hout1 & Hlive1 & Hinv1).
  assert (Ha1 : nodes s1 !! a = nodes s !! a) by (apply Hout1; ne).
  wp_step. eapply wp_rd; [rewrite Ha1; exact Ha|]. simpl ch1.
  wp_step. eapply wp_mono; [apply (IH s1 a r); [lia| |done| |done]|].
  { eapply trep_frame; [|exact Hr]. intros b Hb. apply Hout1. ne. }
  { intros b Hb. destruct (Hlive b ltac:(set_solver)) as [? Hlb]. split; [done|]. rewrite Hlive1.
    apply elem_of_difference. split; [done|]. rewrite elem_of_list_to_set. ne. }
  intros _ s2 (Hroot2 & Hout2 & Hlive2 & Hinv2). unfold wp, free_node.
  assert (Hal2 : a ∈ pool_live (pool s2)).
  { rewrite Hlive2, Hlive1, !elem_of_difference, !elem_of_list_to_set. split_and!; [done|ne|ne]. }
  pose proof (node_free_ok (pool s2) a Hinv2 Hal2) as Hfree. unfold wp in Hfree.
  destruct (node_free a (pool s2)) as [[u q]| | |]; try done. destruct Hfree as [Hq Hqi]. simpl.
  split_and!; [congruence| | |done].
  - intros b Hb. apply not_elem_of_app in Hb as [Hb1 Hb2]. apply not_elem_of_cons in Hb2 as [Hb2 Hb3].
    rewrite lookup_delete_ne by done. rewrite Hout2, Hout1 by done. done.
  - rewrite Hq, Hlive2, Hlive1, list_to_set_app_L. simpl. set_solver.
Qed.
End Clear.

Section Props.
Context {K P : Type} `{!KeyLt K} `{!KeyLtLaws K} `{!NodeAlloc P} `{!NodeAllocLaws P}.
Context {NIL : Z} `{HNIL : !NilAddr NIL}.
Context (junk : node K).
Implicit Types (s : rbt K P) (v k : K) (l : list (Z * K)).

(** C14: [insert] adds exactly one node, holding [val], to a tree object: the
    keys below [val] stay before it, the others after it; the result is again
    a well-formed red-black tree whose memory is the old memory plus the new
    node.  The only failure is the allocator's. *)
Theorem rbt_insert_correct s l v :
  rbt_ok NIL s l → pool_ready (pool s) →
  wp (insert NIL junk v)
    (λ _ s', ∃ a l1 l2, l = l1 ++ l2 ∧ below v l1 ∧ above v l2 ∧
       rbt_ok NIL s' (l1 ++ (a, v) :: l2) ∧ a ∉ pool_live (pool s) ∧
       pool_live (pool s') = {[a]} ∪ pool_live (pool s) ∧ pool_gives (pool s) a)
    (λ msg, ¬ pool_room (pool s) ∧ msg = pool_full) s.
Proof. apply insert_ok. Qed.

(** C15: [erase] removes exactly the key of the node it is given, keeps the
    order of all other keys and the red-black shape, gives exactly one node
    back to the allocator, and cannot fail. *)
Theorem rbt_erase_correct s l1 p k l2 :
  rbt_ok NIL s (l1 ++ (p, k) :: l2) →
  ∃ s' l' b, erase NIL p s = Ret (tt, s') ∧ rbt_ok NIL s' l' ∧ l'.*2 = l1.*2 ++ l2.*2 ∧
    (l1 ++ (p, k) :: l2).*1 ≡ₚ b :: l'.*1 ∧
    pool_live (pool s') = pool_live (pool s) ∖ {[b]}.
Proof.
  intros Hok. destruct (wp_returns _ _ _ (erase_ok s l1 p k l2 (λ _, False) Hok))
    as ([] & s' & Hrun & l' & b & H). by exists s', l', b.
Qed.

(** C26: [find_ge] returns the node of the first key not less than [val], NULL
    if all keys are less, without changing anything. *)
Theorem rbt_find_ge_correct s l v :
  rbt_ok NIL s l → ∃ a, find_ge NIL v s = Ret (a, s) ∧ ge_spec v l 0 a.
Proof.
  intros Hok. destruct (wp_returns _ _ _ (find_ge_ok s l v (λ _, False) Hok)) as (a & s' & Hrun & -> & H).
  by exists a.
Qed.

(** C38: the search of [find_ge] takes at most [2 * log2 (n + 1) + 1] steps in a
    tree of [n] keys: the tree the operations maintain is balanced. *)
Theorem rbt_search_logarithmic s l v :
  rbt_ok NIL s l →
  let steps := S (2 * Nat.log2 (S (length l))) in
  ∃ a, do_find_ge NIL steps v (tree_root s) NIL s = Ret (a, s).
Proof.
  intros (t & Hr & Hrb & <- & Hs) steps. rewrite (repr_root _ _ _ Hr).
  assert (height t < steps)%nat.
  { unfold steps. pose proof (rb_ok_height t Hrb). lia. }
  destruct (wp_returns _ _ _ (do_find_ge_ok steps v s [] t NIL (λ _, False) ltac:(done)
    (proj1 (repr_cview NIL s [] t) Hr))) as (a & s' & Hrun & _ & ->). by exists a.
Qed.

(** C39: [clear] gives every node back to the allocator and leaves an empty,
    usable tree; it cannot fail. *)
Theorem rbt_clear_correct s l :
  rbt_ok NIL s l →
  ∃ s', clear NIL s = Ret (tt, s') ∧ rbt_ok NIL s' [] ∧
        pool_live (pool s') = pool_live (pool s) ∖ list_to_set l.*1.
Proof.
  intros (t & Hr & Hrb & <- & Hs).
  assert (Hnil : ∀ a, a ∈ addrs t → a ≠ NIL ∧ a ∈ pool_live (pool s)).
  { intros a Ha. destruct (repr_region _ _ _ Hr a Ha) as [Hreg ?]. split; [|done].
    intros ->. by apply (NIL_out (NIL:=NIL)). }
  assert (Hwp : wp (clear NIL) (λ _ s', rbt_ok NIL s' [] ∧
    pool_live (pool s') = pool_live (pool s) ∖ list_to_set (addrs t)) (λ _, False) s).
  { unfold clear. wp_step. apply wp_get. rewrite (repr_root _ _ _ Hr). wp_step.
    pose proof (repr_fuel _ [] t Hr) as Hfuel. simpl in Hfuel.
    eapply wp_mono; [apply (do_clear_ok _ s NIL t); [lia|apply Hr..|done|apply Hr]|].
    intros _ s1 (Hroot & Hout & Hlive & Hinv). unfold wp, set_root. split; [|done].
    exists Leaf. split_and!; [|by exists 0%nat; constructor|done|constructor].
    split; simpl; try done; [|constructor|intros a Ha; by apply elem_of_nil in Ha].
    rewrite Hout; [apply Hr|]. intros Ha. by apply Hnil in Ha as [? _]. }
  apply wp_returns in Hwp as ([] & s' & Hrun & ? & ?). by exists s'.
Qed.
End Props.

(** * The properties at a tree with the keys 10, 20 and 30 *)
Lemma rbt_insert_witness :
  rbt_ok NIL_start demo_tree3 demo_items ∧
  wp (insert NIL_start fresh_start (Block_start (Block 15 5)))
    (λ _ s', ∃ a l1 l2, demo_items = l1 ++ l2 ∧ below (Block_start (Block 15 5)) l1 ∧
       above (Block_start (Block 15 5)) l2 ∧ rbt_ok NIL_start s' (l1 ++ (a, Block_start (Block 15 5)) :: l2) ∧
       a ∉ pool_live (pool demo_tree3) ∧ pool_live (pool s') = {[a]} ∪ pool_live (pool demo_tree3) ∧
       pool_gives (pool demo_tree3) a)
    (λ msg, ¬ pool_room (pool demo_tree3) ∧ msg = pool_full) demo_tree3.
Proof. split; [exact demo_tree3_ok|]. apply rbt_insert_correct; [exact demo_tree3_ok|exact I]. Defined.

Lemma rbt_erase_witness :
  ∃ s' l' b, erase NIL_start 0x120028 demo_tree3 = Ret (tt, s') ∧ rbt_ok NIL_start s' l' ∧
    l'.*2 = [Block_start (Block 10 5)] ++ [Block_start (Block 30 5)] ∧
    demo_items.*1 ≡ₚ b :: l'.*1 ∧ pool_live (pool s') = pool_live (pool demo_tree3) ∖ {[b]}.
Proof.
  exact (rbt_erase_correct demo_tree3 [(0x120014, Block_start (Block 10 5))] 0x120028
    (Block_start (Block 20 5)) [(0x120000, Block_start (Block 30 5))] demo_tree3_ok).
Defined.

Lemma rbt_find_ge_witness :
  ∃ a, find_ge NIL_start (Block_start (Block 11 0)) demo_tree3 = Ret (a, demo_tree3) ∧
       ge_spec (Block_start (Block 11 0)) demo_items 0 a.
Proof. exact (rbt_find_ge_correct demo_tree3 demo_items (Block_start (Block 11 0)) demo_tree3_ok). Defined.

Lemma rbt_search_witness :
  ∃ a, do_find_ge NIL_start 5 (Block_start (Block 11 0)) (tree_root demo_tree3) NIL_start demo_tree3
       = Ret (a, demo_tree3).
Proof. exact (rbt_search_logarithmic demo_tree3 demo_items (Block_start (Block 11 0)) demo_tree3_ok). Defined.

Lemma rbt_clear_witness :
  ∃ s', clear NIL_start demo_tree3 = Ret (tt, s') ∧ rbt_ok NIL_start s' [] ∧
        pool_live (pool s') = pool_live (pool demo_tree3) ∖ list_to_set demo_items.*1.
Proof. exact (rbt_clear_correct demo_tree3 demo_items demo_tree3_ok). Defined.
