(* ===== verification/KheapSpec.v ===== *)
(** What the kernel heap promises, as a specification over its free blocks and
    its live allocations: the invariant, the allocator's choice, and the
    arithmetic of splitting and merging blocks.  No code appears here except
    the data of [core/kheap.cpp]. *)
From S2P Require Import Prelude Rbt RbTree RbtFind TreeMm Common Kheap KheapTrees.

(** * Blocks as sets of addresses *)
Definition bend (b : Block_t) : Z := start b + bsize b.
Definition in_block (z : Z) (b : Block_t) : Prop := start b ≤ z < bend b.
Definition bdisj (b c : Block_t) : Prop := bend b ≤ start c ∨ bend c ≤ start b.
(** [gap b c]: disjoint, and not even adjacent *)
Definition gap (b c : Block_t) : Prop := bend b < start c ∨ bend c < start b.
Definition in_heap (b : Block_t) : Prop :=
  KERNEL_HEAP_BEGIN ≤ start b ∧ 0 < bsize b ∧ bend b ≤ KERNEL_HEAP_END.
Definition sub_block (b c : Block_t) : Prop := start c ≤ start b ∧ bend b ≤ bend c.
Definition total (l : list Block_t) : Z := foldr (λ b n, bsize b + n) 0 l.
Definition in_blocks (z : Z) (l : list Block_t) : Prop := ∃ b, b ∈ l ∧ in_block z b.

Global Instance bdisj_sym : Symmetric bdisj.
Proof. intros b c []; [by right|by left]. Qed.
Global Instance gap_sym : Symmetric gap.
Proof. intros b c []; [by right|by left]. Qed.
Global Instance total_perm : Proper ((≡ₚ) ==> (=)) total.
Proof. intros l m Hp. induction Hp; simpl; lia. Qed.
Global Instance in_blocks_perm z : Proper ((≡ₚ) ==> iff) (in_blocks z).
Proof. intros l m Hp. unfold in_blocks. by setoid_rewrite Hp. Qed.

Lemma total_app l m : total (l ++ m) = total l + total m.
Proof. induction l as [|b l IH]; simpl; lia. Qed.
Lemma in_blocks_app z l m : in_blocks z (l ++ m) ↔ in_blocks z l ∨ in_blocks z m.
Proof. unfold in_blocks. set_solver. Qed.
Lemma in_blocks_cons z b l : in_blocks z (b :: l) ↔ in_block z b ∨ in_blocks z l.
Proof. unfold in_blocks. set_solver. Qed.

(** The free blocks [fr] and the allocated blocks [ab] partition the heap, and
    free blocks are coalesced. *)
Record layout (fr ab : list Block_t) : Prop := {
  lay_heap : Forall in_heap (fr ++ ab);
  lay_disj : pairwise bdisj (fr ++ ab);
  lay_total : total (fr ++ ab) = KERNEL_HEAP_END - KERNEL_HEAP_BEGIN;
  lay_gap : pairwise gap fr
}.

(** At first the whole heap is one free block. *)
Definition whole_heap : Block_t := Block KERNEL_HEAP_BEGIN (KERNEL_HEAP_END - KERNEL_HEAP_BEGIN).
Lemma whole_layout : layout [whole_heap] [].
Proof.
  split; simpl.
  - constructor; [|constructor]. unfold in_heap. split_and!; by vm_compute.
  - apply pairwise_cons. split; constructor.
  - by vm_compute.
  - apply pairwise_cons. split; constructor.
Qed.

(** * Allocation *)

(** [b] can hold [size] bytes aligned on [2^palign], with their header. *)
Definition payload (palign : Z) (b : Block_t) : Z := get_aligned (start b + sizeof_Block_t) palign.
Definition fits (size palign : Z) (b : Block_t) : Prop :=
  size + sizeof_Block_t ≤ bsize b ∧ payload palign b + size ≤ bend b.

(** The block taken is the smallest that fits, the lowest among those. *)
Definition best_fit (size palign : Z) (fr : list Block_t) (b : Block_t) : Prop :=
  b ∈ fr ∧ fits size palign b ∧ ∀ c, c ∈ fr → fits size palign c → size_lt c b = false.

(** What allocating [size] bytes at [s] leaves of [got]: the block in use, and
    the parts that stay free. *)
Definition carve_high (s size : Z) (got : Block_t) : Block_t * list Block_t :=
  if s + size + sizeof_Block_t * 2 <? bend got
  then (Block (start got) (s + size - start got), [Block (s + size) (bend got - (s + size))])
  else (got, []).
Definition carve_low (s : Z) (got : Block_t) : Block_t * list Block_t :=
  if sizeof_Block_t * 3 <? s - start got
  then (Block (s - sizeof_Block_t) (bend got - (s - sizeof_Block_t)),
        [Block (start got) (s - sizeof_Block_t - start got)])
  else (got, []).
Definition carve (s size : Z) (got : Block_t) : Block_t * list Block_t :=
  let '(b, hi) := carve_high s size got in
  let '(b, lo) := carve_low s b in
  (b, lo ++ hi).

(** The parts of a block, side by side. *)
Definition parts (got : Block_t) (l : list Block_t) : Prop :=
  Forall (λ b, sub_block b got ∧ 0 < bsize b) l ∧ pairwise bdisj l ∧ total l = bsize got.

Lemma sub_bdisj b c d : sub_block b c → bdisj c d → bdisj b d.
Proof. unfold sub_block, bdisj. lia. Qed.
Lemma sub_gap b c d : sub_block b c → gap c d → gap b d.
Proof. unfold sub_block, gap. lia. Qed.

Lemma Forall_sub (R : Block_t → Block_t → Prop) b c l :
  (∀ d, R c d → R b d) → Forall (R c) l → Forall (R b) l.
Proof. intros HR Hl. eapply Forall_impl; [done|]. exact HR. Qed.

Lemma carve_spec s size got u ps :
  0 < bsize got → start got + sizeof_Block_t ≤ s → 0 ≤ size → s + size ≤ bend got →
  carve s size got = (u, ps) →
  parts got (u :: ps) ∧ start u + sizeof_Block_t ≤ s ∧ s + size ≤ bend u ∧ pairwise gap ps ∧
  (length ps ≤ 2)%nat.
Proof.
  unfold carve, carve_high, carve_low, parts, sub_block, bend, sizeof_Block_t.
  intros Hp Hs Hsz Hfit.
  repeat case_match; simplify_eq/=; intros; simplify_eq/=;
    repeat match goal with
    | H : (_ <? _) = true |- _ => apply Z.ltb_lt in H
    | H : (_ <? _) = false |- _ => apply Z.ltb_ge in H
    end;
    (split_and!; try lia; repeat constructor; unfold bdisj, gap, bend; simpl; lia).
Qed.

(** Replacing a block by its parts keeps the layout. *)
Lemma parts_bdisj got l rest :
  parts got l → Forall (bdisj got) rest → Forall (λ b, Forall (bdisj b) rest) l.
Proof.
  intros (Hl & _ & _) Hr. eapply Forall_impl; [exact Hl|]. intros b [Hb _].
  eapply Forall_impl; [exact Hr|]. intros c. by apply sub_bdisj.
Qed.

Lemma layout_carve got fr ab u ps :
  layout (got :: fr) ab → parts got (u :: ps) → pairwise gap ps → layout (ps ++ fr) (u :: ab).
Proof.
  intros [Hh Hd Ht Hg] Hp Hgp. pose proof (parts_bdisj _ _ (fr ++ ab) Hp) as Hpd.
  destruct Hp as (Hsub & Hpp & Hpt).
  assert (Hperm : (ps ++ fr) ++ u :: ab ≡ₚ (u :: ps) ++ (fr ++ ab)) by solve_Permutation.
  simpl in Hh, Hd, Ht. apply Forall_cons in Hh as [Hgot Hh].
  apply pairwise_cons in Hd as [Hgd Hd]. apply pairwise_cons in Hg as [Hgg Hg].
  split.
  - rewrite Hperm, Forall_app. split; [|done]. eapply Forall_impl; [exact Hsub|].
    unfold in_heap, sub_block in *. intros b [? ?]. lia.
  - rewrite Hperm. apply pairwise_app. auto.
  - rewrite Hperm, total_app, Hpt. done.
  - apply pairwise_app. split_and!; [done..|]. apply Forall_cons in Hsub as [_ Hsub].
    eapply Forall_impl; [exact Hsub|]. intros b [Hb _].
    eapply Forall_impl; [exact Hgg|]. intros c. by apply sub_gap.
Qed.

Lemma parts_in got l z : parts got l → in_blocks z l → in_block z got.
Proof.
  intros (Hl & _ & _) (b & Hb & Hz). rewrite Forall_forall in Hl.
  destruct (Hl b Hb) as [[? ?] _]. unfold in_block in *. lia.
Qed.

(** * Release *)
Definition left_of (g blk : Block_t) : Prop := bend g = start blk.

Lemma layout_merge g fr blk ab m :
  layout (g :: fr) (blk :: ab) →
  bsize m = bsize blk + bsize g →
  (left_of g blk ∧ start m = start g) ∨ (left_of blk g ∧ start m = start blk) →
  layout fr (m :: ab) ∧ ∀ z, in_block z m ↔ in_block z g ∨ in_block z blk.
Proof.
  unfold left_of. intros [Hh Hd Ht Hg] Hsz Hadj.
  assert (P1 : (g :: fr) ++ blk :: ab ≡ₚ g :: blk :: (fr ++ ab)) by solve_Permutation.
  assert (P2 : fr ++ m :: ab ≡ₚ m :: (fr ++ ab)) by solve_Permutation.
  rewrite P1 in Hh, Hd, Ht. simpl in Ht.
  apply Forall_cons in Hh as [Hgh Hh]. apply Forall_cons in Hh as [Hbh Hh].
  apply pairwise_cons in Hd as [Hgd Hd]. apply pairwise_cons in Hd as [Hbd Hd].
  apply Forall_cons in Hgd as [_ Hgd]. apply pairwise_cons in Hg as [_ Hg].
  assert (Hin : ∀ z, in_block z m ↔ in_block z g ∨ in_block z blk).
  { intros z. unfold in_block, in_heap, bend in *. lia. }
  split; [|done]. split.
  - rewrite P2. constructor; [|done]. unfold in_heap, bend in *. lia.
  - rewrite P2. apply pairwise_cons. split; [|done].
    rewrite Forall_forall in Hgd, Hbd, Hh |- *. intros c Hc.
    specialize (Hgd c Hc). specialize (Hbd c Hc). specialize (Hh c Hc).
    unfold bdisj, in_heap, bend in *. lia.
  - rewrite P2. simpl. lia.
  - done.
Qed.

Lemma layout_release fr m ab : layout fr (m :: ab) → Forall (gap m) fr → layout (m :: fr) ab.
Proof.
  intros [Hh Hd Ht Hg] Hm.
  assert (P : fr ++ m :: ab ≡ₚ (m :: fr) ++ ab) by solve_Permutation.
  rewrite P in Hh, Hd, Ht. split; try done. by apply pairwise_cons.
Qed.

Lemma layout_perm fr fr' ab ab' : fr ≡ₚ fr' → ab ≡ₚ ab' → layout fr ab → layout fr' ab'.
Proof.
  intros Hf Ha [Hh Hd Ht Hg]. split.
  - by rewrite <- Hf, <- Ha.
  - by rewrite <- Hf, <- Ha.
  - by rewrite <- Hf, <- Ha.
  - by rewrite <- Hf.
Qed.

Lemma layout_in fr ab b : layout fr ab → b ∈ fr ++ ab → in_heap b.
Proof. intros Hl. pose proof (lay_heap _ _ Hl) as Hh. rewrite Forall_forall in Hh. apply Hh. Qed.

(** No address is in a free and in an allocated block, nor in two of the latter. *)
Lemma layout_sep fr b ab z : layout fr (b :: ab) → in_block z b → ¬ in_blocks z fr ∧ ¬ in_blocks z ab.
Proof.
  intros Hl Hz. pose proof (lay_disj _ _ Hl) as Hd.
  assert (P : fr ++ b :: ab ≡ₚ b :: fr ++ ab) by solve_Permutation.
  rewrite P in Hd. apply pairwise_cons in Hd as [Hd _]. rewrite Forall_app, !Forall_forall in Hd.
  destruct Hd as [H1 H2]. unfold in_block, bdisj in *.
  split; intros (c & Hc & ?); [specialize (H1 c Hc)|specialize (H2 c Hc)]; unfold in_block in *; lia.
Qed.

(** ** The neighbours [kfree] looks for *)

(** what a block found by [find_le] says of the others, before and after the merge *)
Definition left_done (m : Block_t) (fr : list Block_t) : Prop :=
  Forall (λ c, bend c < start m ∨ bend m ≤ start c) fr.

Lemma layout_bdisj fr blk ab c : layout fr (blk :: ab) → c ∈ fr → bdisj blk c.
Proof.
  intros Hl Hc. pose proof (lay_disj _ _ Hl) as Hd. apply pairwise_app in Hd as (_ & _ & Hd).
  rewrite Forall_forall in Hd. specialize (Hd c Hc). apply Forall_cons in Hd as [Hd _]. by symmetry.
Qed.

Lemma layout_gap fr ab g c : layout (g :: fr) ab → c ∈ fr → gap g c.
Proof.
  intros Hl Hc. pose proof (lay_gap _ _ Hl) as Hg. apply pairwise_cons in Hg as [Hg _].
  rewrite Forall_forall in Hg. by apply Hg.
Qed.
