(* ===== verification/KheapOk.v ===== *)
(** The kernel heap implements its specification: [kmalloc] takes the best
    fitting block and splits it, [kfree] takes a block back and merges it with
    its free neighbours, against any page component that obeys [HeapEnvLaws]. *)
From Stdlib Require Import ZifyBool.
From S2P Require Import Prelude Rbt RbTree RbtRep RbtOps RbtFind TreeMm Common Kheap KheapTrees.
From S2P Require Import KheapSpec.

(** * A block in memory *)
Lemma byte_split z : Z.lor (Z.land z 255) (Z.shiftl (Z.shiftr z 8) 8) = z.
Proof.
  change 255 with (Z.ones 8). apply Z.bits_inj'. intros i Hi.
  rewrite Z.lor_spec, Z.land_spec, Z.shiftl_spec, Z.testbit_ones_nonneg by lia.
  destruct (Z.ltb_spec i 8).
  - rewrite (Z.testbit_neg_r (Z.shiftr z 8)) by lia. by rewrite andb_true_r, orb_false_r.
  - rewrite Z.shiftr_spec by lia. rewrite andb_false_r. simpl. f_equal. lia.
Qed.

Lemma u32_bytes_roundtrip z : 0 ≤ z < 2 ^ 32 → u32_of_bytes (bytes_of_u32 z) = z.
Proof.
  intros Hz. unfold u32_of_bytes, bytes_of_u32. simpl foldr.
  assert (Z.land (Z.shiftr z 24) 255 = Z.shiftr z 24) as ->.
  { change 255 with (Z.ones 8). rewrite Z.land_ones by lia. apply Z.mod_small.
    rewrite Z.shiftr_div_pow2 by lia. split; [apply Z.div_pos; lia|].
    apply Z.div_lt_upper_bound; lia. }
  change (Z.shiftl 0 8) with 0. rewrite Z.lor_0_r.
  replace (Z.shiftr z 24) with (Z.shiftr (Z.shiftr z 16) 8) by (rewrite Z.shiftr_shiftr by lia; done).
  rewrite byte_split.
  replace (Z.shiftr z 16) with (Z.shiftr (Z.shiftr z 8) 8) by (rewrite Z.shiftr_shiftr by lia; done).
  by rewrite !byte_split.
Qed.

Definition block_u32 (b : Block_t) : Prop := 0 ≤ start b < 2 ^ 32 ∧ 0 ≤ bsize b < 2 ^ 32.

Lemma block_bytes_roundtrip b : block_u32 b → block_of_bytes (bytes_of_block b) = b.
Proof.
  intros [H1 H2]. unfold block_of_bytes, bytes_of_block.
  change (take 4 (bytes_of_u32 (start b) ++ bytes_of_u32 (bsize b))) with (bytes_of_u32 (start b)).
  change (drop 4 (bytes_of_u32 (start b) ++ bytes_of_u32 (bsize b))) with (bytes_of_u32 (bsize b)).
  rewrite !u32_bytes_roundtrip by done. by destruct b.
Qed.

Lemma length_bytes_of_block b : length (bytes_of_block b) = 8%nat.
Proof. done. Qed.

Lemma bytes_of_u32_range z : Forall (λ v, 0 ≤ v < 256) (bytes_of_u32 z).
Proof.
  assert (∀ y, 0 ≤ Z.land y 255 < 256) as Hb.
  { intros y. change 255 with (Z.ones 8). rewrite Z.land_ones by lia.
    change 256 with (2 ^ 8). apply Z.mod_pos_bound. lia. }
  repeat constructor; apply Hb.
Qed.

(** * What the heap relies on *)

Definition page_aligned (z : Z) : Prop := z mod 4096 = 0.
Definition heap_range (b e : Z) : Prop :=
  page_aligned b ∧ page_aligned e ∧ KERNEL_HEAP_BEGIN ≤ b ≤ KERNEL_HEAP_END ∧
  KERNEL_HEAP_BEGIN ≤ e ≤ KERNEL_HEAP_END.
Definition no_free_frame : string := "no free frame".
Definition page_fault_msg : string := "page fault".

(** the pages that [n] bytes from [a] on lie in *)
Definition pages_touched (a n : Z) : Z := (a + n - 1) / 4096 - a / 4096 + 1.

Class HeapEnvLaws (X : Type) `{!HeapEnv X} : Type := {
  env_inv : X → Prop;
  (** the address may be used; the byte there, once it has been written *)
  mapped : X → Z → Prop;
  byte_at : X → Z → option Z;
  (** addresses the page component keeps for itself *)
  pinned : X → Z → Prop;
  (** the frames nobody has yet *)
  frames_left : X → Z;
  (** the address is not usable, an access to it stops the kernel *)
  gone x z := ¬ mapped x z ∧ ¬ pinned x z ∧ byte_at x z = None;
  lazy_alloc_interval_ok h x b e :
    env_inv x → heap_range b e →
    wp (lazy_alloc_interval b e false true false)
      (λ _ s', ∃ x', s' = (h, x') ∧ env_inv x' ∧ frames_left x' = frames_left x ∧ (∀ z, pinned x' z → pinned x z) ∧
         (∀ z, b ≤ z < e → ¬ pinned x z → mapped x' z) ∧
         ∀ z, (mapped x z → mapped x' z) ∧ ∀ v, byte_at x z = Some v → byte_at x' z = Some v)
      (λ _, False) (h, x);
  free_interval_ok h x b e :
    env_inv x → heap_range b e → (∀ z, b ≤ z < e → ¬ pinned x z) →
    wp (free_interval b e)
      (λ _ s', ∃ x', s' = (h, x') ∧ env_inv x' ∧ (∀ z, pinned x' z → pinned x z) ∧ ∀ z,
         (mapped x z → mapped x' z) ∧ (∀ v, byte_at x z = Some v → byte_at x' z = Some v) ∨
         b ≤ z < e ∧ gone x' z)
      (λ _, False) (h, x);
  mem_write_ok h x a l :
    env_inv x → Forall (λ v, 0 ≤ v < 256) l →
    KERNEL_HEAP_BEGIN ≤ a → a + Z.of_nat (length l) ≤ KERNEL_HEAP_END →
    (∀ z, a ≤ z < a + Z.of_nat (length l) → mapped x z) →
    wp (mem_write a l)
      (λ _ s', ∃ x', s' = (h, x') ∧ env_inv x' ∧ (∀ z, pinned x' z → pinned x z) ∧
         (∀ z, mapped x z → mapped x' z) ∧
         (∀ i v, l !! i = Some v → byte_at x' (a + Z.of_nat i) = Some v) ∧
         ∀ z v, ¬ (a ≤ z < a + Z.of_nat (length l)) → byte_at x z = Some v → byte_at x' z = Some v)
      (λ msg, msg = no_free_frame ∧ frames_left x < pages_touched a (Z.of_nat (length l))) (h, x);
  mem_read_ok h x a l E :
    env_inv x → KERNEL_HEAP_BEGIN ≤ a → a + Z.of_nat (length l) ≤ KERNEL_HEAP_END →
    (∀ i v, l !! i = Some v → byte_at x (a + Z.of_nat i) = Some v) →
    wp (mem_read a (length l)) (λ r s', r = l ∧ s' = (h, x)) E (h, x);
  mem_read_gone h x a n :
    env_inv x → KERNEL_HEAP_BEGIN ≤ a → a + Z.of_nat n ≤ KERNEL_HEAP_END →
    (∀ z, a ≤ z < a + Z.of_nat n → byte_at x z ≠ None ∨ gone x z) →
    (∃ z, a ≤ z < a + Z.of_nat n ∧ gone x z) →
    wp (mem_read a n) (λ _ _, False) (λ msg, msg = page_fault_msg) (h, x)
}.

(** A live allocation: the address and length handed out, and its block. *)
Record alloc : Type := Alloc { a_ptr : Z; a_len : Z; a_blk : Block_t }.

Section Heap.
Context `{HeapLinkOk} `{FreshNode} {X : Type} `{HeapEnvLaws X}.
Implicit Types (h : kheap) (x : X) (b g got : Block_t) (fr ab : list Block_t).
Implicit Types (a : alloc) (al : list alloc).

Record alloc_ok x a : Prop := {
  alloc_low : start (a_blk a) + sizeof_Block_t ≤ a_ptr a;
  alloc_len : 0 ≤ a_len a;
  alloc_high : a_ptr a + a_len a ≤ bend (a_blk a);
  alloc_header i v :
    bytes_of_block (a_blk a) !! i = Some v → byte_at x (a_ptr a - sizeof_Block_t + Z.of_nat i) = Some v;
  alloc_mapped z : a_ptr a - sizeof_Block_t ≤ z < a_ptr a + a_len a → mapped x z
}.

Definition heap_trees h fr : Prop :=
  ∃ lz ls, trees_ok h lz ls ∧ blocks_size lz ≡ₚ fr ∧ blocks_start ls ≡ₚ fr.

Record heap_inv (s : kheap * X) fr al : Prop := {
  heap_ready : kheap_finish_init_called s.1 = true;
  heap_env : env_inv s.2;
  heap_fr : heap_trees s.1 fr;
  heap_layout : layout fr (a_blk <$> al);
  heap_al : Forall (alloc_ok s.2) al;
  heap_pinned z : in_blocks z fr → ¬ pinned s.2 z
}.

(** What lies between addresses is kept: usable addresses and known bytes. *)
Definition keeps (P : Z → Prop) x x' : Prop :=
  ∀ z, P z → (mapped x z → mapped x' z) ∧ ∀ v, byte_at x z = Some v → byte_at x' z = Some v.

Lemma keeps_trans (P : Z → Prop) x1 x2 x3 : keeps P x1 x2 → keeps P x2 x3 → keeps P x1 x3.
Proof. unfold keeps. intros H12 H23 z Hz. destruct (H12 z Hz), (H23 z Hz). split; auto. Qed.

Lemma alloc_ok_keeps (P : Z → Prop) x x' a :
  keeps P x x' → (∀ z, in_block z (a_blk a) → P z) → alloc_ok x a → alloc_ok x' a.
Proof.
  intros Hk HP [Hl Hn Hh Hb Hm]. unfold sizeof_Block_t in *.
  split; unfold sizeof_Block_t; try done.
  - intros i v Hi. apply Hk; [|by apply Hb]. apply HP.
    apply lookup_lt_Some in Hi. rewrite length_bytes_of_block in Hi.
    unfold in_block. lia.
  - intros z Hz. apply Hk; [|by apply Hm]. apply HP. unfold in_block. lia.
Qed.

Lemma heap_trees_length h fr :
  heap_trees h fr → ∃ lz ls, trees_ok h lz ls ∧ blocks_size lz ≡ₚ fr ∧ blocks_start ls ≡ₚ fr ∧
    length lz = length fr ∧ length ls = length fr.
Proof.
  intros (lz & ls & Ht & Hz & Hs). exists lz, ls. split_and!; try done.
  - rewrite <- Hz. unfold blocks_size. by rewrite !length_fmap.
  - rewrite <- Hs. unfold blocks_start. by rewrite !length_fmap.
Qed.

(** ** The trees as a set of blocks *)

(** A block leaves both trees, starting from its node in the tree by size. *)
Lemma take_by_size_ok {A} (k : M (kheap * X) A) Q h x l1 p g l2 ls fr E :
  trees_ok h (l1 ++ (p, Block_size g) :: l2) ls →
  blocks_start ls ≡ₚ blocks_size (l1 ++ (p, Block_size g) :: l2) →
  blocks_size (l1 ++ (p, Block_size g) :: l2) ≡ₚ g :: fr →
  (∀ h', others h' = others h → heap_trees h' fr → wp k Q E (h', x)) →
  wp (size_erase p ;; q ← start_find_ge g; start_erase q ;; k) Q E (h, x).
Proof.
  intros Ht Hsz Hfr Hk. wp_step. eapply wp_mono; [by eapply size_erase_ok|].
  intros _ ? (h1 & lz' & -> & Ho1 & Ht1 & Hp1).
  eapply start_take_ok; [exact Ht1|rewrite Hsz, Hfr; set_solver|].
  intros h2 ls' Ho2 Ht2 Hp2. apply Hk; [congruence|]. exists lz', ls'. split_and!; [done|..].
  - apply (Permutation_cons_inv (a:=g)). by rewrite <- Hp1, Hfr.
  - apply (Permutation_cons_inv (a:=g)). by rewrite <- Hp2, Hsz, Hfr.
Qed.

(** The same from its node in the tree by start. *)
Lemma take_by_start_ok {A} (k : M (kheap * X) A) Q h x lz l1 p g l2 fr E :
  trees_ok h lz (l1 ++ (p, Block_start g) :: l2) →
  blocks_start (l1 ++ (p, Block_start g) :: l2) ≡ₚ blocks_size lz →
  blocks_size lz ≡ₚ g :: fr →
  (∀ h', others h' = others h → heap_trees h' fr → wp k Q E (h', x)) →
  wp (start_erase p ;; q ← size_find_ge g; size_erase q ;; k) Q E (h, x).
Proof.
  intros Ht Hsz Hfr Hk. wp_step. eapply wp_mono; [by eapply start_erase_ok|].
  intros _ ? (h1 & ls' & -> & Ho1 & Ht1 & Hp1).
  eapply size_take_ok; [exact Ht1|rewrite Hfr; set_solver|].
  intros h2 lz' Ho2 Ht2 Hp2. apply Hk; [congruence|]. exists lz', ls'. split_and!; [done|..].
  - apply (Permutation_cons_inv (a:=g)). by rewrite <- Hp2, Hfr.
  - apply (Permutation_cons_inv (a:=g)). by rewrite <- Hp1, Hsz, Hfr.
Qed.

Lemma blocks_size_length lz b lz0 :
  blocks_size lz ≡ₚ b :: blocks_size lz0 → length lz = S (length lz0).
Proof.
  intros Hp. apply Permutation_length in Hp. unfold blocks_size in Hp. simpl in Hp.
  by rewrite !length_fmap in Hp.
Qed.
Lemma blocks_start_length ls b ls0 :
  blocks_start ls ≡ₚ b :: blocks_start ls0 → length ls = S (length ls0).
Proof.
  intros Hp. apply Permutation_length in Hp. unfold blocks_start in Hp. simpl in Hp.
  by rewrite !length_fmap in Hp.
Qed.

(** A block enters both; the allocator has room below 511 blocks. *)
Lemma put_size_start_ok {A} (k : M (kheap * X) A) Q h x b fr (E : string → Prop) :
  heap_trees h fr → ((511 ≤ length fr)%nat → E no_tree_node) →
  (∀ h', others h' = others h → heap_trees h' (b :: fr) → wp k Q E (h', x)) →
  wp (size_insert b ;; start_insert b ;; k) Q E (h, x).
Proof.
  intros Hh HE Hk. apply heap_trees_length in Hh as (lz & ls & Ht & Hz & Hs & Lz & Ls). wp_step.
  eapply wp_mono_E; [by eapply size_insert_ok| |intros ? [Hm ->]; simpl in Hm; apply HE; lia].
  intros _ ? (h1 & lz' & -> & Ho1 & Ht1 & Hp1). apply blocks_size_length in Hp1 as Lz'. wp_step.
  eapply wp_mono_E; [by eapply start_insert_ok| |intros ? [Hm ->]; simpl in Hm; apply HE; lia].
  intros _ ? (h2 & ls' & -> & Ho2 & Ht2 & Hp2). apply Hk; [congruence|].
  exists lz', ls'. split_and!; [done|by rewrite Hp1, Hz|by rewrite Hp2, Hs].
Qed.
Lemma put_start_size_ok {A} (k : M (kheap * X) A) Q h x b fr (E : string → Prop) :
  heap_trees h fr → ((511 ≤ length fr)%nat → E no_tree_node) →
  (∀ h', others h' = others h → heap_trees h' (b :: fr) → wp k Q E (h', x)) →
  wp (start_insert b ;; size_insert b ;; k) Q E (h, x).
Proof.
  intros Hh HE Hk. apply heap_trees_length in Hh as (lz & ls & Ht & Hz & Hs & Lz & Ls). wp_step.
  eapply wp_mono_E; [by eapply start_insert_ok| |intros ? [Hm ->]; simpl in Hm; apply HE; lia].
  intros _ ? (h1 & ls' & -> & Ho1 & Ht1 & Hp1). apply blocks_start_length in Hp1 as Ls'. wp_step.
  eapply wp_mono_E; [by eapply size_insert_ok| |intros ? [Hm ->]; simpl in Hm; apply HE; lia].
  intros _ ? (h2 & lz' & -> & Ho2 & Ht2 & Hp2). apply Hk; [congruence|].
  exists lz', ls'. split_and!; [done|by rewrite Hp2, Hz|by rewrite Hp1, Hs].
Qed.

(** [kheap_init]'s beginning: the trees are constructed and hold the whole heap. *)
Lemma construct_trees_ok {A} (k : M (kheap * X) A) Q h x nil_size nil_start (E : string → Prop) :
  mm h = tree_mm_start → (∀ h', others h' = others h → heap_trees h' [whole_heap] → wp k Q E (h', x)) →
  wp (construct_trees nil_size nil_start ;; size_insert whole_heap ;; start_insert whole_heap ;; k) Q E (h, x).
Proof.
  intros Hmm Hk. unfold construct_trees. wp_step. wp_step. apply wp_get. cbv beta iota zeta.
  apply wp_put. eapply (put_size_start_ok _ _ _ _ _ []); [|simpl; lia|intros h' Ho Ht; by apply Hk].
  exists [], []. split_and!; [|done..].
  split; [apply Rbt_init_ok; simpl; rewrite Hmm; apply mm_start_inv..|by intros ? ?%elem_of_nil|].
  simpl. by rewrite Hmm.
Qed.

(** ** Facts of the layout *)
Lemma heap_got h x fr al g : heap_inv (h, x) fr al → g ∈ fr → in_heap g.
Proof. intros Hi Hg. eapply layout_in; [apply Hi|]. set_solver. Qed.

Lemma payload_spec palign g :
  0 ≤ palign ≤ 22 → in_heap g → sizeof_Block_t ≤ bsize g →
  start g + sizeof_Block_t ≤ payload palign g < start g + sizeof_Block_t + 2 ^ palign ∧
  payload palign g mod 2 ^ palign = 0 ∧ 2 ^ palign ≤ 2 ^ 22.
Proof.
  unfold in_heap, payload, sizeof_Block_t, bend. intros Hp (Hl & Hs & He) Hs8.
  rewrite KERNEL_HEAP_BEGIN_eq in Hl. rewrite KERNEL_HEAP_END_eq in He.
  assert (2 ^ palign ≤ 2 ^ 22) by (apply Z.pow_le_mono_r; lia).
  destruct (get_aligned_spec (start g + 8) palign) as [? ?]; [lia..|]. lia.
Qed.

(** ** The two splits *)
Lemma split_high_ok h x fr size s got (E : string → Prop) :
  heap_trees h fr → ((511 ≤ length fr)%nat → E no_tree_node) → in_heap got →
  0 ≤ size → start got + sizeof_Block_t ≤ s → s + size ≤ bend got →
  wp (kmalloc_split_high size s got)
    (λ b s', ∃ h', s' = (h', x) ∧ others h' = others h ∧ b = (carve_high s size got).1 ∧
       heap_trees h' ((carve_high s size got).2 ++ fr)) E (h, x).
Proof.
  intros Hh HE (Hl & Hp & He) Hsz Hs Hfit. unfold kmalloc_split_high, carve_high, sizeof_Block_t in *.
  rewrite KERNEL_HEAP_BEGIN_eq in Hl. rewrite KERNEL_HEAP_END_eq in He. unfold bend in *.
  cbv zeta. simpl. rewrite !(u32_small (_ + _)) by lia.
  destruct (Z.ltb_spec (s + size + 8 * 2) (start got + bsize got)).
  - rewrite (u32_small (start got + bsize got - _)) by lia.
    apply (put_size_start_ok _ _ _ _ _ fr); [done..|]. intros h1 Ho Ht. apply wp_ret.
    exists h1. split_and!; try done. simpl. rewrite u32_small by lia. f_equal. lia.
  - apply wp_ret. by exists h.
Qed.

Lemma split_low_ok h x fr s got (E : string → Prop) :
  heap_trees h fr → ((511 ≤ length fr)%nat → E no_tree_node) → in_heap got →
  start got + sizeof_Block_t ≤ s → s ≤ bend got →
  wp (kmalloc_split_low s got)
    (λ b s', ∃ h', s' = (h', x) ∧ others h' = others h ∧ b = (carve_low s got).1 ∧
       heap_trees h' ((carve_low s got).2 ++ fr)) E (h, x).
Proof.
  intros Hh HE (Hl & Hp & He) Hs Hfit. unfold kmalloc_split_low, carve_low, sizeof_Block_t in *.
  rewrite KERNEL_HEAP_BEGIN_eq in Hl. rewrite KERNEL_HEAP_END_eq in He. unfold bend in *.
  cbv zeta. simpl. rewrite (u32_small (s - start got)) by lia.
  destruct (Z.ltb_spec (8 * 3) (s - start got)).
  - rewrite (u32_small (s - _ - _)) by lia.
    apply (put_size_start_ok _ _ _ _ _ fr); [done..|]. intros h1 Ho Ht. apply wp_ret.
    exists h1. split_and!; try done.
    + simpl. rewrite !u32_small by lia. f_equal; lia.
    + simpl. by replace (s - 8 - start got) with (s - start got - 8) by lia.
  - apply wp_ret. by exists h.
Qed.

(** ** The pages and the header of the block handed out *)
Lemma keeps_weaken (P P' : Z → Prop) x x' : (∀ z, P' z → P z) → keeps P x x' → keeps P' x x'.
Proof. unfold keeps. eauto. Qed.

Lemma install_ok h x s size u (E : string → Prop) :
  env_inv x → in_heap u → (∀ z, in_block z u → ¬ pinned x z) →
  0 ≤ size → start u + sizeof_Block_t ≤ s → s + size ≤ bend u →
  (frames_left x < pages_touched (s - sizeof_Block_t) sizeof_Block_t → E no_free_frame) →
  wp (lazy_alloc_interval (page_floor (u32 (s - sizeof_Block_t))) (get_aligned (u32 (s + size)) 12)
        false true false ;;
      mem_write (u32 (s - sizeof_Block_t)) (bytes_of_block u) ;;
      mret s)
    (λ r s', ∃ x', s' = (h, x') ∧ r = s ∧ env_inv x' ∧ alloc_ok x' (Alloc s size u) ∧
       (∀ z, pinned x' z → pinned x z) ∧
       keeps (λ z, ¬ (s - sizeof_Block_t ≤ z < s)) x x') E (h, x).
Proof.
  intros Hx (Hl & Hp & He) Hpin Hsz Hs Hfit HE. unfold in_block, sizeof_Block_t in *.
  rewrite KERNEL_HEAP_BEGIN_eq in Hl. rewrite KERNEL_HEAP_END_eq in He. unfold bend in *.
  rewrite !u32_small by lia.
  destruct (page_floor_spec (s - 8)) as [Hf Hfm]; [lia|].
  destruct (get_aligned_spec (s + size) 12) as [Hg Hgm]; [lia..|]. change (2 ^ 12) with 4096 in *.
  wp_step. eapply wp_mono_E; [apply lazy_alloc_interval_ok; [done|]| |done].
  { unfold heap_range. rewrite KERNEL_HEAP_BEGIN_eq, KERNEL_HEAP_END_eq. split_and!; try done.
    - apply page_floor_ge; [lia|done|lia].
    - lia.
    - lia.
    - apply get_aligned_le; [lia..|done|lia]. }
  intros _ ? (x1 & -> & Hx1 & Hleft & Hpin1 & Hm1 & Hk1). wp_step.
  eapply wp_mono_E; [apply mem_write_ok; [done| | | |]| |].
  { apply Forall_app. split; apply bytes_of_u32_range. }
  { rewrite KERNEL_HEAP_BEGIN_eq. lia. }
  { rewrite KERNEL_HEAP_END_eq, length_bytes_of_block. lia. }
  { intros z. rewrite length_bytes_of_block. intros Hz. apply Hm1; [lia|]. apply Hpin. lia. }
  2:{ intros ? [-> Hno]. apply HE. by rewrite <- Hleft. }
  intros _ ? (x2 & -> & Hx2 & Hpin2 & Hm2 & Hb2 & Hk2). apply wp_ret. exists x2.
  rewrite length_bytes_of_block in Hk2.
  split_and!; try done.
  - split; simpl; unfold sizeof_Block_t, bend; try done; try lia.
    intros z Hz. apply Hm2, Hm1; [lia|]. apply Hpin. lia.
  - intros z Hz. by apply Hpin1, Hpin2.
  - intros z Hz. split; [intros ?; by apply Hm2, Hk1|]. intros v Hv. apply Hk2; [lia|]. by apply Hk1.
Qed.

(** ** [kmalloc] *)

(** The ways [kmalloc] may stop the kernel: no block is good enough, the tree
    nodes are used up, or the [n] frames left cannot back the pages of the
    header. *)
Definition kmalloc_fails (n : Z) fr size palign (msg : string) : Prop :=
  (msg = out_of_memory ∧ ∀ c, c ∈ fr → ¬ fits size palign c) ∨
  (511 ≤ length fr)%nat ∧ msg = no_tree_node ∨
  msg = no_free_frame ∧ ∃ got, best_fit size palign fr got ∧
    n < pages_touched (payload palign got - sizeof_Block_t) sizeof_Block_t.

(** a whole heap and no frame *)
Lemma kmalloc_no_frame : kmalloc_fails 0 [whole_heap] 0 0 no_free_frame.
Proof.
  right; right. split; [done|]. exists whole_heap. split; [|by vm_compute]. split; [by left|].
  split; [split; by vm_compute|]. intros c ->%list_elem_of_singleton _. by vm_compute.
Qed.

(** The outcome: the best fitting block is carved, the rest is untouched. *)
Definition kmalloc_result (s : kheap * X) fr al size palign (p : Z) (s' : kheap * X) : Prop :=
  ∃ got fr0 u ps, best_fit size palign fr got ∧ fr ≡ₚ got :: fr0 ∧ p = payload palign got ∧
    carve p size got = (u, ps) ∧ heap_inv s' (ps ++ fr0) (Alloc p size u :: al) ∧
    others s'.1 = others s.1 ∧ keeps (λ z, ¬ (p - sizeof_Block_t ≤ z < p)) s.2 s'.2 ∧
    ∀ z, pinned s'.2 z → pinned s.2 z.

Lemma kmalloc_carve_ok h x lz1 ptr got lz2 ls fr0 al size s (E : string → Prop) :
  heap_inv (h, x) (got :: fr0) al →
  trees_ok h (lz1 ++ (ptr, Block_size got) :: lz2) ls →
  blocks_start ls ≡ₚ blocks_size (lz1 ++ (ptr, Block_size got) :: lz2) →
  blocks_size (lz1 ++ (ptr, Block_size got) :: lz2) ≡ₚ got :: fr0 →
  0 ≤ size → start got + sizeof_Block_t ≤ s → s + size ≤ bend got →
  ((511 ≤ S (length fr0))%nat → E no_tree_node) →
  (frames_left x < pages_touched (s - sizeof_Block_t) sizeof_Block_t → E no_free_frame) →
  wp (kmalloc_carve size ptr got s)
    (λ p s', p = s ∧ ∃ u ps, carve s size got = (u, ps) ∧
       heap_inv s' (ps ++ fr0) (Alloc s size u :: al) ∧ others s'.1 = others h ∧
       keeps (λ z, ¬ (s - sizeof_Block_t ≤ z < s)) x s'.2 ∧
       ∀ z, pinned s'.2 z → pinned x z) E (h, x).
Proof.
  intros Hi Ht Hsz Hfr H0s Hs Hfit HE HEf.
  assert (Hgot : in_heap got) by (eapply heap_got; [done|set_solver]).
  unfold kmalloc_carve. eapply take_by_size_ok; [done..|]. intros h1 Ho1 Ht1. wp_step.
  eapply wp_mono; [eapply (split_high_ok _ _ fr0); try done; intros; apply HE; lia|].
  intros b1 ? (h2 & -> & Ho2 & -> & Ht2).
  assert (Hlen : (length (carve_high s size got).2 ≤ 1)%nat).
  { unfold carve_high. case_match; simpl; lia. }
  assert (Hb1 : in_heap (carve_high s size got).1 ∧ start (carve_high s size got).1 = start got ∧
                s + size ≤ bend (carve_high s size got).1).
  { unfold carve_high, in_heap, bend, sizeof_Block_t in *. case_match eqn:Hc; simpl; [|lia].
    apply Z.ltb_lt in Hc. lia. }
  destruct Hb1 as (Hb1 & Hst & Hen). wp_step.
  eapply wp_mono; [eapply (split_low_ok _ _ ((carve_high s size got).2 ++ fr0)); try done|].
  { intros. apply HE. rewrite length_app in *. lia. }
  { by rewrite Hst. }
  { lia. }
  intros u ? (h3 & -> & Ho3 & -> & Ht3).
  destruct (carve s size got) as [u ps] eqn:Hcarve.
  destruct (carve_spec s size got u ps) as (Hparts & Hlo & Hhi & Hgap & _); try done.
  { apply Hgot. }
  assert ((carve_low s (carve_high s size got).1).1 = u ∧
          (carve_low s (carve_high s size got).1).2 ++ (carve_high s size got).2 = ps) as [-> Hps].
  { unfold carve in Hcarve. destruct (carve_high s size got) as [b hi]. simpl.
    destruct (carve_low s b) as [b' lo]. simpl. by simplify_eq. }
  assert (Hlay : layout (ps ++ fr0) (u :: (a_blk <$> al))).
  { eapply layout_carve; [apply (heap_layout _ _ _ Hi)|done..]. }
  eapply wp_mono; [eapply install_ok; try done|].
  { apply Hi. }
  { eapply layout_in; [exact Hlay|]. set_solver. }
  { intros z Hz. apply (heap_pinned _ _ _ Hi). apply in_blocks_cons. left.
    eapply parts_in; [exact Hparts|]. apply in_blocks_cons. by left. }
  intros r ? (x' & -> & -> & Hx' & Ha & Hpin' & Hk). split; [done|]. exists u, ps. split; [done|].
  split; [|split; [simpl; congruence|split; done]]. split; simpl.
  - pose proof (heap_ready _ _ _ Hi) as Hr. simpl in Hr. unfold others in *. congruence.
  - done.
  - rewrite <- Hps, <- app_assoc. done.
  - done.
  - constructor; [done|]. pose proof (heap_al _ _ _ Hi) as Hal. rewrite Forall_forall in Hal |- *.
    intros a Ha'. eapply alloc_ok_keeps; [exact Hk| |by apply Hal].
    intros z Hz Hhdr. destruct (layout_sep _ _ _ z Hlay) as [_ Hsep].
    { unfold in_block, sizeof_Block_t in *. lia. }
    apply Hsep. exists (a_blk a). split; [|done]. apply list_elem_of_fmap. eauto.
  - intros z Hz Hpz. apply (heap_pinned _ _ _ Hi z); [|by apply Hpin']. apply in_blocks_cons.
    apply in_blocks_app in Hz as [Hz|Hz]; [left|by right].
    eapply parts_in; [exact Hparts|]. apply in_blocks_cons. by right.
Qed.

Definition not_below (req c : Block_t) : Prop := size_lt c req = false.
Global Instance not_below_dec req c : Decision (not_below req c).
Proof. unfold not_below. apply _. Defined.

Lemma size_lt_cases got c : size_lt c (Block (start got + 1) (bsize got)) = negb (size_lt got c).
Proof. unfold size_lt. simpl. lia. Qed.

Lemma live_ptr_ne h lz ls p (b : Block_size_t) :
  trees_ok h lz ls → (p, b) ∈ lz → (p =? 0) = false.
Proof.
  intros Ht Hp. apply Z.eqb_neq. destruct (rbt_ok_live _ lz p (trees_size _ _ _ Ht)) as [Hr _].
  { apply list_elem_of_fmap. by exists (p, b). }
  apply pool_region_valid in Hr as [? _]. lia.
Qed.
Lemma live_ptr_ne' h lz ls p (b : Block_start_t) :
  trees_ok h lz ls → (p, b) ∈ ls → (p =? 0) = false.
Proof.
  intros Ht Hp. apply Z.eqb_neq. destruct (rbt_ok_live _ ls p (trees_start _ _ _ Ht)) as [Hr _].
  { apply list_elem_of_fmap. by exists (p, b). }
  apply pool_region_valid in Hr as [? _]. lia.
Qed.

Lemma blocks_size_elem p b lz : (p, Block_size b) ∈ lz → b ∈ blocks_size lz.
Proof.
  intros Hp. unfold blocks_size. apply list_elem_of_fmap. exists (Block_size b). split; [done|].
  apply list_elem_of_fmap. by exists (p, Block_size b).
Qed.
Lemma blocks_size_elem_inv b lz : b ∈ blocks_size lz → ∃ p, (p, Block_size b) ∈ lz.
Proof.
  unfold blocks_size. intros ([b'] & -> & Hk)%list_elem_of_fmap.
  apply list_elem_of_fmap in Hk as ([p ?] & ? & ?). simplify_eq/=. eauto.
Qed.

(** The search: blocks are tried in increasing order, so what was skipped
    does not fit and the first that fits is the best. *)
Lemma kmalloc_loop_ok fuel size palign req h x fr al :
  heap_inv (h, x) fr al → 0 ≤ size → 0 ≤ palign ≤ 22 →
  size + sizeof_Block_t ≤ bsize req →
  (∀ c, c ∈ fr → size_lt c req = true → ¬ fits size palign c) →
  (length (filter (not_below req) fr) < fuel)%nat →
  wp (kmalloc_loop fuel size palign req) (kmalloc_result (h, x) fr al size palign)
    (kmalloc_fails (frames_left x) fr size palign) (h, x).
Proof.
  revert req; induction fuel as [|fuel IH]; intros req Hi H0s Hpal Hreq Hskip Hfuel; [lia|].
  simpl kmalloc_loop. destruct (heap_fr _ _ _ Hi) as (lz & ls & Ht & Hz & Hs). wp_step.
  eapply wp_mono; [by eapply size_find_ge_ok|]. intros p ? [-> Hge].
  destruct Hge as [[-> Hb]|(lz1 & [got] & lz2 & -> & Hb & Hgot)].
  { left. split; [done|]. intros c Hc. apply Hskip; [done|].
    rewrite <- Hz in Hc. apply blocks_size_elem_inv in Hc as [q Hq].
    unfold below in Hb. rewrite Forall_forall in Hb. apply (Hb _ Hq). }
  change (size_lt got req = false) in Hgot.
  assert (Hin : (p, Block_size got) ∈ lz1 ++ (p, Block_size got) :: lz2) by set_solver.
  rewrite (live_ptr_ne _ _ _ _ _ Ht Hin). wp_step.
  eapply wp_mono; [by eapply size_key_ok|]. intros ? ? [-> ->].
  assert (Hgf : got ∈ fr) by (rewrite <- Hz; by eapply blocks_size_elem).
  pose proof (heap_got _ _ _ _ _ Hi Hgf) as Hh. pose proof Hh as (Hl & Hp & He).
  assert (Hg8 : size + sizeof_Block_t ≤ bsize got).
  { unfold size_lt in Hgot. unfold sizeof_Block_t in *. lia. }
  destruct (payload_spec palign got Hpal Hh) as (Hpay & Hmod & Hpow); [unfold sizeof_Block_t in *; lia|].
  cbv zeta. rewrite KERNEL_HEAP_BEGIN_eq in Hl. rewrite KERNEL_HEAP_END_eq in He.
  unfold bend, sizeof_Block_t in *.
  rewrite (u32_small (start got + 8)), (u32_small (start got + bsize got)) by lia.
  change (get_aligned (start got + 8) palign) with (payload palign got).
  rewrite (u32_small (_ + size)) by lia.
  assert (Hbest : ∀ c, c ∈ fr → fits size palign c → size_lt c got = false).
  { intros c Hc Hfit. destruct (size_lt c got) eqn:Hlt; [|done].
    destruct (size_lt c req) eqn:Hcr; [by destruct (Hskip c Hc Hcr)|].
    rewrite <- Hz in Hc. apply blocks_size_elem_inv in Hc as [q Hq].
    apply elem_of_app in Hq as [Hq|Hq].
    { unfold below in Hb. rewrite Forall_forall in Hb. specialize (Hb _ Hq).
      change (size_lt c req = true) in Hb. congruence. }
    apply elem_of_cons in Hq as [Hq|Hq]; [simplify_eq; unfold size_lt in Hlt; lia|].
    pose proof (rbt_ok_sorted _ _ (trees_size _ _ _ Ht)) as Hsort.
    apply sorted_app in Hsort as (_ & Hsort & _).
    apply (sorted_app [(p, Block_size got)] lz2) in Hsort as (_ & _ & Hsort).
    specialize (Hsort (p, Block_size got) (q, Block_size c) ltac:(set_solver) Hq).
    change (size_lt c got = false) in Hsort. congruence. }
  destruct (Z.ltb_spec (start got + bsize got) (payload palign got + size)) as [Hno|Hyes].
  - rewrite u32_small by lia. apply IH; try done; simpl.
    + intros c Hc Hlt Hfit. rewrite size_lt_cases in Hlt.
      pose proof (Hbest c Hc Hfit) as Hcg.
      assert (c = got) as ->.
      { pose proof (Block_size_antisym (Block_size c) (Block_size got) Hcg) as Heq.
        by injection (Heq ltac:(by apply negb_true_iff in Hlt)). }
      destruct Hfit as [_ Hfit]. unfold bend in Hfit. lia.
    + eapply Nat.lt_le_trans; [|apply Nat.lt_succ_r, Hfuel].
      apply (length_filter_lt _ _ _ got); [|done|done|].
      * intros c Hc. unfold not_below in *. rewrite size_lt_cases in Hc.
        unfold size_lt in *. lia.
      * unfold not_below. rewrite size_lt_cases. unfold size_lt. lia.
  - assert (∃ fr0, fr ≡ₚ got :: fr0) as [fr0 Hfr] by (by apply elem_of_Permutation).
    assert (Hbf : best_fit size palign fr got) by (split_and!; try done; unfold sizeof_Block_t, bend; lia).
    eapply wp_mono_E; [eapply (kmalloc_carve_ok _ _ lz1 _ got lz2 ls fr0 al _ _ (kmalloc_fails (frames_left x) fr size palign))| |done].
    + destruct Hi as [H1' H2' H3' H4' H5' H6']. split; try done.
      * exists (lz1 ++ (p, Block_size got) :: lz2), ls. by rewrite <- Hfr.
      * by eapply layout_perm.
      * intros z. rewrite <- Hfr. apply H6'.
    + done.
    + by rewrite Hs, Hz.
    + by rewrite Hz.
    + done.
    + unfold sizeof_Block_t. lia.
    + unfold bend. lia.
    + intros Hlen. right; left. split; [|done]. apply Permutation_length in Hfr. simpl in Hfr. lia.
    + intros Hno. right; right. split; [done|]. by exists got.
    + intros r s' (-> & u & ps & Hc & Hi' & Ho & Hk & Hpn). by exists got, fr0, u, ps.
Qed.

Lemma heap_nodes_fuel h fr :
  heap_trees h fr → (length fr < S (base.size (size_nodes h)))%nat.
Proof.
  intros (lz & ls & Ht & Hz & Hs)%heap_trees_length. destruct Hs as (Hs & Lz & Ls).
  destruct (trees_size _ _ _ Ht) as (t & Hr & _ & Hit & _).
  apply repr_size in Hr. rewrite Hit in Hr. simpl in Hr. lia.
Qed.

Lemma kmalloc_refines size palign h x fr al :
  heap_inv (h, x) fr al → 0 ≤ size < 2 ^ 32 - sizeof_Block_t → 0 ≤ palign ≤ 22 →
  wp (kmalloc size palign) (kmalloc_result (h, x) fr al size palign)
    (kmalloc_fails (frames_left x) fr size palign) (h, x).
Proof.
  intros Hi Hsz Hpal. unfold kmalloc. apply wp_bind, wp_get. cbv beta iota zeta.
  pose proof (heap_ready _ _ _ Hi) as Hr. simpl in Hr. rewrite Hr. simpl negb. cbv iota.
  unfold sizeof_Block_t in *. rewrite (u32_small (size + 8)) by lia.
  apply kmalloc_loop_ok; try done; simpl; [lia| |].
  - intros c Hc Hlt [Hf _]. unfold sizeof_Block_t in Hf.
    destruct (layout_in _ _ c (heap_layout _ _ _ Hi)) as (Hl & _ & _); [set_solver|].
    rewrite KERNEL_HEAP_BEGIN_eq in Hl. unfold size_lt in Hlt. simpl in Hlt. lia.
  - eapply Nat.le_lt_trans; [apply length_filter|]. apply (heap_nodes_fuel h fr), Hi.
Qed.
End Heap.
