(* ===== verification/KheapFree.v ===== *)
(** [kfree] of [core/kheap.cpp]: the block goes back to the free list, merged
    with the free blocks on both sides, and only pages inside free blocks are
    released; a block that overlaps the free list is refused. *)
From Stdlib Require Import ZifyBool.
From S2P Require Import Prelude Rbt RbTree RbtRep RbtOps RbtFind TreeMm Common Kheap KheapTrees.
From S2P Require Import KheapSpec KheapOk.

Section Free.
Context `{HeapLinkOk} `{FreshNode} {X : Type} `{HeapEnvLaws X}.
Implicit Types (h : kheap) (x : X) (b g m : Block_t) (fr ab : list Block_t).
Implicit Types (a : alloc) (al : list alloc).

Lemma blocks_start_elem p b ls : (p, Block_start b) ∈ ls → b ∈ blocks_start ls.
Proof.
  intros Hp. unfold blocks_start. apply list_elem_of_fmap. exists (Block_start b). split; [done|].
  apply list_elem_of_fmap. by exists (p, Block_start b).
Qed.
Lemma blocks_start_elem_inv b ls : b ∈ blocks_start ls → ∃ p, (p, Block_start b) ∈ ls.
Proof.
  unfold blocks_start. intros ([b'] & -> & Hk)%list_elem_of_fmap.
  apply list_elem_of_fmap in Hk as ([p ?] & ? & ?). simplify_eq/=. eauto.
Qed.

(** What [find_le] and [find_ge] say, on the blocks themselves. *)
Lemma start_find_le_blocks h x fr b E :
  heap_trees h fr →
  wp (start_find_le b)
    (λ p s', s' = (h, x) ∧
      ((p = 0 ∧ ∀ c, c ∈ fr → start_lt b c = true) ∨
       ∃ g lz l1 l2, trees_ok h lz (l1 ++ (p, Block_start g) :: l2) ∧ (p =? 0) = false ∧
         blocks_size lz ≡ₚ fr ∧ blocks_start (l1 ++ (p, Block_start g) :: l2) ≡ₚ fr ∧
         g ∈ fr ∧ start_lt b g = false ∧
         ∀ c, c ∈ fr → start_lt g c = false ∨ start_lt b c = true)) E (h, x).
Proof.
  intros (lz & ls & Ht & Hz & Hs). eapply wp_mono; [by eapply start_find_le_ok|].
  intros p ? [-> Hle]. split; [done|].
  destruct Hle as [[-> Hb]|(l1 & [g] & l2 & -> & Hg & Hb)]; [left|right].
  - split; [done|]. intros c Hc. rewrite <- Hs in Hc. apply blocks_start_elem_inv in Hc as [q Hq].
    unfold beyond in Hb. rewrite Forall_forall in Hb. apply (Hb _ Hq).
  - assert (Hin : (p, Block_start g) ∈ l1 ++ (p, Block_start g) :: l2) by set_solver.
    exists g, lz, l1, l2. split_and!; try done.
    + by eapply live_ptr_ne'.
    + rewrite <- Hs. by eapply blocks_start_elem.
    + intros c Hc. rewrite <- Hs in Hc. apply blocks_start_elem_inv in Hc as [q Hq].
      pose proof (rbt_ok_sorted _ _ (trees_start _ _ _ Ht)) as Hsort.
      apply elem_of_app in Hq as [Hq|[Hq|Hq]%elem_of_cons].
      * left. apply (sorted_app l1) in Hsort as (_ & _ & Hsort).
        apply (Hsort (q, Block_start c) (p, Block_start g)); [done|set_solver].
      * simplify_eq. left. unfold start_lt. lia.
      * right. unfold beyond in Hb. rewrite Forall_forall in Hb. apply (Hb _ Hq).
Qed.

Lemma start_find_ge_blocks h x fr b E :
  heap_trees h fr →
  wp (start_find_ge b)
    (λ p s', s' = (h, x) ∧
      ((p = 0 ∧ ∀ c, c ∈ fr → start_lt c b = true) ∨
       ∃ g lz l1 l2, trees_ok h lz (l1 ++ (p, Block_start g) :: l2) ∧ (p =? 0) = false ∧
         blocks_size lz ≡ₚ fr ∧ blocks_start (l1 ++ (p, Block_start g) :: l2) ≡ₚ fr ∧
         g ∈ fr ∧ start_lt g b = false ∧
         ∀ c, c ∈ fr → start_lt c g = false ∨ start_lt c b = true)) E (h, x).
Proof.
  intros (lz & ls & Ht & Hz & Hs). eapply wp_mono; [by eapply start_find_ge_ok|].
  intros p ? [-> Hle]. split; [done|].
  destruct Hle as [[-> Hb]|(l1 & [g] & l2 & -> & Hb & Hg)]; [left|right].
  - split; [done|]. intros c Hc. rewrite <- Hs in Hc. apply blocks_start_elem_inv in Hc as [q Hq].
    unfold below in Hb. rewrite Forall_forall in Hb. apply (Hb _ Hq).
  - assert (Hin : (p, Block_start g) ∈ l1 ++ (p, Block_start g) :: l2) by set_solver.
    exists g, lz, l1, l2. split_and!; try done.
    + by eapply live_ptr_ne'.
    + rewrite <- Hs. by eapply blocks_start_elem.
    + intros c Hc. rewrite <- Hs in Hc. apply blocks_start_elem_inv in Hc as [q Hq].
      pose proof (rbt_ok_sorted _ _ (trees_start _ _ _ Ht)) as Hsort.
      apply elem_of_app in Hq as [Hq|[Hq|Hq]%elem_of_cons].
      * right. unfold below in Hb. rewrite Forall_forall in Hb. apply (Hb _ Hq).
      * simplify_eq. left. unfold start_lt. lia.
      * left. apply sorted_app in Hsort as (_ & Hsort & _).
        apply (sorted_app [(p, Block_start g)] l2) in Hsort as (_ & _ & Hsort).
        apply (Hsort (p, Block_start g) (q, Block_start c)); [set_solver|done].
Qed.

(** ** The two merges *)

(** [m'] with the free blocks [fr'] covers what [m] with [fr] did. *)
Definition same_cover m fr m' fr' : Prop :=
  ∀ z, in_block z m' ∨ in_blocks z fr' ↔ in_block z m ∨ in_blocks z fr.

Lemma merge_cover g fr fr' m m' :
  fr ≡ₚ g :: fr' → (∀ z, in_block z m' ↔ in_block z g ∨ in_block z m) → same_cover m fr m' fr'.
Proof. intros Hp Hm z. rewrite Hp, in_blocks_cons, Hm. tauto. Qed.

Ltac heap_consts :=
  unfold in_heap, bend in *; rewrite ?KERNEL_HEAP_BEGIN_eq, ?KERNEL_HEAP_END_eq in *.

Lemma layout_facts fr m ab c :
  layout fr (m :: ab) → c ∈ fr → in_heap c ∧ bdisj m c ∧ in_heap m.
Proof.
  intros Hl Hc. split_and!; [eapply layout_in; [done|set_solver]|by eapply layout_bdisj|].
  eapply layout_in; [done|set_solver].
Qed.

Lemma kfree_left_ok h x fr m ab E :
  heap_trees h fr → layout fr (m :: ab) →
  wp (kfree_left m (start m))
    (λ r s', ∃ h' fr', s' = (h', x) ∧ others h' = others h ∧ heap_trees h' fr' ∧
       layout fr' (r.1 :: ab) ∧ same_cover m fr r.1 fr' ∧ left_done r.1 fr' ∧
       bend r.1 = bend m ∧ (length fr' ≤ length fr)%nat ∧ start r.1 ≤ r.2 ≤ start m) E (h, x).
Proof.
  intros Hh Hl. unfold kfree_left. wp_step. eapply wp_mono; [by eapply start_find_le_blocks|].
  intros p ? [-> Hle]. destruct Hle as [[-> Hb]|Hle].
  { apply wp_ret. exists h, fr. split_and!; try done; try (simpl; lia). apply Forall_forall.
    intros c Hc. specialize (Hb c Hc). destruct (layout_facts _ _ _ _ Hl Hc) as (Hc1 & Hc2 & _).
    unfold start_lt, bdisj, bend in *. heap_consts. simpl. lia. }
  destruct Hle as (g & lz & l1 & l2 & Ht & -> & Hz & Hs & Hgf & Hg & Hsplit). wp_step.
  eapply wp_mono; [apply (start_key_ok _ _ _ _ _ g _ Ht); set_solver|]. intros ? ? [-> ->].
  destruct (layout_facts _ _ _ _ Hl Hgf) as (Hgh & Hgd & Hmh).
  assert (Hgm : bend g ≤ start m).
  { unfold bdisj, start_lt, bend in *. heap_consts. lia. }
  assert (Hcs : ∀ c, c ∈ fr → start_lt g c = false ∧ (c = g ∨ bend c < start g) ∨ bend m ≤ start c).
  { intros c Hc. destruct (layout_facts _ _ _ _ Hl Hc) as (Hc1 & Hc2 & _).
    destruct (Hsplit c Hc) as [Hgc|Hbc].
    - left. split; [done|]. destruct (decide (c = g)); [by left|right].
      apply elem_of_Permutation in Hgf as [fr0 Hfr0]. rewrite Hfr0 in Hc.
      apply elem_of_cons in Hc as [?|Hc]; [done|].
      assert (gap g c) as Hgap.
      { eapply (layout_gap fr0 (m :: ab)); [|done]. by eapply layout_perm. }
      unfold gap, start_lt, bend in *. heap_consts. lia.
    - right. unfold bdisj, start_lt, bend in *. heap_consts. lia. }
  unfold bend in *. heap_consts. rewrite !(u32_small (start g + bsize g)) by lia.
  destruct (Z.ltb_spec (start m) (start g + bsize g)); [lia|].
  destruct (Z.eqb_spec (start g + bsize g) (start m)) as [Heq|Hne].
  - cbv zeta. apply elem_of_Permutation in Hgf as [fr0 Hfr0].
    eapply take_by_start_ok; [exact Ht|by rewrite Hs, Hz|by rewrite Hz|].
    intros h1 Ho Ht1. apply wp_ret. cbn [fst snd]. rewrite u32_small by lia.
    destruct (layout_merge g fr0 m ab (Block (start g) (bsize m + bsize g))) as [Hl' Hin'].
    { by eapply layout_perm. }
    { done. }
    { by left. }
    apply Permutation_length in Hfr0 as Hlen. simpl in Hlen.
    exists h1, fr0. split_and!; try done; simpl; try lia.
    + by eapply merge_cover.
    + apply Forall_forall. intros c Hc. assert (c ∈ fr) as Hcf by (rewrite Hfr0; set_solver).
      assert (gap g c) as Hgap.
      { eapply (layout_gap fr0 (m :: ab)); [|done]. by eapply layout_perm. }
      destruct (layout_facts _ _ _ _ Hl Hcf) as (Hc1 & Hc2 & _). unfold gap, bdisj, bend in *.
      simpl. heap_consts. lia.
    + destruct (page_floor_spec (start m)) as [Hpf _]; [lia|]. unfold cmax. case_match; lia.
    + destruct (page_floor_spec (start m)) as [Hpf _]; [lia|]. unfold cmax. case_match; lia.
  - apply wp_ret. exists h, fr. split_and!; try done; simpl; try lia.
    apply Forall_forall. intros c Hc. specialize (Hcs c Hc). unfold bend.
    destruct Hcs as [[_ [->|?]]|?]; lia.
Qed.

Lemma kfree_right_ok h x fr m ab E :
  heap_trees h fr → layout fr (m :: ab) → left_done m fr →
  wp (kfree_right m (bend m))
    (λ r s', ∃ h' fr', s' = (h', x) ∧ others h' = others h ∧ heap_trees h' fr' ∧
       layout fr' (r.1 :: ab) ∧ same_cover m fr r.1 fr' ∧ Forall (gap r.1) fr' ∧
       start r.1 = start m ∧ (length fr' ≤ length fr)%nat ∧ r.2 = bend m ∧ bend m ≤ bend r.1) E (h, x).
Proof.
  intros Hh Hl Hd. unfold kfree_right. wp_step. eapply wp_mono; [by eapply start_find_ge_blocks|].
  unfold left_done in Hd. rewrite Forall_forall in Hd.
  assert (Hbelow : ∀ c, c ∈ fr → start_lt c m = true → bend c < start m).
  { intros c Hc Hlt. specialize (Hd c Hc).
    destruct (layout_facts _ _ _ _ Hl Hc) as (Hc1 & _ & Hm). unfold start_lt, bend in *. heap_consts. lia. }
  intros p ? [-> Hle]. destruct Hle as [[-> Hb]|Hle].
  { apply wp_ret. exists h, fr. split_and!; try done. apply Forall_forall.
    intros c Hc. right. by apply Hbelow, Hb. }
  destruct Hle as (g & lz & l1 & l2 & Ht & -> & Hz & Hs & Hgf & Hg & Hsplit). wp_step.
  eapply wp_mono; [apply (start_key_ok _ _ _ _ _ g _ Ht); set_solver|]. intros ? ? [-> ->].
  destruct (layout_facts _ _ _ _ Hl Hgf) as (Hgh & Hgd & Hmh).
  assert (Hgm : bend m ≤ start g).
  { specialize (Hd g Hgf). unfold start_lt, bend in *. heap_consts. lia. }
  unfold bend in *. heap_consts. rewrite !(u32_small (start m + bsize m)) by lia.
  destruct (Z.ltb_spec (start g) (start m + bsize m)); [lia|].
  destruct (Z.eqb_spec (start m + bsize m) (start g)) as [Heq|Hne].
  - cbv zeta. apply elem_of_Permutation in Hgf as [fr0 Hfr0].
    eapply take_by_start_ok; [exact Ht|by rewrite Hs, Hz|by rewrite Hz|].
    intros h1 Ho Ht1. apply wp_ret. cbn [fst snd]. rewrite u32_small by lia.
    destruct (layout_merge g fr0 m ab (Block (start m) (bsize m + bsize g))) as [Hl' Hin'].
    { by eapply layout_perm. }
    { done. }
    { by right. }
    apply Permutation_length in Hfr0 as Hlen. simpl in Hlen.
    exists h1, fr0. split_and!; try done; simpl; try lia.
    + by eapply merge_cover.
    + apply Forall_forall. intros c Hc. assert (c ∈ fr) as Hcf by (rewrite Hfr0; set_solver).
      assert (gap g c) as Hgap.
      { eapply (layout_gap fr0 (m :: ab)); [|done]. by eapply layout_perm. }
      specialize (Hd c Hcf). destruct (layout_facts _ _ _ _ Hl Hcf) as (Hc1 & _).
      unfold gap, bend in *. simpl. heap_consts. lia.
    + destruct (get_aligned_spec (start m + bsize m) 12) as [Hga _]; [lia..|].
      unfold cmin. case_match; lia.
  - apply wp_ret. exists h, fr. split_and!; try done; simpl; try lia.
    apply Forall_forall. intros c Hc. specialize (Hd c Hc).
    destruct (layout_facts _ _ _ _ Hl Hc) as (Hc1 & _).
    unfold gap, bend, start_lt in *. heap_consts. destruct (Hsplit c Hc); lia.
Qed.

(** ** [kfree] *)

(** Addresses keep their page and contents, or are in a free block and lose both. *)
Definition released fr' x x' : Prop :=
  ∀ z, (mapped x z → mapped x' z) ∧ (∀ v, byte_at x z = Some v → byte_at x' z = Some v) ∨
       in_blocks z fr' ∧ gone x' z.

Lemma released_keeps fr' x x' : released fr' x x' → keeps (λ z, ¬ in_blocks z fr') x x'.
Proof. intros Hr z Hz. destruct (Hr z) as [?|[? _]]; done. Qed.

(** The outcome: exactly the block's addresses become free, and no address
    outside the free blocks loses its page. *)
Definition kfree_result (s : kheap * X) fr al a (s' : kheap * X) : Prop :=
  ∃ fr', heap_inv s' fr' al ∧
    (∀ z, in_blocks z fr' ↔ in_blocks z fr ∨ in_block z (a_blk a)) ∧
    others s'.1 = others s.1 ∧ released fr' s.2 s'.2 ∧ ∀ z, pinned s'.2 z → pinned s.2 z.

Lemma release_ok h x x0 fr fr0 m ab al E (fs fe : Z) :
  layout (m :: fr) ab → heap_trees h (m :: fr) → env_inv x →
  kheap_finish_init_called h = true → ab = a_blk <$> al → Forall (alloc_ok x) al →
  start m ≤ fs ≤ bend m → start m ≤ fe ≤ bend m → x0 = x → fr0 = m :: fr →
  (∀ z, in_blocks z (m :: fr) → ¬ pinned x z) →
  wp (free_interval (get_aligned fs 12) (page_floor fe))
    (λ _ s', heap_inv s' fr0 al ∧ s'.1 = h ∧ released fr0 x0 s'.2 ∧
       ∀ z, pinned s'.2 z → pinned x0 z) E (h, x).
Proof.
  intros Hl Ht Hx Hr -> Hal Hfs Hfe -> -> Hpin.
  assert (Hm : in_heap m) by (eapply layout_in; [done|set_solver]). heap_consts.
  destruct (get_aligned_spec fs 12) as [Hg Hgm]; [lia..|]. change (2 ^ 12) with 4096 in *.
  destruct (page_floor_spec fe) as [Hf Hfm]; [lia|].
  eapply wp_mono_E; [apply free_interval_ok; [done| |]| |done].
  { unfold heap_range. heap_consts. split_and!; try done; try lia.
    - apply get_aligned_le; [lia..|done|lia].
    - apply page_floor_ge; [lia|done|lia]. }
  { intros z Hz. apply Hpin. exists m. split; [set_solver|]. unfold in_block, bend. lia. }
  intros _ ? (x' & -> & Hx' & Hpin' & Hk).
  assert (Hrel : released (m :: fr) x x').
  { intros z. destruct (Hk z) as [?|[Hz ?]]; [by left|right]. split; [|done].
    exists m. split; [set_solver|]. unfold in_block, bend. lia. }
  pose proof (released_keeps _ _ _ Hrel) as Hk'.
  split_and!; try done. split; try done; simpl; [|intros z Hz Hpz; by apply (Hpin z Hz), Hpin'].
  rewrite Forall_forall in Hal |- *.
  intros a Ha. eapply alloc_ok_keeps; [exact Hk'| |by apply Hal].
  intros z Hz (c & Hc & Hzc). pose proof (lay_disj _ _ Hl) as Hd.
  apply pairwise_app in Hd as (_ & _ & Hd). rewrite Forall_forall in Hd.
  specialize (Hd c Hc). rewrite Forall_forall in Hd.
  assert (bdisj c (a_blk a)) as Hcd by (apply Hd, list_elem_of_fmap; eauto).
  unfold bdisj, in_block in *. lia.
Qed.

Lemma kfree_refines a h x fr al (E : string → Prop) :
  heap_inv (h, x) fr (a :: al) → (∀ z, in_block z (a_blk a) → ¬ pinned x z) →
  ((511 ≤ length fr)%nat → E no_tree_node) →
  wp (kfree (a_ptr a)) (λ _, kfree_result (h, x) fr al a) E (h, x).
Proof.
  intros [Hr Hx Ht Hl Hal Hpin] Hpa HE. simpl in *. apply Forall_cons in Hal as [[Ha1 Ha2 Ha3 Ha4 Ha5] Hal].
  assert (Hm : in_heap (a_blk a)) by (eapply layout_in; [done|set_solver]).
  unfold kfree, sizeof_Block_t in *. heap_consts. rewrite (u32_small (a_ptr a - 8)) by lia. wp_step.
  change (Z.to_nat 8) with (length (bytes_of_block (a_blk a))).
  eapply wp_mono; [apply mem_read_ok; [done| | |done]|].
  { heap_consts. lia. }
  { heap_consts. rewrite length_bytes_of_block. lia. }
  intros ? ? [-> ->]. rewrite block_bytes_roundtrip by (unfold block_u32; lia). cbv zeta.
  rewrite (u32_small (start _ + bsize _)) by lia.
  destruct (Z.ltb_spec (start (a_blk a)) 0xEFC00000); [lia|].
  destruct (Z.ltb_spec 0xFFC00000 (start (a_blk a) + bsize (a_blk a))); [lia|]. simpl orb. cbv iota.
  wp_step. eapply wp_mono; [by eapply kfree_left_ok|].
  intros [m1 fs] ? (h1 & fr1 & -> & Ho1 & Ht1 & Hl1 & Hc1 & Hd1 & He1 & Hn1 & Hfs). simpl in *.
  wp_step. change (start (a_blk a) + bsize (a_blk a)) with (bend (a_blk a)). rewrite <- He1.
  eapply wp_mono; [by eapply kfree_right_ok|].
  intros [m2 fe] ? (h2 & fr2 & -> & Ho2 & Ht2 & Hl2 & Hc2 & Hg2 & He2 & Hn2 & Hfe & Hb2). simpl in *. subst fe.
  assert (Hm1 : in_heap m1) by (eapply layout_in; [exact Hl1|set_solver]).
  apply (put_start_size_ok _ _ _ _ _ fr2); [done|intros; apply HE; lia|]. intros h3 Ho3 Ht3.
  assert (Ho : others h3 = others h) by congruence.
  eapply wp_mono; [eapply (release_ok _ _ x fr2 (m2 :: fr2)); try done|].
  - by apply layout_release.
  - unfold others in Ho. congruence.
  - heap_consts. unfold bend in *. lia.
  - heap_consts. unfold bend in *. lia.
  - intros z Hz. rewrite in_blocks_cons in Hz. specialize (Hc1 z). specialize (Hc2 z).
    assert (in_block z (a_blk a) ∨ in_blocks z fr) as [?|?] by tauto; [by apply Hpa|by apply Hpin].
  - intros _ s' (Hi & Hs & Hk & Hpn). exists (m2 :: fr2). split_and!; try done.
    + intros z. specialize (Hc1 z). specialize (Hc2 z). rewrite in_blocks_cons. tauto.
    + rewrite Hs. exact Ho.
Qed.

(** A header that claims a block overlapping the free list is refused. *)
Definition overlaps b c : Prop := ¬ bdisj b c.

Lemma kfree_left_overlap h x fr b c (E : string → Prop) :
  heap_trees h fr → Forall in_heap fr → pairwise gap fr → block_u32 b → bend b < 2 ^ 32 →
  c ∈ fr → overlaps b c → E invalid_free →
  wp (kfree_left b (start b))
    (λ r s', ∃ h' fr', s' = (h', x) ∧ heap_trees h' fr' ∧ (∀ g, g ∈ fr' → in_heap g) ∧ c ∈ fr' ∧
       start_lt c r.1 = false ∧ start c < bend r.1 ∧ 0 ≤ bend r.1 < 2 ^ 32)
    E (h, x).
Proof.
  intros Ht Hin Hgap [Hb1 Hb2] Hb3 Hc Hov HE. unfold kfree_left. wp_step.
  eapply wp_mono; [by eapply start_find_le_blocks|]. rewrite Forall_forall in Hin.
  pose proof (Hin c Hc) as Hch. unfold overlaps, bdisj in Hov. heap_consts.
  intros p ? [-> Hle]. destruct Hle as [[-> Hb]|Hle].
  { apply wp_ret. exists h, fr. specialize (Hb c Hc). unfold start_lt in *. simpl.
    heap_consts. split_and!; try done; lia. }
  destruct Hle as (g & lz & l1 & l2 & Htr & -> & Hz & Hs & Hgf & Hg & Hsplit). wp_step.
  eapply wp_mono; [apply (start_key_ok _ _ _ _ _ g _ Htr); set_solver|]. intros ? ? [-> ->].
  pose proof (Hin g Hgf) as Hgh. heap_consts. rewrite !(u32_small (start g + bsize g)) by lia.
  destruct (Z.ltb_spec (start b) (start g + bsize g)); [done|].
  assert (Hcg : c ≠ g) by (intros ->; lia).
  apply elem_of_Permutation in Hgf as [fr0 Hfr0]. assert (Hc0 : c ∈ fr0).
  { rewrite Hfr0 in Hc. by apply elem_of_cons in Hc as [?|?]. }
  assert (Hgc : start g + bsize g < start c ∨ start c + bsize c < start g).
  { rewrite Hfr0 in Hgap. apply pairwise_cons in Hgap as [Hgap _].
    rewrite Forall_forall in Hgap. apply (Hgap c Hc0). }
  destruct (Z.eqb_spec (start g + bsize g) (start b)) as [Heq|Hne].
  - cbv zeta. eapply take_by_start_ok; [exact Htr|by rewrite Hs, Hz|by rewrite Hz|].
    intros h1 Ho Ht1. apply wp_ret. cbn [fst snd]. rewrite u32_small by lia.
    exists h1, fr0. unfold start_lt. simpl. heap_consts. split_and!; try done; try lia.
    intros g' Hg'. apply Hin. rewrite Hfr0. set_solver.
  - apply wp_ret. exists h, fr. unfold start_lt in *. simpl. heap_consts.
    destruct (Hsplit c Hc); split_and!; try done; lia.
Qed.

Lemma kfree_right_overlap h x fr m c fe (Q : Block_t * Z → kheap * X → Prop) (E : string → Prop) :
  heap_trees h fr → (∀ g, g ∈ fr → in_heap g) → c ∈ fr → start_lt c m = false →
  start c < bend m → 0 ≤ bend m < 2 ^ 32 → E invalid_free →
  wp (kfree_right m fe) Q E (h, x).
Proof.
  intros Ht Hin Hc Hcm Hlt Hm HE. unfold kfree_right. wp_step.
  eapply wp_mono; [by eapply start_find_ge_blocks|].
  intros p ? [-> Hle]. destruct Hle as [[-> Hb]|Hle].
  { specialize (Hb c Hc). congruence. }
  destruct Hle as (g & lz & l1 & l2 & Htr & -> & Hz & Hs & Hgf & Hg & Hsplit). wp_step.
  eapply wp_mono; [apply (start_key_ok _ _ _ _ _ g _ Htr); set_solver|]. intros ? ? [-> ->].
  destruct (Hsplit c Hc) as [Hgc|?]; [|congruence].
  unfold bend in *. rewrite (u32_small (start m + bsize m)) by lia.
  destruct (Z.ltb_spec (start g) (start m + bsize m)); [done|].
  unfold start_lt in Hgc. lia.
Qed.

Lemma kfree_overlap p b c h x fr al :
  heap_inv (h, x) fr al → block_u32 b → bend b < 2 ^ 32 →
  KERNEL_HEAP_BEGIN ≤ p - sizeof_Block_t → p ≤ KERNEL_HEAP_END →
  (∀ i v, bytes_of_block b !! i = Some v → byte_at x (p - sizeof_Block_t + Z.of_nat i) = Some v) →
  c ∈ fr → overlaps b c →
  wp (kfree p) (λ _ _, False) (λ msg, msg = invalid_free) (h, x).
Proof.
  intros [Hr Hx Ht Hl Hal Hpin] Hb Hbe Hp1 Hp2 Hbytes Hc Hov. simpl in *.
  unfold kfree, sizeof_Block_t in *. heap_consts. rewrite (u32_small (p - 8)) by lia. wp_step.
  change (Z.to_nat 8) with (length (bytes_of_block b)).
  eapply wp_mono; [apply mem_read_ok; [done| | |done]|].
  { heap_consts. lia. }
  { heap_consts. rewrite length_bytes_of_block. lia. }
  intros ? ? [-> ->]. rewrite block_bytes_roundtrip by done. cbv zeta.
  case_match; [done|]. wp_step.
  pose proof (lay_heap _ _ Hl) as Hh. apply Forall_app in Hh as [Hh _].
  eapply wp_mono; [eapply (kfree_left_overlap _ _ _ _ c); try done; apply Hl|].
  intros [m fs] ? (h1 & fr1 & -> & Ht1 & Hin1 & Hc1 & Hlt & Hm & Hm'). wp_step.
  by eapply (kfree_right_overlap _ _ fr1 _ c).
Qed.

(** ** Freeing twice *)
Lemma all_or_some (P Q : nat → Prop) n :
  (∀ i, (i < n)%nat → P i ∨ Q i) → (∀ i, (i < n)%nat → P i) ∨ ∃ i, (i < n)%nat ∧ Q i.
Proof.
  induction n as [|n IH]; intros Hpq; [left; lia|].
  destruct IH as [IH|(i & Hi & HQ)]; [intros; apply Hpq; lia| |right; exists i; split; [lia|done]].
  destruct (Hpq n) as [HP|HQ]; [lia| |right; exists n; split; [lia|done]].
  left. intros i Hi. destruct (decide (i = n)) as [->|]; [done|]. apply IH. lia.
Qed.

Lemma kfree_stale a h x fr al :
  heap_inv (h, x) fr al → in_heap (a_blk a) →
  start (a_blk a) + sizeof_Block_t ≤ a_ptr a → a_ptr a ≤ bend (a_blk a) →
  (∀ z, in_block z (a_blk a) → in_blocks z fr) →
  (∀ i v, bytes_of_block (a_blk a) !! i = Some v →
     byte_at x (a_ptr a - sizeof_Block_t + Z.of_nat i) = Some v ∨
     gone x (a_ptr a - sizeof_Block_t + Z.of_nat i)) →
  wp (kfree (a_ptr a)) (λ _ _, False) (λ msg, msg = invalid_free ∨ msg = page_fault_msg) (h, x).
Proof.
  intros Hi Hm Hlo Hhi Hcov Hby.
  assert (Hor : ∀ i, (i < 8)%nat →
    (∀ v, bytes_of_block (a_blk a) !! i = Some v → byte_at x (a_ptr a - sizeof_Block_t + Z.of_nat i) = Some v) ∨
    gone x (a_ptr a - sizeof_Block_t + Z.of_nat i)).
  { intros i Hlt. destruct (lookup_lt_is_Some_2 (bytes_of_block (a_blk a)) i Hlt) as [v Hv].
    destruct (Hby i v Hv) as [?|?]; [left|by right]. intros v' ?. by simplify_eq. }
  destruct (Hcov (start (a_blk a))) as (c & Hc & Hcz).
  { heap_consts. unfold in_block, bend. lia. }
  destruct (all_or_some _ _ 8 Hor) as [Hall|(i & Hlt & Hg)].
  - eapply wp_mono_E; [eapply (kfree_overlap _ (a_blk a) c); try done| |by left].
    + heap_consts. unfold block_u32. lia.
    + heap_consts. lia.
    + heap_consts. lia.
    + heap_consts. lia.
    + intros i v Hv. apply Hall; [|done]. apply lookup_lt_Some in Hv. done.
    + unfold overlaps, bdisj, in_block in *. heap_consts. lia.
    + done.
  - unfold kfree. wp_step. heap_consts. unfold sizeof_Block_t in *. rewrite u32_small by lia.
    eapply wp_mono_E; [apply mem_read_gone; [apply Hi| | | |]| |].
    + heap_consts. lia.
    + heap_consts. change (Z.to_nat 8) with 8%nat. lia.
    + intros z Hz. change (Z.to_nat 8) with 8%nat in Hz.
      destruct (lookup_lt_is_Some_2 (bytes_of_block (a_blk a)) (Z.to_nat (z - (a_ptr a - 8)))) as [v Hv].
      { rewrite length_bytes_of_block. lia. }
      apply Hby in Hv. replace (a_ptr a - 8 + Z.of_nat (Z.to_nat (z - (a_ptr a - 8)))) with z in Hv by lia.
      destruct Hv as [Hv|Hv]; [left; congruence|by right].
    + exists (a_ptr a - 8 + Z.of_nat i). change (Z.to_nat 8) with 8%nat. split; [lia|done].
    + done.
    + by right.
Qed.

(** ** The owner of an allocation writes into it *)
Lemma payload_write_ok a h x fr al (off : Z) l :
  heap_inv (h, x) fr (a :: al) → Forall (λ v, 0 ≤ v < 256) l →
  0 ≤ off → off + Z.of_nat (length l) ≤ a_len a →
  wp (mem_write (a_ptr a + off) l)
    (λ _ s', heap_inv s' fr (a :: al) ∧
       (∀ i v, l !! i = Some v → byte_at s'.2 (a_ptr a + off + Z.of_nat i) = Some v) ∧
       (∀ z v, ¬ (a_ptr a + off ≤ z < a_ptr a + off + Z.of_nat (length l)) →
          byte_at x z = Some v → byte_at s'.2 z = Some v) ∧
       ∀ z, pinned s'.2 z → pinned x z)
    (λ msg, msg = no_free_frame ∧ frames_left x < pages_touched (a_ptr a + off) (Z.of_nat (length l))) (h, x).
Proof.
  intros [Hr Hx Ht Hl Hal Hpin] Hby Hoff Hlen. simpl in *.
  apply Forall_cons in Hal as [Ha Hal]. pose proof Ha as [Ha1 Ha2 Ha3 Ha4 Ha5].
  assert (Hm : in_heap (a_blk a)) by (eapply layout_in; [done|set_solver]).
  unfold sizeof_Block_t in *. heap_consts.
  eapply wp_mono; [apply (mem_write_ok h x (a_ptr a + off) l); [done|done|heap_consts; lia|heap_consts; lia|]|].
  { intros z Hz. apply Ha5. lia. }
  intros _ ? (x' & -> & Hx' & Hpin' & Hmp & Hw & Hk). simpl.
  set (P z := ¬ (a_ptr a + off ≤ z < a_ptr a + off + Z.of_nat (length l))) in *.
  assert (Hkeep : keeps P x x') by (intros z Hz; split; [by apply Hmp|intros; by apply Hk]).
  assert (Hout : ∀ a' z, a' ∈ al → in_block z (a_blk a') → P z).
  { intros a' z Ha' Hz Hin. destruct (layout_sep _ _ _ z Hl) as [_ Hsep].
    { unfold in_block, bend. lia. }
    apply Hsep. exists (a_blk a'). split; [|done]. apply list_elem_of_fmap. eauto. }
  split_and!; try done.
  - split; simpl; try done; [|intros z Hz Hpz; by apply (Hpin z Hz), Hpin'].
    constructor.
    + split; unfold sizeof_Block_t; try done; try lia.
      * intros i v Hi. apply Hk; [|by apply Ha4]. apply lookup_lt_Some in Hi.
        rewrite length_bytes_of_block in Hi. lia.
      * intros z Hz. apply Hmp, Ha5, Hz.
    + rewrite Forall_forall in Hal |- *. intros a' Ha'. eapply alloc_ok_keeps; [exact Hkeep| |by apply Hal].
      eauto.
Qed.
End Free.
