(* ===== verification/Page.v ===== *)
(** [core/page.cpp], [include/page.h]: page tables, frames and their reference
    counts, directory cloning, the page-fault handler, and the initialization
    of paging, with the memory accesses the processor makes through them. *)
From S2P Require Import Prelude Rbt TreeMm Common Kheap.

(** * Data *)

Record Directory_entry_t : Type := DirEntry {
  d_present : Z; d_rw : Z; d_user : Z; d_wrt_thr : Z; d_cache_dis : Z; d_accessed : Z;
  d_zero : Z; d_addr : Z
}.
Definition dir_entry_zero : Directory_entry_t := DirEntry 0 0 0 0 0 0 0 0.

Record Table_entry_t : Type := Entry {
  present : Z; rw : Z; user : Z; wrt_thr : Z; cache_dis : Z; accessed : Z; dirty : Z; zero : Z;
  global : Z; allocable : Z; alloc_fill : Z; e_addr : Z
}.
Definition entry_zero : Table_entry_t := Entry 0 0 0 0 0 0 0 0 0 0 0 0.

(** The word the processor reads, field by field from the low bit. *)
Definition pack_entry (e : Table_entry_t) : Z :=
  present e + 2 * (rw e + 2 * (user e + 2 * (wrt_thr e + 2 * (cache_dis e + 2 * (accessed e +
  2 * (dirty e + 2 * (zero e + 2 * (global e + 2 * (allocable e + 2 * (alloc_fill e +
  4 * e_addr e)))))))))).
Definition bit_field (w lo n : Z) : Z := Z.shiftr w lo mod 2 ^ n.
Definition unpack_entry (w : Z) : Table_entry_t :=
  Entry (bit_field w 0 1) (bit_field w 1 1) (bit_field w 2 1) (bit_field w 3 1) (bit_field w 4 1)
    (bit_field w 5 1) (bit_field w 6 1) (bit_field w 7 1) (bit_field w 8 1) (bit_field w 9 1)
    (bit_field w 10 2) (bit_field w 12 20).

(** Assignments to the bit fields the code writes. *)
Definition set_present (v : Z) (e : Table_entry_t) : Table_entry_t :=
  Entry (v mod 2) (rw e) (user e) (wrt_thr e) (cache_dis e) (accessed e) (dirty e) (zero e)
    (global e) (allocable e) (alloc_fill e) (e_addr e).
Definition set_rw (v : Z) (e : Table_entry_t) : Table_entry_t :=
  Entry (present e) (v mod 2) (user e) (wrt_thr e) (cache_dis e) (accessed e) (dirty e) (zero e)
    (global e) (allocable e) (alloc_fill e) (e_addr e).
Definition set_user (v : Z) (e : Table_entry_t) : Table_entry_t :=
  Entry (present e) (rw e) (v mod 2) (wrt_thr e) (cache_dis e) (accessed e) (dirty e) (zero e)
    (global e) (allocable e) (alloc_fill e) (e_addr e).
Definition set_allocable (v : Z) (e : Table_entry_t) : Table_entry_t :=
  Entry (present e) (rw e) (user e) (wrt_thr e) (cache_dis e) (accessed e) (dirty e) (zero e)
    (global e) (v mod 2) (alloc_fill e) (e_addr e).
Definition set_alloc_fill (v : Z) (e : Table_entry_t) : Table_entry_t :=
  Entry (present e) (rw e) (user e) (wrt_thr e) (cache_dis e) (accessed e) (dirty e) (zero e)
    (global e) (allocable e) (v mod 4) (e_addr e).
Definition set_addr (v : Z) (e : Table_entry_t) : Table_entry_t :=
  Entry (present e) (rw e) (user e) (wrt_thr e) (cache_dis e) (accessed e) (dirty e) (zero e)
    (global e) (allocable e) (alloc_fill e) (v mod 2 ^ 20).

(** [tables] holds addresses, 0 for NULL; absent keys are zeroed entries. *)
Record Directory_t : Type := Directory {
  tables : gmap Z Z;
  entries : gmap Z Directory_entry_t;
  phyaddr : Z
}.
Definition directory_zero : Directory_t := Directory ∅ ∅ 0.
Definition table_of (d : Directory_t) (i : Z) : Z := default 0 (tables d !! i).
Definition dir_entry_of (d : Directory_t) (i : Z) : Directory_entry_t :=
  default dir_entry_zero (entries d !! i).

(** The variables of [page.cpp], the page tables and directories in memory by
    address, and physical memory by byte; what was never written reads as
    [phys0] says. *)
Record paging : Type := Paging {
  pte : gmap Z Table_entry_t;
  dirs : gmap Z Directory_t;
  current_page_dir : Z;
  cr3 : Z;
  frames : gmap Z Z;
  frames_len : Z;
  nframes : Z;
  frame_ref_cnt : gmap Z Z;
  ref_lo : Z;
  ref_len : Z;
  empty_page0_addr : Z;
  empty_page1_addr : Z;
  empty_page0_ptr : Z;
  empty_page1_ptr : Z;
  kernel_low_ntable : Z;
  init_finished : bool;
  phys : gmap Z Z;
  phys0 : Z → Z;
  klog : list (string * list Z)
}.

Section Updates.
Context (p : paging).
Definition with_pte v : paging := Paging v (dirs p) (current_page_dir p) (cr3 p) (frames p) (frames_len p) (nframes p) (frame_ref_cnt p) (ref_lo p) (ref_len p) (empty_page0_addr p) (empty_page1_addr p) (empty_page0_ptr p) (empty_page1_ptr p) (kernel_low_ntable p) (init_finished p) (phys p) (phys0 p) (klog p).
Definition with_dirs v : paging := Paging (pte p) v (current_page_dir p) (cr3 p) (frames p) (frames_len p) (nframes p) (frame_ref_cnt p) (ref_lo p) (ref_len p) (empty_page0_addr p) (empty_page1_addr p) (empty_page0_ptr p) (empty_page1_ptr p) (kernel_low_ntable p) (init_finished p) (phys p) (phys0 p) (klog p).
Definition with_current d c : paging := Paging (pte p) (dirs p) d c (frames p) (frames_len p) (nframes p) (frame_ref_cnt p) (ref_lo p) (ref_len p) (empty_page0_addr p) (empty_page1_addr p) (empty_page0_ptr p) (empty_page1_ptr p) (kernel_low_ntable p) (init_finished p) (phys p) (phys0 p) (klog p).
Definition with_frames f l n : paging := Paging (pte p) (dirs p) (current_page_dir p) (cr3 p) f l n (frame_ref_cnt p) (ref_lo p) (ref_len p) (empty_page0_addr p) (empty_page1_addr p) (empty_page0_ptr p) (empty_page1_ptr p) (kernel_low_ntable p) (init_finished p) (phys p) (phys0 p) (klog p).
Definition with_refs r lo n : paging := Paging (pte p) (dirs p) (current_page_dir p) (cr3 p) (frames p) (frames_len p) (nframes p) r lo n (empty_page0_addr p) (empty_page1_addr p) (empty_page0_ptr p) (empty_page1_ptr p) (kernel_low_ntable p) (init_finished p) (phys p) (phys0 p) (klog p).
Definition with_empty a0 a1 p0 p1 : paging := Paging (pte p) (dirs p) (current_page_dir p) (cr3 p) (frames p) (frames_len p) (nframes p) (frame_ref_cnt p) (ref_lo p) (ref_len p) a0 a1 p0 p1 (kernel_low_ntable p) (init_finished p) (phys p) (phys0 p) (klog p).
Definition with_low_ntable v : paging := Paging (pte p) (dirs p) (current_page_dir p) (cr3 p) (frames p) (frames_len p) (nframes p) (frame_ref_cnt p) (ref_lo p) (ref_len p) (empty_page0_addr p) (empty_page1_addr p) (empty_page0_ptr p) (empty_page1_ptr p) v (init_finished p) (phys p) (phys0 p) (klog p).
Definition with_init_finished v : paging := Paging (pte p) (dirs p) (current_page_dir p) (cr3 p) (frames p) (frames_len p) (nframes p) (frame_ref_cnt p) (ref_lo p) (ref_len p) (empty_page0_addr p) (empty_page1_addr p) (empty_page0_ptr p) (empty_page1_ptr p) (kernel_low_ntable p) v (phys p) (phys0 p) (klog p).
Definition with_phys v : paging := Paging (pte p) (dirs p) (current_page_dir p) (cr3 p) (frames p) (frames_len p) (nframes p) (frame_ref_cnt p) (ref_lo p) (ref_len p) (empty_page0_addr p) (empty_page1_addr p) (empty_page0_ptr p) (empty_page1_ptr p) (kernel_low_ntable p) (init_finished p) v (phys0 p) (klog p).
Definition with_klog v : paging := Paging (pte p) (dirs p) (current_page_dir p) (cr3 p) (frames p) (frames_len p) (nframes p) (frame_ref_cnt p) (ref_lo p) (ref_len p) (empty_page0_addr p) (empty_page1_addr p) (empty_page0_ptr p) (empty_page1_ptr p) (kernel_low_ntable p) (init_finished p) (phys p) (phys0 p) v.
End Updates.

(** [sizeof] the structures *)
Definition sizeof_Table_t : Z := 4096.
Definition sizeof_Directory_t : Z := 4096 + 4096 + 4.

(** Addresses the linker chooses for [page.cpp]. *)
Class PageLink := { kernel_code_end : Z }.

(** [Isr_registers_t], as far as the handlers read it. *)
Record Isr_registers_t : Type := IsrRegs { int_no : Z; err_code : Z; eip : Z }.

Definition kstate : Type := kheap * paging.

Section Page.
Context `{PageLink}.
(** [kmalloc], and [isr_register(14, page_fault)] *)
Context (kmalloc : Z → Z → M kstate Z) (isr_register_page_fault : M kstate unit).
#[local] Abbreviation PM := (M kstate).

Definition getp : PM paging := λ s, Ret (s.2, s).
Definition putp (p : paging) : PM unit := λ s, Ret (tt, (s.1, p)).
Definition Klog_log (fmt : string) (args : list Z) : PM unit :=
  p ← getp; putp (with_klog p (klog p ++ [(fmt, args)])).

(** Access to a page table entry, a directory, a reference count. *)
Definition rd_pte (a : Z) : PM Table_entry_t :=
  p ← getp; match pte p !! a with Some e => mret e | None => fault end.
Definition upd_pte (a : Z) (f : Table_entry_t → Table_entry_t) : PM unit :=
  e ← rd_pte a; p ← getp; putp (with_pte p (<[a:=f e]> (pte p))).
Definition rd_dir (a : Z) : PM Directory_t :=
  p ← getp; match dirs p !! a with Some d => mret d | None => fault end.
Definition upd_dir (a : Z) (f : Directory_t → Directory_t) : PM unit :=
  d ← rd_dir a; p ← getp; putp (with_dirs p (<[a:=f d]> (dirs p))).
Definition rd_ref (f : Z) : PM Z :=
  p ← getp; match frame_ref_cnt p !! f with Some n => mret n | None => fault end.
Definition wr_ref (f n : Z) : PM unit :=
  p ← getp;
  if decide (ref_lo p ≤ f < ref_lo p + ref_len p)
  then putp (with_refs p (<[f:=n]> (frame_ref_cnt p)) (ref_lo p) (ref_len p))
  else fault.

(** [frames[-- nframes]] and [frames[nframes ++] = f] *)
Definition pop_frame : PM Z :=
  p ← getp;
  match frames p !! (nframes p - 1) with
  | Some f => putp (with_frames p (frames p) (frames_len p) (nframes p - 1)) ;; mret f
  | None => fault
  end.
Definition push_frame (f : Z) : PM unit :=
  p ← getp;
  if decide (0 ≤ nframes p < frames_len p)
  then putp (with_frames p (<[nframes p:=f]> (frames p)) (frames_len p) (nframes p + 1))
  else fault.

(** Physical memory. *)
Definition phys_at (p : paging) (a : Z) : Z := default (phys0 p a) (phys p !! a).
Definition write_phys (a : Z) (l : list Z) : PM unit :=
  p ← getp;
  putp (with_phys p (list_to_map (zip (Z.add a <$> (Z.of_nat <$> seq 0 (length l))) l) ∪ phys p)).
Definition read_frame (p : paging) (f : Z) : list Z :=
  (λ i, phys_at p (Z.shiftl f 12 + i)) <$> upto 0 4096.

(** ** [Table_entry_t] *)

Definition Table_entry_alloc (this : Z) (user_ writable : bool) : PM unit :=
  upd_pte this (set_rw (if writable then 1 else 0)) ;;
  upd_pte this (set_user (if user_ then 1 else 0)) ;;
  e ← rd_pte this;
  if e_addr e =? 0 then
    p ← getp;
    if nframes p =? 0 then panic "no free frame"
    else
      f ← pop_frame;
      upd_pte this (set_addr f) ;;
      e ← rd_pte this;
      wr_ref (e_addr e) 1 ;;
      upd_pte this (set_allocable 1) ;;
      upd_pte this (set_present 1) ;;
      Klog_log "frame 0x%x allocated" [e_addr e]
  else mret tt.

(** the [rep stosl] through the page at [empty_page0_addr] *)
Definition Table_entry_fill_uint32 (this val : Z) : PM unit :=
  e ← rd_pte this;
  p ← getp;
  upd_pte (empty_page0_ptr p) (set_addr (e_addr e)) ;;
  e0 ← rd_pte (empty_page0_ptr p);
  write_phys (Z.shiftl (e_addr e0) 12) (concat (replicate 1024 (bytes_of_u32 val))).

Definition Table_entry_lazy_alloc (this : Z) (user_ writable fill_zero : bool) : PM unit :=
  upd_pte this (set_rw (if writable then 1 else 0)) ;;
  upd_pte this (set_user (if user_ then 1 else 0)) ;;
  e ← rd_pte this;
  if e_addr e =? 0 then
    upd_pte this (set_allocable 1) ;;
    upd_pte this (set_alloc_fill (if fill_zero then 1 else 0))
  else if fill_zero then Table_entry_fill_uint32 this 0
  else mret tt.

Definition Table_entry_free (this : Z) : PM unit :=
  e ← rd_pte this;
  if e_addr e =? 0 then mret tt
  else
    n ← rd_ref (e_addr e);
    wr_ref (e_addr e) (u32 (n - 1)) ;;
    (if u32 (n - 1) =? 0 then
       push_frame (e_addr e) ;;
       Klog_log "frame 0x%x freed" [e_addr e]
     else mret tt) ;;
    upd_pte this (set_addr 0) ;;
    upd_pte this (set_present 0) ;;
    upd_pte this (set_allocable 0).

(** ** Accesses through the MMU *)

(** The entry of [addr] in a directory, by the pointers the kernel keeps. *)
Definition tb_idx (addr : Z) : Z := Z.shiftr addr 22.
Definition tb_offset (addr : Z) : Z := Z.land (Z.shiftr addr 12) 0x3FF.
Definition entry_ptr (table i : Z) : Z := table + 4 * i.

(** [copy_page_physical]'s [rep movsl] through the two empty pages *)
Definition copy_page_physical (dest src : Z) : PM unit :=
  p ← getp;
  upd_pte (empty_page0_ptr p) (set_addr (Z.shiftr src 12)) ;;
  upd_pte (empty_page1_ptr p) (set_addr (Z.shiftr dest 12)) ;;
  e0 ← rd_pte (empty_page0_ptr p);
  e1 ← rd_pte (empty_page1_ptr p);
  p ← getp;
  write_phys (Z.shiftl (e_addr e1) 12) (read_frame p (e_addr e0)).

(** [get_page(addr)] without [make]; 0 is [NULL] *)
Definition find_page (this addr : Z) : PM Z :=
  d ← rd_dir this;
  if table_of d (tb_idx addr) =? 0 then mret 0
  else mret (entry_ptr (table_of d (tb_idx addr)) (tb_offset addr)).

(** The message of the error exit. *)
Definition BIT_MEAN (i x : Z) : option string :=
  match i, x with
  | 0, 0 => Some "non-present" | 0, _ => Some "protection violation"
  | 1, 0 => Some "read" | 1, _ => Some "write"
  | 2, 0 => Some "supervisor" | 2, _ => Some "user"
  | _, 0 => None | _, _ => Some "instruction fetch"
  end.
Definition fault_meanings (code : Z) : list string :=
  omap (λ i, BIT_MEAN i (Z.land (Z.shiftr code i) 1)) [0; 1; 2; 3].

(** The handler; [cr2] is the address that faulted. *)
Definition page_fault (reg : Isr_registers_t) (cr2 : Z) : PM unit :=
  p ← getp;
  page ← find_page (current_page_dir p) cr2;
  let error : PM unit := panic "page fault" in
  if page =? 0 then error
  else
    e ← rd_pte page;
    if allocable e =? 0 then error
    else if (user e =? 0) && (kernel_code_end <=? eip reg) then error
    else if Z.land (err_code reg) 1 =? 0 then
      Table_entry_alloc page (negb (user e =? 0)) (negb (rw e =? 0)) ;;
      e ← rd_pte page;
      (if alloc_fill e =? 0 then mret tt else Table_entry_fill_uint32 page 0)
    else if negb (Z.land (err_code reg) 2 =? 0) then
      if negb (user e =? 0) then
        if e_addr e =? 0 then error
        else
          n ← rd_ref (e_addr e);
          if n =? 0 then error
          else if n =? 1 then upd_pte page (set_rw 1)
          else
            let addr := e_addr e in
            wr_ref addr (u32 (n - 1)) ;;
            upd_pte page (set_addr 0) ;;
            Table_entry_alloc page true true ;;
            e ← rd_pte page;
            copy_page_physical (Z.shiftl (e_addr e) 12) (Z.shiftl addr 12)
      else error
    else error.

(** What the processor does for an access at [va] by code at [ip]: the byte's
    physical address, after as many page faults as it takes. *)
Definition fault_code (e : Table_entry_t) (write by_user : bool) : option Z :=
  let wu := (if write then 2 else 0) + (if by_user then 4 else 0) in
  if present e =? 0 then Some wu
  else if (write && (rw e =? 0)) || (by_user && (user e =? 0)) then Some (1 + wu)
  else None.
Fixpoint translate (fuel : nat) (va ip : Z) (write by_user : bool) : PM Z :=
  match fuel with
  | O => nofuel
  | S fuel =>
    p ← getp;
    page ← find_page (current_page_dir p) va;
    e ← (if page =? 0 then mret entry_zero else rd_pte page);
    match fault_code e write by_user with
    | None => mret (Z.shiftl (e_addr e) 12 + Z.land va 0xFFF)
    | Some code => page_fault (IsrRegs 14 code ip) va ;; translate fuel va ip write by_user
    end
  end.

(** Kernel code at [ip] below [kernel_code_end] reads and writes bytes. *)
Definition kernel_write (va : Z) (l : list Z) : PM unit :=
  for_each (zip (Z.of_nat <$> seq 0 (length l)) l)
    (λ '(i, v), a ← translate 3 (va + i) 0 true false; write_phys a [v]).
Fixpoint kernel_read (va : Z) (n : nat) : PM (list Z) :=
  match n with
  | O => mret []
  | S n =>
    a ← translate 3 va 0 false false;
    p ← getp;
    l ← kernel_read (va + 1) n;
    mret (phys_at p a :: l)
  end.

(** [memset(p, 0, size)] on an object of the model: before paging is on it
    touches nothing, afterwards every page of the object is written to. *)
Definition touch (va size : Z) : PM unit :=
  p ← getp;
  if init_finished p then
    for_each (upto (Z.shiftr va 12) (Z.shiftr (va + size - 1) 12 + 1))
      (λ pg, translate 3 (cmax va (Z.shiftl pg 12)) 0 true false ;; mret tt)
  else mret tt.

(** ** [Directory_t] *)

Definition get_physical_addr (this addr : Z) (alloc user_ writable : bool) : PM Z :=
  p ← getp;
  if negb (init_finished p) then mret addr
  else
    page ← find_page this addr;
    if page =? 0 then mret 0
    else
      e ← rd_pte page;
      if (e_addr e =? 0) && negb alloc then mret 0
      else
        (if e_addr e =? 0 then Table_entry_alloc page user_ writable else mret tt) ;;
        e ← rd_pte page;
        mret (Z.lor (u32 (Z.shiftl (e_addr e) 12)) (Z.land addr 0xFFF)).

(** the 1024 zero entries of a fresh table *)
Definition zero_table (t : Z) : gmap Z Table_entry_t :=
  list_to_map ((λ i, (entry_ptr t i, entry_zero)) <$> upto 0 1024).

Definition dir_set_table (i t : Z) (d : Directory_t) : Directory_t :=
  Directory (<[i:=t]> (tables d)) (entries d) (phyaddr d).
Definition dir_set_entry (i : Z) (e : Directory_entry_t) (d : Directory_t) : Directory_t :=
  Directory (tables d) (<[i:=e]> (entries d)) (phyaddr d).
Definition dir_set_phyaddr (v : Z) (d : Directory_t) : Directory_t :=
  Directory (tables d) (entries d) v.
Definition dentry_set_addr (v : Z) (e : Directory_entry_t) : Directory_entry_t :=
  DirEntry (d_present e) (d_rw e) (d_user e) (d_wrt_thr e) (d_cache_dis e) (d_accessed e)
    (d_zero e) (v mod 2 ^ 20).
Definition dentry_set_all (e : Directory_entry_t) : Directory_entry_t :=
  DirEntry 1 1 1 (d_wrt_thr e) (d_cache_dis e) (d_accessed e) (d_zero e) (d_addr e).

(** [Directory_t::get_page]; 0 is [NULL] *)
Definition get_page (this addr : Z) (make : bool) : PM Z :=
  let i := tb_idx addr in
  d ← rd_dir this;
  if table_of d i =? 0 then
    if negb make then mret 0
    else
      t ← kmalloc sizeof_Table_t 12;
      upd_dir this (dir_set_table i t) ;;
      touch t sizeof_Table_t ;;
      p ← getp;
      putp (with_pte p (zero_table t ∪ pte p)) ;;
      d ← rd_dir this;
      upd_dir this (dir_set_entry i (dentry_set_all (dir_entry_of d i))) ;;
      p ← getp;
      pa ← get_physical_addr (current_page_dir p) t false false true;
      d ← rd_dir this;
      upd_dir this (dir_set_entry i (dentry_set_addr (Z.shiftr pa 12) (dir_entry_of d i))) ;;
      mret (entry_ptr t (tb_offset addr))
  else mret (entry_ptr (table_of d i) (tb_offset addr)).

Definition enable (this : Z) : PM unit :=
  d ← rd_dir this;
  p ← getp;
  putp (with_current p this (phyaddr d)).

(** [for (i = begin; i < end; i += 0x1000) body(i)] *)
Fixpoint for_pages (fuel : nat) (i e : Z) (body : Z → PM unit) : PM unit :=
  if i <? e then
    match fuel with
    | O => nofuel
    | S fuel => body i ;; for_pages fuel (u32 (i + 0x1000)) e body
    end
  else mret tt.
Definition pages_fuel (b e : Z) : nat := Z.to_nat ((e - b) / 0x1000).
Definition kassert_page (z : Z) (msg : string) : PM unit :=
  if page_floor z =? z then mret tt else panic msg.

Definition dir_lazy_alloc_interval (this b e : Z) (user_ writable fill_zero : bool) : PM unit :=
  kassert_page b "(begin & 0xFFFFF000) == begin" ;;
  kassert_page e "(end & 0xFFFFF000) == end" ;;
  for_pages (pages_fuel b e) b e (λ i,
    page ← get_page this i true;
    Table_entry_lazy_alloc page user_ writable fill_zero).

Definition dir_free_interval (this b e : Z) : PM unit :=
  kassert_page b "(begin & 0xFFFFF000) == begin" ;;
  kassert_page e "(end & 0xFFFFF000) == end" ;;
  for_pages (pages_fuel b e) b e (λ i,
    page ← get_page this i false;
    if page =? 0 then mret tt
    else
      en ← rd_pte page;
      if present en =? 0 then mret tt else Table_entry_free page).

Definition dir_alloc_interval (this b e : Z) (user_ writable : bool) : PM unit :=
  kassert_page b "(begin & 0xFFFFF000) == begin" ;;
  kassert_page e "(end & 0xFFFFF000) == end" ;;
  for_pages (pages_fuel b e) b e (λ i,
    page ← get_page this i true;
    Table_entry_alloc page user_ writable).

(** One entry of [clone_table]'s loop. *)
Definition clone_entry (src dest i : Z) : PM unit :=
  e ← rd_pte (entry_ptr src i);
  if e_addr e =? 0 then
    p ← getp; putp (with_pte p (<[entry_ptr dest i:=e]> (pte p)))
  else
    upd_pte (entry_ptr src i) (set_rw 0) ;;
    e ← rd_pte (entry_ptr src i);
    p ← getp;
    putp (with_pte p (<[entry_ptr dest i:=e]> (pte p))) ;;
    n ← rd_ref (e_addr e);
    wr_ref (e_addr e) (u32 (n + 1)).

Definition clone_table (src : Z) : PM Z :=
  dest ← kmalloc sizeof_Table_t 12;
  touch dest sizeof_Table_t ;;
  p ← getp;
  putp (with_pte p (zero_table dest ∪ pte p)) ;;
  for_each (upto 0 1024) (clone_entry src dest) ;;
  mret dest.

Definition link_table (src dest i : Z) : PM unit :=
  s ← rd_dir src;
  upd_dir dest (dir_set_table i (table_of s i)) ;;
  upd_dir dest (dir_set_entry i (dir_entry_of s i)).

Definition clone_directory (src : Z) : PM Z :=
  dest ← kmalloc sizeof_Directory_t 12;
  touch dest sizeof_Directory_t ;;
  p ← getp;
  putp (with_dirs p (<[dest:=directory_zero]> (dirs p))) ;;
  pa ← get_physical_addr (current_page_dir p) (dest + 4096) false false true;
  upd_dir dest (dir_set_phyaddr pa) ;;
  p ← getp;
  for_each (upto 0 (kernel_low_ntable p)) (link_table src dest) ;;
  for_each (upto (Z.shiftr KERNEL_HEAP_BEGIN 22) (Z.shiftr KERNEL_HEAP_END 22)) (link_table src dest) ;;
  for_pages (pages_fuel (KERNEL_STACK_POS - KERNEL_STACK_SIZE) KERNEL_STACK_POS)
    (KERNEL_STACK_POS - KERNEL_STACK_SIZE) KERNEL_STACK_POS (λ i,
    get_page dest i true ;;
    d ← get_physical_addr dest i true false true;
    p ← getp;
    s ← get_physical_addr (current_page_dir p) i false false true;
    copy_page_physical d s) ;;
  p ← getp;
  for_each (upto (kernel_low_ntable p) (Z.shiftr KERNEL_HEAP_BEGIN 22)) (λ i,
    s ← rd_dir src;
    if table_of s i =? 0 then mret tt
    else
      t ← clone_table (table_of s i);
      upd_dir dest (dir_set_table i t) ;;
      s ← rd_dir src;
      p ← getp;
      pa ← get_physical_addr (current_page_dir p) t false false true;
      upd_dir dest (dir_set_entry i (dentry_set_addr (Z.shiftr pa 12) (dir_entry_of s i)))) ;;
  mret dest.
End Page.
