(* ===== verification/PageInit.v ===== *)
(** The rest of [core/page.cpp] — [init_frames], [Page::init] and the multiboot
    data they read ([include/multiboot.h]) — and the knot between [kmalloc] and
    the pages: the heap calls the page component, whose [get_page] calls the
    heap. *)
From S2P Require Import Prelude Rbt TreeMm Common Kheap Page.

(** * Multiboot data *)
Record Multiboot_mmap_entry_t : Type := MmapEntry {
  mm_size : Z; mm_addr : Z; mm_len : Z; mm_type : Z
}.
Definition MULTIBOOT_MEMORY_AVAILABLE : Z := 1.
Definition MULTIBOOT_INFO_MEM_MAP : Z := 0x40.

(** [Multiboot_info_t], and what the boot loader left at the addresses in it. *)
Record Multiboot_info_t : Type := MultibootInfo {
  mb_flags : Z; mb_mem_lower : Z; mb_mem_upper : Z; mb_boot_device : Z; mb_cmdline : Z;
  mb_mods_count : Z; mb_mods_addr : Z; mb_mmap_length : Z; mb_mmap_addr : Z
}.
Record boot_memory : Type := BootMemory {
  boot_word : Z → Z;
  mmap_at : Z → Multiboot_mmap_entry_t
}.

Definition u64 (z : Z) : Z := z mod 2 ^ 64.

Section Knot.
Context `{HeapLink} `{FreshNode} `{PageLink}.

(** The services of the page component, for a given [kmalloc]. *)
Definition page_env (kmalloc : Z → Z → M kstate Z) : HeapEnv paging := {|
  lazy_alloc_interval b e user_ writable fill_zero :=
    p ← getp; dir_lazy_alloc_interval kmalloc (current_page_dir p) b e user_ writable fill_zero;
  free_interval b e :=
    p ← getp; dir_free_interval kmalloc (current_page_dir p) b e;
  Kheap.get_page a make := p ← getp; get_page kmalloc (current_page_dir p) a make;
  mem_write := kernel_write;
  mem_read := kernel_read;
  log_info := Klog_log
|}.

(** [n] bounds how deep [kmalloc] may call itself through [get_page]. *)
Fixpoint kmalloc_at (n : nat) (size palign : Z) : M kstate Z :=
  match n with
  | O => nofuel
  | S n => @kmalloc _ _ paging (page_env (kmalloc_at n)) size palign
  end.
Definition kernel_kmalloc : Z → Z → M kstate Z := kmalloc_at 2.
Definition kernel_env : HeapEnv paging := page_env kernel_kmalloc.
#[local] Existing Instance kernel_env.
Definition kernel_kfree (addr : Z) : M kstate unit := kfree addr.
End Knot.

Section Init.
Context `{HeapLink} `{FreshNode} `{PageLink}.
Context (isr_register_page_fault : M kstate unit).
Context (boot : boot_memory) (mbd : Multiboot_info_t).
#[local] Existing Instance kernel_env.
#[local] Abbreviation PM := (M kstate).

(** The first loop: the end of the available memory. *)
Fixpoint mmap_memsize (fuel : nat) (mmap_addr memsize : Z) : PM Z :=
  if mmap_addr <? u32 (mb_mmap_addr mbd + mb_mmap_length mbd) then
    match fuel with
    | O => nofuel
    | S fuel =>
      let mmap := mmap_at boot mmap_addr in
      Klog_log "mmap: %s: start=0x%x len=%d kb"
        [mm_type mmap; u32 (mm_addr mmap); Z.shiftr (u32 (mm_len mmap)) 10] ;;
      memsize ← (if mm_type mmap =? MULTIBOOT_MEMORY_AVAILABLE then
          let e := u64 (mm_addr mmap + mm_len mmap) in
          if (0xFFFFFFFF <=? mm_addr mmap) || (0xFFFFFFFF <=? mm_len mmap) || (0xFFFFFFFF <? e)
          then panic "physical memory too large"
          else mret (if memsize <? e then u32 e else memsize)
        else mret memsize);
      mmap_memsize fuel (u32 (mmap_addr + mm_size mmap + 4)) memsize
    end
  else mret memsize.

(** [for (i = end - 1; (-- i) >= start; )] with the test on the static heap *)
Fixpoint push_region (fuel : nat) (i start : Z) : PM unit :=
  let i := u32 (i - 1) in
  if start <=? i then
    match fuel with
    | O => nofuel
    | S fuel =>
      limit ← kheap_get_size_pre_init;
      if Z.shiftr limit 12 <? i then push_frame i ;; push_region fuel i start
      else mret tt
    end
  else mret tt.

(** The second loop: the frames of every available region. *)
Fixpoint mmap_frames (fuel : nat) (mmap_addr : Z) : PM unit :=
  if mmap_addr <? u32 (mb_mmap_addr mbd + mb_mmap_length mbd) then
    match fuel with
    | O => nofuel
    | S fuel =>
      let mmap := mmap_at boot mmap_addr in
      (if mm_type mmap =? MULTIBOOT_MEMORY_AVAILABLE then
         let start := u32 (mm_addr mmap) in
         let start := if start =? 0 then 0 else Z.shiftr (start - 1) 12 + 1 in
         let e := Z.shiftr (u32 (mm_addr mmap + mm_len mmap)) 12 in
         p ← getp;
         push_region (S (S (Z.to_nat (frames_len p)))) (u32 (e - 1)) start
       else mret tt) ;;
      mmap_frames fuel (u32 (mmap_addr + mm_size mmap + 4))
    end
  else mret tt.

Definition mmap_fuel : nat := S (Z.to_nat (Z.shiftr (mb_mmap_length mbd) 2)).

Definition init_frames : PM unit :=
  memsize ← mmap_memsize mmap_fuel (mb_mmap_addr mbd) 0;
  kernel_kmalloc (4 * Z.shiftr memsize 12) 0 ;;
  p ← getp;
  putp (with_frames p ∅ (Z.shiftr memsize 12) 0) ;;
  mmap_frames mmap_fuel (mb_mmap_addr mbd).

(** [for (i = 0x1000; i < kheap_get_size_pre_init(); i += 0x1000)]: the
    kernel image and the static heap are mapped where they are *)
Fixpoint map_kernel (fuel : nat) (i : Z) : PM unit :=
  limit ← kheap_get_size_pre_init;
  if i <? limit then
    match fuel with
    | O => nofuel
    | S fuel =>
      p ← getp;
      page ← get_page kernel_kmalloc (current_page_dir p) i true;
      upd_pte page (set_present 1) ;;
      upd_pte page (set_rw 1) ;;
      upd_pte page (set_user 0) ;;
      upd_pte page (set_addr (Z.shiftr i 12)) ;;
      map_kernel fuel (u32 (i + 0x1000))
    end
  else mret tt.

(** [frames[nframes - 1]] *)
Definition top_frame : PM Z :=
  p ← getp; match frames p !! (nframes p - 1) with Some f => mret f | None => fault end.
Fixpoint drop_frames (fuel : nat) : PM unit :=
  f ← top_frame;
  limit ← kheap_get_size_pre_init;
  if f <=? Z.shiftr limit 12 then
    match fuel with
    | O => nofuel
    | S fuel =>
      p ← getp;
      putp (with_frames p (frames p) (frames_len p) (nframes p - 1)) ;;
      drop_frames fuel
    end
  else mret tt.

Definition page_init (nil_size : node Block_size_t) (nil_start : node Block_start_t) : PM unit :=
  (if Z.land (mb_flags mbd) MULTIBOOT_INFO_MEM_MAP =? 0
   then panic "mbd->flags & MULTIBOOT_INFO_MEM_MAP" else mret tt) ;;
  (if mb_mods_count mbd =? 0 then mret tt
   else kheap_preserve_mem (u32 (boot_word boot (u32 (mb_mods_addr mbd + 4)) + 4))) ;;
  d ← kernel_kmalloc sizeof_Directory_t 12;
  p ← getp;
  putp (with_current (with_dirs p (<[d:=directory_zero]> (dirs p))) d (cr3 p)) ;;
  init_frames ;;
  kheap_init nil_size nil_start ;;
  p ← getp;
  lo ← top_frame;
  hi ← (match frames p !! 0 with Some f => mret f | None => fault end);
  kernel_kmalloc (4 * u32 (hi - lo + 1)) 0 ;;
  p ← getp;
  putp (with_refs p ∅ lo (u32 (hi - lo + 1))) ;;
  map_kernel (Z.to_nat (2 ^ 20)) 0x1000 ;;
  size ← kheap_get_size_pre_init;
  p ← getp;
  putp (with_low_ntable p (Z.shiftr (u32 (size - 1)) 22 + 1)) ;;
  p ← getp;
  drop_frames (Z.to_nat (nframes p)) ;;
  p ← getp;
  upd_dir (current_page_dir p) (dir_set_phyaddr (u32 (current_page_dir p + 4096))) ;;
  enable (current_page_dir p) ;;
  p ← getp;
  putp (with_init_finished p true) ;;
  kheap_finish_init ;;
  isr_register_page_fault ;;
  a0 ← kernel_kmalloc (Z.shiftl 1 13) 12;
  p ← getp;
  p0 ← get_page kernel_kmalloc (current_page_dir p) a0 false;
  (if p0 =? 0 then panic "empty_page0_ptr" else mret tt) ;;
  p1 ← get_page kernel_kmalloc (current_page_dir p) (u32 (a0 + 0x1000)) false;
  (if p1 =? 0 then panic "empty_page1_ptr" else mret tt) ;;
  p ← getp;
  putp (with_empty p a0 (u32 (a0 + 0x1000)) p0 p1) ;;
  upd_pte p0 (set_present 1) ;;
  upd_pte p1 (set_present 1) ;;
  p ← getp;
  size ← kheap_get_size_pre_init;
  Klog_log "page initialization completed. kernel static memory usage: %d kb, available 4k frames: %d (%d mb)"
    [Z.shiftr (u32 (size - 0x100000)) 10; nframes p; nframes p * 4 / 1024].
End Init.
