(* ===== verification/PageOk.v ===== *)
(** What the frame operations of [core/page.cpp] do, and the accounting they
    keep: every usable frame is either on the free stack or mapped, and its
    reference count is the number of entries that map it. *)
From S2P Require Import Prelude Rbt TreeMm Common Kheap Page.

Section Steps.
Implicit Types (h : kheap) (p : paging) (a f : Z) (e : Table_entry_t).

(** ** Primitive steps *)
Lemma wp_getp (Q : paging → kstate → Prop) E s : Q s.2 s → wp getp Q E s.
Proof. done. Qed.
Lemma wp_putp (Q : unit → kstate → Prop) E s p : Q tt (s.1, p) → wp (putp p) Q E s.
Proof. done. Qed.
Lemma wp_rd_pte (Q : Table_entry_t → kstate → Prop) E s a e :
  pte s.2 !! a = Some e → Q e s → wp (rd_pte a) Q E s.
Proof. intros He HQ. unfold wp, rd_pte, getp, mbind, M_bind. simpl. by rewrite He. Qed.
Lemma wp_upd_pte (Q : unit → kstate → Prop) E s a e g :
  pte s.2 !! a = Some e → Q tt (s.1, with_pte s.2 (<[a:=g e]> (pte s.2))) →
  wp (upd_pte a g) Q E s.
Proof.
  intros He HQ. unfold upd_pte. apply wp_bind. eapply wp_rd_pte; [done|].
  apply wp_bind, wp_getp, wp_putp. done.
Qed.
Lemma wp_rd_dir (Q : Directory_t → kstate → Prop) E s a d :
  dirs s.2 !! a = Some d → Q d s → wp (rd_dir a) Q E s.
Proof. intros He HQ. unfold wp, rd_dir, getp, mbind, M_bind. simpl. by rewrite He. Qed.
Lemma wp_upd_dir (Q : unit → kstate → Prop) E s a d g :
  dirs s.2 !! a = Some d → Q tt (s.1, with_dirs s.2 (<[a:=g d]> (dirs s.2))) →
  wp (upd_dir a g) Q E s.
Proof.
  intros He HQ. unfold upd_dir. apply wp_bind. eapply wp_rd_dir; [done|].
  apply wp_bind, wp_getp, wp_putp. done.
Qed.
Lemma wp_rd_ref (Q : Z → kstate → Prop) E s f n :
  frame_ref_cnt s.2 !! f = Some n → Q n s → wp (rd_ref f) Q E s.
Proof. intros He HQ. unfold wp, rd_ref, getp, mbind, M_bind. simpl. by rewrite He. Qed.
Lemma wp_wr_ref (Q : unit → kstate → Prop) E s f n :
  ref_lo s.2 ≤ f < ref_lo s.2 + ref_len s.2 →
  Q tt (s.1, with_refs s.2 (<[f:=n]> (frame_ref_cnt s.2)) (ref_lo s.2) (ref_len s.2)) →
  wp (wr_ref f n) Q E s.
Proof.
  intros Hr HQ. unfold wr_ref. apply wp_bind, wp_getp. rewrite decide_True by done. by apply wp_putp.
Qed.
Lemma wp_pop_frame (Q : Z → kstate → Prop) E s f :
  frames s.2 !! (nframes s.2 - 1) = Some f →
  Q f (s.1, with_frames s.2 (frames s.2) (frames_len s.2) (nframes s.2 - 1)) → wp pop_frame Q E s.
Proof.
  intros Hf HQ. unfold pop_frame. apply wp_bind, wp_getp. rewrite Hf.
  apply wp_bind, wp_putp. by apply wp_ret.
Qed.
Lemma wp_push_frame (Q : unit → kstate → Prop) E s f :
  0 ≤ nframes s.2 < frames_len s.2 →
  Q tt (s.1, with_frames s.2 (<[nframes s.2:=f]> (frames s.2)) (frames_len s.2) (nframes s.2 + 1)) →
  wp (push_frame f) Q E s.
Proof.
  intros Hn HQ. unfold push_frame. apply wp_bind, wp_getp. rewrite decide_True by done. by apply wp_putp.
Qed.
Lemma wp_Klog_log (Q : unit → kstate → Prop) E s m l :
  Q tt (s.1, with_klog s.2 (klog s.2 ++ [(m, l)])) → wp (Klog_log m l) Q E s.
Proof. intros HQ. unfold Klog_log. by apply wp_bind, wp_getp, wp_putp. Qed.
Lemma wp_write_phys (Q : unit → kstate → Prop) E s a l :
  Q tt (s.1, with_phys s.2 (list_to_map (zip (Z.add a <$> (Z.of_nat <$> seq 0 (length l))) l)
                            ∪ phys s.2)) → wp (write_phys a l) Q E s.
Proof. intros HQ. unfold write_phys. by apply wp_bind, wp_getp, wp_putp. Qed.

(** ** The entries the operations leave *)
Definition b2z (b : bool) : Z := if b then 1 else 0.
Definition perm_entry (user_ writable : bool) e : Table_entry_t :=
  set_user (b2z user_) (set_rw (b2z writable) e).
Definition alloc_entry (user_ writable : bool) f e : Table_entry_t :=
  set_present 1 (set_allocable 1 (set_addr f (perm_entry user_ writable e))).
Definition free_entry e : Table_entry_t :=
  set_allocable 0 (set_present 0 (set_addr 0 e)).

Definition alloc_state p a e (user_ writable : bool) f : paging :=
  with_klog (with_refs (with_frames (with_pte p (<[a:=alloc_entry user_ writable f e]> (pte p)))
    (frames p) (frames_len p) (nframes p - 1)) (<[f:=1]> (frame_ref_cnt p)) (ref_lo p) (ref_len p))
    (klog p ++ [("frame 0x%x allocated", [f])]).

Lemma set_addr_small f e : 0 ≤ f < 2 ^ 20 → e_addr (set_addr f e) = f.
Proof. intros Hf. simpl. by rewrite Z.mod_small. Qed.

(** [Table_entry_t::alloc] on an entry without a frame: a frame is popped, or
    there is none. *)
Lemma alloc_new_ok h p a e user_ writable f (E : string → Prop) :
  pte p !! a = Some e → e_addr e = 0 →
  (nframes p = 0 → E "no free frame"%string) →
  (nframes p ≠ 0 → frames p !! (nframes p - 1) = Some f ∧ 0 ≤ f < 2 ^ 20 ∧
                   ref_lo p ≤ f < ref_lo p + ref_len p) →
  wp (Table_entry_alloc a user_ writable)
    (λ _ s', nframes p ≠ 0 ∧ s' = (h, alloc_state p a e user_ writable f)) E (h, p).
Proof.
  intros He H0 HE Hf. unfold Table_entry_alloc.
  wp_step. eapply wp_upd_pte; [exact He|]. simpl.
  wp_step. eapply wp_upd_pte; [apply lookup_insert_eq|]. simpl. rewrite insert_insert_eq.
  wp_step. eapply wp_rd_pte; [apply lookup_insert_eq|]. cbn [set_user set_rw e_addr].
  rewrite H0. simpl. wp_step. apply wp_getp. simpl.
  destruct (Z.eqb_spec (nframes p) 0) as [Hz|Hnz]; [by apply wp_panic, HE|].
  destruct (Hf Hnz) as (Hfr & Hfb & Hfl).
  wp_step. eapply wp_pop_frame; [exact Hfr|]. simpl.
  wp_step. eapply wp_upd_pte; [apply lookup_insert_eq|]. simpl. rewrite insert_insert_eq.
  wp_step. eapply wp_rd_pte; [apply lookup_insert_eq|]. rewrite set_addr_small by done.
  wp_step. eapply wp_wr_ref; [done|]. simpl.
  wp_step. eapply wp_upd_pte; [apply lookup_insert_eq|]. simpl. rewrite insert_insert_eq.
  wp_step. eapply wp_upd_pte; [apply lookup_insert_eq|]. simpl. rewrite insert_insert_eq.
  apply wp_Klog_log. split; [done|]. unfold alloc_state. reflexivity.
Qed.

Lemma alloc_have_ok h p a e user_ writable E :
  pte p !! a = Some e → e_addr e ≠ 0 →
  wp (Table_entry_alloc a user_ writable)
    (λ _ s', s' = (h, with_pte p (<[a:=perm_entry user_ writable e]> (pte p)))) E (h, p).
Proof.
  intros He H0. unfold Table_entry_alloc.
  wp_step. eapply wp_upd_pte; [exact He|]. simpl.
  wp_step. eapply wp_upd_pte; [apply lookup_insert_eq|]. simpl. rewrite insert_insert_eq.
  wp_step. eapply wp_rd_pte; [apply lookup_insert_eq|]. cbn [set_user set_rw e_addr].
  apply Z.eqb_neq in H0. rewrite H0. by apply wp_ret.
Qed.

(** [lazy_alloc] without zero filling *)
Definition lazy_entry (user_ writable : bool) e : Table_entry_t :=
  if e_addr e =? 0 then set_alloc_fill 0 (set_allocable 1 (perm_entry user_ writable e))
  else perm_entry user_ writable e.
Lemma lazy_alloc_ok h p a e user_ writable E :
  pte p !! a = Some e →
  wp (Table_entry_lazy_alloc a user_ writable false)
    (λ _ s', s' = (h, with_pte p (<[a:=lazy_entry user_ writable e]> (pte p)))) E (h, p).
Proof.
  intros He. unfold Table_entry_lazy_alloc, lazy_entry.
  wp_step. eapply wp_upd_pte; [exact He|]. simpl.
  wp_step. eapply wp_upd_pte; [apply lookup_insert_eq|]. simpl. rewrite insert_insert_eq.
  wp_step. eapply wp_rd_pte; [apply lookup_insert_eq|]. cbn [set_user set_rw e_addr].
  destruct (e_addr e =? 0).
  - wp_step. eapply wp_upd_pte; [apply lookup_insert_eq|]. simpl. rewrite insert_insert_eq.
    eapply wp_upd_pte; [apply lookup_insert_eq|]. simpl. by rewrite insert_insert_eq.
  - by apply wp_ret.
Qed.

(** [free] on a mapped entry: the count drops, the last one gives the frame back. *)
Definition free_state p a e n : paging :=
  let p1 := with_pte p (<[a:=free_entry e]> (pte p)) in
  let p2 := with_refs p1 (<[e_addr e:=n - 1]> (frame_ref_cnt p)) (ref_lo p) (ref_len p) in
  if n - 1 =? 0 then
    with_klog (with_frames p2 (<[nframes p:=e_addr e]> (frames p)) (frames_len p) (nframes p + 1))
      (klog p ++ [("frame 0x%x freed", [e_addr e])])
  else p2.
Lemma free_mapped_ok h p a e n E :
  pte p !! a = Some e → e_addr e ≠ 0 →
  frame_ref_cnt p !! e_addr e = Some n → 0 < n < 2 ^ 32 →
  ref_lo p ≤ e_addr e < ref_lo p + ref_len p →
  (n = 1 → 0 ≤ nframes p < frames_len p) →
  wp (Table_entry_free a) (λ _ s', s' = (h, free_state p a e n)) E (h, p).
Proof.
  intros He H0 Hn Hn0 Hr Hroom. unfold Table_entry_free, free_state.
  wp_step. eapply wp_rd_pte; [exact He|]. apply Z.eqb_neq in H0. rewrite H0.
  wp_step. eapply wp_rd_ref; [exact Hn|]. rewrite u32_small by lia.
  wp_step. eapply wp_wr_ref; [done|]. simpl. wp_step.
  destruct (Z.eqb_spec (n - 1) 0).
  - wp_step. apply wp_push_frame; [simpl; apply Hroom; lia|]. apply wp_Klog_log. simpl.
    wp_step. eapply wp_upd_pte; [exact He|]. simpl.
    wp_step. eapply wp_upd_pte; [apply lookup_insert_eq|]. simpl. rewrite insert_insert_eq.
    eapply wp_upd_pte; [apply lookup_insert_eq|]. simpl. by rewrite insert_insert_eq.
  - apply wp_ret. wp_step. eapply wp_upd_pte; [exact He|]. simpl.
    wp_step. eapply wp_upd_pte; [apply lookup_insert_eq|]. simpl. rewrite insert_insert_eq.
    eapply wp_upd_pte; [apply lookup_insert_eq|]. simpl. by rewrite insert_insert_eq.
Qed.

(** [copy_page_physical] through the two empty pages *)
Definition write_phys_map (l : list Z) (a : Z) (m : gmap Z Z) : gmap Z Z :=
  list_to_map (zip (Z.add a <$> (Z.of_nat <$> seq 0 (length l))) l) ∪ m.
Definition copy_state p e0 e1 dest src : paging :=
  let q := with_pte p (<[empty_page1_ptr p:=set_addr dest e1]>
                        (<[empty_page0_ptr p:=set_addr src e0]> (pte p))) in
  with_phys q (write_phys_map (read_frame q src) (Z.shiftl dest 12) (phys p)).
Lemma copy_page_physical_ok h p e0 e1 dest src E :
  pte p !! empty_page0_ptr p = Some e0 → pte p !! empty_page1_ptr p = Some e1 →
  empty_page0_ptr p ≠ empty_page1_ptr p → 0 ≤ dest < 2 ^ 20 → 0 ≤ src < 2 ^ 20 →
  wp (copy_page_physical (Z.shiftl dest 12) (Z.shiftl src 12))
    (λ _ s', s' = (h, copy_state p e0 e1 dest src)) E (h, p).
Proof.
  intros H0 H1 Hne Hd Hs. unfold copy_page_physical.
  rewrite !Z.shiftr_shiftl_l by lia. rewrite !Z.shiftl_0_r.
  wp_step. apply wp_getp. simpl.
  wp_step. eapply wp_upd_pte; [exact H0|]. simpl.
  wp_step. eapply wp_upd_pte; [simpl; by rewrite lookup_insert_ne|]. simpl.
  wp_step. eapply wp_rd_pte; [simpl; rewrite lookup_insert_ne by done; apply lookup_insert_eq|].
  wp_step. eapply wp_rd_pte; [apply lookup_insert_eq|]. rewrite !set_addr_small by done.
  wp_step. apply wp_getp. apply wp_write_phys. cbv beta. unfold copy_state, write_phys_map.
  cbn [fst snd with_pte phys]. reflexivity.
Qed.
End Steps.
