(* ===== verification/PageFrames.v ===== *)
(** The accounting of frames: the invariant [frames_ok] and its preservation by
    every operation of [core/page.cpp] that changes an entry. *)
From S2P Require Import Prelude Rbt TreeMm Common Kheap Page PageOk.

Section Frames.
Implicit Types (p : paging) (a f : Z) (e : Table_entry_t) (F : gset Z) (st : list Z).

(** The two entries of the pages used for copying and filling map a frame
    only for the time of a copy; they are not counted. *)
Definition scratch p a : Prop := a = empty_page0_ptr p ∨ a = empty_page1_ptr p.
Global Instance scratch_dec p a : Decision (scratch p a).
Proof. unfold scratch. apply _. Defined.

Definition maps p f (ae : Z * Table_entry_t) : Prop := e_addr ae.2 = f ∧ ¬ scratch p ae.1.
Global Instance maps_dec p f ae : Decision (maps p f ae).
Proof. unfold maps. apply _. Defined.

(** the entries that map the frame [f] *)
Definition mappers p f : gset Z := dom (filter (maps p f) (pte p)).

Lemma elem_of_mappers p f a :
  a ∈ mappers p f ↔ ∃ e, pte p !! a = Some e ∧ e_addr e = f ∧ ¬ scratch p a.
Proof.
  unfold mappers. rewrite elem_of_dom. unfold is_Some. setoid_rewrite map_lookup_filter_Some.
  unfold maps. simpl. done.
Qed.

(** [F]: the frames the allocator may hand out; [st]: those on its stack,
    the next one last. *)
Record frames_ok F st p : Prop := {
  fo_len : Z.of_nat (size F) ≤ frames_len p;
  fo_n : nframes p = Z.of_nat (length st);
  fo_stack i f : st !! i = Some f → frames p !! Z.of_nat i = Some f;
  fo_nodup : NoDup st;
  fo_free f : f ∈ st → f ∈ F ∧ mappers p f = ∅;
  fo_range f : f ∈ F → 0 < f < 2 ^ 20 ∧ ref_lo p ≤ f < ref_lo p + ref_len p;
  fo_ref f : f ∈ F → mappers p f ≠ ∅ → frame_ref_cnt p !! f = Some (Z.of_nat (size (mappers p f)));
  fo_small : Z.of_nat (size (pte p)) < 2 ^ 31
}.

Lemma mappers_size p f : (size (mappers p f) ≤ size (pte p))%nat.
Proof.
  rewrite <- (size_dom (D:=gset Z)). apply subseteq_size. intros a.
  rewrite elem_of_mappers, elem_of_dom. unfold is_Some. naive_solver.
Qed.

Lemma frames_ok_ext F st p p' :
  frames_ok F st p → frames_len p' = frames_len p → nframes p' = nframes p →
  frames p' = frames p → ref_lo p' = ref_lo p → ref_len p' = ref_len p →
  frame_ref_cnt p' = frame_ref_cnt p → size (pte p') = size (pte p) →
  (∀ f, f ∈ F → mappers p' f = mappers p f) → frames_ok F st p'.
Proof.
  intros [H1 H2 H3 H4 H5 H6 H7 H8] E1 E2 E3 E4 E5 E6 E7 Em. split.
  - congruence.
  - congruence.
  - intros i f Hi. rewrite E3. auto.
  - done.
  - intros f Hf. destruct (H5 f Hf) as [HF Hm]. rewrite Em by done. done.
  - intros f Hf. rewrite E4, E5. auto.
  - intros f Hf Hm. rewrite E6, Em in * by done. auto.
  - by rewrite E7.
Qed.

(** Changing the entry [a] moves it between sets of mappers. *)
Lemma mappers_insert p a e f (q : paging) :
  ¬ scratch p a → pte q = <[a:=e]> (pte p) →
  empty_page0_ptr q = empty_page0_ptr p → empty_page1_ptr q = empty_page1_ptr p →
  mappers q f = if decide (e_addr e = f) then {[a]} ∪ mappers p f else mappers p f ∖ {[a]}.
Proof.
  intros Hs Hq E0 E1. apply set_eq. intros b. rewrite elem_of_mappers, Hq.
  assert (scratch q b ↔ scratch p b) as Hsb by (unfold scratch; by rewrite E0, E1).
  destruct (decide (b = a)) as [->|Hb].
  - rewrite lookup_insert_eq. case_decide.
    + split; [intros _; set_solver|]. intros _. exists e. by rewrite Hsb.
    + split; [naive_solver|]. set_solver.
  - rewrite lookup_insert_ne by done. setoid_rewrite Hsb. rewrite <- elem_of_mappers.
    case_decide; set_solver.
Qed.

Lemma mappers_same p a e e' f q :
  pte p !! a = Some e → e_addr e' = e_addr e → pte q = <[a:=e']> (pte p) →
  empty_page0_ptr q = empty_page0_ptr p → empty_page1_ptr q = empty_page1_ptr p →
  mappers q f = mappers p f.
Proof.
  intros He Ha Hq E0 E1. apply set_eq. intros b. rewrite !elem_of_mappers, Hq.
  assert (scratch q b ↔ scratch p b) as Hsb by (unfold scratch; by rewrite E0, E1).
  destruct (decide (b = a)) as [->|Hb].
  - rewrite lookup_insert_eq, He. naive_solver congruence.
  - rewrite lookup_insert_ne by done. by setoid_rewrite Hsb.
Qed.

Lemma mappers_scratch p a e f q :
  scratch p a → pte q = <[a:=e]> (pte p) →
  empty_page0_ptr q = empty_page0_ptr p → empty_page1_ptr q = empty_page1_ptr p →
  mappers q f = mappers p f.
Proof.
  intros Hs Hq E0 E1. apply set_eq. intros b. rewrite !elem_of_mappers, Hq.
  assert (scratch q b ↔ scratch p b) as Hsb by (unfold scratch; by rewrite E0, E1).
  setoid_rewrite Hsb. destruct (decide (b = a)) as [->|Hb]; [naive_solver|].
  by rewrite lookup_insert_ne.
Qed.

Lemma size_pte_insert p a e e' : pte p !! a = Some e → size (<[a:=e']> (pte p)) = size (pte p).
Proof. intros He. by rewrite map_size_insert_Some. Qed.

(** An entry's other fields do not matter. *)
Lemma frames_ok_perm F st p a e e' :
  frames_ok F st p → pte p !! a = Some e → e_addr e' = e_addr e →
  frames_ok F st (with_pte p (<[a:=e']> (pte p))).
Proof.
  intros Hf He Ha. eapply frames_ok_ext; [exact Hf|done..|by eapply size_pte_insert|].
  intros f _. by eapply mappers_same.
Qed.
Lemma frames_ok_scratch F st p a e e' :
  frames_ok F st p → pte p !! a = Some e → scratch p a →
  frames_ok F st (with_pte p (<[a:=e']> (pte p))).
Proof.
  intros Hf He Ha. eapply frames_ok_ext; [exact Hf|done..|by eapply size_pte_insert|].
  intros f _. by eapply mappers_scratch.
Qed.
Lemma frames_ok_phys F st p m : frames_ok F st p → frames_ok F st (with_phys p m).
Proof. intros Hf. by eapply frames_ok_ext. Qed.
Lemma frames_ok_klog F st p m : frames_ok F st p → frames_ok F st (with_klog p m).
Proof. intros Hf. by eapply frames_ok_ext. Qed.

(** ** Taking a frame *)
Lemma frames_ok_top F st f p : frames_ok F (st ++ [f]) p →
  nframes p ≠ 0 ∧ frames p !! (nframes p - 1) = Some f ∧ f ∈ F ∧ mappers p f = ∅.
Proof.
  intros Hf. pose proof (fo_n _ _ _ Hf) as Hn. rewrite length_app in Hn. simpl in Hn.
  split; [lia|]. split; [|apply (fo_free _ _ _ Hf); set_solver].
  replace (nframes p - 1) with (Z.of_nat (length st)) by lia.
  apply (fo_stack _ _ _ Hf). by rewrite lookup_app_r, Nat.sub_diag.
Qed.

Lemma frames_ok_alloc F st f p a e user_ writable :
  frames_ok F (st ++ [f]) p → ¬ scratch p a → pte p !! a = Some e → e_addr e = 0 →
  frames_ok F st (alloc_state p a e user_ writable f).
Proof.
  intros Hf Hs He H0. destruct (frames_ok_top _ _ _ _ Hf) as (_ & _ & HfF & Hfm).
  destruct (fo_range _ _ _ Hf f HfF) as [Hfr _].
  assert (Hm : ∀ g, mappers (alloc_state p a e user_ writable f) g =
               if decide (f = g) then {[a]} ∪ mappers p g else mappers p g ∖ {[a]}).
  { intros g. rewrite (mappers_insert p a (alloc_entry user_ writable f e) g) by done.
    simpl. by rewrite Z.mod_small by lia. }
  assert (Ha : ∀ g, g ∈ F → a ∉ mappers p g).
  { intros g Hg Ha. apply elem_of_mappers in Ha as (e1 & He1 & Hg1 & _). simplify_eq.
    destruct (fo_range _ _ _ Hf _ Hg). lia. }
  pose proof (fo_n _ _ _ Hf) as Hn. rewrite length_app in Hn. simpl in Hn.
  pose proof (fo_nodup _ _ _ Hf) as Hnd. apply NoDup_app_dj in Hnd as (Hnd & Hdj & _).
  split; simpl; try apply Hf.
  - lia.
  - intros i g Hi. apply (fo_stack _ _ _ Hf). by apply lookup_app_l_Some.
  - done.
  - intros g Hg. destruct (fo_free _ _ _ Hf g) as [HgF Hgm]; [set_solver|].
    rewrite Hm. split; [done|]. rewrite decide_False; [set_solver|].
    intros ->. apply (Hdj g); [done|set_solver].
  - intros g Hg. rewrite Hm. case_decide as Hfg.
    + subst g. rewrite Hfm, union_empty_r_L, size_singleton. intros _. apply lookup_insert_eq.
    + intros Hne. rewrite lookup_insert_ne by done.
      assert (mappers p g ∖ {[a]} = mappers p g) as -> by (specialize (Ha g Hg); set_solver).
      apply (fo_ref _ _ _ Hf); [done|]. intros Hemp. apply Hne. set_solver.
  - rewrite (size_pte_insert _ _ e) by done. apply Hf.
Qed.

(** ** Giving one back *)
Lemma frames_ok_count F st p a e :
  frames_ok F st p → ¬ scratch p a → pte p !! a = Some e → e_addr e ∈ F →
  frame_ref_cnt p !! e_addr e = Some (Z.of_nat (size (mappers p (e_addr e)))) ∧
  a ∈ mappers p (e_addr e) ∧ 0 < Z.of_nat (size (mappers p (e_addr e))) < 2 ^ 32 ∧
  e_addr e ∉ st ∧ 0 ≤ nframes p < frames_len p.
Proof.
  intros Hf Hs He HF.
  assert (Ha : a ∈ mappers p (e_addr e)) by (apply elem_of_mappers; eauto).
  assert (Hne : mappers p (e_addr e) ≠ ∅) by set_solver.
  assert (Hst : e_addr e ∉ st) by (intros Hin; by apply (fo_free _ _ _ Hf) in Hin as [_ ?]).
  split_and!; try done.
  - by apply (fo_ref _ _ _ Hf).
  - enough (size (mappers p (e_addr e)) ≠ 0%nat) by lia. by intros ?%size_empty_inv%leibniz_equiv.
  - pose proof (mappers_size p (e_addr e)). pose proof (fo_small _ _ _ Hf). lia.
  - rewrite (fo_n _ _ _ Hf). lia.
  - rewrite (fo_n _ _ _ Hf). eapply Z.lt_le_trans; [|apply (fo_len _ _ _ Hf)].
    enough (length (e_addr e :: st) ≤ size F)%nat by (simpl in *; lia).
    rewrite <- (size_list_to_set (C:=gset Z)).
    + apply subseteq_size. intros g Hg. apply elem_of_list_to_set, elem_of_cons in Hg as [->|Hg]; [done|].
      by apply (fo_free _ _ _ Hf).
    + constructor; [done|]. apply Hf.
Qed.

Lemma frames_ok_free F st p a e :
  let n := Z.of_nat (size (mappers p (e_addr e))) in
  frames_ok F st p → ¬ scratch p a → pte p !! a = Some e → e_addr e ∈ F →
  frames_ok F (if n - 1 =? 0 then st ++ [e_addr e] else st) (free_state p a e n).
Proof.
  intros n Hf Hs He HF. destruct (frames_ok_count _ _ _ _ _ Hf Hs He HF) as (Hr & Ha & Hn & Hst & Hroom).
  fold n in Hr, Hn. destruct (fo_range _ _ _ Hf _ HF) as [Hfr _].
  assert (Hm : ∀ g, g ∈ F → mappers (free_state p a e n) g = mappers p g ∖ {[a]}).
  { intros g Hg. destruct (fo_range _ _ _ Hf _ Hg).
    rewrite (mappers_insert p a (free_entry e) g); [|done|unfold free_state; by case_match..].
    rewrite decide_False; [done|]. simpl. change (0 mod 2 ^ 20) with 0. lia. }
  assert (Hother : ∀ g, g ≠ e_addr e → mappers p g ∖ {[a]} = mappers p g).
  { intros g Hg. apply difference_disjoint_L. intros b Hb Hba. apply elem_of_singleton in Hba as ->.
    apply elem_of_mappers in Hb as (? & ? & ? & _). by simplify_eq. }
  assert (Hsize : Z.of_nat (size (mappers p (e_addr e) ∖ {[a]})) = n - 1).
  { rewrite size_difference by set_solver. rewrite size_singleton. lia. }
  assert (Hrefs : ∀ g, g ∈ F → mappers p g ∖ {[a]} ≠ ∅ →
    <[e_addr e:=n - 1]> (frame_ref_cnt p) !! g = Some (Z.of_nat (size (mappers p g ∖ {[a]})))).
  { intros g Hg Hne. destruct (decide (g = e_addr e)) as [->|Hge].
    - rewrite lookup_insert_eq. by rewrite Hsize.
    - rewrite lookup_insert_ne by done. rewrite Hother in Hne |- * by done. by apply (fo_ref _ _ _ Hf). }
  destruct (Z.eqb_spec (n - 1) 0) as [Hz|Hnz].
  - assert (Hemp : mappers p (e_addr e) ∖ {[a]} = ∅) by (apply leibniz_equiv, size_empty_inv; lia).
    unfold free_state in *. rewrite (proj2 (Z.eqb_eq (n - 1) 0)) in * by done.
    split; simpl; try apply Hf.
    + rewrite length_app. simpl. pose proof (fo_n _ _ _ Hf). lia.
    + intros i g Hi. apply lookup_app_Some in Hi as [Hi|[Hi1 Hi2]].
      * rewrite lookup_insert_ne; [by apply (fo_stack _ _ _ Hf)|].
        apply lookup_lt_Some in Hi. rewrite (fo_n _ _ _ Hf). lia.
      * apply list_lookup_singleton_Some in Hi2 as [Hi2 <-]. rewrite (fo_n _ _ _ Hf).
        replace i with (length st) by lia. apply lookup_insert_eq.
    + apply NoDup_app_dj. split_and!; [apply Hf| |apply NoDup_singleton].
      intros g Hg1 Hg2. apply list_elem_of_singleton in Hg2 as ->. done.
    + intros g Hg. apply elem_of_app in Hg as [Hg|Hg].
      * destruct (fo_free _ _ _ Hf g Hg) as [HgF Hgm]. split; [done|]. rewrite Hm by done. set_solver.
      * apply list_elem_of_singleton in Hg as ->. split; [done|]. by rewrite Hm.
    + intros g Hg. rewrite Hm by done. by apply Hrefs.
    + rewrite (size_pte_insert _ _ e) by done. apply Hf.
  - unfold free_state in *. rewrite (proj2 (Z.eqb_neq (n - 1) 0)) in * by done.
    split; simpl; try apply Hf.
    + intros g Hg. destruct (fo_free _ _ _ Hf g Hg) as [HgF Hgm]. split; [done|].
      rewrite Hm by done. set_solver.
    + intros g Hg. rewrite Hm by done. by apply Hrefs.
    + rewrite (size_pte_insert _ _ e) by done. apply Hf.
Qed.
End Frames.
