(* ===== verification/PageHeap.v ===== *)
(** The page component keeps the promises the kernel heap relies on: over the
    heap's address range, [Directory_t::lazy_alloc_interval], [free_interval]
    and the memory accesses (with the page faults they raise) obey
    [HeapEnvLaws]. *)
From S2P Require Import Prelude Rbt TreeMm Common Kheap KheapSpec KheapOk Page PageInit PageOk.
From S2P Require Import PageFrames.

(** The linker puts code above address 0. *)
Class PageLinkOk `{PageLink} : Prop := { kernel_code_end_pos : 0 < kernel_code_end }.

Definition in_heap_range (z : Z) : Prop := KERNEL_HEAP_BEGIN ≤ z < KERNEL_HEAP_END.
Global Instance in_heap_range_dec z : Decision (in_heap_range z).
Proof. unfold in_heap_range. apply _. Defined.

Section Addr.
Lemma tb_idx_heap z : in_heap_range z → 959 ≤ tb_idx z < 1023.
Proof.
  unfold in_heap_range, tb_idx. rewrite KERNEL_HEAP_BEGIN_eq, KERNEL_HEAP_END_eq. intros Hz.
  rewrite Z.shiftr_div_pow2 by lia. change (2 ^ 22) with 4194304.
  split; [apply Z.div_le_lower_bound; lia|apply Z.div_lt_upper_bound; lia].
Qed.
Lemma tb_offset_range z : 0 ≤ tb_offset z < 1024.
Proof.
  unfold tb_offset. change 0x3FF with (Z.ones 10). rewrite Z.land_ones by lia.
  apply Z.mod_pos_bound. lia.
Qed.
Lemma land_fff z : Z.land z 0xFFF = z mod 4096.
Proof. change 0xFFF with (Z.ones 12). by rewrite Z.land_ones. Qed.
Lemma tb_floor z : tb_idx (z / 4096 * 4096) = tb_idx z ∧ tb_offset (z / 4096 * 4096) = tb_offset z.
Proof.
  unfold tb_idx, tb_offset. rewrite !Z.shiftr_div_pow2 by lia.
  change (2 ^ 22) with (4096 * 1024). change (2 ^ 12) with 4096.
  rewrite <- !Z.div_div by lia. rewrite Z.div_mul by lia. done.
Qed.
End Addr.

Section Inv.
Context `{PageLink}.
Implicit Types (h : kheap) (p q : paging) (a z f : Z) (e : Table_entry_t) (F : gset Z) (st : list Z).

(** the entry of the current directory for [z], by address *)
Definition page_of p z : Z :=
  match dirs p !! current_page_dir p with
  | Some d => entry_ptr (table_of d (tb_idx z)) (tb_offset z)
  | None => 0
  end.

(** A heap page's entry: when it has a frame, it is present and writable,
    and no other entry maps that frame. *)
Definition heap_entry F p a e : Prop :=
  alloc_fill e = 0 ∧ (allocable e = 0 ∨ allocable e = 1 ∧ rw e = 1) ∧
  (e_addr e = 0 → present e = 0) ∧
  (e_addr e ≠ 0 → e_addr e ∈ F ∧ present e = 1 ∧ rw e = 1 ∧ mappers p (e_addr e) = {[a]}).

Record page_inv F p : Prop := {
  pi_frames : ∃ st, frames_ok F st p;
  pi_dir : ∃ d, dirs p !! current_page_dir p = Some d ∧
                ∀ i, 959 ≤ i < 1023 → 0 < table_of d i;
  pi_inj z z' : in_heap_range z → in_heap_range z' → page_of p z = page_of p z' → z / 4096 = z' / 4096;
  pi_entry z : in_heap_range z →
    ∃ e, pte p !! page_of p z = Some e ∧ (¬ scratch p (page_of p z) → heap_entry F p (page_of p z) e)
}.

Definition page_pinned p z : Prop := in_heap_range z ∧ scratch p (page_of p z).
Definition page_mapped p z : Prop :=
  in_heap_range z ∧ ¬ scratch p (page_of p z) ∧
  ∃ e, pte p !! page_of p z = Some e ∧ (e_addr e ≠ 0 ∨ allocable e = 1 ∧ rw e = 1).
Definition page_byte p z : option Z :=
  if decide (in_heap_range z ∧ ¬ scratch p (page_of p z)) then
    e ← pte p !! page_of p z;
    if e_addr e =? 0 then None else Some (phys_at p (Z.shiftl (e_addr e) 12 + z mod 4096))
  else None.

Lemma page_of_pos F p z : page_inv F p → in_heap_range z → (page_of p z =? 0) = false.
Proof.
  intros Hi Hz. destruct (pi_dir _ _ Hi) as (d & Hd & Ht). unfold page_of. rewrite Hd.
  apply Z.eqb_neq. unfold entry_ptr. pose proof (Ht _ (tb_idx_heap z Hz)).
  pose proof (tb_offset_range z). lia.
Qed.

Lemma find_page_ok F h p z E :
  page_inv F p → in_heap_range z →
  wp (find_page (current_page_dir p) z) (λ a s', a = page_of p z ∧ s' = (h, p)) E (h, p).
Proof.
  intros Hi Hz. destruct (pi_dir _ _ Hi) as (d & Hd & Ht). unfold find_page, page_of. rewrite Hd.
  wp_step. eapply wp_rd_dir; [exact Hd|]. pose proof (Ht _ (tb_idx_heap z Hz)).
  destruct (Z.eqb_spec (table_of d (tb_idx z)) 0); [lia|]. by apply wp_ret.
Qed.

Lemma get_page_ok F h p z kmalloc make E :
  page_inv F p → in_heap_range z →
  wp (get_page kmalloc (current_page_dir p) z make) (λ a s', a = page_of p z ∧ s' = (h, p)) E (h, p).
Proof.
  intros Hi Hz. destruct (pi_dir _ _ Hi) as (d & Hd & Ht). unfold get_page, page_of. rewrite Hd.
  wp_step. eapply wp_rd_dir; [exact Hd|]. pose proof (Ht _ (tb_idx_heap z Hz)). cbv zeta.
  destruct (Z.eqb_spec (table_of d (tb_idx z)) 0); [lia|]. by apply wp_ret.
Qed.

Lemma page_of_floor p z : page_of p (z / 4096 * 4096) = page_of p z.
Proof. unfold page_of. destruct (tb_floor z) as [-> ->]. done. Qed.

Lemma page_of_same p z z' : z / 4096 = z' / 4096 → page_of p z = page_of p z'.
Proof. intros Heq. by rewrite <- (page_of_floor p z), Heq, page_of_floor. Qed.

(** ** A step on one entry *)

(** [q] is [p] with the entry [a] set to [e'] and its frames moved around. *)
Record entry_step p q a e' : Prop := {
  es_pte : pte q = <[a:=e']> (pte p);
  es_dirs : dirs q = dirs p;
  es_cur : current_page_dir q = current_page_dir p;
  es_e0 : empty_page0_ptr q = empty_page0_ptr p;
  es_e1 : empty_page1_ptr q = empty_page1_ptr p;
  es_low : kernel_low_ntable q = kernel_low_ntable p;
  es_init : init_finished q = init_finished p;
  es_phys a : phys_at q a = phys_at p a
}.

Lemma es_page_of p q a e' z : entry_step p q a e' → page_of q z = page_of p z.
Proof. intros []. unfold page_of. by rewrite es_dirs0, es_cur0. Qed.
Lemma es_scratch p q a e' b : entry_step p q a e' → scratch q b ↔ scratch p b.
Proof. intros []. unfold scratch. by rewrite es_e2, es_e3. Qed.

(** Two heap pages share no frame. *)
Lemma heap_entry_frames F p z z' e e' :
  page_inv F p → in_heap_range z → in_heap_range z' →
  ¬ scratch p (page_of p z) → ¬ scratch p (page_of p z') →
  pte p !! page_of p z = Some e → pte p !! page_of p z' = Some e' →
  e_addr e ≠ 0 → e_addr e' = e_addr e → page_of p z = page_of p z'.
Proof.
  intros Hi Hz Hz' Hs Hs' He He' H0 Heq.
  destruct (pi_entry _ _ Hi z Hz) as (e1 & He1 & Hg). simplify_eq.
  destruct (Hg Hs) as (_ & _ & _ & Hg'). destruct (Hg' H0) as (_ & _ & _ & Hm).
  assert (page_of p z' ∈ mappers p (e_addr e)) as Hin by (apply elem_of_mappers; eauto).
  rewrite Hm in Hin. set_solver.
Qed.

(** The invariant after a step on a heap page: the frame the entry had before
    was its own, the one it has now is its own too. *)
Lemma page_inv_step F st p q z e e' :
  page_inv F p → in_heap_range z → ¬ scratch p (page_of p z) →
  pte p !! page_of p z = Some e → entry_step p q (page_of p z) e' → frames_ok F st q →
  heap_entry F q (page_of p z) e' → page_inv F q.
Proof.
  intros Hi Hz Hs He Hst Hf He'. split.
  - eauto.
  - rewrite (es_dirs _ _ _ _ Hst), (es_cur _ _ _ _ Hst). apply Hi.
  - intros z1 z2. rewrite !(es_page_of p q _ _ _ Hst). apply Hi.
  - intros z1 Hz1. rewrite (es_page_of p q _ _ _ Hst), (es_pte _ _ _ _ Hst).
    destruct (decide (page_of p z1 = page_of p z)) as [->|Hne].
    { exists e'. by rewrite lookup_insert_eq. }
    rewrite lookup_insert_ne by done. destruct (pi_entry _ _ Hi z1 Hz1) as (e1 & He1 & Hg1).
    exists e1. split; [done|]. rewrite (es_scratch p q _ _ _ Hst). intros Hs1.
    destruct (Hg1 Hs1) as (Ha1 & Hal1 & Ha2 & Ha3). split_and!; try done. intros H0.
    destruct (Ha3 H0) as (HF1 & Hp1 & Hr1 & Hm1). split_and!; try done.
    rewrite (mappers_insert p (page_of p z) e' (e_addr e1) q) by (done || apply Hst).
    rewrite Hm1. case_decide as Heq; [|set_solver].
    exfalso. destruct He' as (_ & _ & _ & Hx). destruct Hx as (_ & _ & _ & Hx); [congruence|].
    assert (page_of p z1 ∈ mappers q (e_addr e')) as Hin; [|rewrite Hx in Hin; set_solver].
    apply elem_of_mappers. exists e1. rewrite (es_pte _ _ _ _ Hst), lookup_insert_ne by done.
    by rewrite (es_scratch p q _ _ _ Hst).
Qed.

(** What the work on the heap's pages leaves alone: the directories, the
    entries that are neither the heap's nor scratch, and the frames they map. *)
Definition heap_page p a : Prop := ∃ z, in_heap_range z ∧ a = page_of p z.
Definition foreign p a : Prop := ¬ scratch p a ∧ ¬ heap_page p a.
Record same_space p q : Prop := {
  ss_dirs : dirs q = dirs p;
  ss_cur : current_page_dir q = current_page_dir p;
  ss_low : kernel_low_ntable q = kernel_low_ntable p;
  ss_init : init_finished q = init_finished p;
  ss_e0 : empty_page0_ptr q = empty_page0_ptr p;
  ss_e1 : empty_page1_ptr q = empty_page1_ptr p;
  ss_dom a : is_Some (pte q !! a) ↔ is_Some (pte p !! a);
  ss_pte a : foreign p a → pte q !! a = pte p !! a;
  ss_phys a e i : foreign p a → pte p !! a = Some e → e_addr e ≠ 0 → 0 ≤ i < 4096 →
    phys_at q (Z.shiftl (e_addr e) 12 + i) = phys_at p (Z.shiftl (e_addr e) 12 + i)
}.
Lemma ss_page_of p q z : same_space p q → page_of q z = page_of p z.
Proof. intros []. unfold page_of. by rewrite ss_dirs0, ss_cur0. Qed.
Lemma ss_foreign p q a : same_space p q → foreign q a ↔ foreign p a.
Proof.
  intros Hs. unfold foreign, heap_page, scratch. rewrite (ss_e0 _ _ Hs), (ss_e1 _ _ Hs).
  setoid_rewrite (ss_page_of _ _ _ Hs). done.
Qed.
Lemma heap_not_foreign p z : in_heap_range z → ¬ foreign p (page_of p z).
Proof. intros Hz [_ Hn]. apply Hn. by exists z. Qed.
Lemma same_space_refl p : same_space p p.
Proof. by split. Qed.
Lemma same_space_trans p1 p2 p3 : same_space p1 p2 → same_space p2 p3 → same_space p1 p3.
Proof.
  intros H12 H23. pose proof (λ a, ss_foreign p1 p2 a H12) as Hf. destruct H12, H23. split; try congruence.
  - intros a. by rewrite ss_dom1.
  - intros a Ha. rewrite ss_pte1 by (by apply Hf). auto.
  - intros a e i Ha He H0 Hi. rewrite (ss_phys1 a e i); [by eapply ss_phys0|by apply Hf|by rewrite ss_pte0|done|done].
Qed.
Lemma same_space_step p q a e e' :
  pte p !! a = Some e → entry_step p q a e' → ¬ foreign p a → same_space p q.
Proof.
  intros He Hst Hn. destruct Hst. split; try done.
  - intros b. rewrite es_pte0. destruct (decide (b = a)) as [->|Hb]; [rewrite lookup_insert_eq, He; naive_solver|].
    by rewrite lookup_insert_ne.
  - intros b Hb. rewrite es_pte0. apply lookup_insert_ne. by intros ->.
Qed.

(** the physical address behind [z], once it has a frame *)
Definition backed p z (pa : Z) : Prop :=
  in_heap_range z ∧ ¬ scratch p (page_of p z) ∧
  ∃ e, pte p !! page_of p z = Some e ∧ e_addr e ≠ 0 ∧ pa = Z.shiftl (e_addr e) 12 + z mod 4096.

(** What the rest of the heap sees of it; no page loses its frame, unless it
    is freed. *)
Definition page_view (P : Z → Prop) p q : Prop :=
  (∀ z, page_pinned q z → page_pinned p z) ∧
  (∀ z, P z → (page_mapped p z → page_mapped q z) ∧ ∀ v, page_byte p z = Some v → page_byte q z = Some v) ∧
  same_space p q.
Definition page_le (P : Z → Prop) p q : Prop := page_view P p q ∧ ∀ z pa, backed p z pa → backed q z pa.

Lemma page_le_refl P p : page_le P p p.
Proof. split; [|done]. split; [done|]. split; [done|apply same_space_refl]. Qed.
Lemma page_le_trans P p1 p2 p3 : page_le P p1 p2 → page_le P p2 p3 → page_le P p1 p3.
Proof.
  intros [(H1 & H2 & H5) H7] [(H3 & H4 & H6) H8]. split; [|auto]. split; [auto|].
  split; [|by eapply same_space_trans]. intros z Hz. destruct (H2 z Hz), (H4 z Hz). split; auto.
Qed.
Lemma page_le_weaken (P P' : Z → Prop) p q : (∀ z, P' z → P z) → page_le P p q → page_le P' p q.
Proof. intros HP [(H1 & H2 & H3) H4]. split; [|done]. split; [done|]. split; [|done]. auto. Qed.

Lemma page_view_step (P : Z → Prop) p q a e e' :
  pte p !! a = Some e → entry_step p q a e' → ¬ foreign p a →
  (∀ z, P z → page_of p z = a → in_heap_range z → ¬ scratch p a →
    (e_addr e ≠ 0 ∨ allocable e = 1 ∧ rw e = 1 → e_addr e' ≠ 0 ∨ allocable e' = 1 ∧ rw e' = 1) ∧
    (e_addr e ≠ 0 → e_addr e' = e_addr e)) →
  page_view P p q.
Proof.
  intros He Hst Hfo HP.
  assert (Hpo : ∀ z, page_of q z = page_of p z) by (intros; by eapply es_page_of).
  assert (Hsc : ∀ b, scratch q b ↔ scratch p b) by (intros; by eapply es_scratch).
  split; [|split; [|by eapply same_space_step]].
  { intros z [Hz Hs]. split; [done|]. rewrite Hpo in Hs. by apply Hsc. }
  intros z HPz. destruct (decide (page_of p z = a)) as [Ha|Ha].
  - split.
    + intros (Hz & Hs & e1 & He1 & Hm). destruct (HP z HPz Ha Hz) as [Hm' _]; [by rewrite <- Ha|].
      split; [done|]. rewrite Hpo, Hsc. split; [done|]. exists e'.
      rewrite Ha, (es_pte _ _ _ _ Hst), lookup_insert_eq. split; [done|].
      rewrite Ha in He1. simplify_eq. auto.
    + intros v. unfold page_byte. rewrite Hpo. case_decide as Hc; [|done].
      rewrite decide_True by (by rewrite Hsc). destruct Hc as [Hz Hs].
      destruct (HP z HPz Ha Hz) as [_ Hb]; [by rewrite <- Ha|].
      rewrite Ha, He, (es_pte _ _ _ _ Hst), lookup_insert_eq. simpl.
      destruct (Z.eqb_spec (e_addr e) 0) as [|H0]; [done|]. rewrite (Hb H0).
      destruct (Z.eqb_spec (e_addr e) 0); [done|]. by rewrite (es_phys _ _ _ _ Hst).
  - split.
    + intros (Hz & Hs & e1 & He1 & Hm). split; [done|]. rewrite Hpo, Hsc. split; [done|].
      exists e1. by rewrite (es_pte _ _ _ _ Hst), lookup_insert_ne.
    + intros v. unfold page_byte. rewrite Hpo. case_decide as Hc; [|done].
      rewrite decide_True by (by rewrite Hsc).
      rewrite (es_pte _ _ _ _ Hst), lookup_insert_ne by done.
      destruct (pte p !! page_of p z); simpl; [|done]. by rewrite (es_phys _ _ _ _ Hst).
Qed.

Lemma page_le_step (P : Z → Prop) p q a e e' :
  pte p !! a = Some e → entry_step p q a e' → ¬ foreign p a →
  (e_addr e ≠ 0 ∨ allocable e = 1 ∧ rw e = 1 → e_addr e' ≠ 0 ∨ allocable e' = 1 ∧ rw e' = 1) →
  (e_addr e ≠ 0 → e_addr e' = e_addr e) → page_le P p q.
Proof.
  intros He Hst Hfo Hm Ha. split; [eapply page_view_step; eauto|].
  intros z pa (Hz & Hs & e1 & He1 & H0 & ->). unfold backed.
  rewrite (es_page_of _ _ _ _ z Hst), (es_scratch _ _ _ _ _ Hst), (es_pte _ _ _ _ Hst).
  split; [done|]. split; [done|]. destruct (decide (page_of p z = a)) as [<-|Hne].
  - simplify_eq. exists e'. rewrite lookup_insert_eq. by rewrite (Ha H0).
  - exists e1. by rewrite lookup_insert_ne.
Qed.

(** A step on one of the two scratch entries. *)
Lemma page_inv_scratch F p q a e e' st :
  page_inv F p → scratch p a → pte p !! a = Some e → entry_step p q a e' → frames_ok F st q →
  page_inv F q.
Proof.
  intros Hi Hs He Hst Hf. split.
  - eauto.
  - rewrite (es_dirs _ _ _ _ Hst), (es_cur _ _ _ _ Hst). apply Hi.
  - intros z1 z2. rewrite !(es_page_of p q _ _ _ Hst). apply Hi.
  - intros z1 Hz1. rewrite (es_page_of p q _ _ _ Hst), (es_pte _ _ _ _ Hst).
    destruct (decide (page_of p z1 = a)) as [->|Hne].
    { exists e'. rewrite lookup_insert_eq, (es_scratch p q _ _ _ Hst). done. }
    rewrite lookup_insert_ne by done. destruct (pi_entry _ _ Hi z1 Hz1) as (e1 & He1 & Hg1).
    exists e1. split; [done|]. rewrite (es_scratch p q _ _ _ Hst). intros Hs1.
    destruct (Hg1 Hs1) as (Ha1 & Hal1 & Ha2 & Ha3). split_and!; try done. intros H0.
    destruct (Ha3 H0) as (HF1 & Hp1 & Hr1 & Hm1). split_and!; try done.
    rewrite (mappers_scratch p a e' (e_addr e1) q) by (done || apply Hst). done.
Qed.

Lemma with_pte_step p a e' : entry_step p (with_pte p (<[a:=e']> (pte p))) a e'.
Proof. split; done. Qed.

(** ** [lazy_alloc] *)
Lemma lazy_alloc_page_ok F h p z E :
  page_inv F p → in_heap_range z →
  wp (Table_entry_lazy_alloc (page_of p z) false true false)
    (λ _ s', ∃ q, s' = (h, q) ∧ page_inv F q ∧ page_le (λ _, True) p q ∧
       current_page_dir q = current_page_dir p ∧ nframes q = nframes p ∧
       ∀ z', in_heap_range z' → z' / 4096 = z / 4096 → ¬ page_pinned p z' → page_mapped q z') E (h, p).
Proof.
  intros Hi Hz. destruct (pi_entry _ _ Hi z Hz) as (e & He & Hg).
  eapply wp_mono; [by eapply lazy_alloc_ok|]. intros _ ? ->.
  set (e' := lazy_entry false true e). set (q := with_pte p _).
  assert (Hst : entry_step p q (page_of p z) e') by apply with_pte_step.
  assert (Ha : e_addr e' = e_addr e).
  { unfold e', lazy_entry. by case_match. }
  assert (Hne : e_addr e' ≠ 0 ∨ allocable e' = 1 ∧ rw e' = 1).
  { unfold e', lazy_entry. case_match eqn:Hc; simpl; [by right|]. apply Z.eqb_neq in Hc. by left. }
  destruct (pi_frames _ _ Hi) as [st Hf].
  assert (Hfq : frames_ok F st q) by (by eapply frames_ok_perm).
  exists q. split_and!; try done.
  - destruct (decide (scratch p (page_of p z))) as [Hs|Hs]; [by eapply page_inv_scratch|].
    eapply page_inv_step; try done. destruct (Hg Hs) as (H1 & Hal & H2 & H3). unfold heap_entry. rewrite Ha.
    split_and!.
    + unfold e', lazy_entry. by case_match.
    + unfold e', lazy_entry. case_match; simpl; [by right|]. destruct Hal as [?|[? _]]; [by left|by right].
    + intros H0. unfold e', lazy_entry. case_match; by apply H2.
    + intros H0. destruct (H3 H0) as (HF & Hp & Hr & Hm). split_and!; [done| | |].
      * unfold e', lazy_entry. by case_match.
      * unfold e', lazy_entry. by case_match.
      * by rewrite (mappers_same p (page_of p z) e e') by (done || apply Hst).
  - eapply page_le_step; [done|done|by apply heap_not_foreign|done|done].
  - intros z' Hz' Hzz Hnp. split; [done|].
    rewrite (es_page_of p q _ _ _ Hst), (page_of_same p z' z) by done.
    rewrite (es_scratch p q _ _ _ Hst). split.
    + intros Hs. apply Hnp. split; [done|]. by rewrite (page_of_same p z' z).
    + exists e'. rewrite (es_pte _ _ _ _ Hst), lookup_insert_eq. done.
Qed.

(** ** [free] *)
Lemma free_page_ok F h p z E :
  page_inv F p → in_heap_range z → ¬ page_pinned p z →
  wp (en ← rd_pte (page_of p z);
      if present en =? 0 then mret tt else Table_entry_free (page_of p z))
    (λ _ s', ∃ q, s' = (h, q) ∧ page_inv F q ∧ page_view (λ z', z' / 4096 ≠ z / 4096) p q ∧
       current_page_dir q = current_page_dir p ∧
       (q = p ∨ ∃ e', entry_step p q (page_of p z) e' ∧ e_addr e' = 0 ∧ allocable e' = 0)) E (h, p).
Proof.
  intros Hi Hz Hnp. destruct (pi_entry _ _ Hi z Hz) as (e & He & Hg).
  assert (Hs : ¬ scratch p (page_of p z)) by (intros Hs; by apply Hnp).
  destruct (Hg Hs) as (H1 & _ & H2 & H3). wp_step. eapply wp_rd_pte; [exact He|].
  destruct (Z.eqb_spec (present e) 0) as [Hp0|Hp0].
  { apply wp_ret. exists p. split_and!; try done. by left. }
  assert (H0 : e_addr e ≠ 0) by (intros H0; by apply Hp0, H2).
  destruct (H3 H0) as (HF & Hp & Hr & Hm). destruct (pi_frames _ _ Hi) as [st Hf].
  destruct (frames_ok_count _ _ _ _ _ Hf Hs He HF) as (Hrc & Ha & Hn & Hst & Hroom).
  destruct (fo_range _ _ _ Hf _ HF) as [_ Hrange].
  eapply wp_mono; [by eapply free_mapped_ok|]. intros _ ? ->.
  pose proof (frames_ok_free F st p (page_of p z) e Hf Hs He HF) as Hfq. cbv zeta in Hfq.
  set (q := free_state p (page_of p z) e _) in *.
  assert (Hstep : entry_step p q (page_of p z) (free_entry e)).
  { unfold q, free_state. case_match; split; done. }
  exists q. split_and!; try done.
  - eapply page_inv_step; try done. unfold heap_entry. simpl. split_and!; try done. by left.
  - eapply page_view_step; [done|done|by apply heap_not_foreign|]. intros z1 Hz1 Heq Hr1 _. destruct Hz1.
    eapply pi_inj; done.
  - apply Hstep.
  - right. by exists (free_entry e).
Qed.

(** ** The page fault that backs a heap page *)
Lemma page_fault_heap_ok F h p z e code `{!PageLinkOk} :
  page_inv F p → in_heap_range z → ¬ scratch p (page_of p z) →
  pte p !! page_of p z = Some e → e_addr e = 0 → allocable e = 1 → rw e = 1 →
  Z.land code 1 = 0 →
  wp (page_fault (IsrRegs 14 code 0) z)
    (λ _ s', ∃ q e', s' = (h, q) ∧ page_inv F q ∧ page_le (λ _, True) p q ∧
       current_page_dir q = current_page_dir p ∧ nframes q = nframes p - 1 ∧ page_of q z = page_of p z ∧
       pte q !! page_of p z = Some e' ∧ e_addr e' ≠ 0 ∧ ¬ scratch q (page_of p z))
    (λ msg, msg = no_free_frame ∧ nframes p = 0) (h, p).
Proof.
  intros Hi Hz Hs He Hadr Hal Hrw Hcode. unfold page_fault.
  destruct (pi_entry _ _ Hi z Hz) as (e1 & He1 & Hg). simplify_eq. destruct (Hg Hs) as (Hfill & _ & Hpres & _).
  wp_step. apply wp_getp. simpl. wp_step. eapply wp_mono; [by eapply find_page_ok|].
  intros ? ? [-> ->]. rewrite (page_of_pos F) by done.
  wp_step. eapply wp_rd_pte; [exact He|]. rewrite Hal. simpl.
  pose proof kernel_code_end_pos. destruct (Z.leb_spec kernel_code_end 0); [lia|].
  rewrite andb_false_r, Hcode. simpl. destruct (pi_frames _ _ Hi) as [st Hf].
  destruct (decide (nframes p = 0)) as [Hn0|Hn0].
  { wp_step. eapply (wp_mono _ (λ _ _, False)); [|done].
    eapply wp_mono; [eapply (alloc_new_ok _ _ _ _ _ _ 0); try done|]. intros ? ? [? _]. done. }
  destruct st as [|f st _] using rev_ind.
  { pose proof (fo_n _ _ _ Hf). simpl in *. done. }
  destruct (frames_ok_top _ _ _ _ Hf) as (_ & Htop & HfF & Hfm).
  destruct (fo_range _ _ _ Hf f HfF) as [Hfr Hfl].
  wp_step. eapply wp_mono; [eapply (alloc_new_ok _ _ _ _ _ _ f); try done|].
  { intros _. split_and!; [done|lia|lia|lia|lia]. }
  intros _ ? [_ ->].
  set (u := negb (user e =? 0)). set (w := negb (rw e =? 0)).
  assert (Hw : w = true) by (unfold w; by rewrite Hrw).
  pose proof (frames_ok_alloc F st f p (page_of p z) e u w Hf Hs He Hadr) as Hfq.
  set (q := alloc_state p (page_of p z) e u w f) in *.
  assert (Hst : entry_step p q (page_of p z) (alloc_entry u w f e)) by (split; done).
  assert (Haddr : e_addr (alloc_entry u w f e) = f) by (simpl; rewrite Z.mod_small; lia).
  wp_step. eapply wp_rd_pte; [apply lookup_insert_eq|]. cbn [alloc_entry set_present set_allocable set_addr
    perm_entry set_user set_rw alloc_fill]. rewrite Hfill. simpl. apply wp_ret.
  exists q, (alloc_entry u w f e). split_and!; try done.
  - eapply page_inv_step; try done. unfold heap_entry. rewrite Haddr.
    split_and!; [done|right; simpl; by rewrite Hw|lia|]. intros _.
    split_and!; [done|done|simpl; by rewrite Hw|].
    rewrite (mappers_insert p (page_of p z) (alloc_entry u w f e) f q) by (done || apply Hst).
    rewrite Haddr, decide_True by done. rewrite Hfm. set_solver.
  - eapply page_le_step; [done|done|by apply heap_not_foreign|rewrite Haddr; left; lia|done].
  - apply lookup_insert_eq.
  - rewrite Haddr. lia.
Qed.

(** ** Intervals *)
Lemma wp_for_pages (I : Z → kstate → Prop) (b e : Z) body E s :
  page_aligned b → page_aligned e → 0 ≤ b → e < 2 ^ 32 →
  (∀ i s, b ≤ i < e → page_aligned i → I i s → wp (body i) (λ _ s', I (i + 0x1000) s') E s) →
  I b s → wp (for_pages (pages_fuel b e) b e body) (λ _ s', I (Z.max b e) s') E s.
Proof.
  unfold page_aligned, pages_fuel. intros Hb He H0 H32 Hbody HI.
  apply Z.mod_divide in Hb as [kb ->]; [|lia]. apply Z.mod_divide in He as [ke ->]; [|lia].
  replace (ke * 4096 - kb * 4096) with ((ke - kb) * 4096) by lia. change 0x1000 with 4096 in *.
  rewrite Z.div_mul by lia.
  remember (Z.to_nat (ke - kb)) as n eqn:Hn. revert kb s H0 Hn Hbody HI.
  induction n as [|n IH]; intros kb s H0 Hn Hbody HI; simpl.
  - destruct (Z.ltb_spec (kb * 4096) (ke * 4096)); [lia|]. apply wp_ret. by rewrite Z.max_l by lia.
  - destruct (Z.ltb_spec (kb * 4096) (ke * 4096)); [|lia]. wp_step.
    eapply wp_mono; [apply Hbody; [lia|by apply Z.mod_mul|done]|]. intros ? s' HI'.
    rewrite u32_small by lia. assert (Hk : kb * 4096 + 4096 = (kb + 1) * 4096) by lia.
    cbv beta in HI'. rewrite Hk in HI' |- *.
    replace ((kb * 4096) `max` (ke * 4096)) with (((kb + 1) * 4096) `max` (ke * 4096)) by lia.
    apply IH; [lia|lia| |done]. intros i s1 Hi. apply Hbody. lia.
Qed.

Lemma kassert_page_ok z msg (Q : unit → kstate → Prop) E s :
  page_aligned z → 0 ≤ z < 2 ^ 32 → Q tt s → wp (kassert_page z msg) Q E s.
Proof.
  intros Hz Hr HQ. unfold kassert_page. rewrite page_floor_eq by done.
  unfold page_aligned in Hz. apply Z.mod_divide in Hz as [k ->]; [|lia].
  change (2 ^ 12) with 4096. rewrite Z.div_mul, Z.eqb_refl by lia. by apply wp_ret.
Qed.

Lemma heap_range_bounds b (e : Z) : heap_range b e →
  page_aligned b ∧ page_aligned e ∧ 0 ≤ b < 2 ^ 32 ∧ 0 ≤ e < 2 ^ 32 ∧
  ∀ z, b ≤ z < e → in_heap_range z.
Proof.
  unfold heap_range, in_heap_range. rewrite KERNEL_HEAP_BEGIN_eq, KERNEL_HEAP_END_eq.
  intros (? & ? & ? & ?). split_and!; try done; lia.
Qed.

Lemma same_page z i : page_aligned i → i ≤ z < i + 4096 → z / 4096 = i / 4096.
Proof.
  unfold page_aligned. intros Hi Hz. apply Z.mod_divide in Hi as [k ->]; [|lia].
  rewrite Z.div_mul by lia. symmetry. apply (Z.div_unique _ _ _ (z - k * 4096)); lia.
Qed.

Lemma dir_lazy_alloc_interval_ok F h p kmalloc b (e : Z) E :
  page_inv F p → heap_range b e →
  wp (dir_lazy_alloc_interval kmalloc (current_page_dir p) b e false true false)
    (λ _ s', ∃ q, s' = (h, q) ∧ page_inv F q ∧ nframes q = nframes p ∧ page_le (λ _, True) p q ∧
       ∀ z, b ≤ z < e → ¬ page_pinned p z → page_mapped q z) E (h, p).
Proof.
  intros Hi Hr. destruct (heap_range_bounds _ _ Hr) as (Hb & He & Hb0 & He0 & Hin).
  unfold dir_lazy_alloc_interval. wp_step. apply kassert_page_ok; [done..|].
  wp_step. apply kassert_page_ok; [done..|].
  set (I i (s : kstate) := ∃ q, s = (h, q) ∧ page_inv F q ∧ page_le (λ _, True) p q ∧
     current_page_dir q = current_page_dir p ∧ nframes q = nframes p ∧
     ∀ z, b ≤ z < i → ¬ page_pinned p z → page_mapped q z).
  eapply wp_mono; [apply (wp_for_pages I); [done|done|lia|lia| |]|].
  - intros i s Hir Hia (q & -> & Hq & Hle & Hcur & Hn & Hm). rewrite <- Hcur. wp_step.
    eapply wp_mono; [eapply get_page_ok; [done|by apply Hin]|]. intros ? ? [-> ->].
    eapply wp_mono; [eapply lazy_alloc_page_ok; [done|by apply Hin]|].
    intros _ ? (q' & -> & Hq' & Hle' & Hcur' & Hn' & Hm'). exists q'.
    split_and!; [done|done|by eapply page_le_trans|congruence|congruence|].
    intros z Hz Hnp. destruct (decide (z < i)).
    + apply (proj1 (proj2 (proj1 Hle')) z Logic.I). apply Hm; [lia|done].
    + unfold page_aligned in *. apply (Hm' z).
      * apply Hin. apply Z.mod_divide in He as [k ->]; [|lia].
        apply Z.mod_divide in Hia as [j ->]; lia.
      * apply same_page; [done|lia].
      * intros Hp. by apply Hnp, Hle.
  - exists p. split_and!; try done. intros z Hz. lia.
  - intros _ s (q & -> & Hq & Hle & Hcur & Hn & Hm). exists q. split_and!; [done..|].
    intros z Hz. apply Hm. lia.
Qed.

Definition page_keep p q z : Prop :=
  (page_mapped p z → page_mapped q z) ∧ ∀ v, page_byte p z = Some v → page_byte q z = Some v.
Definition page_gone p z : Prop :=
  ¬ page_mapped p z ∧ ¬ page_pinned p z ∧ page_byte p z = None.

Lemma gone_freed p q a z e' :
  page_of p z = a → entry_step p q a e' → e_addr e' = 0 → allocable e' = 0 → ¬ page_pinned q z →
  page_gone q z.
Proof.
  intros Ha Hst H0 H1 Hnp. unfold page_gone, page_mapped, page_byte.
  rewrite (es_page_of _ _ _ _ z Hst), Ha, (es_pte _ _ _ _ Hst), lookup_insert_eq. split; [|split].
  - intros (_ & _ & e & He & [?|[? _]]); simplify_eq. congruence.
  - done.
  - case_decide; simpl; [|done]. by rewrite H0.
Qed.

Lemma gone_step p q a z e' :
  page_gone p z → entry_step p q a e' → page_of p z ≠ a → in_heap_range z → page_gone q z.
Proof.
  intros (H1 & H3 & H2) Hst Hne Hz. pose proof (es_page_of _ _ _ _ z Hst) as Hpo.
  pose proof (es_scratch _ _ _ _ (page_of p z) Hst) as Hsc. split; [|split].
  - intros (_ & Hs & e & He & Hm). apply H1. rewrite Hpo in Hs, He.
    rewrite (es_pte _ _ _ _ Hst), lookup_insert_ne in He by done.
    split; [done|]. split; [by rewrite <- Hsc|]. by exists e.
  - intros [_ Hs]. apply H3. split; [done|]. apply Hsc. by rewrite <- Hpo.
  - unfold page_byte in H2 |- *. rewrite Hpo.
    destruct (decide (in_heap_range z ∧ ¬ scratch q (page_of p z))) as [Hd|]; [|done].
    rewrite Hsc in Hd. rewrite decide_True in H2 by done. rewrite (es_pte _ _ _ _ Hst), lookup_insert_ne by done.
    destruct (pte p !! page_of p z) as [e|]; simpl in *; [|done]. by case_match.
Qed.

Lemma page_range z i : z / 4096 = i / 4096 → page_aligned i → i ≤ z < i + 4096.
Proof.
  unfold page_aligned. intros Heq Hi. apply Z.mod_divide in Hi as [j ->]; [|lia].
  rewrite Z.div_mul in Heq by lia.
  pose proof (Z.div_mod z 4096 ltac:(lia)). pose proof (Z.mod_pos_bound z 4096 ltac:(lia)). lia.
Qed.

Lemma dir_free_interval_ok F h p kmalloc b (e : Z) E :
  page_inv F p → heap_range b e → (∀ z, b ≤ z < e → ¬ page_pinned p z) →
  wp (dir_free_interval kmalloc (current_page_dir p) b e)
    (λ _ s', ∃ q, s' = (h, q) ∧ page_inv F q ∧ (∀ z, page_pinned q z → page_pinned p z) ∧ same_space p q ∧
       ∀ z, page_keep p q z ∨ b ≤ z < e ∧ page_gone q z) E (h, p).
Proof.
  intros Hi Hr Hnp. destruct (heap_range_bounds _ _ Hr) as (Hb & He & Hb0 & He0 & Hin).
  unfold dir_free_interval. wp_step. apply kassert_page_ok; [done..|].
  wp_step. apply kassert_page_ok; [done..|].
  set (I (i : Z) (s : kstate) := ∃ q, s = (h, q) ∧ page_inv F q ∧
     (∀ z, page_pinned q z → page_pinned p z) ∧ same_space p q ∧
     ∀ z, page_keep p q z ∨ b ≤ z < i ∧ page_gone q z).
  eapply wp_mono; [apply (wp_for_pages I); [done|done|lia|lia| |]|].
  - intros i s Hir Hia (q & -> & Hq & Hpp & Hss & Hk). rewrite <- (ss_cur _ _ Hss). wp_step.
    eapply wp_mono; [eapply get_page_ok; [done|by apply Hin]|]. intros ? ? [-> ->].
    rewrite (page_of_pos F) by (done || by apply Hin).
    eapply wp_mono; [eapply free_page_ok; [done|by apply Hin|]|].
    { intros Hp. apply (Hnp i Hir), Hpp, Hp. }
    intros _ ? (q' & -> & Hq' & (Hpq' & Hle' & Hss') & Hcur' & Hstep). exists q'.
    split_and!; [done|done|auto|by eapply same_space_trans|]. intros z.
    destruct (decide (z / 4096 = i / 4096)) as [Hzi|Hzi].
    + destruct Hstep as [->|(e' & Hst & Ha' & Hal')].
      { destruct (Hk z) as [?|[? ?]]; [by left|right; split; [lia|done]]. }
      pose proof (page_range _ _ Hzi Hia). right. split; [lia|].
      eapply gone_freed; [|done..|].
        { apply page_of_same. by apply same_page. }
        intros [Hz' Hs']. apply (Hnp i Hir), Hpp, Hpq'. split; [by apply Hin|].
        by rewrite (page_of_same q' i z) by (symmetry; by apply same_page).
    + destruct (Hk z) as [[H1 H2]|[Hz Hg]].
      * left. destruct (Hle' z Hzi) as [H3 H4]. split; [auto|]. intros v Hv. auto.
      * right. split; [lia|]. destruct Hstep as [->|(e' & Hst & _)]; [done|].
        eapply gone_step; [done|done| |by apply Hin; lia]. intros Heq.
        apply Hzi. eapply (pi_inj _ _ Hq); [apply Hin; lia|by apply Hin|done].
  - exists p. split_and!; [done|done|done|apply same_space_refl|]. intros z. by left.
  - intros _ s (q & -> & Hq & Hpp & Hss & Hk). exists q. split_and!; try done.
    intros z. destruct (Hk z) as [?|[? ?]]; [by left|right; split; [lia|done]].
Qed.
End Inv.

(** * Memory accesses *)
#[local] Arguments translate : simpl never.

Section Access.
Context `{PL : PageLink} `{PLok : !PageLinkOk}.
Implicit Types (h : kheap) (p q : paging) (a z f : Z) (e : Table_entry_t) (F : gset Z).

Lemma backed_mapped p z pa : backed p z pa → page_mapped p z.
Proof. intros (Hz & Hs & e & He & H0 & _). split_and!; [done..|]. exists e. auto. Qed.

Lemma page_byte_backed p z v : page_byte p z = Some v ↔ ∃ pa, backed p z pa ∧ phys_at p pa = v.
Proof.
  unfold page_byte, backed. split.
  - case_decide as Hd; [|done]. destruct Hd as [Hz Hs].
    destruct (pte p !! page_of p z) as [e|] eqn:He; simpl; [|done].
    destruct (Z.eqb_spec (e_addr e) 0) as [|H0]; [done|]. intros ?. simplify_eq. eauto 10.
  - intros (pa & (Hz & Hs & e & He & H0 & ->) & <-). rewrite decide_True by done.
    rewrite He. simpl. apply Z.eqb_neq in H0. by rewrite H0.
Qed.

Lemma backed_entry F p z pa : page_inv F p → backed p z pa →
  ∃ e, pte p !! page_of p z = Some e ∧ present e = 1 ∧ rw e = 1 ∧
       pa = Z.shiftl (e_addr e) 12 + z mod 4096.
Proof.
  intros Hi (Hz & Hs & e & He & H0 & ->). destruct (pi_entry _ _ Hi z Hz) as (e1 & He1 & Hg).
  simplify_eq. destruct (Hg Hs) as (_ & _ & _ & H3). destruct (H3 H0) as (_ & ? & ? & _). eauto.
Qed.

(** Distinct heap addresses are backed by distinct physical bytes. *)
Lemma backed_inj F p z z' pa : page_inv F p → backed p z pa → backed p z' pa → z = z'.
Proof.
  intros Hi (Hz & Hs & e & He & H0 & ->) (Hz' & Hs' & e' & He' & H0' & Heq).
  rewrite !Z.shiftl_mul_pow2 in Heq by lia. change (2 ^ 12) with 4096 in Heq.
  pose proof (Z.mod_pos_bound z 4096 ltac:(lia)). pose proof (Z.mod_pos_bound z' 4096 ltac:(lia)).
  assert (e_addr e' = e_addr e ∧ z' mod 4096 = z mod 4096) as [Ha Hm] by lia.
  pose proof (heap_entry_frames F p z z' e e' Hi Hz Hz' Hs Hs' He He' H0 Ha) as Hpo.
  apply (pi_inj _ _ Hi) in Hpo; [|done..].
  rewrite (Z.div_mod z 4096), (Z.div_mod z' 4096) by lia. congruence.
Qed.

Lemma translate_S n va ip w u :
  translate (S n) va ip w u =
  (p ← getp;
   page ← find_page (current_page_dir p) va;
   e ← (if page =? 0 then mret entry_zero else rd_pte page);
   match fault_code e w u with
   | None => mret (Z.shiftl (e_addr e) 12 + Z.land va 0xFFF)
   | Some code => page_fault (IsrRegs 14 code ip) va ;; translate n va ip w u
   end).
Proof. done. Qed.

(** A write access gets the byte's physical address, backing the page first. *)
Lemma translate_backed_ok F h p z pa w E :
  page_inv F p → backed p z pa →
  ∀ n, wp (translate (S n) z 0 w false) (λ r s', r = pa ∧ s' = (h, p)) E (h, p).
Proof.
  intros Hi Hb n. pose proof Hb as (Hz & _). rewrite translate_S.
  destruct (backed_entry _ _ _ _ Hi Hb) as (e & He & Hp & Hr & ->).
  wp_step. apply wp_getp. simpl. wp_step. eapply wp_mono; [by eapply find_page_ok|].
  intros ? ? [-> ->]. rewrite (page_of_pos F) by done. wp_step. eapply wp_rd_pte; [exact He|].
  unfold fault_code. rewrite Hp, Hr. rewrite andb_false_r. simpl. apply wp_ret.
  by rewrite land_fff.
Qed.

Lemma translate_write_ok F h p z :
  page_inv F p → page_mapped p z →
  wp (translate 3 z 0 true false)
    (λ pa s', ∃ q, s' = (h, q) ∧ page_inv F q ∧ page_le (λ _, True) p q ∧ backed q z pa ∧
       nframes p ≤ nframes q + 1 ∧ (∀ pa', backed p z pa' → nframes q = nframes p))
    (λ msg, msg = no_free_frame ∧ nframes p = 0 ∧ ∀ pa', ¬ backed p z pa') (h, p).
Proof.
  intros Hi (Hz & Hs & e & He & Hm). destruct (pi_entry _ _ Hi z Hz) as (e1 & He1 & Hg). simplify_eq.
  destruct (Hg Hs) as (_ & _ & H2 & _). destruct (decide (e_addr e = 0)) as [Ha|Ha].
  - assert (Hno : ∀ pa', ¬ backed p z pa') by (intros pa' (_ & _ & e2 & He2 & H02 & _); congruence).
    destruct Hm as [?|[Hal Hrw]]; [done|]. rewrite translate_S.
    wp_step. apply wp_getp. simpl. wp_step. eapply wp_mono; [by eapply find_page_ok|].
    intros ? ? [-> ->]. rewrite (page_of_pos F) by done. wp_step. eapply wp_rd_pte; [exact He|].
    unfold fault_code. rewrite (H2 Ha). simpl. wp_step.
    eapply wp_mono_E; [by eapply page_fault_heap_ok| |by intros ? [-> ?]].
    intros _ ? (q & e' & -> & Hq & Hle & Hcur & Hn & Hpo & He' & Ha' & Hs').
    assert (Hb : backed q z (Z.shiftl (e_addr e') 12 + z mod 4096)).
    { unfold backed. rewrite Hpo. eauto 10. }
    eapply wp_mono; [by eapply (translate_backed_ok F)|]. intros ? ? [-> ->]. exists q.
    split_and!; [done..|lia|]. intros pa' Hpa. by destruct (Hno pa').
  - assert (Hb : backed p z (Z.shiftl (e_addr e) 12 + z mod 4096)) by (unfold backed; eauto 10).
    eapply wp_mono; [by eapply (translate_backed_ok F)|]. intros ? ? [-> ->].
    exists p. split_and!; [done|done|apply page_le_refl|done|lia|done].
Qed.

(** No other entry maps the frame of a heap page. *)
Lemma backed_not_foreign F p z pa a e i :
  page_inv F p → backed p z pa → foreign p a → pte p !! a = Some e → 0 ≤ i < 4096 →
  Z.shiftl (e_addr e) 12 + i ≠ pa.
Proof.
  intros Hi (Hz & Hs & eb & Heb & H0 & ->) [Hsa Hha] He Hr Heq.
  rewrite !Z.shiftl_mul_pow2 in Heq by lia. change (2 ^ 12) with 4096 in Heq.
  pose proof (Z.mod_pos_bound z 4096 ltac:(lia)). assert (e_addr e = e_addr eb) as Ha by lia.
  destruct (pi_entry _ _ Hi z Hz) as (e1 & He1 & Hg). simplify_eq. destruct (Hg Hs) as (_ & _ & _ & H3).
  destruct (H3 H0) as (_ & _ & _ & Hm). assert (a ∈ mappers p (e_addr eb)) as Hin by (apply elem_of_mappers; eauto).
  rewrite Hm in Hin. apply elem_of_singleton in Hin as ->. apply Hha. by exists z.
Qed.

Lemma write_byte_ok F h p z pa v E :
  page_inv F p → backed p z pa →
  wp (write_phys pa [v])
    (λ _ s', ∃ q, s' = (h, q) ∧ page_inv F q ∧ nframes q = nframes p ∧ page_byte q z = Some v ∧
       page_le (λ z', z' ≠ z) p q ∧ ∀ z', page_mapped p z' → page_mapped q z') E (h, p).
Proof.
  intros Hi Hb. apply wp_write_phys. simpl. rewrite insert_empty, <- insert_union_singleton_l.
  rewrite Z.add_0_r. set (q := with_phys p _). exists q.
  assert (Hph : ∀ x, phys_at q x = if decide (x = pa) then v else phys_at p x).
  { intros x. unfold phys_at, q. simpl. case_decide as Hx.
    - subst. by rewrite lookup_insert_eq.
    - by rewrite lookup_insert_ne. }
  assert (Hbk : ∀ z' pa', backed q z' pa' ↔ backed p z' pa') by done.
  split_and!; [done| |done| | |done].
  - destruct Hi as [[st Hf] H2 H3 H4]. split; try done. exists st. by apply frames_ok_phys.
  - apply page_byte_backed. exists pa. split; [done|]. rewrite Hph. by case_decide.
  - split; [|done]. split; [done|]. split.
    + intros z' Hne. split; [done|]. intros v'.
      rewrite !page_byte_backed. intros (pa' & Hb' & <-). exists pa'. split; [done|].
      rewrite Hph. case_decide as Heq; [|done]. subst. destruct Hne. by eapply backed_inj.
    + split; try done. intros a e i Ha He _ Hr. rewrite Hph. case_decide as Heq; [|done].
      by destruct (backed_not_foreign F p z pa a e i Hi Hb Ha He Hr).
Qed.

(** The frames a write takes: one for each page that has none. *)
Lemma backed_same p z z' pa : z / 4096 = z' / 4096 → in_heap_range z' → backed p z pa → ∃ pa', backed p z' pa'.
Proof.
  intros Heq Hz' (Hz & Hs & e & He & H0 & _). rewrite (page_of_same p z z' Heq) in Hs, He.
  exists (Z.shiftl (e_addr e) 12 + z' mod 4096). split; [done|]. split; [done|]. by exists e.
Qed.
Definition frames_taken p q a (n : nat) : Prop :=
  if decide (n = 0%nat) then nframes q = nframes p
  else (∃ pa, backed q (a + Z.of_nat n - 1) pa) ∧ nframes p ≤ nframes q + pages_touched a (Z.of_nat n).
Lemma frames_taken_fail p q a (n len : nat) :
  frames_taken p q a n → nframes q = 0 → (∀ pa, ¬ backed q (a + Z.of_nat n) pa) → page_mapped q (a + Z.of_nat n) → (n < len)%nat →
  nframes p < pages_touched a (Z.of_nat len).
Proof.
  unfold frames_taken, pages_touched. intros Ht Hq Hno [Hr _] Hlen.
  pose proof (Z.div_le_mono (a + Z.of_nat n) (a + Z.of_nat len - 1) 4096 ltac:(lia) ltac:(lia)).
  pose proof (Z.div_le_mono a (a + Z.of_nat n) 4096 ltac:(lia) ltac:(lia)).
  case_decide as Hn; [lia|]. destruct Ht as [[pa Hb] Hle].
  pose proof (Z.div_le_mono (a + Z.of_nat n - 1) (a + Z.of_nat n) 4096 ltac:(lia) ltac:(lia)).
  assert ((a + Z.of_nat n - 1) / 4096 ≠ (a + Z.of_nat n) / 4096); [|lia].
  intros Heq. destruct (backed_same _ _ _ _ Heq Hr Hb) as [pa' Hb']. by destruct (Hno pa').
Qed.
Lemma frames_taken_step p q q1 q2 a (n : nat) pa :
  frames_taken p q a n → page_mapped q (a + Z.of_nat n) → nframes q ≤ nframes q1 + 1 →
  (∀ pa', backed q (a + Z.of_nat n) pa' → nframes q1 = nframes q) → backed q2 (a + Z.of_nat n) pa → nframes q2 = nframes q1 →
  frames_taken p q2 a (S n).
Proof.
  unfold frames_taken, pages_touched. intros Ht [Hr _] H1 Hsame Hb H2. rewrite (decide_False (P:=S n = 0%nat)) by lia.
  replace (a + Z.of_nat (S n) - 1) with (a + Z.of_nat n) by lia. split; [by exists pa|].
  pose proof (Z.div_le_mono a (a + Z.of_nat n) 4096 ltac:(lia) ltac:(lia)). rewrite H2.
  case_decide as Hn; [lia|]. destruct Ht as [[pa0 Hb0] Hle].
  pose proof (Z.div_le_mono (a + Z.of_nat n - 1) (a + Z.of_nat n) 4096 ltac:(lia) ltac:(lia)).
  destruct (decide ((a + Z.of_nat n - 1) / 4096 = (a + Z.of_nat n) / 4096)) as [Heq|]; [|lia].
  destruct (backed_same _ _ _ _ Heq Hr Hb0) as [pa' Hb']. rewrite (Hsame pa' Hb'). lia.
Qed.

Lemma kernel_write_ok F h p a l :
  page_inv F p → (∀ z, a ≤ z < a + Z.of_nat (length l) → page_mapped p z) →
  wp (kernel_write a l)
    (λ _ s', ∃ q, s' = (h, q) ∧ page_inv F q ∧ (∀ z, page_mapped p z → page_mapped q z) ∧
       (∀ i v, l !! i = Some v → page_byte q (a + Z.of_nat i) = Some v) ∧
       page_le (λ z, ¬ (a ≤ z < a + Z.of_nat (length l))) p q)
    (λ msg, msg = no_free_frame ∧ nframes p < pages_touched a (Z.of_nat (length l))) (h, p).
Proof.
  intros Hi Hm. unfold kernel_write.
  set (il := zip _ l). assert (Hil : ∀ k iv, il !! k = Some iv ↔ iv.1 = Z.of_nat k ∧ l !! k = Some iv.2).
  { intros k [i v]. unfold il. rewrite lookup_zip_with_Some. simpl. split.
    - intros (x & y & ? & Hx & Hy). simplify_eq. apply list_lookup_fmap_Some in Hx as (n & -> & Hn).
      apply lookup_seq in Hn as [-> _]. done.
    - intros [-> Hv]. exists (Z.of_nat k), v. split_and!; try done.
      rewrite list_lookup_fmap, lookup_seq_lt by (by apply lookup_lt_Some in Hv). done. }
  assert (Hrng : ∀ iv, iv ∈ il → 0 ≤ iv.1 < Z.of_nat (length l)).
  { intros iv Hiv. apply list_elem_of_lookup in Hiv as [k Hk]. apply Hil in Hk as [-> Hk].
    apply lookup_lt_Some in Hk. lia. }
  assert (Hfst : ∀ pre iv post, il = pre ++ iv :: post → ∀ jv, jv ∈ pre → jv.1 ≠ iv.1).
  { intros pre iv post Heq jv Hjv. apply list_elem_of_lookup in Hjv as [k Hk].
    pose proof (lookup_lt_Some _ _ _ Hk) as Hlt.
    assert (il !! k = Some jv) as H1 by (rewrite Heq; by apply lookup_app_l_Some).
    assert (il !! length pre = Some iv) as H2 by (rewrite Heq; by apply list_lookup_middle).
    apply Hil in H1 as [-> _]. apply Hil in H2 as [-> _]. lia. }
  set (I (pre : list (Z * Z)) (s : kstate) := ∃ q, s = (h, q) ∧ page_inv F q ∧
    (∀ z, page_mapped p z → page_mapped q z) ∧ (∀ iv, iv ∈ pre → page_byte q (a + iv.1) = Some iv.2) ∧
    page_le (λ z, ¬ (a ≤ z < a + Z.of_nat (length l))) p q ∧ frames_taken p q a (length pre)).
  eapply wp_mono; [apply (wp_for_each I)|].
  - intros pre [i v] post s Heq (q & -> & Hq & Hmq & Hw & Hle & Hft).
    assert (i = Z.of_nat (length pre) ∧ (length pre < length l)%nat) as [-> Hlt].
    { assert (il !! length pre = Some (i, v)) as Hat by (rewrite Heq; by apply list_lookup_middle).
      apply Hil in Hat as [? Hat]. split; [done|by apply lookup_lt_Some in Hat]. }
    assert (Hma : page_mapped q (a + Z.of_nat (length pre))) by (apply Hmq, Hm; lia).
    wp_step. eapply wp_mono_E; [eapply translate_write_ok; [done|exact Hma]| |].
    2:{ intros ? (-> & H0 & Hno). split; [done|]. by eapply frames_taken_fail. }
    intros pa ? (q1 & -> & Hq1 & Hle1 & Hb & Hn1 & Hn2).
    eapply wp_mono; [by eapply write_byte_ok|]. intros _ ? (q2 & -> & Hq2 & Hn3 & Hv & Hle2 & Hm2).
    exists q2. split; [done|]. split; [done|]. split; [|split; [|split]].
    + intros z Hz. apply Hm2. by apply Hle1, Hmq.
    + intros iv Hiv. apply elem_of_app in Hiv as [Hiv|Hiv].
      * apply Hle2; [|by apply Hle1; [|apply Hw]]. specialize (Hfst _ _ _ Heq _ Hiv). simpl in Hfst. lia.
      * apply list_elem_of_singleton in Hiv as ->. done.
    + eapply page_le_trans; [exact Hle|]. eapply page_le_trans.
      * by eapply page_le_weaken; [|exact Hle1].
      * eapply page_le_weaken; [|exact Hle2]. simpl. lia.
    + rewrite length_app, Nat.add_1_r. eapply frames_taken_step; [exact Hft|exact Hma|exact Hn1|exact Hn2| |exact Hn3].
      by apply Hle2.
  - exists p. split_and!; try done. intros iv Hiv. by apply elem_of_nil in Hiv.
  - intros _ s (q & -> & Hq & Hmq & Hw & Hle & _). exists q. split_and!; try done; [|by apply Hle..].
    intros k v Hv. apply (Hw (Z.of_nat k, v)). apply list_elem_of_lookup. exists k. by apply Hil.
Qed.

Lemma kernel_read_ok F h p a l E :
  page_inv F p → (∀ i v, l !! i = Some v → page_byte p (a + Z.of_nat i) = Some v) →
  wp (kernel_read a (length l)) (λ r s', r = l ∧ s' = (h, p)) E (h, p).
Proof.
  revert a; induction l as [|v l IH]; intros a Hi Hl; [by apply wp_ret|]. simpl kernel_read.
  specialize (Hl 0%nat v eq_refl) as Hv. rewrite Z.add_0_r in Hv.
  apply page_byte_backed in Hv as (pa & Hb & Hpa).
  wp_step. eapply wp_mono; [by eapply (translate_backed_ok F)|]. intros ? ? [-> ->].
  wp_step. apply wp_getp. wp_step. eapply wp_mono; [apply IH; [done|]|].
  - intros i w Hw. specialize (Hl (S i) w Hw). by replace (a + 1 + Z.of_nat i) with (a + Z.of_nat (S i)) by lia.
  - intros ? ? [-> ->]. apply wp_ret. simpl. by rewrite Hpa.
Qed.

(** Reading an address that is gone ends in the error exit of [page_fault]. *)
Lemma translate_gone_ok F h p z (Q : Z → kstate → Prop) :
  page_inv F p → in_heap_range z → page_gone p z →
  wp (translate 3 z 0 false false) Q (λ msg, msg = page_fault_msg) (h, p).
Proof.
  intros Hi Hz (Hnm & Hnp & Hnb). destruct (pi_entry _ _ Hi z Hz) as (e & He & Hg).
  assert (Hs : ¬ scratch p (page_of p z)) by (intros ?; by apply Hnp).
  destruct (Hg Hs) as (_ & Hal & H2 & _).
  assert (Ha : e_addr e = 0).
  { destruct (decide (e_addr e = 0)) as [|Hne]; [done|]. destruct Hnm. split_and!; [done..|]. eauto. }
  assert (Hal0 : allocable e = 0).
  { destruct Hal as [|Hal]; [done|]. destruct Hnm. split_and!; [done..|]. eauto. }
  rewrite translate_S. wp_step. apply wp_getp. simpl. wp_step. eapply wp_mono; [by eapply find_page_ok|].
  intros ? ? [-> ->]. rewrite (page_of_pos F) by done. wp_step. eapply wp_rd_pte; [exact He|].
  unfold fault_code. rewrite (H2 Ha). simpl. wp_step. unfold page_fault.
  wp_step. apply wp_getp. simpl. wp_step. eapply wp_mono; [by eapply find_page_ok|].
  intros ? ? [-> ->]. rewrite (page_of_pos F) by done. wp_step. eapply wp_rd_pte; [exact He|].
  rewrite Hal0. by apply wp_panic.
Qed.

Lemma kernel_read_gone F h p a n :
  page_inv F p → (∀ z, a ≤ z < a + Z.of_nat n → in_heap_range z) →
  (∀ z, a ≤ z < a + Z.of_nat n → page_byte p z ≠ None ∨ page_gone p z) →
  (∃ z, a ≤ z < a + Z.of_nat n ∧ page_gone p z) →
  wp (kernel_read a n) (λ _ _, False) (λ msg, msg = page_fault_msg) (h, p).
Proof.
  revert a; induction n as [|n IH]; intros a Hi Hin Hz (z & Hzr & Hg); [lia|]. simpl kernel_read.
  wp_step. destruct (Hz a) as [Hb|Hga]; [lia| |].
  - destruct (page_byte p a) as [v|] eqn:Hv; [|done]. apply page_byte_backed in Hv as (pa & Hbk & _).
    eapply wp_mono; [by eapply (translate_backed_ok F)|]. intros ? ? [-> ->].
    wp_step. apply wp_getp. wp_step.
    assert (z ≠ a).
    { intros ->. destruct Hg as (Hg & _). by apply Hg, (backed_mapped _ _ pa). }
    eapply wp_mono; [apply IH; [done| | |]|done].
    + intros z' Hz'. apply Hin. lia.
    + intros z' Hz'. apply Hz. lia.
    + exists z. split; [lia|done].
  - eapply translate_gone_ok; [done|apply Hin; lia|done].
Qed.
End Access.

(** * The contract discharged *)
Definition page_env_laws `{PL : PageLink} `{PLok : !PageLinkOk} (kmalloc : Z → Z → M kstate Z) (F : gset Z) :
    @HeapEnvLaws paging (page_env kmalloc).
Proof.
  refine {| env_inv := page_inv F; mapped := page_mapped; byte_at := page_byte; pinned := page_pinned; frames_left := nframes |}.
  - intros h p b e Hi Hr. simpl. apply wp_bind, wp_getp. simpl.
    eapply wp_mono; [by eapply dir_lazy_alloc_interval_ok|].
    intros _ ? (q & -> & Hq & Hn & [(Hpp & Hle & Hss) _] & Hm). exists q. split_and!; eauto.
  - intros h p b e Hi Hr Hn. simpl. apply wp_bind, wp_getp. simpl.
    eapply wp_mono; [by eapply dir_free_interval_ok|].
    intros _ ? (q & -> & Hq & Hpq & _ & Hk). exists q. split_and!; eauto.
  - intros h p a l Hi _ _ _ Hm. simpl. eapply wp_mono; [by eapply kernel_write_ok|].
    intros _ ? (q & -> & Hq & Hmq & Hw & [(Hpp & Hle & Hss) _]). exists q. split_and!; eauto.
    intros z v Hz. by apply Hle.
  - intros h p a l E Hi _ _ Hl. simpl. by eapply kernel_read_ok.
  - intros h p a n Hi Hlo Hhi Hz Hg. simpl. eapply kernel_read_gone; try done.
    intros z Hzr. unfold in_heap_range. lia.
Defined.

(** The same services where no page is freed: whatever the pages' users keep
    in the rest of the address space, [G], is kept too. *)
Section Growing.
Context `{PL : PageLink} `{PLok : !PageLinkOk} (kmalloc : Z → Z → M kstate Z) (F : gset Z).
Context (G : paging → Prop) (HG : ∀ P p q, page_le P p q → G p → G q).

Definition growing_env : HeapEnv paging := {|
  lazy_alloc_interval b e user_ writable fill_zero :=
    p ← getp; dir_lazy_alloc_interval kmalloc (current_page_dir p) b e user_ writable fill_zero;
  free_interval _ _ := mret tt;
  Kheap.get_page a make := p ← getp; get_page kmalloc (current_page_dir p) a make;
  mem_write := kernel_write;
  mem_read := kernel_read;
  log_info := Klog_log
|}.
Definition growing_env_laws : @HeapEnvLaws paging growing_env.
Proof.
  refine {| env_inv p := page_inv F p ∧ G p; mapped := page_mapped; byte_at := page_byte; pinned := page_pinned; frames_left := nframes |}.
  - intros h p b e [Hi Hp] Hr. simpl. apply wp_bind, wp_getp. simpl.
    eapply wp_mono; [by eapply dir_lazy_alloc_interval_ok|].
    intros _ ? (q & -> & Hq & Hn & Hle & Hm). pose proof Hle as [(Hpp & Hle' & Hss) _]. exists q. split_and!; eauto.
  - intros h p b e [Hi Hp] Hr Hn. apply wp_ret. exists p. split_and!; eauto.
  - intros h p a l [Hi Hp] _ _ _ Hm. simpl. eapply wp_mono; [by eapply kernel_write_ok|].
    intros _ ? (q & -> & Hq & Hmq & Hw & Hle). pose proof Hle as [(Hpp & Hle' & Hss) _]. exists q. split_and!; eauto.
    intros z v Hz. by apply Hle'.
  - intros h p a l E [Hi _] _ _ Hl. simpl. by eapply kernel_read_ok.
  - intros h p a n [Hi _] Hlo Hhi Hz Hg. simpl. eapply kernel_read_gone; try done.
    intros z Hzr. unfold in_heap_range. lia.
Defined.
End Growing.
