(* ===== verification/PageCow.v ===== *)
(** Copy-on-write in [core/page.cpp]: the protection fault that gives a task its
    own copy of a shared page, and the loop of [clone_table] that shares the
    pages of a table. *)
From S2P Require Import Prelude Rbt TreeMm Common Kheap Page PageOk PageFrames.

(** * Physical memory *)
Section Phys.
Implicit Types (p : paging) (x a f : Z) (l : list Z).

Lemma lookup_write_phys_map l a (m : gmap Z Z) x :
  write_phys_map l a m !! x =
  if decide (a ≤ x < a + Z.of_nat (length l)) then l !! Z.to_nat (x - a) else m !! x.
Proof.
  unfold write_phys_map. rewrite lookup_union.
  set (ks := Z.add a <$> (Z.of_nat <$> seq 0 (length l))).
  assert (Hlen : length ks = length l) by (unfold ks; by rewrite !length_fmap, length_seq).
  assert (Hks : ∀ i, (i < length l)%nat → ks !! i = Some (a + Z.of_nat i)).
  { intros i Hi. unfold ks. rewrite !list_lookup_fmap, lookup_seq_lt by done. done. }
  assert (Hnd : NoDup (zip ks l).*1).
  { rewrite fst_zip by lia. unfold ks. apply NoDup_fmap_2; [intros ???; lia|].
    apply NoDup_fmap_2; [intros ???; lia|]. apply NoDup_seq. }
  case_decide as Hx.
  - destruct (lookup_lt_is_Some_2 l (Z.to_nat (x - a)) ltac:(lia)) as [v Hv]. rewrite Hv.
    assert ((list_to_map (zip ks l) : gmap Z Z) !! x = Some v) as ->.
    { apply elem_of_list_to_map_1; [done|]. apply list_elem_of_lookup. exists (Z.to_nat (x - a)).
      apply lookup_zip_with_Some. exists x, v. split; [done|]. split; [|done].
      rewrite Hks by lia. f_equal. lia. }
    by destruct (m !! x).
  - assert ((list_to_map (zip ks l) : gmap Z Z) !! x = None) as ->; [|by destruct (m !! x)].
    apply not_elem_of_list_to_map_1. rewrite fst_zip by lia. intros Hin.
    apply list_elem_of_lookup in Hin as [i Hi]. pose proof (lookup_lt_Some _ _ _ Hi).
    rewrite Hks in Hi by lia. simplify_eq. lia.
Qed.

Lemma lookup_upto lo hi i : (i < Z.to_nat (hi - lo))%nat → upto lo hi !! i = Some (lo + Z.of_nat i).
Proof. intros Hi. unfold upto. rewrite !list_lookup_fmap, lookup_seq_lt by done. done. Qed.
Lemma length_upto lo hi : length (upto lo hi) = Z.to_nat (hi - lo).
Proof. unfold upto. by rewrite !length_fmap, length_seq. Qed.
Lemma elem_of_upto lo hi i : i ∈ upto lo hi ↔ lo ≤ i < hi.
Proof.
  rewrite list_elem_of_lookup. split.
  - intros [k Hk]. pose proof (lookup_lt_Some _ _ _ Hk) as Hlt. rewrite length_upto in Hlt.
    rewrite lookup_upto in Hk by done. simplify_eq. lia.
  - intros Hi. exists (Z.to_nat (i - lo)). rewrite lookup_upto by lia. f_equal. lia.
Qed.

Lemma length_read_frame p f : length (read_frame p f) = 4096%nat.
Proof. unfold read_frame. rewrite length_fmap. apply length_upto. Qed.

Lemma lookup_read_frame p f i :
  (i < 4096)%nat → read_frame p f !! i = Some (phys_at p (Z.shiftl f 12 + Z.of_nat i)).
Proof. intros Hi. unfold read_frame. rewrite list_lookup_fmap, lookup_upto by (simpl; lia). done. Qed.

(** Copying one frame over another. *)
Lemma phys_at_copy p q g l x :
  phys0 q = phys0 p → phys q = write_phys_map l (Z.shiftl g 12) (phys p) → length l = 4096%nat →
  phys_at q x = if decide (Z.shiftl g 12 ≤ x < Z.shiftl g 12 + 4096)
                then l !!! Z.to_nat (x - Z.shiftl g 12) else phys_at p x.
Proof.
  intros H0 Hp Hl. unfold phys_at. rewrite H0, Hp, lookup_write_phys_map, Hl.
  change (Z.of_nat 4096) with 4096. case_decide as Hx; [|done].
  destruct (lookup_lt_is_Some_2 l (Z.to_nat (x - Z.shiftl g 12))) as [v Hv]; [lia|].
  rewrite Hv. simpl. symmetry. by apply list_lookup_total_correct.
Qed.

Lemma read_frame_copy p q g l :
  phys0 q = phys0 p → phys q = write_phys_map l (Z.shiftl g 12) (phys p) → length l = 4096%nat →
  read_frame q g = l.
Proof.
  intros H0 Hp Hl. apply list_eq_same_length with 4096%nat; [by rewrite Hl|by rewrite length_read_frame|].
  intros i x y Hi Hx Hy. rewrite lookup_read_frame in Hx by done. simplify_eq.
  rewrite (phys_at_copy p q g l) by done. rewrite decide_True by lia.
  replace (Z.to_nat (Z.shiftl g 12 + Z.of_nat i - Z.shiftl g 12)) with i by lia.
  by apply list_lookup_total_correct.
Qed.

Lemma read_frame_other p q g f l :
  phys0 q = phys0 p → phys q = write_phys_map l (Z.shiftl g 12) (phys p) → length l = 4096%nat →
  f ≠ g → read_frame q f = read_frame p f.
Proof.
  intros H0 Hp Hl Hne. unfold read_frame. apply list_fmap_ext. intros k i Hi.
  pose proof (lookup_lt_Some _ _ _ Hi) as Hk. rewrite length_upto in Hk.
  rewrite lookup_upto in Hi by done. simplify_eq. rewrite (phys_at_copy p q g l) by done.
  rewrite decide_False; [done|]. rewrite !Z.shiftl_mul_pow2 by lia. change (2 ^ 12) with 4096. lia.
Qed.

Lemma read_frame_ext p q f : phys q = phys p → phys0 q = phys0 p → read_frame q f = read_frame p f.
Proof. intros H1 H2. unfold read_frame, phys_at. by rewrite H1, H2. Qed.
End Phys.
#[local] Opaque read_frame.

(** The scratch pages take part in a copy only. *)
Lemma copy_state_ok F st p e0 e1 dest src :
  frames_ok F st p → pte p !! empty_page0_ptr p = Some e0 → pte p !! empty_page1_ptr p = Some e1 →
  empty_page0_ptr p ≠ empty_page1_ptr p →
  let q := copy_state p e0 e1 dest src in
  frames_ok F st q ∧ (∀ f, mappers q f = mappers p f) ∧
  (∀ b, ¬ scratch p b → pte q !! b = pte p !! b) ∧
  read_frame q dest = read_frame p src ∧ ∀ f, f ≠ dest → read_frame q f = read_frame p f.
Proof.
  intros Hf H0 H1 Hne q. set (p1 := with_pte p (<[empty_page0_ptr p:=set_addr src e0]> (pte p))).
  assert (Hl : length (read_frame p src) = 4096%nat) by apply length_read_frame.
  split_and!.
  - apply frames_ok_phys. apply (frames_ok_scratch F st p1 _ e1); [|simpl; by rewrite lookup_insert_ne|by right].
    apply (frames_ok_scratch F st p _ e0); [done..|by left].
  - intros f. transitivity (mappers p1 f).
    + by apply (mappers_scratch p1 (empty_page1_ptr p) (set_addr dest e1) f q); [right|..].
    + by apply (mappers_scratch p (empty_page0_ptr p) (set_addr src e0) f p1); [left|..].
  - intros b Hb. unfold q, copy_state. simpl.
    assert (b ≠ empty_page0_ptr p) by (intros ?; apply Hb; by left).
    assert (b ≠ empty_page1_ptr p) by (intros ?; apply Hb; by right).
    by rewrite !lookup_insert_ne.
  - apply (read_frame_copy p); [done| |done]. unfold q, copy_state. cbn [phys with_phys].
    by rewrite (read_frame_ext p).
  - intros f Hfd. apply (read_frame_other p q dest f (read_frame p src)); [done| |done..].
    unfold q, copy_state. cbn [phys with_phys]. by rewrite (read_frame_ext p).
Qed.

Section Cow.
Context `{PageLink}.
Implicit Types (h : kheap) (p q : paging) (a f g : Z) (e : Table_entry_t) (F : gset Z) (st : list Z).

(** * Reference counts *)

(** One mapper of a shared frame leaves. *)
Lemma frames_ok_drop F st p q a e e' :
  frames_ok F st p → ¬ scratch p a → pte p !! a = Some e → e_addr e ∈ F → e_addr e' = 0 →
  (2 ≤ size (mappers p (e_addr e)))%nat →
  pte q = <[a:=e']> (pte p) →
  frame_ref_cnt q = <[e_addr e:=Z.of_nat (size (mappers p (e_addr e))) - 1]> (frame_ref_cnt p) →
  frames q = frames p → frames_len q = frames_len p → nframes q = nframes p →
  ref_lo q = ref_lo p → ref_len q = ref_len p →
  empty_page0_ptr q = empty_page0_ptr p → empty_page1_ptr q = empty_page1_ptr p →
  frames_ok F st q ∧ ∀ f, f ∈ F → mappers q f = mappers p f ∖ {[a]}.
Proof.
  intros Hf Hs He HF H0 H2 Hpte Href Hfr Hfl Hnf Hlo Hln E0 E1.
  destruct (frames_ok_count _ _ _ _ _ Hf Hs He HF) as (Hr & Ha & Hn & Hst & Hroom).
  assert (Hm : ∀ f, f ∈ F → mappers q f = mappers p f ∖ {[a]}).
  { intros f HfF. rewrite (mappers_insert p a e' f q) by done. rewrite decide_False; [done|].
    destruct (fo_range _ _ _ Hf f HfF). lia. }
  split; [|done]. destruct Hf as [F1 F2 F3 F4 F5 F6 F7 F8]. split.
  - by rewrite Hfl.
  - by rewrite Hnf.
  - intros i f Hi. rewrite Hfr. by apply F3.
  - done.
  - intros f HfF. destruct (F5 f HfF) as [HfF' Hemp]. split; [done|]. rewrite Hm by done. set_solver.
  - intros f HfF. rewrite Hlo, Hln. by apply F6.
  - intros f HfF. rewrite Hm, Href by done. intros Hne. destruct (decide (f = e_addr e)) as [->|Hfe].
    + rewrite lookup_insert_eq. f_equal. rewrite size_difference by set_solver.
      rewrite size_singleton. lia.
    + rewrite lookup_insert_ne by done.
      assert (mappers p f ∖ {[a]} = mappers p f) as Heq.
      { apply difference_disjoint_L. intros b Hb Hba. apply elem_of_singleton in Hba as ->.
        apply elem_of_mappers in Hb as (? & ? & ? & _). by simplify_eq. }
      rewrite Heq in *. by apply F7.
  - by rewrite Hpte, (size_pte_insert _ _ e).
Qed.

(** An unmapped entry starts to share a mapped frame. *)
Lemma frames_ok_share F st p q a e0 e :
  frames_ok F st p → ¬ scratch p a → pte p !! a = Some e0 → e_addr e0 = 0 →
  e_addr e ∈ F → mappers p (e_addr e) ≠ ∅ →
  pte q = <[a:=e]> (pte p) →
  frame_ref_cnt q = <[e_addr e:=Z.of_nat (size (mappers p (e_addr e))) + 1]> (frame_ref_cnt p) →
  frames q = frames p → frames_len q = frames_len p → nframes q = nframes p →
  ref_lo q = ref_lo p → ref_len q = ref_len p →
  empty_page0_ptr q = empty_page0_ptr p → empty_page1_ptr q = empty_page1_ptr p →
  frames_ok F st q ∧ ∀ f, f ∈ F → mappers q f = if decide (f = e_addr e) then {[a]} ∪ mappers p f else mappers p f.
Proof.
  intros Hf Hs He0 H0 HF Hne Hpte Href Hfr Hfl Hnf Hlo Hln E0 E1.
  assert (Ha : ∀ f, f ∈ F → a ∉ mappers p f).
  { intros f HfF Ha. apply elem_of_mappers in Ha as (e1 & He1 & Hg1 & _). simplify_eq.
    destruct (fo_range _ _ _ Hf _ HfF). lia. }
  assert (Hm : ∀ f, f ∈ F → mappers q f = if decide (f = e_addr e) then {[a]} ∪ mappers p f else mappers p f).
  { intros f HfF. rewrite (mappers_insert p a e f q) by done. specialize (Ha f HfF).
    destruct (decide (f = e_addr e)) as [->|]; [by rewrite decide_True|].
    rewrite decide_False by done. set_solver. }
  split; [|done]. destruct Hf as [F1 F2 F3 F4 F5 F6 F7 F8]. split.
  - by rewrite Hfl.
  - by rewrite Hnf.
  - intros i f Hi. rewrite Hfr. by apply F3.
  - done.
  - intros f HfF. destruct (F5 f HfF) as [HfF' Hemp]. split; [done|]. rewrite Hm by done.
    rewrite decide_False; [done|]. congruence.
  - intros f HfF. rewrite Hlo, Hln. by apply F6.
  - intros f HfF. rewrite Hm, Href by done. case_decide as Hfe.
    + subst f. intros _. rewrite lookup_insert_eq. f_equal.
      rewrite size_union by (specialize (Ha _ HF); set_solver). rewrite size_singleton. lia.
    + rewrite lookup_insert_ne by done. by apply F7.
  - by rewrite Hpte, (size_pte_insert _ _ e0).
Qed.

(** * The copy-on-write fault *)

(** the scratch pages are set up *)
Definition scratch_ok p : Prop :=
  is_Some (pte p !! empty_page0_ptr p) ∧ is_Some (pte p !! empty_page1_ptr p) ∧
  empty_page0_ptr p ≠ empty_page1_ptr p.

(** the fault: a user page, present, written to without permission *)
Record cow_fault F st p va (reg : Isr_registers_t) a e d : Prop := {
  cf_frames : frames_ok F st p;
  cf_scratch : scratch_ok p;
  cf_dir : dirs p !! current_page_dir p = Some d;
  cf_table : table_of d (tb_idx va) ≠ 0;
  cf_page : a = entry_ptr (table_of d (tb_idx va)) (tb_offset va);
  cf_page0 : a ≠ 0;
  cf_entry : pte p !! a = Some e;
  cf_own : ¬ scratch p a;
  cf_alloc : allocable e ≠ 0;
  cf_user : user e ≠ 0;
  cf_frame : e_addr e ∈ F;
  cf_present : Z.land (err_code reg) 1 ≠ 0;
  cf_write : Z.land (err_code reg) 2 ≠ 0
}.

(** the steps of the handler up to the test of the reference count *)
Lemma page_fault_cow_steps F st h p va reg a e d (Q : unit → kstate → Prop) E :
  cow_fault F st p va reg a e d →
  let n := Z.of_nat (size (mappers p (e_addr e))) in
  (n = 1 → wp (upd_pte a (set_rw 1)) Q E (h, p)) →
  (n ≠ 1 → wp (wr_ref (e_addr e) (u32 (n - 1)) ;;
               upd_pte a (set_addr 0) ;;
               Table_entry_alloc a true true ;;
               e' ← rd_pte a;
               copy_page_physical (Z.shiftl (e_addr e') 12) (Z.shiftl (e_addr e) 12)) Q E (h, p)) →
  wp (page_fault reg va) Q E (h, p).
Proof.
  intros [C1 C2 C3 C4 C5 C6 C7 C8 C9 C10 C11 C12 C13] n H1 Hn.
  destruct (frames_ok_count _ _ _ _ _ C1 C8 C7 C11) as (Hr & Ha & Hb & _).
  destruct (fo_range _ _ _ C1 _ C11) as [Hrange _].
  unfold page_fault. wp_step. apply wp_getp. simpl. wp_step. unfold find_page.
  wp_step. eapply wp_rd_dir; [exact C3|]. apply Z.eqb_neq in C4. rewrite C4. apply wp_ret.
  rewrite <- C5. apply Z.eqb_neq in C6 as ->. wp_step. eapply wp_rd_pte; [exact C7|].
  apply Z.eqb_neq in C9 as ->. apply Z.eqb_neq in C10 as ->. simpl.
  apply Z.eqb_neq in C12 as ->. apply Z.eqb_neq in C13 as ->. simpl.
  destruct (Z.eqb_spec (e_addr e) 0); [lia|]. wp_step. eapply wp_rd_ref; [exact Hr|].
  fold n. destruct (Z.eqb_spec n 0); [lia|].
  destruct (Z.eqb_spec n 1) as [Hn1|Hn1]; [by apply H1|by apply Hn].
Qed.

(** The only mapper just regains its write permission. *)
Lemma cow_fault_alone_ok F st h p va reg a e d E :
  cow_fault F st p va reg a e d → mappers p (e_addr e) = {[a]} →
  wp (page_fault reg va)
    (λ _ s', s' = (h, with_pte p (<[a:=set_rw 1 e]> (pte p))) ∧ frames_ok F st s'.2) E (h, p).
Proof.
  intros Hc Hm. eapply page_fault_cow_steps; [exact Hc| |]; rewrite Hm, size_singleton; [|done].
  intros _. eapply wp_upd_pte; [apply Hc|]. split; [done|].
  eapply frames_ok_perm; [apply Hc..|done].
Qed.

(** One of several mappers gets a frame of its own with the same contents;
    the others keep the shared one. *)
Definition cow_result F st0 p a e q : Prop :=
  ∃ g st e', st0 = st ++ [g] ∧ frames_ok F st q ∧
    pte q !! a = Some e' ∧ e_addr e' = g ∧ present e' = 1 ∧ rw e' = 1 ∧ user e' = 1 ∧
    (∀ b, b ≠ a → ¬ scratch p b → pte q !! b = pte p !! b) ∧
    mappers q g = {[a]} ∧ mappers q (e_addr e) = mappers p (e_addr e) ∖ {[a]} ∧
    read_frame q g = read_frame p (e_addr e) ∧ (∀ f, f ≠ g → read_frame q f = read_frame p f) ∧
    mappers p g = ∅.

Lemma cow_fault_shared_ok F st h p va reg a e d :
  cow_fault F st p va reg a e d → (2 ≤ size (mappers p (e_addr e)))%nat →
  wp (page_fault reg va)
    (λ _ s', s'.1 = h ∧ cow_result F st p a e s'.2)
    (λ msg, msg = "no free frame" ∧ st = []) (h, p).
Proof.
  intros Hc Hm. eapply page_fault_cow_steps; [exact Hc|lia|]. intros _.
  destruct Hc as [C1 C2 C3 C4 C5 C6 C7 C8 C9 C10 C11 C12 C13].
  destruct (frames_ok_count _ _ _ _ _ C1 C8 C7 C11) as (Hr & Ha & Hb & _).
  destruct (fo_range _ _ _ C1 _ C11) as [Hrange Hrl].
  set (n := Z.of_nat (size (mappers p (e_addr e)))) in *. rewrite u32_small by lia.
  wp_step. eapply wp_wr_ref; [done|]. simpl. wp_step. eapply wp_upd_pte; [exact C7|]. simpl.
  set (e1 := set_addr 0 e). set (p1 := with_pte _ _).
  destruct (frames_ok_drop F st p p1 a e e1 C1 C8 C7 C11) as [Hf1 Hm1]; try done.
  assert (He1 : pte p1 !! a = Some e1) by apply lookup_insert_eq. wp_step.
  destruct st as [|g st _] using rev_ind.
  { eapply wp_mono_E; [eapply (alloc_new_ok _ _ _ _ _ _ 0 (λ msg, msg = "no free frame"%string)); try done| |].
    - intros Hn. by rewrite (fo_n _ _ _ Hf1) in Hn.
    - intros ? ? [Hn _]. by rewrite (fo_n _ _ _ Hf1) in Hn.
    - intros ? ->. done. }
  destruct (frames_ok_top _ _ _ _ Hf1) as (Hnz & Htop & HgF & Hgm).
  destruct (fo_range _ _ _ Hf1 g HgF) as [Hgr Hgl].
  eapply wp_mono_E; [eapply (alloc_new_ok _ _ _ _ _ _ g (λ _, False)); try done| |done].
  { intros _. split_and!; [done|lia|lia|apply Hgl..]. }
  intros _ ? [_ ->].
  pose proof (frames_ok_alloc F st g p1 a e1 true true Hf1 C8 He1 eq_refl) as Hf2.
  set (p2 := alloc_state p1 a e1 true true g) in *. set (e2 := alloc_entry true true g e1) in *.
  assert (He2 : pte p2 !! a = Some e2) by apply lookup_insert_eq.
  assert (Hg2 : e_addr e2 = g) by (simpl; by rewrite Z.mod_small by lia).
  wp_step. eapply wp_rd_pte; [exact He2|]. rewrite Hg2.
  destruct C2 as ([x0 Hx0] & [x1 Hx1] & Hxx).
  assert (Hsc : ∀ b, scratch p b → pte p2 !! b = pte p !! b).
  { intros b Hsb. assert (b ≠ a) by (intros ->; done). unfold p2. simpl.
    by rewrite !lookup_insert_ne. }
  eapply wp_mono; [eapply (copy_page_physical_ok h p2 x0 x1); try lia; try done|].
  { rewrite <- Hx0. apply Hsc. by left. }
  { rewrite <- Hx1. apply Hsc. by right. }
  intros _ ? ->. split; [done|].
  destruct (copy_state_ok F st p2 x0 x1 g (e_addr e) Hf2) as (Hf3 & Hm3 & Hp3 & Hc3 & Ho3).
  { rewrite <- Hx0. apply Hsc. by left. }
  { rewrite <- Hx1. apply Hsc. by right. }
  { done. }
  set (q := copy_state p2 x0 x1 g (e_addr e)) in *.
  assert (Hm2 : ∀ f, mappers p2 f = if decide (g = f) then {[a]} ∪ mappers p1 f else mappers p1 f ∖ {[a]}).
  { intros f. rewrite (mappers_insert p1 a e2 f p2) by done. by rewrite Hg2. }
  assert (Hge : g ≠ e_addr e).
  { intros ->. rewrite Hm1 in Hgm by done.
    assert (size (mappers p (e_addr e) ∖ {[a]}) = 0)%nat as Hz by (by rewrite Hgm).
    rewrite size_difference in Hz by (by apply singleton_subseteq_l).
    rewrite size_singleton in Hz. lia. }
  exists g, st, e2. split; [done|]. split; [exact Hf3|]. split; [by rewrite Hp3|].
  split; [exact Hg2|]. split; [done|]. split; [done|]. split; [done|]. split; [|split; [|split; [|split; [|split]]]].
  - intros b Hba Hbs. rewrite Hp3 by done. unfold p2. simpl. by rewrite !lookup_insert_ne.
  - rewrite Hm3, Hm2, Hgm. rewrite decide_True by done. apply union_empty_r_L.
  - rewrite Hm3, Hm2, Hm1 by done. rewrite decide_False by done. apply difference_twice_L.
  - simpl snd. rewrite Hc3. by apply read_frame_ext.
  - intros f Hfg. simpl snd. rewrite Ho3 by done. by apply read_frame_ext.
  - rewrite Hm1 in Hgm by done. rewrite <- Hgm. symmetry.
    apply difference_disjoint_L, disjoint_singleton_r. intros Hag.
    apply elem_of_mappers in Hag as (e3 & He3 & Hg3 & _).
    rewrite C7 in He3. injection He3 as <-. exact (Hge (eq_sym Hg3)).
Qed.

(** * Sharing the pages of a table *)
Definition shared_entry e : Table_entry_t := if e_addr e =? 0 then e else set_rw 0 e.

(** [src] is a table whose mapped pages may be shared, [dest] a zeroed one. *)
Record clone_pre F p (src dest : Z) (es : Z → Table_entry_t) : Prop := {
  cp_src i : 0 ≤ i < 1024 → pte p !! entry_ptr src i = Some (es i);
  cp_frame i : 0 ≤ i < 1024 → e_addr (es i) ≠ 0 → e_addr (es i) ∈ F;
  cp_dest i : 0 ≤ i < 1024 → pte p !! entry_ptr dest i = Some entry_zero;
  cp_sep i j : 0 ≤ i < 1024 → 0 ≤ j < 1024 → entry_ptr src i ≠ entry_ptr dest j;
  cp_src_own i : 0 ≤ i < 1024 → ¬ scratch p (entry_ptr src i);
  cp_dest_own i : 0 ≤ i < 1024 → ¬ scratch p (entry_ptr dest i)
}.

Lemma clone_entry_ok F st h q src dest i e E :
  frames_ok F st q → pte q !! entry_ptr src i = Some e →
  pte q !! entry_ptr dest i = Some entry_zero → entry_ptr src i ≠ entry_ptr dest i →
  ¬ scratch q (entry_ptr src i) → ¬ scratch q (entry_ptr dest i) →
  (e_addr e ≠ 0 → e_addr e ∈ F) →
  wp (clone_entry src dest i)
    (λ _ s', ∃ q', s' = (h, q') ∧ frames_ok F st q' ∧
       pte q' = <[entry_ptr dest i:=shared_entry e]> (<[entry_ptr src i:=shared_entry e]> (pte q)) ∧
       phys q' = phys q ∧ phys0 q' = phys0 q ∧ dirs q' = dirs q ∧ current_page_dir q' = current_page_dir q ∧
       empty_page0_ptr q' = empty_page0_ptr q ∧ empty_page1_ptr q' = empty_page1_ptr q ∧
       kernel_low_ntable q' = kernel_low_ntable q ∧ init_finished q' = init_finished q) E (h, q).
Proof.
  intros Hf Hs Hd Hne Hss Hsd HF. unfold clone_entry, shared_entry.
  wp_step. eapply wp_rd_pte; [exact Hs|]. destruct (Z.eqb_spec (e_addr e) 0) as [H0|H0].
  - wp_step. apply wp_getp, wp_putp. simpl. eexists. split; [done|]. split; [|split; [|done]].
    + eapply frames_ok_perm; [done|exact Hd|by rewrite H0].
    + simpl. rewrite (insert_id (pte q) (entry_ptr src i) e) by done. done.
  - wp_step. eapply wp_upd_pte; [exact Hs|]. simpl. set (e' := set_rw 0 e). set (q1 := with_pte q _).
    assert (Hf1 : frames_ok F st q1) by (eapply frames_ok_perm; [done|exact Hs|done]).
    wp_step. eapply wp_rd_pte; [apply lookup_insert_eq|]. wp_step. apply wp_getp.
    wp_step. apply wp_putp. cbn [fst snd].
    assert (Hs1 : pte q1 !! entry_ptr src i = Some e') by apply lookup_insert_eq.
    assert (Hd1 : pte q1 !! entry_ptr dest i = Some entry_zero) by (simpl; by rewrite lookup_insert_ne).
    destruct (frames_ok_count _ _ _ _ _ Hf1 Hss Hs1 (HF H0)) as (Hr & Ha & Hn & _).
    destruct (fo_range _ _ _ Hf _ (HF H0)) as [_ Hrl].
    wp_step. eapply wp_rd_ref; [exact Hr|]. eapply wp_wr_ref; [done|]. cbn [fst snd].
    rewrite u32_small.
    2:{ pose proof (mappers_size q1 (e_addr e')). pose proof (fo_small _ _ _ Hf1). lia. }
    eexists. split; [done|]. split; [|done].
    eapply (frames_ok_share F st q1 _ (entry_ptr dest i) entry_zero e'); try done.
    + by apply HF.
    + intros Hemp. rewrite Hemp in Ha. by apply elem_of_empty in Ha.
Qed.

(** The loop of [clone_table]: every mapped page is shared read-only by the
    two tables, its frame counted once more; the rest is copied as it is. *)
Lemma clone_entries_ok F st h p src dest es E :
  frames_ok F st p → clone_pre F p src dest es →
  wp (for_each (upto 0 1024) (clone_entry src dest))
    (λ _ s', ∃ q, s' = (h, q) ∧ frames_ok F st q ∧
       (∀ i, 0 ≤ i < 1024 → pte q !! entry_ptr src i = Some (shared_entry (es i)) ∧
                            pte q !! entry_ptr dest i = Some (shared_entry (es i))) ∧
       (∀ b, (∀ i, 0 ≤ i < 1024 → b ≠ entry_ptr src i ∧ b ≠ entry_ptr dest i) →
             pte q !! b = pte p !! b) ∧
       phys q = phys p ∧ phys0 q = phys0 p ∧ dirs q = dirs p ∧ current_page_dir q = current_page_dir p ∧
       empty_page0_ptr q = empty_page0_ptr p ∧ empty_page1_ptr q = empty_page1_ptr p ∧
       kernel_low_ntable q = kernel_low_ntable p ∧ init_finished q = init_finished p) E (h, p).
Proof.
  intros Hf Hc.
  set (I (pre : list Z) (s : kstate) := ∃ q, s = (h, q) ∧ frames_ok F st q ∧
    (∀ i, 0 ≤ i < 1024 → i ∈ pre → pte q !! entry_ptr src i = Some (shared_entry (es i)) ∧
                                   pte q !! entry_ptr dest i = Some (shared_entry (es i))) ∧
    (∀ b, (∀ i, 0 ≤ i < 1024 → i ∈ pre → b ≠ entry_ptr src i ∧ b ≠ entry_ptr dest i) →
          pte q !! b = pte p !! b) ∧
    phys q = phys p ∧ phys0 q = phys0 p ∧ dirs q = dirs p ∧ current_page_dir q = current_page_dir p ∧
    empty_page0_ptr q = empty_page0_ptr p ∧ empty_page1_ptr q = empty_page1_ptr p ∧
    kernel_low_ntable q = kernel_low_ntable p ∧ init_finished q = init_finished p).
  assert (Hinj : ∀ t i j, i ≠ j → entry_ptr t i ≠ entry_ptr t j) by (unfold entry_ptr; lia).
  assert (HndU : NoDup (upto 0 1024)).
  { unfold upto. apply NoDup_fmap_2; [intros ???; lia|].
    apply NoDup_fmap_2; [intros ???; lia|]. apply NoDup_seq. }
  eapply wp_mono; [apply (wp_for_each I)|].
  - intros pre i post s Heq (q & -> & Hfq & Hdone & Hrest & Hph & Hph0 & Hdir & Hcur & E0 & E1 & Elow & Einit).
    assert (Hi : 0 ≤ i < 1024) by (apply elem_of_upto; rewrite Heq; set_solver).
    assert (Hipre : i ∉ pre) by (rewrite Heq in HndU; nd; ne).
    assert (Hs : pte q !! entry_ptr src i = Some (es i)).
    { rewrite Hrest; [by apply (cp_src _ _ _ _ _ Hc)|]. intros j Hj Hjp.
      assert (i ≠ j) by (intros ->; done). split; [by apply Hinj|].
      by apply (cp_sep _ _ _ _ _ Hc). }
    assert (Hd : pte q !! entry_ptr dest i = Some entry_zero).
    { rewrite Hrest; [by apply (cp_dest _ _ _ _ _ Hc)|]. intros j Hj Hjp.
      assert (i ≠ j) by (intros ->; done). split; [|by apply Hinj].
      apply not_eq_sym. by apply (cp_sep _ _ _ _ _ Hc). }
    eapply wp_mono; [eapply (clone_entry_ok F st h q src dest i (es i)); try done|].
    + by apply (cp_sep _ _ _ _ _ Hc).
    + unfold scratch. rewrite E0, E1. by apply (cp_src_own _ _ _ _ _ Hc).
    + unfold scratch. rewrite E0, E1. by apply (cp_dest_own _ _ _ _ _ Hc).
    + by apply (cp_frame _ _ _ _ _ Hc).
    + intros _ ? (q' & -> & Hfq' & Hpte & Hph' & Hph0' & Hdir' & Hcur' & E0' & E1' & Elow' & Einit'). exists q'.
      split; [done|]. split; [done|]. split; [|split; [|split_and!; congruence]].
      * intros j Hj Hjp. rewrite Hpte. destruct (decide (j = i)) as [->|Hji].
        { rewrite lookup_insert_eq. split; [|done].
          rewrite lookup_insert_ne by (apply not_eq_sym; by apply (cp_sep _ _ _ _ _ Hc)).
          apply lookup_insert_eq. }
        apply elem_of_app in Hjp as [Hjp|Hjp]; [|by apply list_elem_of_singleton in Hjp].
        destruct (Hdone j Hj Hjp) as [H1 H2].
        assert (entry_ptr dest i ≠ entry_ptr src j) by (apply not_eq_sym; by apply (cp_sep _ _ _ _ _ Hc)).
        assert (entry_ptr src i ≠ entry_ptr dest j) by (by apply (cp_sep _ _ _ _ _ Hc)).
        rewrite !lookup_insert_ne by (done || by apply Hinj, not_eq_sym). done.
      * intros b Hb. destruct (Hb i Hi) as [Hb1 Hb2]; [set_solver|]. rewrite Hpte.
        rewrite !lookup_insert_ne by (by apply not_eq_sym). apply Hrest.
        intros j Hj Hjp. apply Hb; [done|set_solver].
  - exists p. split_and!; try done. intros i _ Hi. by apply elem_of_nil in Hi.
  - intros _ s (q & -> & Hfq & Hdone & Hrest & Htail). exists q.
    split; [done|]. split; [done|]. split; [|split; [|done]].
    + intros i Hi. apply Hdone; [done|]. by apply elem_of_upto.
    + intros b Hb. apply Hrest. intros i Hi _. by apply Hb.
Qed.
End Cow.
