(* ===== verification/KernelHeap.v ===== *)
(** The kernel heap on the real page tables: [kmalloc] and [kfree] of
    [core/kheap.cpp] linked with [core/page.cpp], their contract, and the
    abstract memory of disjoint buffers they implement for any sequence of
    allocations, releases and writes. *)
From S2P Require Import Prelude Rbt RbTree RbtFind TreeMm Common Kheap KheapTrees KheapSpec.
From S2P Require Import KheapOk KheapFree Page PageInit PageOk PageFrames PageHeap PageCow.

Section Kernel.
Context `{HLo : HeapLinkOk} `{FN : FreshNode} `{PL : PageLink} `{PLok : !PageLinkOk}.
Context (F : gset Z).
Implicit Types (s : kstate) (fr : list Block_t) (al : list alloc) (a : alloc).

(** The invariant of the two components together; the page services only
    matter for their laws, which hold for any [kmalloc]. *)
Definition kheap_ok s fr al : Prop :=
  @heap_inv _ _ paging (page_env (kmalloc_at 1)) (page_env_laws (kmalloc_at 1) F) s fr al.

Lemma kheap_ok_env km km' s fr al :
  @heap_inv _ _ paging (page_env km) (page_env_laws km F) s fr al →
  @heap_inv _ _ paging (page_env km') (page_env_laws km' F) s fr al.
Proof.
  intros [H1 H2 H3 H4 H5 H6]. split; try done. eapply Forall_impl; [exact H5|].
  intros a []. by split.
Qed.

(** The rest of the address space can be watched while memory is taken. *)
Lemma kheap_ok_with km G HG s fr al :
  kheap_ok s fr al → G s.2 → @heap_inv _ _ paging (growing_env km) (growing_env_laws km F G HG) s fr al.
Proof.
  intros [H1 H2 H3 H4 H5 H6] Hg. split; try assumption; [by split|].
  eapply Forall_impl; [exact H5|]. intros a []. by split.
Qed.
Lemma kheap_ok_without km G HG s fr al :
  @heap_inv _ _ paging (growing_env km) (growing_env_laws km F G HG) s fr al → kheap_ok s fr al ∧ G s.2.
Proof.
  intros [H1 [H2 Hg] H3 H4 H5 H6]. split; [|done]. split; try assumption.
  eapply Forall_impl; [exact H5|]. intros a []. by split.
Qed.
Lemma kernel_kmalloc_space size palign s fr al :
  kheap_ok s fr al → 0 ≤ size < 2 ^ 32 - sizeof_Block_t → 0 ≤ palign ≤ 22 →
  wp (kernel_kmalloc size palign)
    (λ p s', ∃ got fr0 u ps, best_fit size palign fr got ∧ fr ≡ₚ got :: fr0 ∧ p = payload palign got ∧
       carve p size got = (u, ps) ∧ kheap_ok s' (ps ++ fr0) (Alloc p size u :: al) ∧
       (∀ z, ¬ (p - sizeof_Block_t ≤ z < p) → page_keep s.2 s'.2 z) ∧
       (∀ z, page_pinned s'.2 z → page_pinned s.2 z) ∧ page_le (λ _, False) s.2 s'.2)
    (kmalloc_fails (nframes s.2) fr size palign) s.
Proof.
  destruct s as [h x]. intros Hi Hsz Hpal.
  set (G := page_le (λ _, False) x).
  assert (HG : ∀ P p q, page_le P p q → G p → G q).
  { intros P p q Hpq Hp. eapply page_le_trans; [exact Hp|]. by eapply page_le_weaken; [|exact Hpq]. }
  pose proof (kheap_ok_with (kmalloc_at 1) G HG (h, x) fr al Hi (page_le_refl _ x)) as Hi'.
  eapply wp_mono; [exact (@kmalloc_refines _ _ _ _ _ (growing_env_laws (kmalloc_at 1) F G HG) size palign h x fr al Hi' Hsz Hpal)|].
  intros p s' (got & fr0 & u & ps & H1 & H2 & H3 & H4 & H5 & H6 & H7 & H8).
  apply kheap_ok_without in H5 as [H5 Hs]. exists got, fr0, u, ps.
  split; [exact H1|]. split; [exact H2|]. split; [exact H3|]. split; [exact H4|]. split; [exact H5|].
  split; [exact H7|]. split; [exact H8|exact Hs].
Qed.
Lemma kernel_kmalloc_refines size palign s fr al :
  kheap_ok s fr al → 0 ≤ size < 2 ^ 32 - sizeof_Block_t → 0 ≤ palign ≤ 22 →
  wp (kernel_kmalloc size palign)
    (λ p s', ∃ got fr0 u ps, best_fit size palign fr got ∧ fr ≡ₚ got :: fr0 ∧ p = payload palign got ∧
       carve p size got = (u, ps) ∧ kheap_ok s' (ps ++ fr0) (Alloc p size u :: al) ∧
       (∀ z, ¬ (p - sizeof_Block_t ≤ z < p) → page_keep s.2 s'.2 z) ∧
       ∀ z, page_pinned s'.2 z → page_pinned s.2 z)
    (kmalloc_fails (nframes s.2) fr size palign) s.
Proof.
  intros Hi Hsz Hpal. eapply wp_mono; [by apply kernel_kmalloc_space|].
  intros p s' (got & fr0 & u & ps & H1 & H2 & H3 & H4 & H5 & H6 & H7 & _). by exists got, fr0, u, ps.
Qed.

Lemma kernel_kfree_refines a s fr al (E : string → Prop) :
  kheap_ok s fr (a :: al) → (∀ z, in_block z (a_blk a) → ¬ page_pinned s.2 z) →
  ((511 ≤ length fr)%nat → E no_tree_node) →
  wp (kernel_kfree (a_ptr a))
    (λ _ s', ∃ fr', kheap_ok s' fr' al ∧ (∀ z, in_blocks z fr' ↔ in_blocks z fr ∨ in_block z (a_blk a)) ∧
       (∀ z, page_keep s.2 s'.2 z ∨ in_blocks z fr' ∧ page_gone s'.2 z) ∧
       ∀ z, page_pinned s'.2 z → page_pinned s.2 z) E s.
Proof.
  destruct s as [h x]. intros Hi Hp HE. apply (kheap_ok_env _ (kmalloc_at 2)) in Hi.
  eapply wp_mono; [exact (@kfree_refines _ _ _ _ _ (page_env_laws (kmalloc_at 2) F) a h x fr al E Hi Hp HE)|].
  intros _ s' (fr' & H1 & H2 & H3 & H4 & H5). exists fr'. split; [exact (kheap_ok_env _ _ _ _ _ H1)|].
  split; [exact H2|]. split; [exact H4|exact H5].
Qed.

Lemma kernel_write_refines a s fr al (off : Z) l :
  kheap_ok s fr (a :: al) → Forall (λ v, 0 ≤ v < 256) l →
  0 ≤ off → off + Z.of_nat (length l) ≤ a_len a →
  wp (kernel_write (a_ptr a + off) l)
    (λ _ s', kheap_ok s' fr (a :: al) ∧
       (∀ i v, l !! i = Some v → page_byte s'.2 (a_ptr a + off + Z.of_nat i) = Some v) ∧
       (∀ z v, ¬ (a_ptr a + off ≤ z < a_ptr a + off + Z.of_nat (length l)) →
          page_byte s.2 z = Some v → page_byte s'.2 z = Some v) ∧
       ∀ z, page_pinned s'.2 z → page_pinned s.2 z)
    (λ msg, msg = no_free_frame ∧ nframes s.2 < pages_touched (a_ptr a + off) (Z.of_nat (length l))) s.
Proof.
  destruct s as [h x]. intros Hi Hb Ho Hl.
  exact (@payload_write_ok _ _ _ _ (page_env_laws (kmalloc_at 1) F) a h x fr al off l Hi Hb Ho Hl).
Qed.

Lemma kheap_ok_perm s fr al al' : al ≡ₚ al' → kheap_ok s fr al → kheap_ok s fr al'.
Proof.
  intros Hp [H1 H2 H3 H4 H5 H6]. split; try done; [|by rewrite <- Hp].
  eapply layout_perm; [done| |exact H4]. by rewrite Hp.
Qed.

(** ** The memory of buffers the heap implements *)

(** A state of the machine with the live buffers (address and length) and the
    bytes their owners wrote into them. *)
Record client : Type := Client { machine : kstate; bufs : list (Z * Z); written : gmap Z Z }.

Definition outside (p len : Z) (m : gmap Z Z) : gmap Z Z :=
  filter (λ zv, ¬ (p ≤ zv.1 < p + len)) m.

Inductive heap_step : client → client → Prop :=
| step_alloc s bs m size palign p s' :
    0 ≤ size < 2 ^ 32 - sizeof_Block_t → 0 ≤ palign ≤ 22 →
    kernel_kmalloc size palign s = Ret (p, s') →
    heap_step (Client s bs m) (Client s' ((p, size) :: bs) m)
| step_free s bs1 p len bs2 m s' :
    kernel_kfree p s = Ret (tt, s') →
    heap_step (Client s (bs1 ++ (p, len) :: bs2) m) (Client s' (bs1 ++ bs2) (outside p len m))
| step_write s bs m p len off l s' :
    (p, len) ∈ bs → Forall (λ v, 0 ≤ v < 256) l → 0 ≤ off → off + Z.of_nat (length l) ≤ len →
    kernel_write (p + off) l s = Ret (tt, s') →
    heap_step (Client s bs m) (Client s' bs (write_phys_map l (p + off) m)).

Definition buf_of (a : alloc) : Z * Z := (a_ptr a, a_len a).
Definition in_buf (z : Z) (b : Z * Z) : Prop := b.1 ≤ z < b.1 + b.2.

(** The client's buffers are allocations of the heap, beside those ([kept])
    that belong to others; what was written is still there, and lies inside
    the buffers. *)
Definition client_ok (kept : list alloc) (c : client) : Prop :=
  ∃ fr al, kheap_ok (machine c) fr (al ++ kept) ∧ buf_of <$> al = bufs c ∧
    (∀ a z, a ∈ al → in_block z (a_blk a) → ¬ page_pinned (machine c).2 z) ∧
    (∀ z v, written c !! z = Some v →
       page_byte (machine c).2 z = Some v ∧ ∃ b, b ∈ bufs c ∧ in_buf z b).

Lemma in_buf_block a z x : @alloc_ok paging (page_env (kmalloc_at 1)) (page_env_laws (kmalloc_at 1) F) x a →
  in_buf z (buf_of a) → in_block z (a_blk a) ∧ ¬ (a_ptr a - sizeof_Block_t ≤ z < a_ptr a).
Proof. intros []. unfold in_buf, in_block, bend, sizeof_Block_t in *. simpl. lia. Qed.

Lemma layout_apart fr ab b z : layout fr ab → b ∈ ab → in_block z b → ¬ in_blocks z fr.
Proof.
  intros Hl Hb Hz. apply elem_of_Permutation in Hb as [ab' Hp].
  assert (layout fr (b :: ab')) as Hl' by (by eapply layout_perm; [reflexivity|exact Hp|exact Hl]).
  by destruct (layout_sep _ _ _ _ Hl' Hz).
Qed.

Lemma client_buf s fr al kept b z :
  kheap_ok s fr (al ++ kept) → b ∈ buf_of <$> al → in_buf z b →
  ∃ a, a ∈ al ∧ in_block z (a_blk a).
Proof.
  intros Hi Hb Hz. apply list_elem_of_fmap in Hb as (a & -> & Ha). exists a. split; [done|].
  pose proof (heap_al _ _ _ Hi) as Hal. rewrite Forall_app, !Forall_forall in Hal.
  destruct Hal as [Hal _]. by destruct (in_buf_block _ _ _ (Hal a Ha) Hz).
Qed.

Lemma client_alloc kept s bs m size palign p s' :
  client_ok kept (Client s bs m) → 0 ≤ size < 2 ^ 32 - sizeof_Block_t → 0 ≤ palign ≤ 22 →
  kernel_kmalloc size palign s = Ret (p, s') → client_ok kept (Client s' ((p, size) :: bs) m).
Proof.
  intros (fr & al & Hi & Hbufs & Hpin & Hmem) Hsz Hpal Hrun. simpl in *.
  pose proof (kernel_kmalloc_refines size palign s fr _ Hi Hsz Hpal) as Hwp.
  unfold wp in Hwp. rewrite Hrun in Hwp.
  destruct Hwp as (got & fr0 & u & ps & (Hgot & Hfit & _) & Hfr & -> & Hc & Hi' & Hk & Hpn).
  pose proof (heap_al _ _ _ Hi') as Hal. apply Forall_cons in Hal as [Ha _].
  exists (ps ++ fr0), (Alloc (payload palign got) size u :: al). simpl. split_and!; [done|by rewrite <- Hbufs| |].
  - intros a z [->|Ha']%elem_of_cons Hz Hp; apply Hpn in Hp; [|by eapply Hpin].
    simpl in Hz. apply (heap_pinned _ _ _ Hi z); [|done]. rewrite Hfr. apply in_blocks_cons. left.
    destruct Hfit as [Hf1 Hf2].
    assert (Hg : in_heap got) by (eapply layout_in; [apply Hi|set_solver]).
    destruct (payload_spec palign got Hpal Hg ltac:(lia)) as (Hlo & _ & _). pose proof Hg as (_ & Hpos & _).
    destruct (carve_spec _ _ _ _ _ Hpos (proj1 Hlo) (proj1 Hsz) Hf2 Hc) as (Hparts & _).
    eapply (parts_in _ _ _ Hparts). exists u. split; [set_solver|done].
  - intros z v Hv. destruct (Hmem z v Hv) as (Hb & b & Hbin & Hz). split; [|by exists b; set_solver].
    apply Hk; [|done]. intros Hh. rewrite <- Hbufs in Hbin.
    destruct (client_buf _ _ _ _ _ _ Hi Hbin Hz) as (a & Hain & Hza).
    destruct Ha as [Ha1 Ha2 Ha3 _ _]. simpl in *.
    destruct (layout_sep _ _ _ z (heap_layout _ _ _ Hi')) as [_ Hno].
    { unfold in_block. unfold sizeof_Block_t in *. simpl. lia. }
    apply Hno. exists (a_blk a). split; [|done]. set_solver.
Qed.

Lemma client_free kept s bs1 p len bs2 m s' :
  client_ok kept (Client s (bs1 ++ (p, len) :: bs2) m) → kernel_kfree p s = Ret (tt, s') →
  client_ok kept (Client s' (bs1 ++ bs2) (outside p len m)).
Proof.
  intros (fr & al & Hi & Hbufs & Hpin & Hmem) Hrun. simpl in *.
  apply fmap_app_inv in Hbufs as (al1 & al2' & H1 & H2 & ->). symmetry in H2.
  apply fmap_cons_inv in H2 as (a & al2 & Ha & -> & ->). injection Ha as -> ->.
  assert (Hp : (al1 ++ a :: al2) ++ kept ≡ₚ a :: (al1 ++ al2) ++ kept) by solve_Permutation.
  pose proof (kernel_kfree_refines a s fr _ (λ _, True) (kheap_ok_perm _ _ _ _ Hp Hi)
    ltac:(intros z; apply Hpin; set_solver) ltac:(done)) as Hwp.
  unfold wp in Hwp. rewrite Hrun in Hwp. destruct Hwp as (fr' & Hi' & Hin & Hk & Hpn).
  exists fr', (al1 ++ al2). simpl. rewrite fmap_app, <- H1. split_and!; [done|done| |].
  - intros a' z Ha' Hz ?%Hpn. eapply Hpin; [|done..]. set_solver.
  - intros z v [Hv Hout]%map_lookup_filter_Some. simpl in Hout.
    destruct (Hmem z v Hv) as (Hb & b & Hbin & Hz).
    assert (Hb' : b ∈ buf_of <$> al1 ++ al2).
    { rewrite fmap_app, elem_of_app. rewrite elem_of_app, elem_of_cons in Hbin.
      destruct Hbin as [?|[->|?]]; [left; congruence|by destruct Hout|by right]. }
    split; [|exists b; split; [|done]; by rewrite H1, <- fmap_app].
    destruct (client_buf _ _ _ _ _ _ Hi' Hb' Hz) as (a' & Ha' & Hza).
    destruct (Hk z) as [[_ Hk']|[Hf _]]; [by apply Hk'|].
    destruct (layout_apart _ _ (a_blk a') z (heap_layout _ _ _ Hi')); [|done|done].
    apply list_elem_of_fmap. exists a'. split; [done|]. set_solver.
Qed.

Lemma client_write kept s bs m p len off l s' :
  client_ok kept (Client s bs m) → (p, len) ∈ bs → Forall (λ v, 0 ≤ v < 256) l →
  0 ≤ off → off + Z.of_nat (length l) ≤ len → kernel_write (p + off) l s = Ret (tt, s') →
  client_ok kept (Client s' bs (write_phys_map l (p + off) m)).
Proof.
  intros (fr & al & Hi & Hbufs & Hpin & Hmem) Hin Hby Ho Hl Hrun. simpl in *.
  pose proof Hin as Hin'. rewrite <- Hbufs in Hin'. apply list_elem_of_fmap in Hin' as (a & Ha & Hal).
  injection Ha as -> ->. apply elem_of_Permutation in Hal as Hp. destruct Hp as [al0 Hp].
  assert (Hp' : al ++ kept ≡ₚ a :: al0 ++ kept) by (rewrite Hp; done).
  pose proof (kernel_write_refines a s fr _ off l (kheap_ok_perm _ _ _ _ Hp' Hi) Hby Ho Hl) as Hwp.
  unfold wp in Hwp. rewrite Hrun in Hwp. destruct Hwp as (Hi' & Hnew & Hold & Hpn).
  exists fr, al. simpl. split_and!; [by eapply kheap_ok_perm|done| |].
  - intros a' z Ha' Hz ?%Hpn. by eapply Hpin.
  - intros z v. rewrite lookup_write_phys_map. case_decide as Hd.
    + intros Hv. split; [replace z with (a_ptr a + off + Z.of_nat (Z.to_nat (z - (a_ptr a + off)))) by lia; by apply Hnew|].
      eexists. split; [exact Hin|]. unfold in_buf. simpl. lia.
    + intros Hv. destruct (Hmem z v Hv) as (Hb & b & ?). split; [by apply Hold|by exists b].
Qed.

(** One step, and any number of steps. *)
Lemma client_step kept c c' : client_ok kept c → heap_step c c' → client_ok kept c'.
Proof.
  intros Hc Hs. destruct Hs; [by eapply client_alloc|by eapply client_free|by eapply client_write].
Qed.
Lemma client_steps kept c c' : client_ok kept c → rtc heap_step c c' → client_ok kept c'.
Proof. intros Hc Hr. induction Hr; eauto using client_step. Qed.
End Kernel.
