(* ===== verification/Machine.v ===== *)
(** A concrete machine for the witnesses: the 64 page tables of the kernel heap
    in place and empty, the boot stack's page mapped to itself, sixteen free
    frames, the whole heap one free block. *)
From S2P Require Import Prelude Rbt RbTree RbtFind TreeMm Common Kheap KheapTrees Demo KheapSpec KheapOk.
From S2P Require Import Page PageInit PageOk PageFrames PageHeap PageCow KernelHeap.

Global Instance demo_page_link : PageLink := {| kernel_code_end := 0x120000 |}.
Global Instance demo_page_link_ok : PageLinkOk.
Proof. constructor. by vm_compute. Qed.

(** * The heap: its constructors, then the whole range inserted *)
Definition demo_kheap_boot : kheap :=
  Kheap true 0x140004 ∅ 0 ∅ 0 tree_mm_start 0x400000 (KERNEL_HEAP_BEGIN - 1).

Section Boot.
Context {X : Type}.

Definition heap_boot : M (kheap * X) unit :=
  construct_trees fresh_size fresh_start ;;
  size_insert whole_heap ;;
  start_insert whole_heap ;;
  mret tt.

Lemma heap_boot_ok h x E :
  mm h = tree_mm_start →
  wp heap_boot (λ _ s', ∃ h', s' = (h', x) ∧ others h' = others h ∧ heap_trees h' [whole_heap]) E (h, x).
Proof.
  intros Hmm. unfold heap_boot. apply construct_trees_ok; [done|]. intros h' Ho Ht. apply wp_ret. by exists h'.
Qed.
End Boot.

(** * The pages *)
Definition demo_low_table : Z := 0x1FF000.
Definition demo_table_addr (i : Z) : Z := if i =? 0 then demo_low_table else 0x200000 + 4096 * (i - 959).
Definition demo_scratch0 : Z := 0x180000.
Definition demo_scratch1 : Z := 0x180004.
(** [n] empty entries from the address [a] on *)
Fixpoint empty_entries (n : nat) (a : Z) : gmap Z Table_entry_t :=
  match n with O => ∅ | S n => <[a := entry_zero]> (empty_entries n (a + 4)) end.
Definition demo_count : nat := Z.to_nat 65536.
Definition demo_boot_page : Table_entry_t := set_present 1 (set_rw 1 (set_addr 7 entry_zero)).
Definition demo_tables : gmap Z Table_entry_t := <[entry_ptr demo_low_table 7:=demo_boot_page]> (empty_entries demo_count 0x200000).
Definition with_scratch (m : gmap Z Table_entry_t) : gmap Z Table_entry_t :=
  <[demo_scratch0 := set_present 1 entry_zero]> (<[demo_scratch1 := set_present 1 entry_zero]> m).
Definition demo_pte : gmap Z Table_entry_t := with_scratch demo_tables.
Definition demo_slots : list Z := 0 :: upto 959 1023.
Definition demo_dir_entry (i : Z) : Directory_entry_t := DirEntry 1 1 1 0 0 0 0 (Z.shiftr (demo_table_addr i) 12).
Definition demo_dir : Directory_t :=
  Directory (list_to_map ((λ i, (i, demo_table_addr i)) <$> demo_slots))
    (list_to_map ((λ i, (i, demo_dir_entry i)) <$> demo_slots)) 0x149000.
Definition demo_stack : list Z := upto 0x1000 0x1010.
Definition demo_F : gset Z := list_to_set demo_stack.
Definition demo_paging : paging :=
  Paging demo_pte {[0x148000 := demo_dir]} 0x148000 0x149000
    (list_to_map (zip (upto 0 16) demo_stack)) 16 16 ∅ 0x1000 16
    0xEFC00000 0xEFC01000 demo_scratch0 demo_scratch1 1 true ∅ (λ _, 0) [].

Lemma demo_scratch a : scratch demo_paging a ↔ a = demo_scratch0 ∨ a = demo_scratch1.
Proof. done. Qed.

Lemma empty_entries_zero n a b e : empty_entries n a !! b = Some e → e = entry_zero.
Proof.
  revert a; induction n as [|n IH]; intros a; simpl; [by rewrite lookup_empty|].
  intros [[_ <-]|[_ H]]%lookup_insert_Some; [done|by eapply IH].
Qed.
Lemma empty_entries_at n a k : 0 ≤ k < Z.of_nat n → empty_entries n a !! (a + 4 * k) = Some entry_zero.
Proof.
  revert a k; induction n as [|n IH]; intros a k Hk; [lia|]. simpl.
  destruct (Z.eq_dec k 0) as [->|Hne]; [by rewrite Z.mul_0_r, Z.add_0_r, lookup_insert_eq|].
  rewrite lookup_insert_ne by lia. replace (a + 4 * k) with (a + 4 + 4 * (k - 1)) by lia.
  apply IH. rewrite Nat2Z.inj_succ in Hk. lia.
Qed.
Lemma size_insert_le (m : gmap Z Table_entry_t) i x : (size (<[i:=x]> m) ≤ S (size m))%nat.
Proof. rewrite map_size_insert. destruct (m !! i); simpl; lia. Qed.
Lemma empty_entries_size n a : (size (empty_entries n a) ≤ n)%nat.
Proof.
  revert a; induction n as [|n IH]; intros a; simpl; [by rewrite map_size_empty|].
  pose proof (size_insert_le (empty_entries n (a + 4)) a entry_zero). specialize (IH (a + 4)). lia.
Qed.
Lemma demo_count_eq : Z.of_nat demo_count = 65536.
Proof. unfold demo_count. by apply Z2Nat.id. Qed.
#[local] Opaque demo_count.

Lemma with_scratch_lookup m a e :
  with_scratch m !! a = Some e → a = demo_scratch0 ∧ e = set_present 1 entry_zero ∨
    a = demo_scratch1 ∧ e = set_present 1 entry_zero ∨ m !! a = Some e.
Proof. unfold with_scratch. intros [[-> <-]|[_ [[-> <-]|[_ He]]%lookup_insert_Some]]%lookup_insert_Some; auto. Qed.
Lemma with_scratch_size m : (size (with_scratch m) ≤ S (S (size m)))%nat.
Proof.
  unfold with_scratch.
  pose proof (size_insert_le m demo_scratch1 (set_present 1 entry_zero)).
  pose proof (size_insert_le (<[demo_scratch1:=set_present 1 entry_zero]> m)
    demo_scratch0 (set_present 1 entry_zero)). lia.
Qed.
Lemma with_scratch_at m a : a ≠ demo_scratch0 → a ≠ demo_scratch1 → with_scratch m !! a = m !! a.
Proof. intros. unfold with_scratch. by rewrite !lookup_insert_ne. Qed.

Lemma demo_pte_lookup a e : demo_pte !! a = Some e → e_addr e = 0 ∨ e_addr e = 7.
Proof.
  intros [[_ ->]|[[_ ->]|He]]%with_scratch_lookup; [by left..|].
  unfold demo_tables in He. apply lookup_insert_Some in He as [[_ <-]|[_ He]]; [by right|].
  apply empty_entries_zero in He as ->. by left.
Qed.
Lemma demo_pte_small : Z.of_nat (size demo_pte) < 2 ^ 31.
Proof.
  assert (Hs : (size demo_pte ≤ S (S (S demo_count)))%nat).
  { etrans; [apply (with_scratch_size demo_tables)|]. do 2 apply le_n_S. etrans; [apply size_insert_le|].
    apply le_n_S. exact (empty_entries_size demo_count 0x200000). }
  pose proof demo_count_eq as H3.
  revert Hs H3. generalize (size demo_pte) demo_count. intros m n. lia.
Qed.
Lemma demo_pte_at k : 0 ≤ k < 65536 → demo_pte !! (0x200000 + 4 * k) = Some entry_zero.
Proof.
  intros Hk. etrans; [apply (with_scratch_at demo_tables)|].
  1,2: unfold demo_scratch0, demo_scratch1; lia.
  unfold demo_tables. rewrite lookup_insert_ne by (unfold entry_ptr, demo_low_table; lia).
  apply empty_entries_at. by rewrite demo_count_eq.
Qed.

Lemma demo_table i : 959 ≤ i < 1023 → table_of demo_dir i = demo_table_addr i.
Proof.
  intros Hi. assert (Forall (λ i, table_of demo_dir i = demo_table_addr i) (upto 959 1023)) as Hall.
  { apply (bool_decide_unpack (Forall (λ i, table_of demo_dir i = demo_table_addr i) (upto 959 1023))).
    by vm_compute. }
  rewrite Forall_forall in Hall. apply Hall. apply elem_of_upto. lia.
Qed.
Lemma demo_table_high i : 959 ≤ i → demo_table_addr i = 0x200000 + 4096 * (i - 959).
Proof. intros Hi. unfold demo_table_addr. destruct (Z.eqb_spec i 0); [lia|done]. Qed.

Lemma demo_page_of z : in_heap_range z → page_of demo_paging z = 0x200000 + 4 * (z / 4096 - 959 * 1024).
Proof.
  intros Hz.
  change (page_of demo_paging z) with (entry_ptr (table_of demo_dir (tb_idx z)) (tb_offset z)).
  rewrite demo_table, demo_table_high by (pose proof (tb_idx_heap z Hz); lia).
  unfold entry_ptr, tb_idx, tb_offset. change 0x3FF with (Z.ones 10).
  rewrite Z.land_ones, !Z.shiftr_div_pow2 by lia. change (2 ^ 22) with (4096 * 1024).
  change (2 ^ 10) with 1024. change (2 ^ 12) with 4096. rewrite <- Z.div_div by lia.
  pose proof (Z.div_mod (z / 4096) 1024 ltac:(lia)). lia.
Qed.

Lemma demo_mappers f : f ≠ 0 → f ≠ 7 → mappers demo_paging f = ∅.
Proof.
  intros Hf H7. apply elem_of_equiv_empty_L. intros a (e & He & Ha & _)%elem_of_mappers.
  destruct (demo_pte_lookup a e He); congruence.
Qed.

Lemma demo_frames_ok : frames_ok demo_F demo_stack demo_paging.
Proof.
  assert (Hr : ∀ f, f ∈ demo_F → 0x1000 ≤ f < 0x1010).
  { intros f Hf. apply elem_of_list_to_set, elem_of_upto in Hf. lia. }
  split.
  - simpl. unfold demo_F. by vm_compute.
  - done.
  - intros i f Hf. apply lookup_lt_Some in Hf as Hlt. change (length demo_stack) with 16%nat in Hlt.
    do 16 (destruct i as [|i]; [vm_compute in Hf |- *; exact Hf|]). lia.
  - apply (bool_decide_unpack (NoDup demo_stack)). by vm_compute.
  - intros f Hf. assert (Hin : f ∈ demo_F) by (by apply elem_of_list_to_set).
    split; [done|]. apply Hr in Hin. apply demo_mappers; lia.
  - intros f Hf%Hr. simpl. lia.
  - intros f Hf%Hr Hm. destruct Hm. apply demo_mappers; lia.
  - exact demo_pte_small.
Qed.

Lemma demo_page_inv : page_inv demo_F demo_paging.
Proof.
  split.
  - exists demo_stack. exact demo_frames_ok.
  - exists demo_dir. split; [done|]. intros i Hi. rewrite demo_table, demo_table_high by lia. lia.
  - intros z z' Hz Hz'. rewrite !demo_page_of by done. lia.
  - intros z Hz. exists entry_zero. split.
    + rewrite demo_page_of by done. unfold in_heap_range in Hz.
      rewrite KERNEL_HEAP_BEGIN_eq, KERNEL_HEAP_END_eq in Hz.
      assert (0xEFC00 ≤ z / 4096 < 0xFFC00) by (split; [apply Z.div_le_lower_bound|apply Z.div_lt_upper_bound]; lia).
      apply demo_pte_at. lia.
    + intros _. unfold heap_entry. simpl. split_and!; [done|by left|done|done].
Qed.

(** * The machine *)
Definition boot_at (x : paging) : kstate :=
  match heap_boot (X:=paging) (demo_kheap_boot, x) with
  | Ret (_, s) => s | _ => (demo_kheap_boot, x)
  end.
Definition demo_machine : kstate := boot_at demo_paging.

Lemma demo_machine_ok : kheap_ok demo_F demo_machine [whole_heap] [].
Proof.
  destruct (wp_returns _ _ _ (heap_boot_ok demo_kheap_boot demo_paging (λ _, False) eq_refl))
    as ([] & s' & Hrun & h' & -> & Ho & Ht).
  unfold demo_machine, boot_at. rewrite Hrun. injection Ho as Hr _ _ _.
  split; [exact Hr|exact demo_page_inv|exact Ht| |constructor|].
  - exact whole_layout.
  - clear Hrun Ht Hr. intros z (b & ->%list_elem_of_singleton & Hz) [Hr Hs]. simpl in Hs.
    rewrite demo_page_of in Hs by done. unfold in_heap_range in Hr.
    rewrite KERNEL_HEAP_BEGIN_eq, KERNEL_HEAP_END_eq in Hr. apply (proj1 (demo_scratch _)) in Hs.
    unfold demo_scratch0, demo_scratch1 in Hs.
    assert (0xEFC00 ≤ z / 4096) by (apply Z.div_le_lower_bound; lia). lia.
Qed.

(** ** A run: a buffer of 100 bytes is allocated, three bytes are written *)
Definition state_of {A} (r : res (A * kstate)) (s : kstate) : kstate :=
  match r with Ret (_, s') => s' | _ => s end.
Definition demo_ptr : Z := 0xEFC00008.
Definition demo_machine1 : kstate := state_of (kernel_kmalloc 100 0 demo_machine) demo_machine.
Definition demo_machine2 : kstate := state_of (kernel_write (demo_ptr + 4) [1; 2; 3] demo_machine1) demo_machine1.

Definition returns_z (r : res (Z * kstate)) (z : Z) : bool :=
  match r with Ret (a, _) => a =? z | _ => false end.
Definition returns {A} (r : res (A * kstate)) : bool :=
  match r with Ret _ => true | _ => false end.
Lemma returns_z_run r z s : returns_z r z = true → r = Ret (z, state_of r s).
Proof. destruct r as [[a s']| | |]; simpl; try done. by intros ->%Z.eqb_eq. Qed.
Lemma returns_run (r : res (unit * kstate)) s : returns r = true → r = Ret (tt, state_of r s).
Proof. by destruct r as [[[] s']| | |]. Qed.

Lemma demo_alloc_run : kernel_kmalloc 100 0 demo_machine = Ret (demo_ptr, demo_machine1).
Proof. apply returns_z_run. by vm_compute. Qed.
Lemma demo_write_run : kernel_write (demo_ptr + 4) [1; 2; 3] demo_machine1 = Ret (tt, demo_machine2).
Proof. apply returns_run. by vm_compute. Qed.

Lemma demo_client : client_ok demo_F [] (Client demo_machine [] ∅).
Proof.
  exists [whole_heap], []. split; [exact demo_machine_ok|]. split; [done|]. split.
  - intros a z Ha. by apply elem_of_nil in Ha.
  - intros z v Hv. change ((∅ : gmap Z Z) !! z = Some v) in Hv. by rewrite lookup_empty in Hv.
Qed.

(** The allocation the run leaves. *)
Lemma demo_machine1_ok :
  ∃ fr a, kheap_ok demo_F demo_machine1 fr [a] ∧ a_ptr a = demo_ptr ∧
    (∀ z, in_block z (a_blk a) → ¬ page_pinned demo_machine1.2 z) ∧ (length fr < 511)%nat.
Proof.
  pose proof (kernel_kmalloc_refines demo_F 100 0 demo_machine _ _ demo_machine_ok
    ltac:(unfold sizeof_Block_t; lia) ltac:(lia)) as Hwp.
  unfold wp in Hwp. rewrite demo_alloc_run in Hwp.
  destruct Hwp as (got & fr0 & u & ps & (Hgot & Hfit & _) & Hfr & Hp & Hc & Hi & _ & Hpn).
  apply list_elem_of_singleton in Hgot as ->.
  assert (fr0 = []) as -> by (apply Permutation_length in Hfr; by destruct fr0).
  destruct (carve_spec demo_ptr 100 whole_heap u ps) as (Hparts & _ & _ & _ & Hlen);
    [by vm_compute|by vm_compute|lia|by vm_compute|exact Hc|].
  exists (ps ++ []), (Alloc demo_ptr 100 u). split_and!; [done|done| |].
  - simpl. intros z Hz Hz'%Hpn. apply (heap_pinned _ _ _ demo_machine_ok z); [|done].
    exists whole_heap. split; [by apply list_elem_of_singleton|].
    eapply parts_in; [exact Hparts|]. exists u. split; [apply elem_of_cons; by left|done].
  - rewrite app_nil_r. lia.
Qed.
