(* ===== verification/HeapProps.v ===== *)
(** The properties of the kernel heap as the kernel runs it: [kmalloc] and
    [kfree] over the page tables, each with a run at a concrete machine. *)
From S2P Require Import Prelude Rbt RbTree RbtFind TreeMm Common Kheap KheapTrees Demo KheapSpec KheapOk.
From S2P Require Import KheapFree Page PageInit PageOk PageFrames PageHeap PageCow KernelHeap Machine.

Section Props.
Context `{HLo : HeapLinkOk} `{FN : FreshNode} `{PL : PageLink} `{PLok : !PageLinkOk}.
Context (F : gset Z).
Implicit Types (s : kstate) (fr : list Block_t) (al : list alloc) (a : alloc).

(** C17: [kmalloc] returns an aligned address of a buffer that lies in no live
    allocation's block; the invariant of heap, trees, page tables and frames
    holds again with the new allocation added, and every live buffer keeps its
    contents.  It fails only when no free block fits, when the nodes for free
    blocks are used up (511 of them), or when fewer frames are left than the
    block's header needs pages ([kmalloc_fails]). *)
Theorem kmalloc_correct size palign s fr al :
  kheap_ok F s fr al → 0 ≤ size < 2 ^ 32 - sizeof_Block_t → 0 ≤ palign ≤ 22 →
  wp (kernel_kmalloc size palign)
    (λ p s', p mod 2 ^ palign = 0 ∧
       ∃ fr' u, kheap_ok F s' fr' (Alloc p size u :: al) ∧
         (∀ a z, a ∈ al → in_block z (a_blk a) → ¬ in_block z u) ∧
         ∀ a z v, a ∈ al → in_buf z (buf_of a) → page_byte s.2 z = Some v → page_byte s'.2 z = Some v)
    (kmalloc_fails (nframes s.2) fr size palign) s.
Proof.
  intros Hi Hsz Hpal. eapply wp_mono; [by apply (kernel_kmalloc_refines F)|].
  intros p s' (got & fr0 & u & ps & (Hgot & [Hf1 Hf2] & _) & Hfr & -> & Hc & Hi' & Hk & _).
  assert (Hg : in_heap got) by (eapply layout_in; [apply Hi|set_solver]).
  destruct (payload_spec palign got Hpal Hg ltac:(lia)) as (_ & Hmod & _). split; [done|].
  assert (Hsep : ∀ a z, a ∈ al → in_block z (a_blk a) → ¬ in_block z u).
  { intros a z Ha Hz Hu. destruct (layout_sep _ _ _ z (heap_layout _ _ _ Hi') Hu) as [_ Hno].
    apply Hno. exists (a_blk a). split; [|done]. by apply list_elem_of_fmap_2. }
  exists (ps ++ fr0), u. split; [done|]. split; [done|]. intros a z v Ha Hz Hb.
  apply Hk; [|done]. intros Hh. pose proof (heap_al _ _ _ Hi) as Hal. rewrite Forall_forall in Hal.
  destruct (in_buf_block F _ _ _ (Hal a Ha) Hz) as [Hza _]. apply (Hsep a z Ha Hza).
  pose proof (heap_al _ _ _ Hi') as Hal'. apply Forall_cons in Hal' as [[Ha1 Ha2 Ha3 _ _] _]. simpl in *.
  unfold in_block. unfold sizeof_Block_t in *. lia.
Qed.

(** C18: [kmalloc] is best fit: it places the buffer in the smallest free block
    that can hold it (the lowest of equal ones), at the lowest suitable
    address, gives back what is left as free blocks, and reports exhaustion
    only when no free block is large enough. *)
Theorem kmalloc_best_fit size palign s fr al :
  kheap_ok F s fr al → 0 ≤ size < 2 ^ 32 - sizeof_Block_t → 0 ≤ palign ≤ 22 →
  wp (kernel_kmalloc size palign)
    (λ p s', ∃ got fr0 u ps, best_fit size palign fr got ∧ fr ≡ₚ got :: fr0 ∧
       p = payload palign got ∧ carve p size got = (u, ps) ∧ total (u :: ps) = bsize got ∧
       kheap_ok F s' (ps ++ fr0) (Alloc p size u :: al))
    (λ msg, msg = out_of_memory → ∀ c, c ∈ fr → ¬ fits size palign c) s.
Proof.
  intros Hi Hsz Hpal. eapply wp_mono_E; [by apply (kernel_kmalloc_refines F)| |].
  - intros p s' (got & fr0 & u & ps & Hb & Hfr & -> & Hc & Hi' & _). exists got, fr0, u, ps.
    pose proof Hb as (Hgot & [Hf1 Hf2] & _).
    assert (Hg : in_heap got) by (eapply layout_in; [apply Hi|set_solver]).
    destruct (payload_spec palign got Hpal Hg ltac:(lia)) as (Hlo & _ & _). pose proof Hg as (_ & Hpos & _).
    destruct (carve_spec _ _ _ _ _ Hpos (proj1 Hlo) (proj1 Hsz) Hf2 Hc) as ((_ & _ & Ht) & _).
    done.
  - intros msg [[_ Hno]|[[_ ->]|[-> _]]]; done.
Qed.

(** C9: [kfree] of a live buffer returns, and its outcome is that exactly the
    addresses of the buffer's block become free, merged with the free blocks
    beside it; every other byte keeps its page and contents. *)
Theorem kfree_correct a s fr al :
  kheap_ok F s fr (a :: al) → (∀ z, in_block z (a_blk a) → ¬ page_pinned s.2 z) →
  (length fr < 511)%nat →
  ∃ s' fr', kernel_kfree (a_ptr a) s = Ret (tt, s') ∧ kheap_ok F s' fr' al ∧
    (∀ z, in_blocks z fr' ↔ in_blocks z fr ∨ in_block z (a_blk a)) ∧
    pairwise gap fr' ∧ total fr' = total fr + bsize (a_blk a) ∧
    ∀ a' z v, a' ∈ al → in_buf z (buf_of a') → page_byte s.2 z = Some v → page_byte s'.2 z = Some v.
Proof.
  intros Hi Hp Hlen.
  destruct (wp_returns _ _ _ (kernel_kfree_refines F a s fr al (λ _, False) Hi Hp
    (λ H1, Nat.lt_irrefl _ (Nat.lt_le_trans _ _ _ Hlen H1))))
    as ([] & s' & Hrun & fr' & Hi' & Hin & Hk & _). exists s', fr'. split_and!; try done.
  - apply (heap_layout _ _ _ Hi').
  - pose proof (lay_total _ _ (heap_layout _ _ _ Hi)) as H1.
    pose proof (lay_total _ _ (heap_layout _ _ _ Hi')) as H2. rewrite fmap_cons in H1.
    rewrite total_app in H1, H2. change (total (a_blk a :: ?l)) with (bsize (a_blk a) + total l) in H1. lia.
  - intros a' z v Ha' Hz Hb. pose proof (heap_al _ _ _ Hi') as Hal. rewrite Forall_forall in Hal.
    destruct (in_buf_block F _ _ _ (Hal a' Ha') Hz) as [Hza _].
    destruct (Hk z) as [[_ Hk']|[Hf _]]; [by apply Hk'|].
    destruct (layout_apart _ _ (a_blk a') z (heap_layout _ _ _ Hi')); [|done|done].
    by apply list_elem_of_fmap_2.
Qed.

(** a double free is caught: freeing a buffer that was just freed stops
    the kernel, with the heap's own message or by a page fault on the header. *)
Theorem kfree_twice a s fr al s' :
  kheap_ok F s fr (a :: al) → (∀ z, in_block z (a_blk a) → ¬ page_pinned s.2 z) →
  kernel_kfree (a_ptr a) s = Ret (tt, s') →
  wp (kernel_kfree (a_ptr a)) (λ _ _, False) (λ msg, msg = invalid_free ∨ msg = page_fault_msg) s'.
Proof.
  intros Hi Hp Hrun. pose proof (kernel_kfree_refines F a s fr al (λ _, True) Hi Hp (λ _, I)) as Hwp.
  unfold wp in Hwp. rewrite Hrun in Hwp. destruct Hwp as (fr' & Hi' & Hin & Hk & _).
  pose proof (heap_al _ _ _ Hi) as Hal. apply Forall_cons in Hal as [[Ha1 Ha2 Ha3 Ha4 _] _].
  assert (Hm : in_heap (a_blk a)) by (eapply layout_in; [apply Hi|set_solver]).
  destruct s' as [h' x']. apply (kheap_ok_env F _ (kmalloc_at 2)) in Hi'.
  apply (@kfree_stale _ _ _ _ _ (page_env_laws (kmalloc_at 2) F) a h' x' fr' al Hi' Hm Ha1).
  - lia.
  - intros z Hz. apply Hin. by right.
  - intros i v Hv. destruct (Hk (a_ptr a - sizeof_Block_t + Z.of_nat i)) as [[_ Hk']|[_ Hg]].
    + left. apply Hk'. by apply Ha4.
    + right. exact Hg.
Qed.

(** C1: the heap is a memory of disjoint buffers: after any sequence of
    allocations, releases and in-bounds writes, reading a live buffer gives
    back what was last written into it, and changes nothing. *)
Theorem heap_is_memory kept c c' p len off l :
  client_ok F kept c → rtc heap_step c c' → (p, len) ∈ bufs c' →
  0 ≤ off → off + Z.of_nat (length l) ≤ len →
  (∀ i v, l !! i = Some v → written c' !! (p + off + Z.of_nat i) = Some v) →
  kernel_read (p + off) (length l) (machine c') = Ret (l, machine c').
Proof.
  intros Hc Hr Hb Ho Hl Hw. pose proof (client_steps F _ _ _ Hc Hr) as (fr & al & Hi & Hbufs & _ & Hmem).
  rewrite <- Hbufs in Hb. apply list_elem_of_fmap in Hb as (a & Ha & Hal). injection Ha as -> ->.
  assert (Hok : a ∈ al ++ kept) by set_solver.
  pose proof (heap_al _ _ _ Hi) as Hall. rewrite Forall_forall in Hall.
  destruct (Hall a Hok) as [Ha1 Ha2 Ha3 _ _].
  assert (Hm : in_heap (a_blk a)) by (eapply layout_in; [apply Hi|apply elem_of_app; right; by apply list_elem_of_fmap_2]).
  destruct (machine c') as [h x]. destruct Hm as (Hm1 & _ & Hm2). unfold sizeof_Block_t in *.
  pose proof (@mem_read_ok paging _ (page_env_laws (kmalloc_at 1) F) h x (a_ptr a + off) l (λ _, False)
    (heap_env _ _ _ Hi) ltac:(lia) ltac:(lia)) as Hwp.
  destruct (wp_returns _ _ _ (Hwp ltac:(intros i v Hv; apply Hmem, Hw, Hv))) as (r & s' & Hrun & -> & ->).
  exact Hrun.
Qed.
End Props.

(** * The properties at the concrete machine *)
Lemma kmalloc_correct_witness :
  wp (kernel_kmalloc 100 4)
    (λ p s', p mod 2 ^ 4 = 0 ∧
       ∃ fr' u, kheap_ok demo_F s' fr' [Alloc p 100 u] ∧
         (∀ a z, a ∈ [] → in_block z (a_blk a) → ¬ in_block z u) ∧
         ∀ a z v, a ∈ [] → in_buf z (buf_of a) → page_byte demo_machine.2 z = Some v → page_byte s'.2 z = Some v)
    (kmalloc_fails 16 [whole_heap] 100 4) demo_machine.
Proof.
  apply (kmalloc_correct demo_F 100 4 demo_machine [whole_heap] [] demo_machine_ok); unfold sizeof_Block_t; lia.
Defined.

Lemma kmalloc_best_fit_witness :
  wp (kernel_kmalloc 100 12)
    (λ p s', ∃ got fr0 u ps, best_fit 100 12 [whole_heap] got ∧ [whole_heap] ≡ₚ got :: fr0 ∧
       p = payload 12 got ∧ carve p 100 got = (u, ps) ∧ total (u :: ps) = bsize got ∧
       kheap_ok demo_F s' (ps ++ fr0) [Alloc p 100 u])
    (λ msg, msg = out_of_memory → ∀ c, c ∈ [whole_heap] → ¬ fits 100 12 c)
    demo_machine.
Proof.
  apply (kmalloc_best_fit demo_F 100 12 demo_machine [whole_heap] [] demo_machine_ok); unfold sizeof_Block_t; lia.
Defined.

Lemma kfree_correct_witness :
  ∃ s' fr', kernel_kfree demo_ptr demo_machine1 = Ret (tt, s') ∧ kheap_ok demo_F s' fr' [].
Proof.
  destruct demo_machine1_ok as (fr & a & Hi & Heq & Hp & Hlen). rewrite <- Heq.
  destruct (kfree_correct demo_F a demo_machine1 fr [] Hi Hp Hlen) as (s' & fr' & Hrun & Hok & _).
  exists s', fr'. split; [exact Hrun|exact Hok].
Defined.

Lemma demo_free_run :
  kernel_kfree demo_ptr demo_machine1 = Ret (tt, state_of (kernel_kfree demo_ptr demo_machine1) demo_machine1).
Proof. apply returns_run. vm_compute. reflexivity. Qed.

Lemma kfree_twice_witness :
  ∃ s', kernel_kfree demo_ptr demo_machine1 = Ret (tt, s') ∧
  wp (kernel_kfree demo_ptr) (λ _ _, False) (λ msg, msg = invalid_free ∨ msg = page_fault_msg) s'.
Proof.
  destruct demo_machine1_ok as (fr & a & Hi & Heq & Hp & Hlen).
  pose proof demo_free_run as Hrun. revert Hrun. generalize (state_of (kernel_kfree demo_ptr demo_machine1) demo_machine1).
  intros s' Hrun. exists s'. rewrite <- Heq in Hrun |- *. split; [exact Hrun|].
  exact (kfree_twice demo_F a demo_machine1 fr [] s' Hi Hp Hrun).
Defined.

Lemma heap_is_memory_witness :
  kernel_read (demo_ptr + 4) 3 demo_machine2 = Ret ([1; 2; 3], demo_machine2).
Proof.
  apply (heap_is_memory demo_F [] (Client demo_machine [] ∅)
    (Client demo_machine2 [(demo_ptr, 100)] (write_phys_map [1; 2; 3] (demo_ptr + 4) ∅)) demo_ptr 100 4 [1; 2; 3]).
  - exact demo_client.
  - eapply rtc_l; [eapply (step_alloc _ _ _ 100 0); [unfold sizeof_Block_t; lia|lia|exact demo_alloc_run]|].
    apply rtc_once. eapply (step_write _ _ _ demo_ptr 100 4 [1; 2; 3]).
    + by apply list_elem_of_singleton.
    + repeat constructor; lia.
    + lia.
    + simpl. lia.
    + exact demo_write_run.
  - by apply list_elem_of_singleton.
  - lia.
  - simpl. lia.
  - intros i v Hv. simpl written. rewrite lookup_write_phys_map, decide_True.
    + replace (Z.to_nat _) with i by lia. exact Hv.
    + apply lookup_lt_Some in Hv. simpl in Hv. simpl length. lia.
Defined.
