(* ===== verification/CowProps.v ===== *)
(** Copy-on-write after a fork: the pages two directories share behave as if
    each had been copied, and a page nobody may touch stops the kernel. *)
From S2P Require Import Prelude Rbt TreeMm Common Kheap KheapSpec KheapOk Page PageInit PageOk.
From S2P Require Import PageFrames PageHeap PageCow Demo KernelHeap Machine.

Section Cow.
Context `{PageLink}.
Implicit Types (h : kheap) (p q : paging) (a f g : Z) (e : Table_entry_t) (F : gset Z) (st : list Z).

(** the entry a fault at [va] concerns, in a directory whose table is [t] *)
Record forked_page p (t va i : Z) (reg : Isr_registers_t) e : Prop := {
  fp_dir : ∃ d, dirs p !! current_page_dir p = Some d ∧ table_of d (tb_idx va) = t;
  fp_table : 0 < t;
  fp_index : tb_offset va = i;
  fp_user : user e ≠ 0;
  fp_alloc : allocable e ≠ 0;
  fp_mapped : e_addr e ≠ 0;
  fp_write : Z.land (err_code reg) 1 ≠ 0 ∧ Z.land (err_code reg) 2 ≠ 0
}.

Definition fork_tables (src dest : Z) : M kstate unit := for_each (upto 0 1024) (clone_entry src dest).

(** After the fork the entry has two mappers at least. *)
Lemma forked_mappers F p q src dest es i :
  clone_pre F p src dest es → 0 ≤ i < 1024 → e_addr (es i) ≠ 0 →
  (∀ i, 0 ≤ i < 1024 → pte q !! entry_ptr src i = Some (shared_entry (es i)) ∧
                       pte q !! entry_ptr dest i = Some (shared_entry (es i))) →
  empty_page0_ptr q = empty_page0_ptr p → empty_page1_ptr q = empty_page1_ptr p →
  (2 ≤ size (mappers q (e_addr (es i))))%nat.
Proof.
  intros Hc Hi Ha Hq E0 E1. destruct (Hq i Hi) as [Hs Hd].
  assert (Hsa : e_addr (shared_entry (es i)) = e_addr (es i)) by (unfold shared_entry; by case_match).
  assert (Hsub : {[entry_ptr src i; entry_ptr dest i]} ⊆ mappers q (e_addr (es i))).
  { intros b Hb. apply elem_of_mappers. apply elem_of_union in Hb.
    rewrite !elem_of_singleton in Hb. unfold scratch. rewrite E0, E1.
    destruct Hb as [->| ->]; eexists; (split; [eassumption|]); (split; [done|]).
    - by apply (cp_src_own _ _ _ _ _ Hc).
    - by apply (cp_dest_own _ _ _ _ _ Hc). }
  apply subseteq_size in Hsub. rewrite size_union, !size_singleton in Hsub; [done|].
  apply disjoint_singleton_l. rewrite elem_of_singleton. by apply (cp_sep _ _ _ _ _ Hc).
Qed.

(** C7: copy-on-write isolates: after [clone_table] shared a table's pages, a
    write fault by either side ([child] or parent) gives that side a frame of
    its own holding the old contents, writable; the other side keeps the old
    frame, read-only, with its contents, and the reference counts stay exact. *)
Theorem fork_isolation F st h p src dest es va reg i (child : bool) :
  let mine := if child then dest else src in
  let other := if child then src else dest in
  frames_ok F st p → clone_pre F p src dest es → scratch_ok p → 0 ≤ i < 1024 → forked_page p mine va i reg (es i) →
  wp (fork_tables src dest ;; page_fault reg va)
    (λ _ s', ∃ st' em eo, frames_ok F st' s'.2 ∧
       pte s'.2 !! entry_ptr mine i = Some em ∧ pte s'.2 !! entry_ptr other i = Some eo ∧
       rw em = 1 ∧ rw eo = 0 ∧ e_addr eo = e_addr (es i) ∧ e_addr em ≠ e_addr eo ∧
       read_frame s'.2 (e_addr em) = read_frame p (e_addr (es i)) ∧
       read_frame s'.2 (e_addr eo) = read_frame p (e_addr (es i)))
    (λ msg, msg = "no free frame" ∧ st = []) (h, p).
Proof.
  intros mine other Hf Hc (Hs0 & Hs1 & Hs01) Hi [(d & Hd & Ht) Hpos Hidx Hu Hal Hm [Hb1 Hb2]].
  assert (Hsc : ∀ b, scratch p b → ∀ j, 0 ≤ j < 1024 → b ≠ entry_ptr src j ∧ b ≠ entry_ptr dest j).
  { intros b Hb j Hj. split; intros ->; [by eapply (cp_src_own _ _ _ _ _ Hc)|by eapply (cp_dest_own _ _ _ _ _ Hc)]. }
  unfold fork_tables. wp_step. eapply wp_mono; [by apply clone_entries_ok|].
  intros _ ? (q & -> & Hfq & Hes & Hrest & Hph & Hph0 & Hdir & Hcur & E0 & E1 & _).
  set (e := es i) in *. set (e1 := shared_entry e).
  assert (He1 : e1 = set_rw 0 e) by (unfold e1, shared_entry; by destruct (Z.eqb_spec (e_addr e) 0)).
  assert (Hmine : pte q !! entry_ptr mine i = Some e1) by (unfold mine; destruct child; apply Hes, Hi).
  assert (Hother : pte q !! entry_ptr other i = Some e1) by (unfold other; destruct child; apply Hes, Hi).
  assert (Hne : entry_ptr other i ≠ entry_ptr mine i).
  { unfold mine, other. pose proof (cp_sep _ _ _ _ _ Hc i i Hi Hi). destruct child; congruence. }
  assert (Hown : ¬ scratch q (entry_ptr mine i) ∧ ¬ scratch q (entry_ptr other i)).
  { unfold scratch. rewrite E0, E1. fold (scratch p (entry_ptr mine i)) (scratch p (entry_ptr other i)).
    unfold mine, other. split; intros Hx; destruct (Hsc _ Hx i Hi), child; done. }
  assert (Hcow : cow_fault F st q va reg (entry_ptr mine i) e1 d).
  { rewrite He1. split; simpl; try done.
    - unfold scratch_ok. rewrite E0, E1. rewrite !Hrest; [done|..]; apply Hsc; [by right|by left].
    - by rewrite Hdir, Hcur.
    - rewrite Ht. lia.
    - by rewrite Ht, Hidx.
    - unfold entry_ptr. lia.
    - by rewrite <- He1.
    - apply Hown.
    - by apply (cp_frame _ _ _ _ _ Hc). }
  assert (H2 : (2 ≤ size (mappers q (e_addr e1)))%nat).
  { rewrite He1. by apply (forked_mappers F p q src dest es i). }
  eapply wp_mono; [by eapply (cow_fault_shared_ok F st h q va reg _ e1 d)|].
  intros _ s' [_ (g & st' & e' & _ & Hf' & He' & Hg & _ & Hrw & _ & Hsame & _ & _ & Hcopy & Hkeep & Hgm)].
  assert (Hea : e_addr e1 = e_addr e) by (by rewrite He1).
  assert (Hge : g ≠ e_addr e).
  { intros Heq. assert (entry_ptr mine i ∈ mappers q g) as Hin.
    { apply elem_of_mappers. exists e1. split; [done|]. split; [congruence|apply Hown]. }
    rewrite Hgm in Hin. by apply elem_of_empty in Hin. }
  assert (Hqp : ∀ f, read_frame q f = read_frame p f) by (intros f; by apply read_frame_ext).
  exists st', e', e1. split; [done|]. split; [done|]. split.
  { rewrite Hsame; [done|done|apply Hown]. }
  split; [done|]. split; [by rewrite He1|]. split; [done|]. rewrite Hea, Hg.
  split; [done|]. rewrite Hcopy, Hea, Hqp, Hkeep, Hqp by done. done.
Qed.

(** C32: an access nobody prepared for stops the kernel: the page-fault
    handler panics when the address has no page table, when its page is not
    allocable, when code outside the kernel touches a kernel page, or when a
    present page is read without permission. *)
Theorem page_fault_rejects h p d reg va :
  dirs p !! current_page_dir p = Some d →
  (table_of d (tb_idx va) = 0 ∨
   (∃ e, entry_ptr (table_of d (tb_idx va)) (tb_offset va) ≠ 0 ∧
         pte p !! entry_ptr (table_of d (tb_idx va)) (tb_offset va) = Some e ∧
         (allocable e = 0 ∨ user e = 0 ∧ kernel_code_end ≤ eip reg ∨
          Z.land (err_code reg) 1 ≠ 0 ∧ Z.land (err_code reg) 2 = 0))) →
  page_fault reg va (h, p) = Panic "page fault".
Proof.
  intros Hd Hcase.
  assert (Hwp : wp (page_fault reg va) (λ _ _, False) (λ msg, msg = "page fault"%string) (h, p)).
  { unfold page_fault. wp_step. apply wp_getp. simpl. wp_step. unfold find_page.
    wp_step. eapply wp_rd_dir; [exact Hd|]. destruct Hcase as [->|(e & Hne & He & Hc)].
    { simpl. apply wp_ret. simpl. by apply wp_panic. }
    apply Z.eqb_neq in Hne. destruct (table_of d (tb_idx va) =? 0).
    { apply wp_ret. simpl. by apply wp_panic. }
    apply wp_ret. rewrite Hne. wp_step. eapply wp_rd_pte; [exact He|].
    destruct (Z.eqb_spec (allocable e) 0); [by apply wp_panic|].
    destruct Hc as [?|[[-> Hk]|[Hb1 Hb2]]]; [done|..].
    - apply Z.leb_le in Hk. rewrite Hk. by apply wp_panic.
    - case_match; [by apply wp_panic|]. apply Z.eqb_neq in Hb1 as ->. rewrite Hb2. by apply wp_panic. }
  unfold wp in Hwp. destruct (page_fault reg va (h, p)) as [[? ?]|msg| |]; try done. by subst.
Qed.
End Cow.

(** * A parent's table at 0x280000 with one user page, a child's at 0x281000 *)
Definition fork_src : Z := 0x280000.
Definition fork_dest : Z := 0x281000.
Definition fork_entry : Table_entry_t := Entry 1 1 1 0 0 0 0 0 0 1 0 0x1000.
Definition fork_es (i : Z) : Table_entry_t := if i =? 5 then fork_entry else entry_zero.
Definition fork_count : nat := Z.to_nat 2048.
Definition fork_pte : gmap Z Table_entry_t :=
  with_scratch (<[entry_ptr fork_src 5 := fork_entry]> (empty_entries fork_count fork_src)).
Definition fork_stack : list Z := upto 0x1001 0x1010.
Definition fork_F : gset Z := list_to_set (0x1000 :: fork_stack).
Definition fork_dir : Directory_t := Directory {[512 := fork_dest]} ∅ 0x150000.
Definition fork_paging : paging :=
  Paging fork_pte {[0x148000 := fork_dir]} 0x148000 0x150000
    (list_to_map (zip (upto 0 15) fork_stack)) 16 15 {[0x1000 := 1]} 0x1000 16
    0xEFC00000 0xEFC01000 demo_scratch0 demo_scratch1 1 true {[0x1000007 := 42]} (λ _, 0) [].
Lemma fork_count_eq : Z.of_nat fork_count = 2048.
Proof. by apply Z2Nat.id. Qed.
#[local] Opaque fork_count.

Lemma fork_pte_at k : 0 ≤ k < 2048 →
  fork_pte !! (fork_src + 4 * k) = Some (if k =? 5 then fork_entry else entry_zero).
Proof.
  intros Hk. unfold fork_pte. rewrite with_scratch_at by (unfold fork_src, demo_scratch0, demo_scratch1; lia).
  unfold entry_ptr. destruct (Z.eqb_spec k 5) as [->|Hne]; [by rewrite lookup_insert_eq|].
  rewrite lookup_insert_ne by lia. apply empty_entries_at. by rewrite fork_count_eq.
Qed.

Lemma with_scratch_inv m b e : with_scratch m !! b = Some e → e_addr e ≠ 0 → m !! b = Some e.
Proof.
  unfold with_scratch.
  intros [[_ <-]|[_ [[_ <-]|[_ He]]%lookup_insert_Some]]%lookup_insert_Some Hn;
    [by destruct Hn|by destruct Hn|exact He].
Qed.
Lemma fork_pte_inv b e : fork_pte !! b = Some e → e_addr e ≠ 0 → b = entry_ptr fork_src 5 ∧ e = fork_entry.
Proof.
  intros H Hn. apply with_scratch_inv in H; [|exact Hn]. apply lookup_insert_Some in H as [[<- <-]|[_ He]]; [done|].
  destruct Hn. rewrite (empty_entries_zero fork_count fork_src b e He). reflexivity.
Qed.

Lemma fork_mappers f : f ≠ 0 → mappers fork_paging f = if f =? 0x1000 then {[entry_ptr fork_src 5]} else ∅.
Proof.
  intros Hf. apply set_eq. intros b. rewrite elem_of_mappers. split.
  - intros (e & He & <- & _). destruct (fork_pte_inv b e He Hf) as [-> ->]. simpl. by apply elem_of_singleton.
  - destruct (Z.eqb_spec f 0x1000) as [->|]; [|by intros ?%elem_of_empty].
    intros ->%elem_of_singleton. exists fork_entry.
    split; [exact (fork_pte_at 5 ltac:(lia))|]. split; [done|].
    unfold scratch. simpl. unfold entry_ptr, fork_src, demo_scratch0, demo_scratch1. lia.
Qed.

Lemma fork_frames_ok : frames_ok fork_F fork_stack fork_paging.
Proof.
  assert (Hr : ∀ f, f ∈ fork_F → 0x1000 ≤ f < 0x1010).
  { intros f Hf. apply elem_of_list_to_set, elem_of_cons in Hf as [->|Hf%elem_of_upto]; lia. }
  split.
  - simpl. unfold fork_F. by vm_compute.
  - done.
  - intros i f Hf. apply lookup_lt_Some in Hf as Hlt. change (length fork_stack) with 15%nat in Hlt.
    do 15 (destruct i as [|i]; [vm_compute in Hf |- *; exact Hf|]). lia.
  - apply (bool_decide_unpack (NoDup fork_stack)). by vm_compute.
  - intros f Hf. assert (Hin : f ∈ fork_F) by (apply elem_of_list_to_set, elem_of_cons; by right).
    split; [done|]. apply elem_of_upto in Hf. rewrite fork_mappers by lia.
    destruct (Z.eqb_spec f 0x1000); [lia|done].
  - intros f Hf%Hr. simpl. lia.
  - intros f Hf%Hr. rewrite fork_mappers by lia.
    destruct (Z.eqb_spec f 0x1000) as [->|]; [|done]. intros _. by rewrite size_singleton.
  - change (pte fork_paging) with fork_pte. unfold fork_pte.
    pose proof (with_scratch_size (<[entry_ptr fork_src 5 := fork_entry]> (empty_entries fork_count fork_src))).
    pose proof (size_insert_le (empty_entries fork_count fork_src) (entry_ptr fork_src 5) fork_entry).
    pose proof (empty_entries_size fork_count fork_src). pose proof fork_count_eq. lia.
Qed.

Lemma fork_clone_pre : clone_pre fork_F fork_paging fork_src fork_dest fork_es.
Proof.
  assert (Hd : ∀ i, entry_ptr fork_dest i = fork_src + 4 * (1024 + i))
    by (intros; unfold entry_ptr, fork_dest, fork_src; lia).
  split.
  - intros i Hi. apply fork_pte_at. lia.
  - intros i Hi. unfold fork_es. destruct (i =? 5); [|done]. intros _.
    apply elem_of_list_to_set, elem_of_cons. by left.
  - intros i Hi. rewrite Hd. etrans; [apply fork_pte_at; lia|]. destruct (Z.eqb_spec (1024 + i) 5); [lia|done].
  - intros i j Hi Hj. unfold entry_ptr, fork_src, fork_dest. lia.
  - intros i Hi [Hs|Hs]; revert Hs; simpl; unfold entry_ptr, fork_src, demo_scratch0, demo_scratch1; lia.
  - intros i Hi [Hs|Hs]; revert Hs; simpl; unfold entry_ptr, fork_dest, demo_scratch0, demo_scratch1; lia.
Qed.

Lemma fork_isolation_witness :
  wp (fork_tables fork_src fork_dest ;; @page_fault demo_page_link (IsrRegs 14 7 0x40000000) 0x80005123)
    (λ _ s', ∃ st' em eo, frames_ok fork_F st' s'.2 ∧
       pte s'.2 !! entry_ptr fork_dest 5 = Some em ∧ pte s'.2 !! entry_ptr fork_src 5 = Some eo ∧
       rw em = 1 ∧ rw eo = 0 ∧ e_addr eo = 0x1000 ∧ e_addr em ≠ e_addr eo ∧
       read_frame s'.2 (e_addr em) = read_frame fork_paging 0x1000 ∧
       read_frame s'.2 (e_addr eo) = read_frame fork_paging 0x1000)
    (λ msg, msg = "no free frame" ∧ fork_stack = []) (demo_kheap_boot, fork_paging).
Proof.
  apply (fork_isolation fork_F fork_stack demo_kheap_boot fork_paging fork_src fork_dest fork_es
    0x80005123 (IsrRegs 14 7 0x40000000) 5 true).
  - exact fork_frames_ok.
  - exact fork_clone_pre.
  - split; [|split]; [eexists; by apply lookup_insert_eq|eexists|done].
    simpl. unfold fork_pte, with_scratch. rewrite lookup_insert_ne by done. apply lookup_insert_eq.
  - lia.
  - split; try done. exists fork_dir. split; [done|]. by vm_compute.
Defined.

Lemma page_fault_rejects_witness :
  @page_fault demo_page_link (IsrRegs 14 5 0x40000000) 0x80400000 (demo_kheap_boot, fork_paging) = Panic "page fault".
Proof.
  apply (page_fault_rejects demo_kheap_boot fork_paging fork_dir); [done|]. left. by vm_compute.
Defined.
