(* ===== verification/PageZero.v ===== *)
(** Pages allocated on demand: a page reserved by [lazy_alloc] with [fill_zero]
    gets its frame at the first access and reads as zeroes then, whatever the
    frame held before. *)
From S2P Require Import Prelude Rbt TreeMm Common Kheap KheapSpec KheapOk Page PageInit PageOk.
From S2P Require Import PageFrames PageHeap PageCow Demo KernelHeap Machine CowProps.

Section Zero.
Context `{PageLink}.
Implicit Types (h : kheap) (p q : paging) (a f g va ip : Z) (e : Table_entry_t) (F : gset Z) (st : list Z).

Definition zero_words : list Z := concat (replicate 1024 (bytes_of_u32 0)).
Definition zero_frame : list Z := replicate 4096 0.
Lemma zero_words_eq : zero_words = zero_frame.
Proof. apply (bool_decide_unpack (zero_words = zero_frame)). by vm_compute. Qed.
Lemma zero_words_length : length zero_words = 4096%nat.
Proof. rewrite zero_words_eq. apply length_replicate. Qed.

(** [fill_uint32(0)]: through the first scratch page, over the whole frame. *)
Definition fill_state p e e0 : paging :=
  with_phys (with_pte p (<[empty_page0_ptr p:=set_addr (e_addr e) e0]> (pte p)))
    (write_phys_map zero_words (Z.shiftl (e_addr e) 12) (phys p)).
Lemma fill_zero_ok h p a e e0 E :
  pte p !! a = Some e → pte p !! empty_page0_ptr p = Some e0 → 0 ≤ e_addr e < 2 ^ 20 →
  wp (Table_entry_fill_uint32 a 0) (λ _ s', s' = (h, fill_state p e e0)) E (h, p).
Proof.
  intros He H0 Hr. unfold Table_entry_fill_uint32. wp_step. eapply wp_rd_pte; [exact He|].
  wp_step. apply wp_getp. wp_step. eapply wp_upd_pte; [exact H0|]. simpl snd. cbn [fst].
  wp_step. eapply wp_rd_pte; [apply lookup_insert_eq|]. rewrite set_addr_small by done.
  fold zero_words. apply wp_write_phys. unfold fill_state, write_phys_map. reflexivity.
Qed.
#[local] Opaque zero_words zero_frame.
Lemma fill_state_ok F st p a e e0 :
  frames_ok F st p → pte p !! empty_page0_ptr p = Some e0 →
  let q := fill_state p e e0 in
  frames_ok F st q ∧ (∀ b, ¬ scratch p b → pte q !! b = pte p !! b) ∧
  read_frame q (e_addr e) = zero_frame ∧ ∀ f, f ≠ e_addr e → read_frame q f = read_frame p f.
Proof.
  intros Hf H0 q. pose proof zero_words_length as Hl.
  split_and!.
  - apply frames_ok_phys. apply (frames_ok_scratch F st p _ e0); [done..|by left].
  - intros b Hb. unfold q, fill_state. simpl. rewrite lookup_insert_ne; [done|]. intros ?. apply Hb. by left.
  - rewrite <- zero_words_eq. by apply (read_frame_copy p).
  - intros f Hfd. by apply (read_frame_other p q (e_addr e) f zero_words).
Qed.

(** [lazy_alloc] of an entry without a frame. *)
Definition reserved_entry (user_ writable : bool) e : Table_entry_t :=
  set_alloc_fill 1 (set_allocable 1 (perm_entry user_ writable e)).
Lemma lazy_alloc_fill_ok h p a e user_ writable E :
  pte p !! a = Some e → e_addr e = 0 →
  wp (Table_entry_lazy_alloc a user_ writable true)
    (λ _ s', s' = (h, with_pte p (<[a:=reserved_entry user_ writable e]> (pte p)))) E (h, p).
Proof.
  intros He H0. unfold Table_entry_lazy_alloc.
  wp_step. eapply wp_upd_pte; [exact He|]. simpl.
  wp_step. eapply wp_upd_pte; [apply lookup_insert_eq|]. simpl. rewrite insert_insert_eq.
  wp_step. eapply wp_rd_pte; [apply lookup_insert_eq|]. cbn [set_user set_rw e_addr]. rewrite H0. simpl.
  wp_step. eapply wp_upd_pte; [apply lookup_insert_eq|]. simpl. rewrite insert_insert_eq.
  eapply wp_upd_pte; [apply lookup_insert_eq|]. simpl. rewrite insert_insert_eq. reflexivity.
Qed.

(** The entry [a] of the page of [va], not yet backed by a frame. *)
Record unbacked p va a e d : Prop := {
  ub_dir : dirs p !! current_page_dir p = Some d;
  ub_table : table_of d (tb_idx va) ≠ 0;
  ub_page : a = entry_ptr (table_of d (tb_idx va)) (tb_offset va);
  ub_page0 : a ≠ 0;
  ub_entry : pte p !! a = Some e;
  ub_addr : e_addr e = 0;
  ub_present : present e = 0;
  ub_own : ¬ scratch p a
}.
Lemma find_entry h p va a d E (Q : Z → kstate → Prop) :
  dirs p !! current_page_dir p = Some d → table_of d (tb_idx va) ≠ 0 →
  a = entry_ptr (table_of d (tb_idx va)) (tb_offset va) →
  Q a (h, p) → wp (find_page (current_page_dir p) va) Q E (h, p).
Proof.
  intros Hd Ht -> HQ. unfold find_page. wp_step. eapply wp_rd_dir; [exact Hd|].
  apply Z.eqb_neq in Ht as ->. by apply wp_ret.
Qed.

(** The page fault takes a frame and clears it. *)
Lemma page_fault_zero_ok F st h p reg va a e d user_ writable :
  frames_ok F st p → is_Some (pte p !! empty_page0_ptr p) →
  unbacked p va a (reserved_entry user_ writable e) d →
  (user_ = true ∨ eip reg < kernel_code_end) → Z.land (err_code reg) 1 = 0 →
  wp (page_fault reg va)
    (λ _ s', ∃ st' f e' q, s' = (h, q) ∧ st = st' ++ [f] ∧ frames_ok F st' q ∧
       dirs q = dirs p ∧ current_page_dir q = current_page_dir p ∧
       pte q !! a = Some e' ∧ e_addr e' = f ∧ present e' = 1 ∧ rw e' = b2z writable ∧ user e' = b2z user_ ∧
       read_frame q f = zero_frame ∧ (∀ g, g ≠ f → read_frame q g = read_frame p g) ∧
       ∀ b, b ≠ a → ¬ scratch p b → pte q !! b = pte p !! b)
    (λ msg, msg = no_free_frame ∧ st = []) (h, p).
Proof.
  intros Hf [e0 He0] [U1 U2 U3 U4 U5 U6 U7 U8] Hk Hc. unfold page_fault.
  set (r := reserved_entry user_ writable e) in *.
  assert (Hu : user r = b2z user_) by (by destruct user_).
  assert (Hw : rw r = b2z writable) by (by destruct writable).
  wp_step. apply wp_getp. simpl. wp_step. eapply find_entry; [done..|].
  apply Z.eqb_neq in U4 as Hn. rewrite Hn. wp_step. eapply wp_rd_pte; [exact U5|].
  change (allocable r =? 0) with false. cbv iota.
  assert ((user r =? 0) && (kernel_code_end <=? eip reg) = false) as ->.
  { rewrite Hu. destruct Hk as [->|Hk]; [done|]. apply andb_false_intro2. by apply Z.leb_gt. }
  rewrite Hc. cbn [Z.eqb]. cbv iota. rewrite Hu, Hw.
  assert (negb (b2z user_ =? 0) = user_) as -> by (by destruct user_).
  assert (negb (b2z writable =? 0) = writable) as -> by (by destruct writable).
  assert (Ha0 : a ≠ empty_page0_ptr p) by (intros ->; apply U8; by left).
  destruct st as [|f st _] using rev_ind.
  { pose proof (fo_n _ _ _ Hf) as H0. wp_step.
    eapply wp_mono; [apply (alloc_new_ok h p a r user_ writable 0); [done|done|done|]|]; [done|].
    intros ? ? [? _]. done. }
  destruct (frames_ok_top _ _ _ _ Hf) as (Hn0 & Htop & HfF & Hfm). destruct (fo_range _ _ _ Hf f HfF) as [Hfr Hfl].
  wp_step. eapply wp_mono; [apply (alloc_new_ok h p a r user_ writable f); [done|done|done|]|].
  { intros _. split; [done|]. split; [lia|done]. }
  intros _ s' [_ ->]. set (p1 := alloc_state p a r user_ writable f). set (e1 := alloc_entry user_ writable f r).
  assert (Hf1 : frames_ok F st p1) by (by apply frames_ok_alloc).
  assert (He1 : pte p1 !! a = Some e1) by apply lookup_insert_eq.
  assert (Ha1 : e_addr e1 = f) by (simpl; apply Z.mod_small; lia).
  wp_step. eapply wp_rd_pte; [exact He1|]. change (alloc_fill e1 =? 0) with false. cbv iota.
  assert (He01 : pte p1 !! empty_page0_ptr p1 = Some e0) by (simpl; by rewrite lookup_insert_ne).
  eapply wp_mono; [apply (fill_zero_ok h p1 a e1 e0); [done|done|lia]|]. intros _ s' ->.
  destruct (fill_state_ok F st p1 a e1 e0 Hf1 He01) as (Q1 & Q2 & Q3 & Q4). rewrite Ha1 in Q3, Q4.
  exists st, f, e1, (fill_state p1 e1 e0). split; [done|]. split; [done|]. split; [exact Q1|].
  split; [done|]. split; [done|]. split; [by rewrite Q2|]. split; [done|]. split; [done|].
  split; [by destruct writable|]. split; [by destruct user_|]. split; [done|]. split.
  - intros g Hg. rewrite Q4 by done. by apply read_frame_ext.
  - intros b Hb Hs. rewrite Q2 by done. simpl. by rewrite lookup_insert_ne.
Qed.

(** The access that makes the page real. *)
Definition zeroed F st p a va x q : Prop :=
  ∃ st' f e', st = st' ++ [f] ∧ frames_ok F st' q ∧ pte q !! a = Some e' ∧ e_addr e' = f ∧
    x = Z.shiftl f 12 + Z.land va 0xFFF ∧ read_frame q f = zero_frame ∧
    (∀ g, g ≠ f → read_frame q g = read_frame p g) ∧
    ∀ b, b ≠ a → ¬ scratch p b → pte q !! b = pte p !! b.

(** C8: memory given on demand is zero: after [lazy_alloc] with [fill_zero] of
    a page that has no frame, the first access its permissions allow — by the
    kernel or the program, a read or a write — takes a free frame, clears all
    of it and maps it, so that nothing its former owner left can be seen; no
    other frame and no other entry changes. *)
Theorem demand_zero F st h p va a e d user_ writable ip (write by_user : bool) :
  frames_ok F st p → is_Some (pte p !! empty_page0_ptr p) → unbacked p va a e d →
  (by_user = true → user_ = true) → (write = true → writable = true) → (user_ = true ∨ ip < kernel_code_end) →
  wp (Table_entry_lazy_alloc a user_ writable true ;; translate 2 va ip write by_user)
    (λ x s', s'.1 = h ∧ zeroed F st p a va x s'.2) (λ msg, msg = "no free frame" ∧ st = []) (h, p).
Proof.
  intros Hf He0 [U1 U2 U3 U4 U5 U6 U7 U8] Hbu Hwr Hk.
  wp_step. eapply wp_mono; [by apply lazy_alloc_fill_ok|]. intros _ s' ->.
  set (r := reserved_entry user_ writable e). set (p1 := with_pte p (<[a:=r]> (pte p))).
  assert (Hf1 : frames_ok F st p1) by (by eapply frames_ok_perm).
  assert (Ha0 : a ≠ empty_page0_ptr p) by (intros ->; apply U8; by left).
  assert (Hu1 : unbacked p1 va a r d) by (split; try done; apply lookup_insert_eq).
  rewrite translate_S. wp_step. apply wp_getp. wp_step. eapply find_entry; [done..|].
  apply Z.eqb_neq in U4 as Hn. rewrite Hn. wp_step. eapply wp_rd_pte; [apply lookup_insert_eq|].
  unfold fault_code. change (present r) with (present e). rewrite U7. cbn [Z.eqb]. cbv iota. wp_step.
  eapply wp_mono; [eapply (page_fault_zero_ok F st h p1 _ va a e d user_ writable)|].
  { done. } { simpl. by rewrite lookup_insert_ne. } { done. } { done. } { by destruct write, by_user. }
  intros _ s' (st' & f & e' & q & -> & -> & Q1 & Q2 & Q3 & Q4 & Q5 & Q6 & Q7 & Q8 & Q9 & Q10 & Q11).
  rewrite translate_S. wp_step. apply wp_getp. wp_step.
  eapply find_entry; [by rewrite Q2, Q3|done..|]. rewrite Hn. wp_step. eapply wp_rd_pte; [exact Q4|].
  assert (fault_code e' write by_user = None) as ->.
  { unfold fault_code. rewrite Q6, Q7, Q8. clear -Hbu Hwr.
    destruct write; [rewrite (Hwr eq_refl)|]; (destruct by_user; [rewrite (Hbu eq_refl)|]); by destruct writable, user_. }
  apply wp_ret. split; [done|]. exists st', f, e'.
  split; [reflexivity|]. split; [exact Q1|]. split; [exact Q4|]. split; [exact Q5|]. split; [simpl; by rewrite Q5|].
  split; [exact Q9|]. split; [intros g Hg; rewrite Q10 by exact Hg; by apply read_frame_ext|]. intros b Hb Hs. rewrite Q11 by assumption. simpl. by rewrite lookup_insert_ne.
Qed.
End Zero.

(** * A page of the parent's table in [fork_paging]: its entry 7 *)
Definition zero_dir : Directory_t := Directory {[512 := fork_src]} ∅ 0x150000.
Definition zero_paging : paging := with_phys (with_dirs fork_paging {[0x148000 := zero_dir]}) {[0x100F123 := 0x99]}.
Lemma demand_zero_witness :
  wp (@Table_entry_lazy_alloc (entry_ptr fork_src 7) true true true ;; @translate demo_page_link 2 0x80007123 0x400000 false true)
    (λ x s', s'.1 = demo_kheap_boot ∧ zeroed fork_F fork_stack zero_paging (entry_ptr fork_src 7) 0x80007123 x s'.2)
    (λ msg, msg = "no free frame" ∧ fork_stack = []) (demo_kheap_boot, zero_paging).
Proof.
  apply (demand_zero fork_F fork_stack demo_kheap_boot zero_paging 0x80007123 (entry_ptr fork_src 7) entry_zero zero_dir
    true true 0x400000 false true).
  - apply (frames_ok_ext _ _ _ _ fork_frames_ok); reflexivity.
  - eexists. exact (lookup_insert_eq _ _ _).
  - split.
    + reflexivity.
    + vm_compute. discriminate.
    + reflexivity.
    + discriminate.
    + exact (fork_pte_at 7 ltac:(lia)).
    + reflexivity.
    + reflexivity.
    + intros [Hs|Hs]; revert Hs; vm_compute; discriminate.
  - done.
  - done.
  - by left.
Defined.
