(* ===== verification/Quiet.v ===== *)
(** Changes to the address space that the kernel heap does not notice: new page
    tables, entries outside the heap, the scratch pages, frames of others.
    [kheap_ok] survives them. *)
From S2P Require Import Prelude Rbt TreeMm Common Kheap KheapSpec KheapOk Page PageInit PageOk PageFrames PageHeap PageCow KernelHeap.

Section Quiet.
Context `{HLo : HeapLinkOk} `{FN : FreshNode} `{PL : PageLink} `{PLok : !PageLinkOk}.
Context (F : gset Z).
Implicit Types (h : kheap) (p q : paging) (a z f i : Z) (e : Table_entry_t) (st : list Z) (fr : list Block_t) (al : list alloc).

(** the frames behind the heap *)
Definition heap_frame p f : Prop :=
  f ≠ 0 ∧ ∃ z e, in_heap_range z ∧ ¬ scratch p (page_of p z) ∧ pte p !! page_of p z = Some e ∧ e_addr e = f.

Record quiet p q : Prop := {
  qu_dir : ∃ d, dirs q !! current_page_dir q = Some d ∧ ∀ i, 959 ≤ i < 1023 → 0 < table_of d i;
  qu_page z : in_heap_range z → page_of q z = page_of p z;
  qu_e0 : empty_page0_ptr q = empty_page0_ptr p;
  qu_e1 : empty_page1_ptr q = empty_page1_ptr p;
  qu_dom a : is_Some (pte p !! a) → is_Some (pte q !! a);
  qu_pte a : ¬ scratch p a →
    pte q !! a = pte p !! a ∨ foreign p a ∧ ∀ e, pte q !! a = Some e → ¬ heap_frame p (e_addr e);
  qu_phys f i : heap_frame p f → 0 ≤ i < 4096 → phys_at q (Z.shiftl f 12 + i) = phys_at p (Z.shiftl f 12 + i)
}.

Lemma qu_scratch p q a : quiet p q → scratch q a ↔ scratch p a.
Proof. intros Hq. unfold scratch. by rewrite (qu_e0 _ _ Hq), (qu_e1 _ _ Hq). Qed.
Lemma qu_heap_pte p q z : quiet p q → in_heap_range z → ¬ scratch p (page_of p z) → pte q !! page_of p z = pte p !! page_of p z.
Proof. intros Hq Hz Hs. destruct (qu_pte _ _ Hq _ Hs) as [|[Hf _]]; [done|]. by destruct (heap_not_foreign p z Hz). Qed.
Lemma qu_foreign p q a : quiet p q → foreign q a ↔ foreign p a.
Proof.
  intros Hq. unfold foreign, heap_page. rewrite (qu_scratch _ _ _ Hq).
  split; intros [Hs Hh]; (split; [done|]); intros (z & Hz & ->); apply Hh; exists z; split; try done.
  - by rewrite (qu_page _ _ Hq).
  - by rewrite (qu_page _ _ Hq).
Qed.

(** Other entries map other frames. *)
Lemma heap_frame_mappers p f a : page_inv F p → heap_frame p f → ¬ foreign p a → a ∈ mappers p f →
  mappers p f = {[a]}.
Proof.
  intros Hi (H0 & z & e & Hz & Hs & He & <-) Hfo Ha.
  destruct (pi_entry _ _ Hi z Hz) as (e1 & He1 & Hg). simplify_eq. destruct (Hg Hs) as (_ & _ & _ & H3).
  destruct (H3 H0) as (_ & _ & _ & Hm). rewrite Hm in Ha. apply elem_of_singleton in Ha as ->. exact Hm.
Qed.
Lemma foreign_frame p a e : page_inv F p → foreign p a → pte p !! a = Some e → ¬ heap_frame p (e_addr e).
Proof.
  intros Hi [Hsa Hha] He (H0 & z & ez & Hz & Hs & Hez & Heq).
  destruct (pi_entry _ _ Hi z Hz) as (e1 & He1 & Hg). simplify_eq. destruct (Hg Hs) as (_ & _ & _ & H3).
  rewrite Heq in H3. destruct (H3 H0) as (_ & _ & _ & Hm).
  assert (a ∈ mappers p (e_addr e)) as Hin by (apply elem_of_mappers; eauto).
  rewrite Hm in Hin. apply elem_of_singleton in Hin as ->. apply Hha. by exists z.
Qed.
Lemma free_frame p f : mappers p f = ∅ → ¬ heap_frame p f.
Proof.
  intros Hm (H0 & z & e & Hz & Hs & He & <-).
  assert (page_of p z ∈ mappers p (e_addr e)) as Hin by (apply elem_of_mappers; eauto).
  rewrite Hm in Hin. by apply elem_of_empty in Hin.
Qed.

Lemma quiet_page_inv p q st : page_inv F p → quiet p q → frames_ok F st q → page_inv F q.
Proof.
  intros Hi Hq Hf. split; [eauto|apply Hq| |].
  - intros z z' Hz Hz'. rewrite !(qu_page _ _ Hq) by done. by apply Hi.
  - intros z Hz. rewrite (qu_page _ _ Hq) by done. destruct (pi_entry _ _ Hi z Hz) as (e & He & Hg).
    destruct (decide (scratch p (page_of p z))) as [Hs|Hs].
    { destruct (qu_dom _ _ Hq (page_of p z)) as [e' He']; [eauto|]. exists e'. split; [done|].
      by rewrite (qu_scratch _ _ _ Hq). }
    exists e. split; [by rewrite (qu_heap_pte _ _ _ Hq Hz Hs)|]. intros _.
    destruct (Hg Hs) as (G1 & G2 & G3 & G4). split_and!; [done..|]. intros H0.
    destruct (G4 H0) as (HF & Hp & Hr & Hm). split_and!; [done..|].
    assert (Hhf : heap_frame p (e_addr e)) by (split; eauto 10).
    apply set_eq. intros b. rewrite elem_of_mappers. setoid_rewrite (qu_scratch _ _ b Hq). split.
    + intros (e' & He' & Ha' & Hb). destruct (qu_pte _ _ Hq b Hb) as [Heq|[_ Hn]].
      * rewrite <- Hm. apply elem_of_mappers. exists e'. by rewrite <- Heq.
      * destruct (Hn _ He'). by rewrite Ha'.
    + intros ->%elem_of_singleton. exists e. by rewrite (qu_heap_pte _ _ _ Hq Hz Hs).
Qed.

Lemma quiet_backed p q z pa : quiet p q → backed q z pa ↔ backed p z pa.
Proof.
  intros Hq. unfold backed. rewrite (qu_scratch _ _ _ Hq).
  split; intros (Hz & Hs & e & He & Hrest); (split; [done|]); rewrite (qu_page _ _ Hq) in * by done;
    (split; [done|]); exists e; by rewrite (qu_heap_pte _ _ _ Hq) in *.
Qed.
Lemma quiet_keep p q z : quiet p q → page_keep p q z.
Proof.
  intros Hq. split.
  - intros (Hz & Hs & e & He & Hrest). split; [done|]. rewrite (qu_page _ _ Hq) by done.
    rewrite (qu_scratch _ _ _ Hq). split; [done|]. exists e. by rewrite (qu_heap_pte _ _ _ Hq).
  - intros v. rewrite !page_byte_backed. intros (pa & Hb & <-). exists pa. split; [by apply (quiet_backed p q z pa Hq)|].
    destruct Hb as (Hz & Hs & e & He & H0 & ->). apply (qu_phys _ _ Hq); [|apply Z.mod_pos_bound; lia].
    split; [done|]. eauto 10.
Qed.
Lemma quiet_pinned p q z : quiet p q → page_pinned q z → page_pinned p z.
Proof. intros Hq [Hz Hs]. split; [done|]. rewrite (qu_page _ _ Hq) in Hs by done. by apply (qu_scratch _ _ _ Hq). Qed.

(** The heap's invariant through any change of the pages that keeps its bytes. *)
Lemma kheap_ok_keep h p q fr al :
  kheap_ok F (h, p) fr al → page_inv F q → (∀ z, page_pinned q z → page_pinned p z) → (∀ z, page_keep p q z) →
  kheap_ok F (h, q) fr al.
Proof.
  intros [H1 _ H3 H4 H5 H6] Hi Hp Hk. split; [exact H1|exact Hi|exact H3|exact H4| |].
  - eapply Forall_impl; [exact H5|]. intros a [A1 A2 A3 A4 A5]. split; [exact A1|exact A2|exact A3| |].
    + intros i v Hv. apply Hk. by apply A4.
    + intros z Hz. apply Hk. by apply A5.
  - intros z Hz Hpin. by apply (H6 z Hz), Hp.
Qed.
Lemma kheap_ok_quiet h p q st fr al : kheap_ok F (h, p) fr al → quiet p q → frames_ok F st q → kheap_ok F (h, q) fr al.
Proof.
  intros Hk Hq Hf. pose proof (heap_env _ _ _ Hk) as Hi. eapply kheap_ok_keep; [exact Hk|by eapply quiet_page_inv| |].
  - intros z. by apply quiet_pinned.
  - intros z. by apply quiet_keep.
Qed.
Lemma kheap_ok_le h p q fr al : kheap_ok F (h, p) fr al → page_inv F q → page_le (λ _, True) p q → kheap_ok F (h, q) fr al.
Proof. intros Hk Hi [(Hp & Hle & _) _]. eapply kheap_ok_keep; [done..|]. intros z. by apply Hle. Qed.
End Quiet.
