(* ===== verification/Space.v ===== *)
(** The address spaces: all directories share the kernel's tables, each has
    tables of its own for the rest, and the processor's walk from [cr3] finds
    the tables the kernel's pointers name. *)
From S2P Require Import Prelude Rbt TreeMm Common Kheap KheapSpec KheapOk Page PageInit PageOk PageFrames PageHeap PageCow KernelHeap Quiet.

(** the slots of a directory that every task shares, and those it has for itself *)
Definition kernel_index (p : paging) (i : Z) : Prop := 0 ≤ i < kernel_low_ntable p ∨ 959 ≤ i < 1023.
Definition user_index (p : paging) (i : Z) : Prop := kernel_low_ntable p ≤ i < 959 ∨ i = 1023.

Section Space.
Context `{HLo : HeapLinkOk} `{FN : FreshNode} `{PL : PageLink} `{PLok : !PageLinkOk}.
(** the frames of the allocator; the tables the directories share *)
Context (F : gset Z) (K : Z → Z).
Implicit Types (p q : paging) (a t z f i j : Z) (e : Table_entry_t) (d : Directory_t) (fr : list Block_t).
Implicit Types (hole : Z → Z → Prop) (st : list Z).

(** where the processor finds what the kernel has at [t]: behind the heap's
    pages, elsewhere at the same address *)
Definition hw p t (pa : Z) : Prop := backed p t pa ∨ ¬ in_heap_range t ∧ pa = t.
(** A page with a frame is present, and the frame is the allocator's. *)
Definition user_entry e : Prop := e_addr e ≠ 0 → e_addr e ∈ F ∧ present e = 1.
Record user_table p t : Prop := {
  ut_heap : KERNEL_HEAP_BEGIN ≤ t ∧ t + 4096 ≤ KERNEL_HEAP_END;
  ut_entry j : 0 ≤ j < 1024 → ∃ e, pte p !! entry_ptr t j = Some e ∧ user_entry e
}.
Definition walk_ok p t (e : Directory_entry_t) : Prop :=
  d_present e = 1 ∧ d_rw e = 1 ∧ d_user e = 1 ∧ hw p t (Z.shiftl (d_addr e) 12).
Record slot_ok p d i : Prop := {
  sl_kernel : kernel_index p i → table_of d i = K i;
  sl_user : user_index p i → table_of d i = 0 ∨ user_table p (table_of d i);
  sl_walk : table_of d i ≠ 0 → walk_ok p (table_of d i) (dir_entry_of d i)
}.

(** The slots of [hole] are under construction. *)
Record space fr hole p : Prop := {
  sp_init : init_finished p = true;
  sp_low : 0 ≤ kernel_low_ntable p ≤ 959;
  sp_scratch : scratch_ok p;
  sp_scratch_low a : scratch p a → a < KERNEL_HEAP_BEGIN;
  sp_kernel i : kernel_index p i → K i + 4096 ≤ KERNEL_HEAP_BEGIN;
  sp_key a : is_Some (pte p !! a) → 0 ≤ a < 2 ^ 32 ∧ a mod 4 = 0 ∧ ¬ in_blocks a fr;
  sp_mem a d z : dirs p !! a = Some d → a ≤ z < a + sizeof_Directory_t → ¬ in_blocks z fr;
  sp_phys a d : dirs p !! a = Some d → hw p (a + 4096) (phyaddr d);
  sp_slot a d i : dirs p !! a = Some d → 0 ≤ i < 1024 → ¬ hole a i → slot_ok p d i;
  sp_own a d i b d' j : dirs p !! a = Some d → dirs p !! b = Some d' → user_index p i → user_index p j →
    ¬ hole a i → ¬ hole b j → table_of d i ≠ 0 → table_of d i = table_of d' j → a = b ∧ i = j;
  sp_cur i : 959 ≤ i < 1023 → ¬ hole (current_page_dir p) i
}.
Definition no_hole (a i : Z) : Prop := False.

Lemma index_range p i : 0 ≤ kernel_low_ntable p ≤ 959 → kernel_index p i ∨ user_index p i ↔ 0 ≤ i < 1024.
Proof. unfold kernel_index, user_index. lia. Qed.
Lemma index_apart p i : kernel_low_ntable p ≤ 959 → kernel_index p i → ¬ user_index p i.
Proof. unfold kernel_index, user_index. lia. Qed.
Lemma heap_index p z : in_heap_range z → kernel_index p (tb_idx z).
Proof. intros Hz. right. by apply tb_idx_heap. Qed.

(** Pages of the heap are in shared tables, below the heap. *)
Lemma space_page_of fr hole p z : space fr hole p → page_inv F p → in_heap_range z →
  page_of p z = entry_ptr (K (tb_idx z)) (tb_offset z) ∧ page_of p z < KERNEL_HEAP_BEGIN.
Proof.
  intros Hs Hi Hz. destruct (pi_dir _ _ Hi) as (d & Hd & _). pose proof (tb_idx_heap z Hz) as Hr.
  assert (Hk : table_of d (tb_idx z) = K (tb_idx z)).
  { eapply sl_kernel; [eapply (sp_slot _ _ _ Hs _ _ _ Hd)|by apply heap_index]; [lia|].
    by apply (sp_cur _ _ _ Hs). }
  unfold page_of. rewrite Hd, Hk. split; [done|].
  pose proof (sp_kernel _ _ _ Hs _ (heap_index p z Hz)). pose proof (tb_offset_range z). unfold entry_ptr. lia.
Qed.
Lemma space_foreign fr hole p a : space fr hole p → page_inv F p → KERNEL_HEAP_BEGIN ≤ a → foreign p a.
Proof.
  intros Hs Hi Ha. split.
  - intros Hsc. pose proof (sp_scratch_low _ _ _ Hs _ Hsc). lia.
  - intros (z & Hz & ->). destruct (space_page_of _ _ _ z Hs Hi Hz). lia.
Qed.

(** ** What keeps it *)
Lemma space_hole fr hole hole' p :
  space fr hole p → (∀ a i, hole a i → hole' a i) → (∀ i, 959 ≤ i < 1023 → ¬ hole' (current_page_dir p) i) →
  space fr hole' p.
Proof.
  intros [H1 H2 H3 H4 H5 H6 H7 H8 H9 H10 H11] Hh Hc. split; try assumption.
  - intros a d i Hd Hi Hn. apply (H9 a d i Hd Hi). auto.
  - intros a d i b d' j Ha Hb Hi Hj Hna Hnb. apply H10; auto.
Qed.
Lemma hw_mono p q t pa : (∀ z pa, backed p z pa → backed q z pa) → hw p t pa → hw q t pa.
Proof. intros Hb [Hh|Hh]; [left; by apply Hb|by right]. Qed.

(** Entries change as they may, new tables come, the directories stay. *)
Lemma space_entries fr hole p q :
  space fr hole p → dirs q = dirs p → current_page_dir q = current_page_dir p →
  kernel_low_ntable q = kernel_low_ntable p → init_finished q = init_finished p →
  empty_page0_ptr q = empty_page0_ptr p → empty_page1_ptr q = empty_page1_ptr p →
  (∀ a, is_Some (pte p !! a) → is_Some (pte q !! a)) →
  (∀ a, is_Some (pte q !! a) → is_Some (pte p !! a) ∨ 0 ≤ a < 2 ^ 32 ∧ a mod 4 = 0 ∧ ¬ in_blocks a fr) →
  (∀ a e, KERNEL_HEAP_BEGIN ≤ a → is_Some (pte p !! a) → pte q !! a = Some e → pte p !! a = Some e ∨ user_entry e) →
  (∀ z pa, backed p z pa → backed q z pa) → space fr hole q.
Proof.
  intros [H1 H2 H3 H4 H5 H6 H7 H8 H9 H10 H11] Ed Ec El Ei E0 E1 Hdom Hkey HF Hb.
  assert (Hki : ∀ i, kernel_index q i ↔ kernel_index p i) by (intros; unfold kernel_index; by rewrite El).
  assert (Hui : ∀ i, user_index q i ↔ user_index p i) by (intros; unfold user_index; by rewrite El).
  assert (Hsc : ∀ a, scratch q a ↔ scratch p a) by (intros; unfold scratch; by rewrite E0, E1).
  assert (Hut : ∀ t, user_table p t → user_table q t).
  { intros t [Ht He]. split; [done|]. intros j Hj. destruct (He j Hj) as (e & Hpe & HeF).
    destruct (Hdom (entry_ptr t j)) as [e' He']; [eauto|]. exists e'. split; [done|].
    destruct (HF (entry_ptr t j) e') as [Heq|Hin]; [unfold entry_ptr; lia|eauto|done| |done].
    rewrite Hpe in Heq. by injection Heq as <-. }
  split.
  - by rewrite Ei.
  - by rewrite El.
  - destruct H3 as (S0 & S1 & S2). unfold scratch_ok. rewrite E0, E1. auto.
  - intros a Ha. by apply H4, Hsc.
  - intros i Hi. by apply H5, Hki.
  - intros a Ha. destruct (Hkey a Ha) as [?|?]; [by apply H6|done].
  - rewrite Ed. exact H7.
  - intros a d Hd. rewrite Ed in Hd. eapply hw_mono; [exact Hb|]. by apply H8.
  - intros a d i Hd Hi Hn. rewrite Ed in Hd. destruct (H9 a d i Hd Hi Hn) as [S1 S2 S3]. split.
    + intros Hk. by apply S1, Hki.
    + intros Hu. destruct (S2 (proj1 (Hui i) Hu)) as [?|?]; [by left|right; auto].
    + intros Hne. destruct (S3 Hne) as (W1 & W2 & W3 & W4). split; [done|]. split; [done|]. split; [done|].
      by eapply hw_mono.
  - intros a d i b d' j Ha Hb' Hi Hj. rewrite Ed in Ha, Hb'. apply H10; [done|done|by apply Hui|by apply Hui].
  - rewrite Ec. exact H11.
Qed.
Lemma space_free fr fr' hole p :
  space fr hole p → (∀ z, in_blocks z fr' → in_blocks z fr) → space fr' hole p.
Proof.
  intros [H1 H2 H3 H4 H5 H6 H7 H8 H9 H10 H11] Hf. split; try assumption.
  - intros a Ha. destruct (H6 a Ha) as (? & ? & Hn). split; [done|]. split; [done|]. intros Hb. by apply Hn, Hf.
  - intros a d z Hd Hz Hb. by apply (H7 a d z Hd Hz), Hf.
Qed.
Lemma space_le fr fr' hole P p q :
  space fr hole p → page_inv F p → page_le P p q → (∀ z, in_blocks z fr' → in_blocks z fr) → space fr' hole q.
Proof.
  intros Hs Hi [(_ & _ & [S1 S2 S3 S4 S5 S6 S7 S8 _]) Hb] Hf. eapply space_free; [|exact Hf].
  eapply space_entries; [exact Hs|done|done|done|done|done|done| | | |exact Hb].
  - intros a. apply S7.
  - intros a Ha. left. by apply S7.
  - intros a e Ha He Hq. left. rewrite <- (S8 a); [done|]. by eapply space_foreign.
Qed.

(** ** Directories *)
Lemma backed_page_of p q z pa :
  (∀ z, in_heap_range z → page_of q z = page_of p z) → pte q = pte p →
  empty_page0_ptr q = empty_page0_ptr p → empty_page1_ptr q = empty_page1_ptr p → backed p z pa → backed q z pa.
Proof.
  intros Hp Hpte E0 E1 (Hz & Hs & e & He & Hrest). split; [done|]. unfold scratch in *. rewrite E0, E1, Hp, Hpte by done.
  split; [done|]. by exists e.
Qed.
Lemma dirs_page_of p m z :
  (∀ d, dirs p !! current_page_dir p = Some d →
     ∃ d', m !! current_page_dir p = Some d' ∧ ∀ j, 959 ≤ j < 1023 → table_of d' j = table_of d j) →
  is_Some (dirs p !! current_page_dir p) → in_heap_range z → page_of (with_dirs p m) z = page_of p z.
Proof.
  intros Hm [d Hd] Hz. destruct (Hm d Hd) as (d' & Hd' & Ht). unfold page_of. simpl. rewrite Hd, Hd', Ht; [done|].
  by apply tb_idx_heap.
Qed.
Lemma dirs_quiet p m st :
  page_inv F p → frames_ok F st p →
  (∀ d, dirs p !! current_page_dir p = Some d →
     ∃ d', m !! current_page_dir p = Some d' ∧ ∀ j, 959 ≤ j < 1023 → table_of d' j = table_of d j) →
  quiet p (with_dirs p m) ∧ frames_ok F st (with_dirs p m).
Proof.
  intros Hi Hf Hm. destruct (pi_dir _ _ Hi) as (d & Hd & Hpos). split; [|by eapply frames_ok_ext].
  destruct (Hm d Hd) as (d' & Hd' & Ht). split; try done.
  - exists d'. split; [exact Hd'|]. intros i Hr. rewrite Ht by done. by apply Hpos.
  - intros z Hz. by apply dirs_page_of.
  - by left.
Qed.

Definition slot_new p hole a i t : Prop :=
  ∀ b db j, dirs p !! b = Some db → user_index p j → ¬ hole b j → ¬ (b = a ∧ j = i) → table_of db j ≠ t.
Lemma space_slot fr hole hole' p a d d' i :
  space fr hole p → is_Some (dirs p !! current_page_dir p) → dirs p !! a = Some d → 0 ≤ i < 1024 →
  (∀ j, j ≠ i → table_of d' j = table_of d j ∧ dir_entry_of d' j = dir_entry_of d j) → phyaddr d' = phyaddr d →
  (∀ b j, ¬ hole' b j → ¬ (b = a ∧ j = i) → ¬ hole b j) →
  (¬ hole' a i → slot_ok p d' i) →
  (¬ hole' a i → user_index p i → table_of d' i ≠ 0 → slot_new p hole' a i (table_of d' i)) →
  (a = current_page_dir p → 959 ≤ i < 1023 → table_of d' i = table_of d i) →
  (∀ j, 959 ≤ j < 1023 → ¬ hole' (current_page_dir p) j) →
  space fr hole' (with_dirs p (<[a:=d']> (dirs p))).
Proof.
  intros Hs Hcur Hd Hi Hoth Hph Hh Hsl Hnew Hc Hcur'. set (q := with_dirs p _).
  assert (Hpo : ∀ z, in_heap_range z → page_of q z = page_of p z).
  { intros z Hz. apply dirs_page_of; [|done..]. intros dc Hdc. destruct (decide (current_page_dir p = a)) as [Ha|Ha].
    - rewrite Ha in Hdc |- *. rewrite lookup_insert_eq. exists d'. split; [done|]. simplify_eq. intros j Hj.
      destruct (decide (j = i)) as [->|]; [by apply Hc|by apply Hoth].
    - exists dc. by rewrite lookup_insert_ne. }
  assert (Hb : ∀ z pa, backed p z pa → backed q z pa) by (intros z pa; by apply backed_page_of).
  assert (Hslq : ∀ d i, slot_ok p d i → slot_ok q d i).
  { intros d0 i0 [S1 S2 S3]. split; [exact S1| |].
    - intros Hu. destruct (S2 Hu) as [?|[U1 U2]]; [by left|by right].
    - intros Hne. destruct (S3 Hne) as (W1 & W2 & W3 & W4). repeat (split; [done|]). by eapply hw_mono. }
  assert (Hsld : ∀ j, j ≠ i → slot_ok p d j → slot_ok p d' j).
  { intros j Hj [S1 S2 S3]. destruct (Hoth j Hj) as [E1 E2]. split; rewrite ?E1, ?E2; auto. }
  destruct Hs as [H1 H2 H3 H4 H5 H6 H7 H8 H9 H10 H11]. split; try assumption.
  - intros b db z Hdb. unfold q in Hdb. simpl in Hdb.
    apply lookup_insert_Some in Hdb as [[<- _]|[_ Hdb]]; [by apply (H7 a d)|by eapply H7].
  - intros b db Hdb. unfold q in Hdb. simpl in Hdb. eapply hw_mono; [exact Hb|].
    apply lookup_insert_Some in Hdb as [[<- <-]|[_ Hdb]]; [rewrite Hph|]; by eapply H8.
  - intros b db j Hdb Hj Hn. unfold q in Hdb. simpl in Hdb. apply Hslq.
    apply lookup_insert_Some in Hdb as [[<- <-]|[Hne Hdb]].
    + destruct (decide (j = i)) as [->|Hji]; [by apply Hsl|]. apply Hsld; [done|]. apply (H9 _ _ _ Hd Hj).
      apply Hh; [done|]. by intros [_ ?].
    + apply (H9 _ _ _ Hdb Hj). apply Hh; [done|]. by intros [-> _].
  - intros b db j c dc k Hdb Hdc Hj Hk Hnj Hnk Hne Heq. unfold q in Hdb, Hdc. simpl in Hdb, Hdc.
    change (user_index p j) in Hj. change (user_index p k) in Hk.
    assert (Hup : ∀ x dx y, <[a:=d']> (dirs p) !! x = Some dx → ¬ (x = a ∧ y = i) →
      ∃ dx', dirs p !! x = Some dx' ∧ table_of dx' y = table_of dx y).
    { intros x dx y Hx Hxy. apply lookup_insert_Some in Hx as [[<- <-]|[Hx1 Hx2]]; [|by exists dx].
      exists d. split; [done|]. symmetry. apply Hoth. intros ->. by apply Hxy. }
    destruct (decide (b = a ∧ j = i)) as [[-> ->]|Hbj]; destruct (decide (c = a ∧ k = i)) as [[-> ->]|Hck]; [done|..].
    + rewrite lookup_insert_eq in Hdb. injection Hdb as <-. destruct (Hup _ _ _ Hdc Hck) as (dc' & X1 & X2).
      destruct (Hnew Hnj Hj Hne c dc' k X1 Hk Hnk Hck). by rewrite X2.
    + rewrite lookup_insert_eq in Hdc. injection Hdc as <-. destruct (Hup _ _ _ Hdb Hbj) as (db' & X1 & X2).
      rewrite Heq in Hne. destruct (Hnew Hnk Hk Hne b db' j X1 Hj Hnj Hbj). by rewrite X2.
    + destruct (Hup _ _ _ Hdb Hbj) as (db' & X1 & X2). destruct (Hup _ _ _ Hdc Hck) as (dc' & Y1 & Y2).
      apply (H10 _ _ _ _ _ _ X1 Y1 Hj Hk (Hh _ _ Hnj Hbj) (Hh _ _ Hnk Hck)); congruence.
Qed.
Lemma space_new_dir fr hole p a pa :
  space fr hole p → is_Some (dirs p !! current_page_dir p) → dirs p !! a = None →
  (∀ z, a ≤ z < a + sizeof_Directory_t → ¬ in_blocks z fr) → hw p (a + 4096) pa →
  space fr (λ b j, hole b j ∨ b = a ∧ kernel_index p j) (with_dirs p (<[a:=dir_set_phyaddr pa directory_zero]> (dirs p))).
Proof.
  intros Hs Hcur Ha Hm Hpa. set (d' := dir_set_phyaddr pa directory_zero). set (q := with_dirs p _).
  assert (Hca : current_page_dir p ≠ a) by (intros <-; rewrite Ha in Hcur; by destruct Hcur).
  assert (Hpo : ∀ z, in_heap_range z → page_of q z = page_of p z).
  { intros z Hz. apply dirs_page_of; [|done..]. intros dc Hdc. exists dc. by rewrite lookup_insert_ne. }
  assert (Hb : ∀ z pa, backed p z pa → backed q z pa) by (intros z x; by apply backed_page_of).
  assert (Ht : ∀ j, table_of d' j = 0) by done.
  destruct Hs as [H1 H2 H3 H4 H5 H6 H7 H8 H9 H10 H11]. split; try assumption.
  - intros b db z Hdb. unfold q in Hdb. simpl in Hdb.
    apply lookup_insert_Some in Hdb as [[<- _]|[_ Hdb]]; [by apply Hm|by eapply H7].
  - intros b db Hdb. unfold q in Hdb. simpl in Hdb. eapply hw_mono; [exact Hb|].
    apply lookup_insert_Some in Hdb as [[<- <-]|[_ Hdb]]; [done|by eapply H8].
  - intros b db j Hdb Hj Hn. unfold q in Hdb. simpl in Hdb. apply lookup_insert_Some in Hdb as [[<- <-]|[Hne Hdb]].
    + split; [|by left|by rewrite Ht]. intros Hk. destruct Hn. by right.
    + destruct (H9 _ _ _ Hdb Hj) as [S1 S2 S3]; [tauto|]. split; [exact S1| |].
      * intros Hu. destruct (S2 Hu) as [?|[U1 U2]]; [by left|by right].
      * intros Hne'. destruct (S3 Hne') as (W1 & W2 & W3 & W4). repeat (split; [done|]). by eapply hw_mono.
  - intros b db j c dc k Hdb Hdc Hj Hk Hnj Hnk Hne Heq. unfold q in Hdb, Hdc. simpl in Hdb, Hdc.
    apply lookup_insert_Some in Hdb as [[<- <-]|[Hbne Hdb]]; [by rewrite Ht in Hne|].
    apply lookup_insert_Some in Hdc as [[<- <-]|[Hcne Hdc]]; [by rewrite Heq, Ht in Hne|].
    eapply H10; [exact Hdb|exact Hdc|exact Hj|exact Hk|tauto|tauto|done|done].
  - intros j Hj [Hh|[Hh _]]; [by apply (H11 j Hj)|]. by apply Hca.
Qed.

(** ** A fresh table *)
Lemma lookup_zero_table t a :
  zero_table t !! a = Some entry_zero ∧ (∃ j, 0 ≤ j < 1024 ∧ a = entry_ptr t j) ∨
  zero_table t !! a = None ∧ ∀ j, 0 ≤ j < 1024 → a ≠ entry_ptr t j.
Proof.
  unfold zero_table. destruct (list_to_map _ !! a) as [e|] eqn:Ha.
  - left. apply elem_of_list_to_map_2, list_elem_of_fmap in Ha as (j & [= -> ->] & Hj). apply elem_of_upto in Hj.
    split; [done|]. by exists j.
  - right. split; [done|]. intros j Hj ->. apply not_elem_of_list_to_map_2 in Ha. apply Ha.
    apply list_elem_of_fmap. exists (entry_ptr t j, entry_zero). split; [done|]. apply list_elem_of_fmap. exists j.
    split; [done|]. by apply elem_of_upto.
Qed.
Lemma words_small (m : gmap Z Table_entry_t) :
  (∀ a, is_Some (m !! a) → 0 ≤ a < 2 ^ 32 ∧ a mod 4 = 0) → Z.of_nat (size m) < 2 ^ 31.
Proof.
  intros Hm. assert (Hsub : dom m ⊆ (list_to_set (Z.mul 4 <$> seqZ 0 (2 ^ 30)) : gset Z)).
  { intros a Ha. apply elem_of_dom, Hm in Ha as [Hr Hd]. apply Z.mod_divide in Hd as [k ->]; [|lia].
    apply elem_of_list_to_set, list_elem_of_fmap. exists k. split; [lia|]. apply elem_of_seqZ. lia. }
  apply subseteq_size in Hsub. rewrite size_dom, size_list_to_set, length_fmap, length_seqZ in Hsub; [lia|].
  apply NoDup_fmap_2; [intros x y Hxy; lia|]. apply NoDup_seqZ.
Qed.

Definition add_table t p : paging := with_pte p (zero_table t ∪ pte p).
Section AddTable.
Context (fr : list Block_t) (hole : Z → Z → Prop) (st : list Z) (p : paging) (t : Z).
Context (Hs : space fr hole p) (Hi : page_inv F p) (Hf : frames_ok F st p).
Context (Ht : KERNEL_HEAP_BEGIN ≤ t ∧ t + 4096 ≤ KERNEL_HEAP_END) (Hal : page_aligned t).
Context (Hnew : ∀ z, t ≤ z < t + 4096 → pte p !! z = None ∧ ¬ in_blocks z fr).

Lemma add_table_at j : 0 ≤ j < 1024 → pte (add_table t p) !! entry_ptr t j = Some entry_zero.
Proof.
  intros Hj. simpl. destruct (lookup_zero_table t (entry_ptr t j)) as [[Hz _]|[_ Hn]]; [|by destruct (Hn j)].
  by rewrite (lookup_union_Some_l _ _ _ _ Hz).
Qed.
Lemma add_table_old a : is_Some (pte p !! a) → pte (add_table t p) !! a = pte p !! a.
Proof.
  intros [e Ha]. simpl. destruct (lookup_zero_table t a) as [[_ (j & Hj & ->)]|[Hz _]].
  - destruct (Hnew (entry_ptr t j)) as [Hn _]; [unfold entry_ptr; lia|]. by rewrite Hn in Ha.
  - by rewrite lookup_union_r.
Qed.
Lemma add_table_inv a e : pte (add_table t p) !! a = Some e → pte p !! a = Some e ∨ e = entry_zero ∧ ∃ j, 0 ≤ j < 1024 ∧ a = entry_ptr t j.
Proof.
  simpl. destruct (lookup_zero_table t a) as [[Hz Hj]|[Hz _]].
  - rewrite (lookup_union_Some_l _ _ _ _ Hz). intros [= <-]. by right.
  - rewrite lookup_union_r by done. by left.
Qed.
Lemma add_table_backed z pa : backed p z pa → backed (add_table t p) z pa.
Proof.
  intros (Hz & Hsc & e & He & Hr). split; [done|]. split; [exact Hsc|]. exists e. split; [|done].
  change (page_of (add_table t p) z) with (page_of p z). rewrite add_table_old; eauto.
Qed.
Lemma add_table_space : space fr hole (add_table t p).
Proof.
  eapply space_entries; [exact Hs|done|done|done|done|done|done| | | |apply add_table_backed].
  - intros a Ha. by rewrite add_table_old.
  - intros a [e He]. apply add_table_inv in He as [He|[-> (j & Hj & ->)]]; [left; eauto|right].
    destruct (Hnew (entry_ptr t j)) as [_ Hn]; [unfold entry_ptr; lia|].
    rewrite KERNEL_HEAP_BEGIN_eq, KERNEL_HEAP_END_eq in Ht. unfold page_aligned in Hal. unfold entry_ptr in *.
    split; [lia|]. split; [|done]. rewrite (Z.mul_comm 4), Z.mod_add by lia.
    apply Z.mod_divide in Hal as [k ->]; [|lia]. replace (k * 4096) with (k * 1024 * 4) by lia. by apply Z.mod_mul.
  - intros a e _ Ha He. left. by rewrite <- add_table_old.
Qed.
Lemma add_table_user : user_table (add_table t p) t.
Proof. split; [exact Ht|]. intros j Hj. exists entry_zero. by rewrite add_table_at. Qed.
Lemma add_table_mappers f : f ≠ 0 → mappers (add_table t p) f = mappers p f.
Proof.
  intros Hf0. apply set_eq. intros a. rewrite !elem_of_mappers. split.
  - intros (e & He & Ha & Hsc). apply add_table_inv in He as [He|[-> _]]; [by exists e|by destruct Hf0].
  - intros (e & He & Ha & Hsc). exists e. rewrite add_table_old by eauto. done.
Qed.
Lemma add_table_frames : frames_ok F st (add_table t p).
Proof.
  pose proof add_table_space as Hs'. destruct Hf as [F1 F2 F3 F4 F5 F6 F7 F8].
  assert (Hm : ∀ f, f ∈ F → mappers (add_table t p) f = mappers p f).
  { intros f HfF. apply add_table_mappers. destruct (F6 f HfF). lia. }
  split; try assumption.
  - intros f Hin. destruct (F5 f Hin) as [HfF He]. by rewrite Hm.
  - intros f HfF. rewrite Hm by done. by apply F7.
  - apply words_small. intros a Ha. by destruct (sp_key _ _ _ Hs' a Ha) as (? & ? & _).
Qed.
Lemma add_table_quiet : quiet p (add_table t p).
Proof.
  split; try done.
  - exact (pi_dir _ _ Hi).
  - intros a Ha. by rewrite add_table_old.
  - intros a Hsc. destruct (pte p !! a) as [e|] eqn:Ha; [left; rewrite add_table_old by eauto; done|].
    destruct (pte (add_table t p) !! a) as [e|] eqn:Ha'; [|by left].
    apply add_table_inv in Ha' as Hinv. destruct Hinv as [?|[-> (j & Hj & ->)]]; [congruence|]. right.
    split; [eapply space_foreign; [exact Hs|exact Hi|unfold entry_ptr; lia]|]. intros e [= <-] [H0 _]. by destruct H0.
Qed.
Lemma add_table_new a i : slot_new p hole a i t.
Proof.
  intros b db j Hdb Hj Hh _ <-. pose proof (sp_low _ _ _ Hs) as Hl.
  pose proof (proj1 (index_range p j Hl) (or_intror Hj)) as Hjr.
  destruct (sl_user _ _ _ (sp_slot _ _ _ Hs b db j Hdb Hjr Hh) Hj) as [H0|[_ Hu]].
  - rewrite H0, KERNEL_HEAP_BEGIN_eq in Ht. lia.
  - destruct (Hu 0 ltac:(lia)) as (e & He & _). destruct (Hnew (entry_ptr (table_of db j) 0)) as [Hn _]; [unfold entry_ptr; lia|].
    congruence.
Qed.
End AddTable.
End Space.
