(* ===== verification/BootTables.v ===== *)
(** The page tables [Page::init] builds before paging is on: memory comes from
    the static heap behind the kernel's image, each slot of the directory gets
    a table of its own there, the heap's tables stay empty and the kernel's
    pages are mapped where they are. *)
From S2P Require Import Prelude Rbt TreeMm Common Kheap KheapTrees KheapSpec KheapOk Page PageInit PageOk PageFrames PageHeap Space.

(** * The static heap *)
Section Static.
Context `{HL : HeapLink} `{FN : FreshNode} `{PL : PageLink}.
Implicit Types (h : kheap) (p : paging).

Lemma get_aligned_0 a : 0 ≤ a < 2 ^ 32 → get_aligned a 0 = a.
Proof.
  intros Ha. destruct (Z.eq_dec a 0) as [->|H0]; [done|]. rewrite get_aligned_eq by lia.
  change (2 ^ 0) with 1. rewrite Z.div_1_r. lia.
Qed.
Lemma pre_kmalloc_run size palign h p :
  kheap_finish_init_called h = false →
  kernel_kmalloc size palign (h, p) =
    Ret (get_aligned (kheap_static_end h) palign, (with_static_end h (u32 (get_aligned (kheap_static_end h) palign + size)), p)).
Proof. intros Hf. unfold kernel_kmalloc. simpl. unfold kmalloc, kmalloc_pre_init. unfold mbind, M_bind, get. simpl. by rewrite Hf. Qed.

(** With a second region of useful memory above the first, the topmost frame
    [hi] of the first lies below the lowest one [lo] of the second: the number
    of counters [hi - lo + 1] wraps, and what comes next from the static heap
    lies below its old end, over what is in use. *)
Lemma frame_counts_wrap hi lo h p :
  kheap_finish_init_called h = false → 0 ≤ hi → hi + 1 < lo < 2 ^ 20 → 4 * (lo - hi - 1) ≤ kheap_static_end h < 2 ^ 32 →
  kernel_kmalloc (4 * u32 (hi - lo + 1)) 0 (h, p) =
    Ret (kheap_static_end h, (with_static_end h (kheap_static_end h - 4 * (lo - hi - 1)), p)).
Proof.
  intros Hf H1 H2 H3. rewrite pre_kmalloc_run by done. rewrite get_aligned_0 by lia. do 4 f_equal.
  assert (Hw : u32 (hi - lo + 1) = hi - lo + 1 + 2 ^ 32) by (unfold u32; symmetry; apply (Z.mod_unique _ _ (-1)); lia).
  rewrite Hw. unfold u32. symmetry. apply (Z.mod_unique _ _ 4); lia.
Qed.

(** what building the tables leaves alone: the frames, the trees *)
Definition frame_fields p :=
  (frames p, frames_len p, nframes p, frame_ref_cnt p, ref_lo p, ref_len p, empty_page0_ptr p, empty_page1_ptr p, kernel_low_ntable p).
Definition same_rest (s s' : kstate) : Prop :=
  frame_fields s'.2 = frame_fields s.2 ∧ kheap_static_end s.1 ≤ kheap_static_end s'.1 ∧
  ∃ e, s'.1 = with_static_end s.1 e.
Lemma same_rest_refl s : same_rest s s.
Proof. split; [done|]. split; [lia|]. exists (kheap_static_end s.1). by destruct s as [[]]. Qed.
Lemma same_rest_trans s1 s2 s3 : same_rest s1 s2 → same_rest s2 s3 → same_rest s1 s3.
Proof. intros (H1 & H2 & e & H3) (H4 & H5 & e' & H6). split; [congruence|]. split; [lia|]. exists e'. by rewrite H6, H3. Qed.
End Static.

(** * The directory being built *)
Section Building.
Context `{HL : HeapLink} `{FN : FreshNode} `{PL : PageLink}.
(** the static heap's end where the tables begin; the directory *)
Context (A da : Z).
Implicit Types (h : kheap) (p : paging) (d : Directory_t) (a z i j t : Z) (m : Z → Table_entry_t).

(** Page number [n] has the entry [m n] once its slot has a table. *)
Record building m d (s : kstate) : Prop := {
  bd_flag : kheap_finish_init_called s.1 = false;
  bd_limit : page_aligned A ∧ A + 0x400000 ≤ KERNEL_HEAP_BEGIN;
  bd_end : 0 < da ∧ da + sizeof_Directory_t ≤ kheap_static_end s.1 ≤ A + 4096 * Z.of_nat (size (tables d));
  bd_dirs : dirs s.2 = {[da := d]};
  bd_cur : current_page_dir s.2 = da;
  bd_init : init_finished s.2 = false;
  bd_table i t : tables d !! i = Some t →
    0 ≤ i < 1024 ∧ page_aligned t ∧ da + sizeof_Directory_t ≤ t ∧ t + 4096 ≤ kheap_static_end s.1;
  bd_inj i j t : tables d !! i = Some t → tables d !! j = Some t → i = j;
  bd_walk i t : tables d !! i = Some t →
    let e := dir_entry_of d i in d_present e = 1 ∧ d_rw e = 1 ∧ d_user e = 1 ∧ Z.shiftl (d_addr e) 12 = t;
  bd_entry i j t : tables d !! i = Some t → 0 ≤ j < 1024 → pte s.2 !! entry_ptr t j = Some (m (i * 1024 + j));
  bd_key a : is_Some (pte s.2 !! a) → ∃ i j t, tables d !! i = Some t ∧ 0 ≤ j < 1024 ∧ a = entry_ptr t j;
  bd_zero i j : tables d !! i = None → 0 ≤ j < 1024 → m (i * 1024 + j) = entry_zero
}.

Lemma tables_few (ts : gmap Z Z) : (∀ i t, ts !! i = Some t → 0 ≤ i < 1024) → (size ts ≤ 1024)%nat.
Proof.
  intros Hr. rewrite <- (size_dom (D:=gset Z)).
  trans (size (list_to_set (seqZ 0 1024) : gset Z)).
  - apply subseteq_size. intros i [t Hi]%elem_of_dom. apply elem_of_list_to_set, elem_of_seqZ. destruct (Hr i t Hi). lia.
  - rewrite size_list_to_set by apply NoDup_seqZ. by rewrite length_seqZ.
Qed.
Lemma static_bound m d s : building m d s → 0 < kheap_static_end s.1 ≤ A + 0x400000 ∧ A + 0x400000 ≤ KERNEL_HEAP_BEGIN.
Proof.
  intros Hb. pose proof (tables_few (tables d) (λ i t Hi, proj1 (bd_table _ _ _ Hb i t Hi))).
  destruct (bd_limit _ _ _ Hb), (bd_end _ _ _ Hb). unfold sizeof_Directory_t in *. lia.
Qed.
(** with one slot free there is room for a table *)
Lemma static_room m d s i : building m d s → 0 ≤ i < 1024 → tables d !! i = None →
  A + 4096 * (Z.of_nat (size (tables d)) + 1) ≤ KERNEL_HEAP_BEGIN.
Proof.
  intros Hb Hi Hn. assert (Hs : (size (<[i:=0%Z]> (tables d)) ≤ 1024)%nat).
  { apply tables_few. intros j t [[<- _]|[_ Hj]]%lookup_insert_Some; [done|]. by destruct (bd_table _ _ _ Hb j t Hj). }
  rewrite map_size_insert, Hn in Hs. destruct (bd_limit _ _ _ Hb) as [_ Hl]. lia.
Qed.
Lemma tb_idx_range z : 0 ≤ z < 2 ^ 32 → 0 ≤ tb_idx z < 1024.
Proof.
  intros Hz. unfold tb_idx. rewrite Z.shiftr_div_pow2 by lia. split; [apply Z.div_pos; lia|apply Z.div_lt_upper_bound; lia].
Qed.
Lemma same_slot z i : page_aligned i → i ≤ z < i + 4096 → tb_idx z = tb_idx i.
Proof. intros Hal Hz. by rewrite <- (proj1 (tb_floor z)), <- (proj1 (tb_floor i)), (same_page z i Hal Hz). Qed.
Lemma page_number z : tb_idx z * 1024 + tb_offset z = z / 4096.
Proof.
  unfold tb_idx, tb_offset. change 0x3FF with (Z.ones 10). rewrite Z.land_ones, !Z.shiftr_div_pow2 by lia.
  change (2 ^ 22) with (4096 * 1024). change (2 ^ 10) with 1024. change (2 ^ 12) with 4096.
  rewrite <- Z.div_div by lia. pose proof (Z.div_mod (z / 4096) 1024 ltac:(lia)). lia.
Qed.
Lemma table_of_some d i t : tables d !! i = Some t → table_of d i = t.
Proof. intros Hi. unfold table_of. by rewrite Hi. Qed.
Lemma table_of_none d i : tables d !! i = None → table_of d i = 0.
Proof. intros Hi. unfold table_of. by rewrite Hi. Qed.
Lemma building_pos m d s i t : building m d s → tables d !! i = Some t → 0 < t.
Proof. intros Hb Hi. destruct (bd_table _ _ _ Hb i t Hi), (bd_end _ _ _ Hb). unfold sizeof_Directory_t in *. lia. Qed.

(** A slot gets its table: the state behind [get_page]. *)
Definition table_made (i t : Z) (d : Directory_t) : Directory_t :=
  let d1 := dir_set_table i t d in
  let d2 := dir_set_entry i (dentry_set_all (dir_entry_of d1 i)) d1 in
  dir_set_entry i (dentry_set_addr (Z.shiftr t 12) (dir_entry_of d2 i)) d2.
Lemma table_made_entry i j t d :
  dir_entry_of (table_made i t d) j =
    if decide (j = i) then dentry_set_addr (Z.shiftr t 12) (dentry_set_all (dir_entry_of d i)) else dir_entry_of d j.
Proof.
  unfold table_made, dir_entry_of. simpl. rewrite !lookup_insert_eq. case_decide as Hj.
  - subst. by rewrite lookup_insert_eq.
  - by rewrite !lookup_insert_ne.
Qed.
Lemma aligned_shift t : page_aligned t → 0 ≤ t < 2 ^ 32 → Z.shiftl (Z.shiftr t 12 mod 2 ^ 20) 12 = t.
Proof.
  unfold page_aligned. intros Hm Ht. apply Z.mod_divide in Hm as [k ->]; [|lia].
  rewrite Z.shiftr_div_pow2, Z.shiftl_mul_pow2 by lia. change (2 ^ 12) with 4096. rewrite Z.div_mul by lia.
  rewrite Z.mod_small by lia. lia.
Qed.

Lemma building_table m d h p i :
  building m d (h, p) → 0 ≤ i < 1024 → tables d !! i = None →
  let t := get_aligned (kheap_static_end h) 12 in
  kheap_static_end h ≤ t ∧ page_aligned t ∧ t + 4096 ≤ A + 4096 * (Z.of_nat (size (tables d)) + 1) ∧ t + 4096 ≤ KERNEL_HEAP_BEGIN.
Proof.
  intros Hb Hi Hn t. pose proof (static_room _ _ _ i Hb Hi Hn) as Hr. destruct (bd_end _ _ _ Hb) as [_ [_ He]].
  destruct (static_bound _ _ _ Hb) as [Hs _]. destruct (bd_limit _ _ _ Hb) as [HA _]. cbn [fst] in *.
  rewrite KERNEL_HEAP_BEGIN_eq in *. destruct (get_aligned_spec (kheap_static_end h) 12) as [Hg Hm]; [lia..|]. fold t in Hg, Hm.
  assert (Hle : t ≤ A + 4096 * Z.of_nat (size (tables d))).
  { apply get_aligned_le; [lia..| |lia]. change (2 ^ 12) with 4096. rewrite Z.mul_comm. by rewrite Z.mod_add. }
  unfold page_aligned. change (2 ^ 12) with 4096 in *. lia.
Qed.
Lemma building_made m d h p i :
  building m d (h, p) → 0 ≤ i < 1024 → tables d !! i = None →
  let t := get_aligned (kheap_static_end h) 12 in
  building m (table_made i t d)
    (with_static_end h (t + 4096), with_dirs (with_pte p (zero_table t ∪ pte p)) {[da := table_made i t d]}).
Proof.
  intros Hb Hi Hn t. destruct (building_table _ _ _ _ _ Hb Hi Hn) as (Ht1 & Ht2 & Ht3 & Ht4). fold t in Ht1, Ht2, Ht3, Ht4.
  pose proof (static_bound _ _ _ Hb) as [Hs _]. pose proof (bd_end _ _ _ Hb) as [Hda [Hde _]]. cbn [fst snd] in *.
  assert (Hts : tables (table_made i t d) = <[i:=t]> (tables d)) by done.
  split; cbn [fst snd]; rewrite ?Hts.
  - exact (bd_flag _ _ _ Hb).
  - exact (bd_limit _ _ _ Hb).
  - rewrite map_size_insert, Hn. cbn. lia.
  - done.
  - exact (bd_cur _ _ _ Hb).
  - exact (bd_init _ _ _ Hb).
  - intros j u [[<- <-]|[_ Hj]]%lookup_insert_Some; [cbn; unfold sizeof_Directory_t in *; split; [done|]; split; [done|]; lia|].
    destruct (bd_table _ _ _ Hb j u Hj) as (? & ? & ? & ?). cbn in *. split; [done|]. split; [done|]. lia.
  - intros j k u [[<- <-]|[Hji Hj]]%lookup_insert_Some [[<- Hu]|[Hki Hk]]%lookup_insert_Some; [done| | |].
    + destruct (bd_table _ _ _ Hb k t Hk) as (_ & _ & _ & Hlt). cbn in Hlt. lia.
    + subst u. destruct (bd_table _ _ _ Hb j t Hj) as (_ & _ & _ & Hlt). cbn in Hlt. lia.
    + by eapply (bd_inj _ _ _ Hb).
  - intros j u Hj. rewrite table_made_entry. case_decide as Hji.
    + subst j. rewrite lookup_insert_eq in Hj. injection Hj as <-. cbn. rewrite KERNEL_HEAP_BEGIN_eq in Ht4.
      rewrite aligned_shift by (done || lia). done.
    + rewrite lookup_insert_ne in Hj by done. by apply (bd_walk _ _ _ Hb).
  - intros j k u [[<- <-]|[_ Hj]]%lookup_insert_Some Hk; cbn.
    + destruct (lookup_zero_table t (entry_ptr t k)) as [[Hz _]|[_ Hz]]; [|by destruct (Hz k)].
      rewrite (lookup_union_Some_l _ _ _ _ Hz). by rewrite (bd_zero _ _ _ Hb).
    + destruct (lookup_zero_table t (entry_ptr u k)) as [[_ (k' & Hk' & Heq)]|[Hz _]].
      { destruct (bd_table _ _ _ Hb j u Hj) as (_ & _ & _ & Hlt). cbn in Hlt. unfold entry_ptr in Heq. lia. }
      rewrite lookup_union_r by done. by apply (bd_entry _ _ _ Hb).
  - intros a [e Ha]. cbn in Ha. destruct (lookup_zero_table t a) as [[_ (k & Hk & ->)]|[Hz _]].
    + exists i, k, t. by rewrite lookup_insert_eq.
    + rewrite lookup_union_r in Ha by done. destruct (bd_key _ _ _ Hb a) as (j & k & u & Hj & Hk & ->); [by eexists|].
      exists j, k, u. rewrite lookup_insert_ne; [done|]. intros ->. congruence.
  - intros j k Hj Hk. apply (bd_zero _ _ _ Hb); [|done]. by apply lookup_insert_None in Hj as [? _].
Qed.

(** slots keep their tables; those of [P] may get one *)
Definition tables_grow (P : Z → Prop) d d' : Prop :=
  ∀ i, tables d' !! i = tables d !! i ∨ tables d !! i = None ∧ P i.
Lemma tables_grow_refl P d : tables_grow P d d.
Proof. intros i. by left. Qed.
Lemma tables_grow_trans P d1 d2 d3 : tables_grow P d1 d2 → tables_grow P d2 d3 → tables_grow P d1 d3.
Proof. intros H1 H2 i. destruct (H2 i) as [->|[H3 H4]]; [apply H1|]. destruct (H1 i) as [<-|[H5 _]]; by right. Qed.
Lemma tables_grow_weaken (P Q : Z → Prop) d d' : (∀ i, P i → Q i) → tables_grow P d d' → tables_grow Q d d'.
Proof. intros HPQ Hg i. destruct (Hg i) as [?|[? ?]]; [by left|right]. auto. Qed.
Lemma tables_grow_some P d d' i t : tables_grow P d d' → tables d !! i = Some t → tables d' !! i = Some t.
Proof. intros Hg Hi. destruct (Hg i) as [->|[Hn _]]; congruence. Qed.
Lemma tables_grow_inv P d d' i : tables_grow P d d' → is_Some (tables d' !! i) → is_Some (tables d !! i) ∨ P i.
Proof. intros Hg Hi. destruct (Hg i) as [Heq|[_ HP]]; [left; by rewrite <- Heq|by right]. Qed.

Lemma boot_get_page m d h p z :
  building m d (h, p) → 0 ≤ z < 2 ^ 32 →
  wp (get_page kernel_kmalloc da z true)
    (λ a s', ∃ d' t, building m d' s' ∧ tables d' !! tb_idx z = Some t ∧ a = entry_ptr t (tb_offset z) ∧
       tables_grow (λ i, i = tb_idx z) d d' ∧ same_rest (h, p) s') (λ _, False) (h, p).
Proof.
  intros Hb Hz. pose proof (tb_idx_range z Hz) as Hi. set (i := tb_idx z) in *.
  pose proof (bd_dirs _ _ _ Hb) as Hd. cbn [snd] in Hd. unfold get_page. fold i.
  assert (Hdl : dirs p !! da = Some d) by (rewrite Hd; apply lookup_singleton_eq).
  wp_step. eapply wp_rd_dir; [exact Hdl|]. destruct (tables d !! i) as [t|] eqn:Ht.
  { rewrite (table_of_some _ _ _ Ht). pose proof (building_pos _ _ _ _ _ Hb Ht).
    destruct (Z.eqb_spec t 0); [lia|]. apply wp_ret. exists d, t. split; [done|]. split; [done|]. split; [done|].
    split; [apply tables_grow_refl|apply same_rest_refl]. }
  rewrite (table_of_none _ _ Ht). cbn [Z.eqb negb]. set (t := get_aligned (kheap_static_end h) 12).
  destruct (building_table _ _ _ _ _ Hb Hi Ht) as (Ht1 & Ht2 & Ht3 & Ht4). fold t in Ht1, Ht2, Ht3, Ht4.
  pose proof (static_bound _ _ _ Hb) as [Hs _]. pose proof (bd_init _ _ _ Hb) as Hini. cbn [fst snd] in *. rewrite KERNEL_HEAP_BEGIN_eq in *.
  wp_step. eapply wp_of_run; [apply pre_kmalloc_run, (bd_flag _ _ _ Hb)|]. fold t. unfold sizeof_Table_t. rewrite u32_small by lia.
  wp_step. eapply wp_upd_dir; [exact Hdl|]. cbn [fst snd]. wp_step. unfold touch. wp_step. apply wp_getp. cbn [snd].
  change (init_finished (with_dirs p _)) with (init_finished p). rewrite Hini. apply wp_ret.
  wp_step. apply wp_getp. wp_step. apply wp_putp. cbn [fst snd].
  wp_step. eapply wp_rd_dir; [cbn; apply lookup_insert_eq|]. wp_step. eapply wp_upd_dir; [cbn; apply lookup_insert_eq|]. cbn [fst snd].
  wp_step. apply wp_getp. wp_step. unfold get_physical_addr. wp_step. apply wp_getp. cbn [snd].
  change (init_finished _) with (init_finished p). rewrite Hini. apply wp_ret.
  wp_step. eapply wp_rd_dir; [cbn; apply lookup_insert_eq|]. wp_step. eapply wp_upd_dir; [cbn; apply lookup_insert_eq|]. cbn [fst snd].
  apply wp_ret. exists (table_made i t d), t. pose proof (building_made _ _ _ _ _ Hb Hi Ht) as Hb'. cbv zeta in Hb'. fold t in Hb'.
  split; [|split; [apply lookup_insert_eq|split; [done|split]]].
  - eapply (eq_ind _ (building m (table_made i t d)) Hb'). unfold with_dirs, with_pte. cbn.
    by rewrite Hd, !insert_insert_eq, insert_singleton_eq.
  - intros j. destruct (decide (j = i)) as [->|Hj]; [by right|left; by apply lookup_insert_ne].
  - split; [done|]. split; [cbn; lia|]. by eexists.
Qed.

(** [kheap_init]'s loop: every slot of the range has its table. *)
Lemma boot_get_pages n i m d s :
  building m d s → page_aligned i → 0 ≤ i → i + 4096 * Z.of_nat n < 2 ^ 32 →
  wp (@get_pages paging kernel_env n i)
    (λ _ s', ∃ d', building m d' s' ∧ tables_grow (λ k, ∃ z, i ≤ z < i + 4096 * Z.of_nat n ∧ k = tb_idx z) d d' ∧
       (∀ z, i ≤ z < i + 4096 * Z.of_nat n → is_Some (tables d' !! tb_idx z)) ∧ same_rest s s') (λ _, False) s.
Proof.
  revert i d s; induction n as [|n IH]; intros i d [h p] Hb Hal Hi Hn; cbn [get_pages].
  { apply wp_ret. exists d. split; [done|]. split; [apply tables_grow_refl|]. split; [lia|apply same_rest_refl]. }
  rewrite Nat2Z.inj_succ in *.
  wp_step. unfold Kheap.get_page, kernel_env, page_env. wp_step. apply wp_getp. cbn [snd].
  pose proof (bd_cur _ _ _ Hb) as Hc. cbn [snd] in Hc. rewrite Hc.
  eapply wp_mono; [apply (boot_get_page m d h p i Hb); lia|]. intros a s1 (d1 & t & Hb1 & Ht & _ & Hoth & Hr1).
  rewrite u32_small by lia.
  eapply wp_mono; [apply (IH (i + 0x1000) d1 s1 Hb1); [unfold page_aligned in *; by rewrite (Z.add_mod i), Hal by lia|lia|lia]|].
  intros _ s2 (d2 & Hb2 & Hg2 & Hz2 & Hr2). exists d2. split; [done|]. split; [|split].
  - eapply tables_grow_trans with d1.
    + eapply tables_grow_weaken; [|exact Hoth]. intros k ->. exists i. split; [lia|done].
    + eapply tables_grow_weaken; [|exact Hg2]. intros k (z & Hz & ->). exists z. split; [lia|done].
  - intros z Hz. destruct (Z.lt_ge_cases z (i + 0x1000)) as [Hlt|Hge]; [|apply Hz2; lia].
    rewrite (same_slot z i Hal ltac:(lia)). exists t. by eapply tables_grow_some.
  - by eapply same_rest_trans.
Qed.

(** * The kernel's pages *)
Definition set_entry (n : Z) (e : Table_entry_t) m : Z → Table_entry_t := λ k, if k =? n then e else m k.
Lemma building_ext m m' d s : (∀ n, m n = m' n) → building m d s → building m' d s.
Proof.
  intros Hm [B1 B2 B3 B4 B5 B6 B7 B8 B9 B10 B11 B12]. split; try assumption.
  - intros i j t Hi Hj. rewrite <- Hm. by apply B10.
  - intros i j Hi Hj. rewrite <- Hm. by apply B12.
Qed.
Lemma building_entry m d h p i j t e :
  building m d (h, p) → tables d !! i = Some t → 0 ≤ j < 1024 →
  building (set_entry (i * 1024 + j) e m) d (h, with_pte p (<[entry_ptr t j:=e]> (pte p))).
Proof.
  intros Hb Ht Hj. destruct (bd_table _ _ _ Hb i t Ht) as (_ & Hal & _).
  assert (Hne : ∀ i' j' t', tables d !! i' = Some t' → 0 ≤ j' < 1024 → entry_ptr t' j' = entry_ptr t j → i' = i ∧ j' = j).
  { intros i' j' t' Ht' Hj' Heq. destruct (bd_table _ _ _ Hb i' t' Ht') as (_ & Hal' & _). unfold page_aligned, entry_ptr in *.
    apply Z.mod_divide in Hal as [k ->]; [|lia]. apply Z.mod_divide in Hal' as [k' ->]; [|lia].
    assert (k = k') as -> by lia. split; [by eapply (bd_inj _ _ _ Hb)|lia]. }
  pose proof Hb as [B1 B2 B3 B4 B5 B6 B7 B8 B9 B10 B11 B12]. split; try assumption.
  - intros i' j' t' Ht' Hj'. cbn [snd pte with_pte]. unfold set_entry.
    destruct (decide (entry_ptr t' j' = entry_ptr t j)) as [Heq|Hn].
    + destruct (Hne _ _ _ Ht' Hj' Heq) as [-> ->]. by rewrite Heq, lookup_insert_eq, Z.eqb_refl.
    + rewrite lookup_insert_ne by congruence. destruct (Z.eqb_spec (i' * 1024 + j') (i * 1024 + j)) as [Heq|_]; [|by apply B10].
      assert (i' = i) as -> by lia. assert (j' = j) as -> by lia. congruence.
  - intros a [e' Ha]. cbn in Ha. apply lookup_insert_Some in Ha as [[<- _]|[_ Ha]]; [by exists i, j, t|]. by apply B11.
  - intros i' j' Hi' Hj'. unfold set_entry. destruct (Z.eqb_spec (i' * 1024 + j') (i * 1024 + j)) as [Heq|_]; [|by apply B12].
    assert (i' = i) as -> by lia. congruence.
Qed.

(** a page of the kernel, where it is *)
Definition ident (n : Z) : Table_entry_t := set_addr n (set_user 0 (set_rw 1 (set_present 1 entry_zero))).

Lemma boot_map_kernel fuel i m d s :
  building m d s → page_aligned i → 0x1000 ≤ i → 2 ^ 32 ≤ i + 4096 * Z.of_nat fuel →
  (∀ n, i ≤ 4096 * n < KERNEL_HEAP_BEGIN → m n = entry_zero) →
  wp (map_kernel fuel i)
    (λ _ s', ∃ d', let e := kheap_static_end s'.1 in
       building (λ n, if (i <=? 4096 * n) && (4096 * n <? e) then ident n else m n) d' s' ∧
       tables_grow (λ k, ∃ z, i ≤ z < e ∧ k = tb_idx z) d d' ∧
       (∀ z, i ≤ z < e → is_Some (tables d' !! tb_idx z)) ∧ same_rest s s') (λ _, False) s.
Proof.
  revert i m d s; induction fuel as [|fuel IH]; intros i m d [h p] Hb Hal Hi Hf Hz.
  { cbn [map_kernel]. wp_step. apply wp_ret. destruct (static_bound _ _ _ Hb) as [Hs HA]. cbn [fst] in *. rewrite KERNEL_HEAP_BEGIN_eq in *.
    destruct (Z.ltb_spec i (kheap_static_end h)); [lia|]. apply wp_ret. exists d. split; [|split; [apply tables_grow_refl|split; [cbn; lia|apply same_rest_refl]]].
    eapply building_ext; [|exact Hb]. intros n. cbn [fst]. destruct (Z.leb_spec i (4096 * n)); [|done]. destruct (Z.ltb_spec (4096 * n) (kheap_static_end h)); [lia|done]. }
  rewrite Nat2Z.inj_succ in *. cbn [map_kernel]. wp_step. apply wp_ret.
  destruct (static_bound _ _ _ Hb) as [Hs HA]. cbn [fst] in *. 
  destruct (Z.ltb_spec i (kheap_static_end h)) as [Hlt|Hge].
  2:{ apply wp_ret. exists d. split; [|split; [apply tables_grow_refl|split; [cbn; lia|apply same_rest_refl]]].
    eapply building_ext; [|exact Hb]. intros n. cbn [fst]. destruct (Z.leb_spec i (4096 * n)); [|done]. destruct (Z.ltb_spec (4096 * n) (kheap_static_end h)); [lia|done]. }
  assert (Hr : 0 ≤ i < 2 ^ 32) by (rewrite KERNEL_HEAP_BEGIN_eq in *; lia).
  wp_step. apply wp_getp. cbn [snd]. pose proof (bd_cur _ _ _ Hb) as Hc. cbn [snd] in Hc. rewrite Hc.
  wp_step. eapply wp_mono; [apply (boot_get_page m d h p i Hb Hr)|]. intros a [h1 p1] (d1 & t & Hb1 & Ht & -> & Hg1 & Hr1).
  assert (Hin : 4096 * (i / 4096) = i) by (unfold page_aligned in Hal; pose proof (Z.div_mod i 4096); lia).
  pose proof (bd_entry _ _ _ Hb1 _ _ _ Ht (tb_offset_range i)) as He. rewrite page_number, Hz in He by lia. cbn [snd] in He.
  do 4 (wp_step; eapply wp_upd_pte; [cbn; first [exact He|apply lookup_insert_eq]|]; cbn [fst snd]).
  pose proof (building_entry _ _ _ _ _ _ _ (ident (i / 4096)) Hb1 Ht (tb_offset_range i)) as Hb2. rewrite page_number in Hb2.
  rewrite u32_small by (rewrite KERNEL_HEAP_BEGIN_eq in *; lia).
  match goal with |- wp _ _ _ ?s2 => assert (Hs2 : s2 = (h1, with_pte p1 (<[entry_ptr t (tb_offset i):=ident (i / 4096)]> (pte p1)))) end.
  { unfold with_pte, ident. cbn. rewrite !insert_insert_eq. rewrite Z.shiftr_div_pow2 by lia. done. }
  rewrite Hs2. clear Hs2.
  eapply wp_mono; [apply (IH (i + 0x1000) _ d1 _ Hb2)|].
  - unfold page_aligned in *. by rewrite (Z.add_mod i), Hal by lia.
  - lia.
  - lia.
  - intros n Hn. unfold set_entry. destruct (Z.eqb_spec n (i / 4096)); [lia|]. apply Hz. lia.
  - intros _ s' (d' & Hb' & Hg' & Hz' & Hr'). destruct Hr' as (R1 & R2 & R3). cbn [fst] in R2. destruct Hr1 as (R4 & R5 & R6). cbn [fst] in R5.
    exists d'. split; [|split; [|split]].
    + eapply building_ext; [|exact Hb']. intros n. cbn beta. unfold set_entry.
      destruct (Z.leb_spec (i + 0x1000) (4096 * n)), (Z.leb_spec i (4096 * n)), (Z.ltb_spec (4096 * n) (kheap_static_end s'.1)),
        (Z.eqb_spec n (i / 4096)); cbn; try lia; try done; by subst.
    + eapply tables_grow_trans with d1; (eapply tables_grow_weaken; [|eassumption]).
      * intros k ->. exists i. split; [lia|done].
      * intros k (z & Hzr & ->). exists z. split; [lia|done].
    + intros z Hzr. destruct (Z.lt_ge_cases z (i + 0x1000)) as [Hlt'|Hge']; [|apply Hz'; lia].
      rewrite (same_slot z i Hal ltac:(lia)). exists t. by eapply tables_grow_some.
    + eapply same_rest_trans; [split; [exact R4|split; [exact R5|exact R6]]|]. split; [exact R1|]. split; [exact R2|exact R3].
Qed.
End Building.
