(* ===== verification/BootFrames.v ===== *)
(** The frames [Page::init] finds: it walks the boot loader's memory map twice,
    for the size of the memory and for the frames of every available region,
    and later drops those the static heap has grown into. *)
From S2P Require Import Prelude Rbt TreeMm Common Kheap KheapSpec KheapOk Page PageInit PageOk BootTables.

Section BootFrames.
Context `{HL : HeapLink} `{FN : FreshNode} `{PL : PageLink}.
Context (boot : boot_memory) (mbd : Multiboot_info_t).
Implicit Types (h : kheap) (p : paging) (a : Z) (e : Multiboot_mmap_entry_t) (l : list Multiboot_mmap_entry_t).

(** * The map *)
Definition mmap_end : Z := u32 (mb_mmap_addr mbd + mb_mmap_length mbd).
(** the entries the walk from [a] meets *)
Fixpoint mmap_list (a : Z) l : Prop :=
  match l with
  | [] => mmap_end ≤ a
  | e :: l => a < mmap_end ∧ mmap_at boot a = e ∧ 0 ≤ mm_size e ∧ a + mm_size e + 4 < 2 ^ 32 ∧ mmap_list (a + mm_size e + 4) l
  end.
Definition available e : Prop := mm_type e = MULTIBOOT_MEMORY_AVAILABLE.
Definition region_end e : Z := mm_addr e + mm_len e.
Definition in_memory e : Prop := available e → 0 ≤ mm_addr e < 0xFFFFFFFF ∧ 0 ≤ mm_len e < 0xFFFFFFFF ∧ region_end e ≤ 0xFFFFFFFF.
(** the steps the fuel allows *)
Definition walks (fuel : nat) a : Prop := 0 ≤ a ∧ mmap_end - a ≤ 4 * Z.of_nat fuel.
Lemma walks_start : 0 ≤ mb_mmap_addr mbd → 0 ≤ mb_mmap_length mbd → mb_mmap_addr mbd + mb_mmap_length mbd < 2 ^ 32 →
  walks (mmap_fuel mbd) (mb_mmap_addr mbd).
Proof.
  intros H1 H2 H3. split; [done|]. unfold mmap_end, mmap_fuel. rewrite u32_small by lia.
  rewrite Z.shiftr_div_pow2 by lia. change (2 ^ 2) with 4. pose proof (Z.div_mod (mb_mmap_length mbd) 4 ltac:(lia)).
  pose proof (Z.mod_pos_bound (mb_mmap_length mbd) 4). lia.
Qed.

(** * The end of the memory *)
Definition memsize_of (l : list Multiboot_mmap_entry_t) (acc : Z) : Z :=
  foldl (λ acc e, if mm_type e =? MULTIBOOT_MEMORY_AVAILABLE then Z.max acc (region_end e) else acc) acc l.
Lemma mmap_memsize_ok fuel a l acc h p :
  mmap_list a l → walks fuel a → Forall in_memory l → 0 ≤ acc →
  wp (mmap_memsize boot mbd fuel a acc) (λ r s', r = memsize_of l acc ∧ ∃ k, s' = (h, with_klog p k)) (λ _, False) (h, p).
Proof.
  revert fuel a acc p; induction l as [|e l IH]; intros fuel a acc p Hl [Ha Hf] Hm Hacc; destruct fuel as [|fuel]; cbn [mmap_memsize].
  1,2: fold mmap_end; cbn in Hl; destruct (Z.ltb_spec a mmap_end); [lia|]; apply wp_ret; split; [done|by exists (klog p); destruct p].
  { destruct Hl as (Hlt & _). lia. }
  fold mmap_end. destruct Hl as (Hlt & -> & Hs & Hw & Hl). apply Forall_cons in Hm as [He Hm].
  destruct (Z.ltb_spec a mmap_end); [|lia]. wp_step. unfold Klog_log. wp_step. apply wp_getp. apply wp_putp. cbn [fst snd].
  rewrite u32_small by lia. set (p1 := with_klog p _). wp_step.
  assert (Hnext : ∀ acc', 0 ≤ acc' → memsize_of (e :: l) acc = memsize_of l acc' →
    wp (mmap_memsize boot mbd fuel (a + mm_size e + 4) acc')
      (λ r s', r = memsize_of (e :: l) acc ∧ ∃ k, s' = (h, with_klog p k)) (λ _, False) (h, p1)).
  { intros acc' Hacc' ->. replace (a + (mm_size e + 4)) with (a + mm_size e + 4) by lia.
    eapply wp_mono; [apply (IH fuel _ acc' p1 Hl); [split; lia|done|done]|].
    intros r s' (-> & k & ->). split; [done|]. by exists k. }
  assert (Hstep : memsize_of (e :: l) acc = memsize_of l (if mm_type e =? MULTIBOOT_MEMORY_AVAILABLE then Z.max acc (region_end e) else acc)) by done.
  destruct (Z.eqb_spec (mm_type e) MULTIBOOT_MEMORY_AVAILABLE) as [Hav|Hav]; [|apply wp_ret; by apply Hnext].
  destruct (He Hav) as (H1 & H2 & H3). unfold region_end in *. unfold u64. rewrite Z.mod_small by lia.
  destruct (Z.leb_spec 0xFFFFFFFF (mm_addr e)); [lia|]. destruct (Z.leb_spec 0xFFFFFFFF (mm_len e)); [lia|].
  destruct (Z.ltb_spec 0xFFFFFFFF (mm_addr e + mm_len e)); [lia|]. cbn [orb]. apply wp_ret.
  rewrite u32_small by lia. destruct (Z.ltb_spec acc (mm_addr e + mm_len e)).
  - apply Hnext; [lia|]. rewrite Hstep. f_equal. lia.
  - apply Hnext; [lia|]. rewrite Hstep. f_equal. lia.
Qed.
Lemma memsize_max l acc m :
  acc ≤ m → (∀ e, e ∈ l → available e → region_end e ≤ m) → (acc = m ∨ ∃ e, e ∈ l ∧ available e ∧ region_end e = m) →
  memsize_of l acc = m.
Proof.
  revert acc; induction l as [|e l IH]; intros acc Hacc Hle Hmax; unfold memsize_of in *; simpl.
  { by destruct Hmax as [?|(e & He & _)]; [|apply elem_of_nil in He]. }
  assert (Hle' : ∀ e', e' ∈ l → available e' → region_end e' ≤ m) by (intros e' He'; apply Hle; by right).
  destruct (Z.eqb_spec (mm_type e) MULTIBOOT_MEMORY_AVAILABLE) as [Hav|Hav].
  - pose proof (Hle e ltac:(by left) Hav). apply IH; [lia|done|].
    destruct Hmax as [->|(e' & [->|He']%elem_of_cons & Hav' & Hm)]; [left; lia|left; lia|right; by exists e'].
  - apply IH; [done|done|]. destruct Hmax as [?|(e' & [->|He']%elem_of_cons & Hav' & Hm)]; [by left|done|right; by exists e'].
Qed.

(** * The frames *)
(** the stack holds the [n] frames from [top] down *)
Definition frames_down (top n : Z) p : Prop := nframes p = n ∧ 0 ≤ n ∧ ∀ k, 0 ≤ k < n → frames p !! k = Some (top - k).
Definition only_frames p q : Prop := q = with_frames p (frames q) (frames_len p) (nframes q).
Lemma only_frames_refl p : only_frames p p.
Proof. unfold only_frames. by destruct p. Qed.
Lemma only_frames_trans p1 p2 p3 : only_frames p1 p2 → only_frames p2 p3 → only_frames p1 p3.
Proof. unfold only_frames. intros H12 H23. rewrite H23, H12. done. Qed.

Lemma push_region_ok fuel top i n start lo h p :
  lo = Z.max start (Z.shiftr (kheap_static_end h) 12 + 1) → 0 ≤ start → 0x1000 ≤ kheap_static_end h →
  frames_down top n p → i = top + 1 - n → 1 ≤ i < 2 ^ 20 → n + Z.max 0 (i - lo) ≤ frames_len p → Z.max 0 (i - lo) + 1 ≤ Z.of_nat fuel →
  wp (push_region fuel i start)
    (λ _ s', ∃ q, s' = (h, q) ∧ only_frames p q ∧ frames_down top (n + Z.max 0 (i - lo)) q) (λ _, False) (h, p).
Proof.
  intros Hlo Hst Hlim. revert n i p; induction fuel as [|fuel IH]; intros n i p Hd Hi Hr Hroom Hf; [lia|]. cbn [push_region].
  assert (Hl1 : 1 ≤ Z.shiftr (kheap_static_end h) 12).
  { rewrite Z.shiftr_div_pow2 by lia. change (2 ^ 12) with 4096. apply Z.div_le_lower_bound; lia. }
  rewrite u32_small by lia. destruct (Z.leb_spec start (i - 1)) as [Hle|Hgt].
  2:{ apply wp_ret. exists p. split; [done|]. split; [apply only_frames_refl|]. by replace (n + Z.max 0 (i - lo)) with n by lia. }
  wp_step. apply wp_ret. cbn [fst]. destruct (Z.ltb_spec (Z.shiftr (kheap_static_end h) 12) (i - 1)) as [Hlt|Hge].
  2:{ apply wp_ret. exists p. split; [done|]. split; [apply only_frames_refl|]. by replace (n + Z.max 0 (i - lo)) with n by lia. }
  destruct Hd as (Hn & Hn0 & Hk). wp_step. unfold push_frame. wp_step. apply wp_getp. cbn [snd].
  rewrite decide_True by lia. apply wp_putp. cbn [fst snd]. set (q := with_frames p _ _ _).
  assert (Hdq : frames_down top (n + 1) q).
  { split; [cbn; lia|]. split; [lia|]. intros k Hk'. cbn. rewrite Hn. destruct (Z.eq_dec k n) as [->|Hne].
    - rewrite lookup_insert_eq. f_equal. lia.
    - rewrite lookup_insert_ne by done. apply Hk. lia. }
  eapply wp_mono; [apply (IH (n + 1) (i - 1) q Hdq); [lia|lia|unfold q; cbn [frames_len with_frames]; lia|lia]|].
  intros _ s' (q' & -> & Ho & Hd'). exists q'. split; [done|]. split.
  - eapply only_frames_trans; [|exact Ho]. done.
  - by replace (n + Z.max 0 (i - lo)) with (n + 1 + Z.max 0 (i - 1 - lo)) by lia.
Qed.

(** the frames of the region of [e]: all but its last, above the static heap *)
Definition region_start e : Z := if mm_addr e =? 0 then 0 else Z.shiftr (mm_addr e - 1) 12 + 1.
Definition region_lo (limit : Z) e : Z := Z.max (region_start e) (Z.shiftr limit 12 + 1).
Definition region_top e : Z := Z.shiftr (region_end e) 12 - 2.

Lemma region_run e s :
  available e → in_memory e → 0x1000 ≤ region_end e → 
  (let start := u32 (mm_addr e) in
   let start := if start =? 0 then 0 else Z.shiftr (start - 1) 12 + 1 in
   let e' := Z.shiftr (u32 (mm_addr e + mm_len e)) 12 in
   p ← getp;
   push_region (S (S (Z.to_nat (frames_len p)))) (u32 (e' - 1)) start) s =
  push_region (S (S (Z.to_nat (frames_len s.2)))) (region_top e + 1) (region_start e) s ∧
  0 ≤ region_start e ∧ region_top e + 1 < 2 ^ 20.
Proof.
  intros Hav Hm He. destruct (Hm Hav) as (H1 & H2 & H3). unfold region_start, region_top, region_end in *. cbv zeta.
  rewrite (u32_small (mm_addr e)), (u32_small (mm_addr e + mm_len e)) by lia. rewrite !Z.shiftr_div_pow2 by lia. change (2 ^ 12) with 4096.
  assert (1 ≤ (mm_addr e + mm_len e) / 4096 < 2 ^ 20) by (split; [apply Z.div_le_lower_bound; lia|apply Z.div_lt_upper_bound; lia]).
  rewrite u32_small by lia. split; [|split; [|lia]].
  - unfold mbind at 1, M_bind at 1, getp. f_equal. lia.
  - destruct (Z.eqb_spec (mm_addr e) 0); [lia|]. assert (0 ≤ (mm_addr e - 1) / 4096) by (apply Z.div_pos; lia). lia.
Qed.

(** A region below the static heap's end gives no frame. *)
Definition low_region (limit : Z) e : Prop := available e → 0x2000 ≤ region_end e ≤ limit.
Lemma mmap_frames_low fuel a l1 l2 h p :
  mmap_list a (l1 ++ l2) → walks fuel a → Forall in_memory l1 → Forall (low_region (kheap_static_end h)) l1 →
  ∃ fuel' a', mmap_list a' l2 ∧ walks fuel' a' ∧ mmap_frames boot mbd fuel a (h, p) = mmap_frames boot mbd fuel' a' (h, p).
Proof.
  revert fuel a; induction l1 as [|e l1 IH]; intros fuel a Hl [Ha Hf] Hm Hlow; [by exists fuel, a|].
  destruct Hl as (Hlt & Hat & Hs & Hw & Hl). apply Forall_cons in Hm as [He Hm]. apply Forall_cons in Hlow as [Hel Hlow].
  destruct fuel as [|fuel]; [lia|]. destruct (IH fuel (a + mm_size e + 4) Hl) as (fuel' & a' & H1 & H2 & H3); [split; lia|done|done|].
  exists fuel', a'. split; [done|]. split; [done|]. rewrite <- H3. cbn [mmap_frames]. fold mmap_end.
  destruct (Z.ltb_spec a mmap_end); [|lia]. rewrite Hat, u32_small by lia. replace (a + (mm_size e + 4)) with (a + mm_size e + 4) by lia.
  match goal with |- (?m ≫= _) _ = _ => assert (Hstep : m (h, p) = Ret (tt, (h, p))); [|by rewrite (run_bind _ _ _ _ _ Hstep)] end.
  destruct (Z.eqb_spec (mm_type e) MULTIBOOT_MEMORY_AVAILABLE) as [Hav|Hav]; [|done].
  destruct (Hel Hav) as [Hlo Hhi]. destruct (region_run e (h, p) Hav He ltac:(lia)) as (Hrun & Hst & Htop).
  etrans; [exact Hrun|]. clear Hrun. cbn [push_region]. unfold region_top in *. rewrite Z.shiftr_div_pow2 in * by lia. change (2 ^ 12) with 4096 in *.
  assert (2 ≤ region_end e / 4096) by (apply Z.div_le_lower_bound; lia).
  rewrite u32_small by lia. destruct (Z.leb_spec (region_start e) (region_end e / 4096 - 2 + 1 - 1)); [|done].
  rewrite (run_bind _ _ _ (kheap_static_end h) (h, p)) by done.
  rewrite Z.shiftr_div_pow2 by lia. change (2 ^ 12) with 4096.
  assert (region_end e / 4096 ≤ kheap_static_end h / 4096) by (apply Z.div_le_mono; lia).
  destruct (Z.ltb_spec (kheap_static_end h / 4096) (region_end e / 4096 - 2 + 1 - 1)); [lia|done].
Qed.
Lemma mmap_frames_ok fuel l1 r l2 h p :
  mmap_list (mb_mmap_addr mbd) (l1 ++ r :: l2) → walks fuel (mb_mmap_addr mbd) → Forall in_memory (l1 ++ r :: l2) →
  Forall (low_region (kheap_static_end h)) (l1 ++ l2) → available r → 0x1000 ≤ kheap_static_end h →
  region_lo (kheap_static_end h) r ≤ region_top r → Z.shiftr (region_end r) 12 ≤ frames_len p → nframes p = 0 →
  wp (mmap_frames boot mbd fuel (mb_mmap_addr mbd))
    (λ _ s', ∃ q, s' = (h, q) ∧ only_frames p q ∧
       frames_down (region_top r) (region_top r + 1 - region_lo (kheap_static_end h) r) q) (λ _, False) (h, p).
Proof.
  intros Hl Hf Hm Hlow Hav Hlim Hlo Hlen Hn. apply Forall_app in Hm as [Hm1 Hm2]. apply Forall_cons in Hm2 as [Hmr Hm2].
  apply Forall_app in Hlow as [Hlow1 Hlow2].
  destruct (mmap_frames_low fuel _ l1 (r :: l2) h p Hl Hf Hm1 Hlow1) as (fuel1 & a & Hl1 & [Ha Hf1] & Hrun).
  eapply wp_same; [exact Hrun|]. clear Hrun Hf fuel. destruct Hl1 as (Hlt & Hat & Hs & Hw & Hl2). destruct fuel1 as [|fuel]; [lia|].
  cbn [mmap_frames]. fold mmap_end. destruct (Z.ltb_spec a mmap_end); [|lia].
  rewrite Hat, u32_small by lia. replace (a + (mm_size r + 4)) with (a + mm_size r + 4) by lia.
  assert (Hr : 0x1000 ≤ region_end r).
  { unfold region_lo, region_top in *. rewrite !Z.shiftr_div_pow2 in * by lia. change (2 ^ 12) with 4096 in *.
    assert (0 ≤ kheap_static_end h / 4096) by (apply Z.div_pos; lia).
    pose proof (Z.mul_div_le (region_end r) 4096 ltac:(lia)). lia. }
  destruct (region_run r (h, p) Hav Hmr Hr) as (Hrun & Hst & Htop). cbv zeta in Hrun.
  wp_step. apply Z.eqb_eq in Hav as Hav'. rewrite Hav'. eapply wp_same; [exact Hrun|]. clear Hrun. cbn [snd].
  assert (Htl : 0 ≤ Z.shiftr (kheap_static_end h) 12) by (apply Z.shiftr_nonneg; lia).
  unfold region_lo in *. eapply wp_mono; [eapply (push_region_ok _ (region_top r) _ 0 (region_start r) _ h p eq_refl)|].
  - done.
  - done.
  - split; [done|]. split; [lia|]. intros k Hk. lia.
  - lia.
  - lia.
  - unfold region_top in *. lia.
  - unfold region_top in *. lia.
  - intros _ s' (q & -> & Ho & Hd).
    destruct (mmap_frames_low fuel (a + mm_size r + 4) l2 [] h q) as (fuel2 & a2 & H1 & _ & Hrun).
    + by rewrite app_nil_r.
    + split; [lia|]. lia.
    + done.
    + done.
    + eapply wp_same; [exact Hrun|]. cbn in H1. destruct fuel2; cbn [mmap_frames]; fold mmap_end;
        (destruct (Z.ltb_spec a2 mmap_end); [lia|]); apply wp_ret; exists q; (split; [done|]); (split; [done|]).
      all: by replace (region_top r + 1 - Z.max (region_start r) (Z.shiftr (kheap_static_end h) 12 + 1))
        with (0 + Z.max 0 (region_top r + 1 - Z.max (region_start r) (Z.shiftr (kheap_static_end h) 12 + 1))) by lia.
Qed.

(** * The frames the static heap has taken since *)
Lemma drop_frames_ok fuel top n h p :
  frames_down top n p → Z.shiftr (kheap_static_end h) 12 < top → n ≤ Z.of_nat fuel → 0 < n →
  let n' := Z.min n (top - Z.shiftr (kheap_static_end h) 12) in
  wp (drop_frames fuel) (λ _ s', s' = (h, with_frames p (frames p) (frames_len p) n')) (λ _, False) (h, p).
Proof.
  intros Hd Htop Hf Hn. revert n p Hd Hf Hn; induction fuel as [|fuel IH]; intros n p Hd Hf Hn n'; [lia|]. cbn [drop_frames].
  destruct Hd as (H1 & H2 & Hk). wp_step. unfold top_frame. wp_step. apply wp_getp. cbn [snd]. rewrite H1, Hk by lia. apply wp_ret.
  wp_step. apply wp_ret. cbn [fst]. destruct (Z.leb_spec (top - (n - 1)) (Z.shiftr (kheap_static_end h) 12)) as [Hle|Hgt].
  2:{ apply wp_ret. unfold n'. replace (Z.min n (top - Z.shiftr (kheap_static_end h) 12)) with n by lia. rewrite <- H1. by destruct p. }
  wp_step. apply wp_getp. wp_step. apply wp_putp. cbn [fst snd].
  eapply wp_mono; [apply (IH (n - 1))|].
  - split; [cbn; lia|]. split; [lia|]. intros k Hk'. cbn. apply Hk. lia.
  - lia.
  - lia.
  - intros _ s' ->. cbn. unfold n'. f_equal. unfold with_frames. cbn. f_equal. lia.
Qed.
End BootFrames.
