(* ===== verification/Booted.v ===== *)
(** The page tables [Page::init] leaves when it turns paging on, and that they
    are in order: the invariants of the heap's pages and of the address space. *)
From S2P Require Import Prelude Rbt TreeMm Common Kheap KheapSpec KheapOk Page PageInit PageOk PageFrames PageHeap PageCow KernelHeap Quiet Space BootTables BootFrames.

Section Booted.
Context `{HLo : HeapLinkOk} `{FN : FreshNode} `{PL : PageLink} `{PLok : !PageLinkOk}.
(** the end of the static heap, the directory *)
Context (e da : Z) (d : Directory_t).
Implicit Types (p q : paging) (a z i j t f : Z) (fr : list Block_t).

Record built p : Prop := {
  bt_end : e ≤ KERNEL_HEAP_BEGIN;
  bt_da : 0 < da ∧ da + sizeof_Directory_t ≤ e;
  bt_dirs : dirs p = {[da := d]};
  bt_cur : current_page_dir p = da;
  bt_phys : phyaddr d = da + 4096;
  bt_low : 0 ≤ kernel_low_ntable p ≤ 959;
  bt_table i t : tables d !! i = Some t →
    (0 ≤ i < kernel_low_ntable p ∨ 959 ≤ i < 1023) ∧ page_aligned t ∧ da + sizeof_Directory_t ≤ t ∧ t + 4096 ≤ e;
  bt_inj i j t : tables d !! i = Some t → tables d !! j = Some t → i = j;
  bt_walk i t : tables d !! i = Some t →
    let e := dir_entry_of d i in d_present e = 1 ∧ d_rw e = 1 ∧ d_user e = 1 ∧ Z.shiftl (d_addr e) 12 = t;
  bt_dom a : is_Some (pte p !! a) ↔ ∃ i j t, tables d !! i = Some t ∧ 0 ≤ j < 1024 ∧ a = entry_ptr t j;
  bt_heap z : in_heap_range z → is_Some (tables d !! tb_idx z)
}.

Lemma built_ext p q :
  built p → dirs q = dirs p → current_page_dir q = current_page_dir p → kernel_low_ntable q = kernel_low_ntable p →
  (∀ a, is_Some (pte q !! a) ↔ is_Some (pte p !! a)) → built q.
Proof.
  intros [B1 B2 B3 B4 B5 B6 B7 B8 B9 B10 B11] Ed Ec El Ep. split; try assumption.
  - by rewrite Ed.
  - by rewrite Ec.
  - by rewrite El.
  - intros i t Hi. rewrite El. by apply B7.
  - intros a. by rewrite Ep.
Qed.

Section Facts.
Context (p : paging) (Hb : built p).
Lemma built_dir : dirs p !! current_page_dir p = Some d.
Proof. rewrite (bt_dirs _ Hb), (bt_cur _ Hb). apply lookup_singleton_eq. Qed.
Lemma built_page z : page_of p z = entry_ptr (table_of d (tb_idx z)) (tb_offset z).
Proof. unfold page_of. by rewrite built_dir. Qed.
Lemma built_heap_page z : in_heap_range z → ∃ t, tables d !! tb_idx z = Some t ∧ page_of p z = entry_ptr t (tb_offset z) ∧ 0 < t.
Proof.
  intros Hz. destruct (bt_heap _ Hb z Hz) as [t Ht]. exists t. split; [done|]. rewrite built_page, (table_of_some _ _ _ Ht).
  split; [done|]. destruct (bt_table _ Hb _ _ Ht), (bt_da _ Hb). unfold sizeof_Directory_t in *. lia.
Qed.
Lemma entry_ptr_same i j t i' j' t' :
  tables d !! i = Some t → tables d !! i' = Some t' → 0 ≤ j < 1024 → 0 ≤ j' < 1024 → entry_ptr t j = entry_ptr t' j' → i = i' ∧ j = j'.
Proof.
  intros Ht Ht' Hj Hj' Heq. destruct (bt_table _ Hb _ _ Ht) as (_ & Hal & _). destruct (bt_table _ Hb _ _ Ht') as (_ & Hal' & _).
  unfold page_aligned, entry_ptr in *.
  apply Z.mod_divide in Hal as [k ->]; [|lia]. apply Z.mod_divide in Hal' as [k' ->]; [|lia].
  assert (k = k') as -> by lia. split; [by eapply (bt_inj _ Hb)|lia].
Qed.
Lemma built_page_inj z z' : in_heap_range z → in_heap_range z' → page_of p z = page_of p z' → z / 4096 = z' / 4096.
Proof.
  intros Hz Hz' Heq. destruct (built_heap_page z Hz) as (t & Ht & Hp & _). destruct (built_heap_page z' Hz') as (t' & Ht' & Hp' & _).
  rewrite Hp, Hp' in Heq.
  destruct (entry_ptr_same _ _ _ _ _ _ Ht Ht' (tb_offset_range z) (tb_offset_range z') Heq) as [H1 H2].
  by rewrite <- !page_number, H1, H2.
Qed.
Lemma built_slots : ∃ d', dirs p !! current_page_dir p = Some d' ∧ ∀ i, 959 ≤ i < 1023 → 0 < table_of d' i.
Proof.
  exists d. split; [exact built_dir|]. intros i Hi.
  assert (Hz : in_heap_range (i * 4194304)).
  { unfold in_heap_range. rewrite KERNEL_HEAP_BEGIN_eq, KERNEL_HEAP_END_eq. lia. }
  destruct (built_heap_page _ Hz) as (t & Ht & _ & Hpos).
  assert (Hix : tb_idx (i * 4194304) = i).
  { unfold tb_idx. rewrite Z.shiftr_div_pow2 by lia. change (2 ^ 22) with 4194304. by apply Z.div_mul. }
  rewrite Hix in Ht. by rewrite (table_of_some _ _ _ Ht).
Qed.
Lemma built_key a : is_Some (pte p !! a) → 0 < a < e ∧ a mod 4 = 0.
Proof.
  intros (i & j & t & Ht & Hj & ->)%(bt_dom _ Hb). destruct (bt_table _ Hb _ _ Ht) as (_ & Hal & Hlo & Hhi).
  destruct (bt_da _ Hb). unfold entry_ptr, page_aligned, sizeof_Directory_t in *. split; [lia|].
  rewrite (Z.mul_comm 4), Z.mod_add by lia. apply Z.mod_divide in Hal as [k ->]; [|lia].
  replace (k * 4096) with (k * 1024 * 4) by lia. by apply Z.mod_mul.
Qed.
Lemma built_small : Z.of_nat (size (pte p)) < 2 ^ 31.
Proof.
  apply words_small. intros a Ha. destruct (built_key a Ha). pose proof (bt_end _ Hb). rewrite KERNEL_HEAP_BEGIN_eq in *. lia.
Qed.

(** The address space is in order. *)
Lemma built_space F fr : init_finished p = true → scratch_ok p → (∀ a, scratch p a → a < KERNEL_HEAP_BEGIN) →
  Forall in_heap fr → space F (table_of d) fr no_hole p.
Proof.
  intros Hini Hsc Hscl Hfr. pose proof (bt_end _ Hb) as He. destruct (bt_da _ Hb) as [Hda Hde].
  assert (Hnot : ∀ z, z < KERNEL_HEAP_BEGIN → ¬ in_blocks z fr).
  { intros z Hz (b & Hbl & Hin). rewrite Forall_forall in Hfr. destruct (Hfr b Hbl) as [Hs _]. unfold in_block in Hin. lia. }
  assert (Hdir : ∀ a d', dirs p !! a = Some d' → a = da ∧ d' = d).
  { intros a d' Hd. rewrite (bt_dirs _ Hb) in Hd. apply lookup_singleton_Some in Hd as [<- <-]. done. }
  assert (Huser : ∀ i, user_index p i → table_of d i = 0).
  { intros i Hu. destruct (tables d !! i) as [t|] eqn:Ht; [|by apply table_of_none].
    destruct (bt_table _ Hb _ _ Ht) as [Hr _]. pose proof (bt_low _ Hb). unfold user_index in Hu. lia. }
  split.
  - done.
  - exact (bt_low _ Hb).
  - done.
  - done.
  - intros i _. destruct (tables d !! i) as [t|] eqn:Ht.
    + rewrite (table_of_some _ _ _ Ht). destruct (bt_table _ Hb _ _ Ht). lia.
    + rewrite (table_of_none _ _ Ht), KERNEL_HEAP_BEGIN_eq. lia.
  - intros a Ha. destruct (built_key a Ha) as [Hr Hm]. split; [rewrite KERNEL_HEAP_BEGIN_eq in *; lia|]. split; [done|]. apply Hnot. lia.
  - intros a d' z [-> ->]%Hdir Hz. apply Hnot. lia.
  - intros a d' [-> ->]%Hdir. right. rewrite (bt_phys _ Hb). split; [|done]. unfold in_heap_range, sizeof_Directory_t in *. lia.
  - intros a d' i [-> ->]%Hdir Hi _. split; [done|intros Hu; left; by apply Huser|]. intros H0.
    destruct (tables d !! i) as [t|] eqn:Ht; [|by rewrite (table_of_none _ _ Ht) in H0].
    rewrite (table_of_some _ _ _ Ht). destruct (bt_walk _ Hb _ _ Ht) as (W1 & W2 & W3 & W4).
    split; [done|]. split; [done|]. split; [done|]. right. destruct (bt_table _ Hb _ _ Ht). unfold in_heap_range. lia.
  - intros a d' i b d'' j [-> ->]%Hdir [-> ->]%Hdir Hi Hj _ _ H0. by rewrite (Huser i Hi) in H0.
  - intros i _ Hf. exact Hf.
Qed.

(** ** The frames *)
Definition down_list (top n : Z) : list Z := (λ k, top - Z.of_nat k) <$> seq 0 (Z.to_nat n).
Definition down_set (top n : Z) : gset Z := list_to_set (down_list top n).
Lemma elem_of_down top n f : 0 ≤ n → f ∈ down_list top n ↔ top - n < f ≤ top.
Proof.
  intros Hn. unfold down_list. rewrite list_elem_of_fmap. setoid_rewrite elem_of_seq. split.
  - intros (k & -> & Hk). lia.
  - intros Hf. exists (Z.to_nat (top - f)). lia.
Qed.
Lemma elem_of_down_set top n f : 0 ≤ n → f ∈ down_set top n ↔ top - n < f ≤ top.
Proof. intros Hn. unfold down_set. rewrite elem_of_list_to_set. by apply elem_of_down. Qed.
Lemma down_nodup top n : NoDup (down_list top n).
Proof. unfold down_list. apply NoDup_fmap_2; [intros ???; lia|apply NoDup_seq]. Qed.

Lemma built_frames top n :
  frames_down top n p → 0 < top - n → top < 2 ^ 20 → n ≤ frames_len p → ref_lo p ≤ top + 1 - n → top < ref_lo p + ref_len p →
  (∀ a x, pte p !! a = Some x → e_addr x ≤ top - n) → frames_ok (down_set top n) (down_list top n) p.
Proof.
  intros (Hn & Hn0 & Hk) Hlo Hhi Hlen Hr1 Hr2 Hx.
  assert (Hm : ∀ f, f ∈ down_set top n → mappers p f = ∅).
  { intros f Hf%elem_of_down_set; [|done]. apply elem_of_equiv_empty_L. intros a (x & Ha & Haddr & _)%elem_of_mappers.
    pose proof (Hx a x Ha). lia. }
  assert (Hlen' : length (down_list top n) = Z.to_nat n) by (unfold down_list; by rewrite length_fmap, length_seq).
  split.
  - unfold down_set. rewrite size_list_to_set by apply down_nodup. rewrite Hlen'. lia.
  - rewrite Hlen', Hn. lia.
  - intros i f Hi. unfold down_list in Hi. apply list_lookup_fmap_Some in Hi as (k & -> & Hi). apply lookup_seq in Hi as [-> Hi].
    apply Hk. lia.
  - apply down_nodup.
  - intros f Hf. assert (Hf' : f ∈ down_set top n) by (unfold down_set; by apply elem_of_list_to_set). split; [done|by apply Hm].
  - intros f Hf%elem_of_down_set; [|done]. lia.
  - intros f Hf Hne. by rewrite Hm in Hne.
  - exact built_small.
Qed.
Lemma built_page_inv F st :
  frames_ok F st p → (∀ z, in_heap_range z → pte p !! page_of p z = Some entry_zero) → page_inv F p.
Proof.
  intros Hf Hz. split.
  - by exists st.
  - exact built_slots.
  - exact built_page_inj.
  - intros z Hz'. exists entry_zero. split; [by apply Hz|]. intros _. split; [done|]. split; [by left|]. split; [done|]. by intros [].
Qed.
End Facts.

(** * The two pages for copying are taken out of the heap *)
Section Scratch.
Context (F : gset Z) (p : paging) (x0 x1 : Z) (e0 e1 : Table_entry_t) (a0 a1 z0 z1 : Z).
Context (Hb : built p) (Hi : page_inv F p) (Hz0 : in_heap_range z0) (Hz1 : in_heap_range z1).
Context (Hx0 : x0 = page_of p z0) (Hx1 : x1 = page_of p z1) (Hne : z0 / 4096 ≠ z1 / 4096).
Context (He0 : pte p !! x0 = Some e0) (He1 : pte p !! x1 = Some e1) (Hs0 : empty_page0_ptr p = 0) (Hs1 : empty_page1_ptr p = 0).
Definition with_scratch_pages : paging :=
  with_pte (with_empty p a0 a1 x0 x1) (<[x1:=set_present 1 e1]> (<[x0:=set_present 1 e0]> (pte p))).
#[local] Abbreviation q := with_scratch_pages.

Lemma scratch_ne : x0 ≠ x1.
Proof. rewrite Hx0, Hx1. intros Heq. apply Hne. by apply (built_page_inj p Hb). Qed.
Lemma scratch_none a x : pte p !! a = Some x → ¬ scratch p a.
Proof. intros Ha. unfold scratch. rewrite Hs0, Hs1. destruct (built_key p Hb a) as [? _]; [by eexists|]. lia. Qed.
Lemma scratch_pte a : ¬ scratch q a → pte q !! a = pte p !! a.
Proof.
  intros Ha. unfold scratch in Ha. cbn in *.
  rewrite !lookup_insert_ne; [done|intros Heq; apply Ha; rewrite Heq; auto|intros Heq; apply Ha; rewrite Heq; auto].
Qed.
Lemma scratch_page z : page_of q z = page_of p z.
Proof. done. Qed.
Lemma scratch_mapper f a : f ≠ 0 → a ∈ mappers q f ↔ a ∈ mappers p f ∧ a ≠ x0 ∧ a ≠ x1.
Proof.
  intros Hf. rewrite !elem_of_mappers. split.
  - intros (x & Hx & Ha & Hs). rewrite scratch_pte in Hx by done. unfold scratch in Hs. cbn in Hs. split; [|tauto].
    exists x. split; [done|]. split; [done|]. by eapply scratch_none.
  - intros ((x & Hx & Ha & Hs) & H0 & H1). assert (Hsq : ¬ scratch q a) by (unfold scratch; cbn; tauto).
    exists x. rewrite scratch_pte by done. done.
Qed.
(** a frame of one of the two pages has no other page *)
Lemma scratch_frame f a : f ∈ F → a = x0 ∨ a = x1 → a ∈ mappers p f → mappers q f = ∅.
Proof.
  intros Hf Ha Hm. destruct (pi_frames _ _ Hi) as [st Hst]. destruct (fo_range _ _ _ Hst f Hf) as [Hfr _].
  assert (Hsingle : mappers p f = {[a]}).
  { apply elem_of_mappers in Hm as (x & Hx & Hadr & Hs). destruct Ha as [->| ->]; [destruct (pi_entry _ _ Hi z0 Hz0) as (y & Hy & Hg)|destruct (pi_entry _ _ Hi z1 Hz1) as (y & Hy & Hg)].
    1: rewrite <- Hx0 in Hy, Hg. 2: rewrite <- Hx1 in Hy, Hg. all: rewrite Hx in Hy; injection Hy as <-;
      destruct (Hg Hs) as (_ & _ & _ & H4); destruct H4 as (_ & _ & _ & H4); [lia|by rewrite Hadr in H4]. }
  apply elem_of_equiv_empty_L. intros b [Hb' [H0 H1]]%scratch_mapper; [|lia]. rewrite Hsingle, elem_of_singleton in Hb'. destruct Ha; congruence.
Qed.
Lemma scratch_mappers f : f ∈ F → mappers q f ≠ ∅ → mappers q f = mappers p f.
Proof.
  intros Hf Hn. destruct (pi_frames _ _ Hi) as [st Hst]. destruct (fo_range _ _ _ Hst f Hf) as [Hfr _].
  apply set_eq. intros a. rewrite scratch_mapper by lia. split; [tauto|]. intros Ha. split; [done|].
  split; intros ->; apply Hn; [exact (scratch_frame f x0 Hf (or_introl eq_refl) Ha)|exact (scratch_frame f x1 Hf (or_intror eq_refl) Ha)].
Qed.
Lemma scratch_frames st : frames_ok F st p → frames_ok F st q.
Proof.
  intros [F1 F2 F3 F4 F5 F6 F7 F8]. split; try assumption.
  - intros f Hf. destruct (F5 f Hf) as [HfF Hm]. split; [done|]. destruct (F6 f HfF) as [Hr _].
    apply elem_of_equiv_empty_L. intros a [Ha _]%scratch_mapper; [|lia]. rewrite Hm in Ha. by apply elem_of_empty in Ha.
  - intros f Hf Hm. rewrite scratch_mappers in * by done. by apply F7.
  - cbn. rewrite !map_size_insert. rewrite lookup_insert_ne by apply scratch_ne. by rewrite He0, He1.
Qed.
Lemma scratch_page_inv : page_inv F q.
Proof.
  pose proof Hi as [[st Hst] _ I3 I4]. split.
  - exists st. by apply scratch_frames.
  - exact (pi_dir _ _ Hi).
  - exact I3.
  - intros z Hz. rewrite scratch_page. destruct (decide (scratch q (page_of p z))) as [Hs|Hs].
    + destruct Hs as [Hs|Hs]; cbn in Hs; rewrite Hs.
      * exists (set_present 1 e0). split; [|intros []; by left]. cbn. rewrite lookup_insert_ne by (apply not_eq_sym, scratch_ne). apply lookup_insert_eq.
      * exists (set_present 1 e1). split; [|intros []; by right]. cbn. apply lookup_insert_eq.
    + destruct (I4 z Hz) as (x & Hx & Hg). exists x. rewrite scratch_pte by done. split; [done|]. intros _.
      destruct (Hg (scratch_none _ _ Hx)) as (G1 & G2 & G3 & G4). split; [done|]. split; [done|]. split; [done|].
      intros H0. destruct (G4 H0) as (G5 & G6 & G7 & G8). split; [done|]. split; [done|]. split; [done|].
      rewrite scratch_mappers; [done|done|]. intros Hem.
      assert (Hin : page_of p z ∈ mappers q (e_addr x)); [|rewrite Hem in Hin; by apply elem_of_empty in Hin].
      apply scratch_mapper; [done|]. rewrite G8. split; [by apply elem_of_singleton|]. unfold scratch in Hs. cbn in Hs. tauto.
Qed.
Lemma scratch_keep z : z / 4096 ≠ z0 / 4096 → z / 4096 ≠ z1 / 4096 →
  (page_mapped p z → page_mapped q z) ∧ ∀ v, page_byte p z = Some v → page_byte q z = Some v.
Proof.
  intros H0 H1. assert (Hs : in_heap_range z → ¬ scratch q (page_of p z)).
  { intros Hz [Hs|Hs]; cbn in Hs; [apply H0|apply H1]; apply (built_page_inj p Hb); congruence. }
  split.
  - intros (Hz & _ & x & Hx & Hr). split; [done|]. rewrite scratch_page. split; [by apply Hs|]. exists x. rewrite scratch_pte by (by apply Hs). done.
  - intros v. unfold page_byte. case_decide as Hd; [|done]. destruct Hd as [Hz _]. rewrite decide_True by (split; [done|by apply Hs]).
    rewrite scratch_page, scratch_pte by (by apply Hs). done.
Qed.
End Scratch.
End Booted.
