(* ===== verification/SpaceOps.v ===== *)
(** What the operations of [core/page.cpp] that build address spaces do: memory
    for a table or a directory, its first touch, its physical address. *)
From S2P Require Import Prelude Rbt TreeMm Common Kheap KheapSpec KheapOk Page PageInit PageOk PageFrames PageHeap PageCow KernelHeap Quiet Space.

(** * Slots of a directory *)
Section Slots.
Implicit Types (d : Directory_t) (i j t : Z) (e : Directory_entry_t).
Lemma table_set i t d : table_of (dir_set_table i t d) i = t.
Proof. unfold table_of. simpl. by rewrite lookup_insert_eq. Qed.
Lemma table_set_ne i j t d : j ≠ i → table_of (dir_set_table i t d) j = table_of d j.
Proof. intros Hne. unfold table_of. simpl. by rewrite lookup_insert_ne. Qed.
Lemma entry_set i e d : dir_entry_of (dir_set_entry i e d) i = e.
Proof. unfold dir_entry_of. simpl. by rewrite lookup_insert_eq. Qed.
Lemma entry_set_ne i j e d : j ≠ i → dir_entry_of (dir_set_entry i e d) j = dir_entry_of d j.
Proof. intros Hne. unfold dir_entry_of. simpl. by rewrite lookup_insert_ne. Qed.
(** [d'] is [d] but for its slot [i]. *)
Definition slot_only i d d' : Prop :=
  (∀ j, j ≠ i → table_of d' j = table_of d j ∧ dir_entry_of d' j = dir_entry_of d j) ∧ phyaddr d' = phyaddr d.
Lemma slot_only_refl i d : slot_only i d d.
Proof. done. Qed.
Lemma slot_only_table i t d d' : slot_only i d d' → slot_only i d (dir_set_table i t d').
Proof. intros [Hs Hp]. split; [|done]. intros j Hj. rewrite table_set_ne by done. by apply Hs. Qed.
Lemma slot_only_entry i e d d' : slot_only i d d' → slot_only i d (dir_set_entry i e d').
Proof. intros [Hs Hp]. split; [|done]. intros j Hj. rewrite entry_set_ne by done. by apply Hs. Qed.
End Slots.

Section Ops.
Context `{HLo : HeapLinkOk} `{FN : FreshNode} `{PL : PageLink} `{PLok : !PageLinkOk}.
Context (F : gset Z) (K : Z → Z).
Implicit Types (h : kheap) (p q : paging) (a t z f i j : Z) (e : Table_entry_t) (d : Directory_t) (fr : list Block_t).
Implicit Types (hole : Z → Z → Prop) (st : list Z) (al : list alloc) (X : Z → Prop) (E : string → Prop).

(** * From one state to a later one *)
(** The pages that are not the heap's keep their frames and their contents;
    those of [X] may lose the right to be written to. *)
Record extends X p q : Prop := {
  ex_cur : current_page_dir q = current_page_dir p;
  ex_low : kernel_low_ntable q = kernel_low_ntable p;
  ex_init : init_finished q = init_finished p;
  ex_e0 : empty_page0_ptr q = empty_page0_ptr p;
  ex_e1 : empty_page1_ptr q = empty_page1_ptr p;
  ex_page z : in_heap_range z → page_of q z = page_of p z;
  ex_backed z pa : backed p z pa → backed q z pa;
  ex_pte a e : foreign p a → pte p !! a = Some e →
    ∃ e', pte q !! a = Some e' ∧ (e' = e ∨ X a ∧ e_addr e ≠ 0 ∧ e' = set_rw 0 e);
  ex_phys a e i : foreign p a → pte p !! a = Some e → e_addr e ≠ 0 → 0 ≤ i < 4096 →
    phys_at q (Z.shiftl (e_addr e) 12 + i) = phys_at p (Z.shiftl (e_addr e) 12 + i)
}.
Lemma ex_foreign X p q a : extends X p q → foreign q a ↔ foreign p a.
Proof.
  intros Hx. unfold foreign, heap_page, scratch. rewrite (ex_e0 _ _ _ Hx), (ex_e1 _ _ _ Hx).
  split; intros [Hs Hh]; (split; [done|]); intros (z & Hz & ->); apply Hh; exists z; by rewrite (ex_page _ _ _ Hx).
Qed.
Lemma extends_refl X p : extends X p p.
Proof. split; try done. intros a e _ He. exists e. split; [done|]. by left. Qed.
Lemma extends_weaken X X' p q : (∀ a, X a → X' a) → extends X p q → extends X' p q.
Proof.
  intros HX [A1 A2 A3 A4 A5 A6 A7 A8 A9]. split; try assumption.
  intros a e Ha He. destruct (A8 a e Ha He) as (e' & He' & [->|(? & ? & ?)]); eauto 8.
Qed.
(** Entries that came after [p0] may change at will. *)
Lemma extends_later X p0 p q :
  extends X p0 p → current_page_dir q = current_page_dir p → kernel_low_ntable q = kernel_low_ntable p →
  init_finished q = init_finished p → empty_page0_ptr q = empty_page0_ptr p → empty_page1_ptr q = empty_page1_ptr p →
  (∀ z, in_heap_range z → page_of q z = page_of p z) → (∀ z pa, backed p z pa → backed q z pa) →
  (∀ a e, foreign p a → is_Some (pte p0 !! a) → pte p !! a = Some e →
     ∃ e', pte q !! a = Some e' ∧ (e' = e ∨ X a ∧ e_addr e ≠ 0 ∧ e' = set_rw 0 e)) →
  (∀ a e i, foreign p a → is_Some (pte p0 !! a) → pte p !! a = Some e → e_addr e ≠ 0 → 0 ≤ i < 4096 →
     phys_at q (Z.shiftl (e_addr e) 12 + i) = phys_at p (Z.shiftl (e_addr e) 12 + i)) → extends X p0 q.
Proof.
  intros Hx Ec El Ei E0 E1 Hpo Hb Hpte Hph. pose proof (λ a, ex_foreign X p0 p a Hx) as Hf.
  destruct Hx as [A1 A2 A3 A4 A5 A6 A7 A8 A9]. split; try congruence; try (by auto).
  - intros z Hz. by rewrite Hpo, A6.
  - intros a e Ha He. destruct (A8 a e Ha He) as (e1 & He1 & Hc1).
    destruct (Hpte a e1) as (e2 & He2 & Hc2); [by apply Hf|by eexists|done|]. exists e2. split; [done|].
    destruct Hc1 as [->|(HX & H0 & ->)]; [done|]. right. split; [done|]. split; [done|].
    by destruct Hc2 as [->|(_ & _ & ->)].
  - intros a e i Ha He H0 Hi. destruct (A8 a e Ha He) as (e1 & He1 & Hc1).
    assert (Ha1 : e_addr e1 = e_addr e) by (by destruct Hc1 as [->|(_ & _ & ->)]).
    rewrite <- (A9 a e i) by done. rewrite <- Ha1. apply (Hph a); [by apply Hf|by eexists|done|congruence|done].
Qed.
Lemma extends_trans X p1 p2 p3 : extends X p1 p2 → extends X p2 p3 → extends X p1 p3.
Proof.
  intros H12 [B1 B2 B3 B4 B5 B6 B7 B8 B9]. eapply extends_later; [exact H12|done..| |].
  - intros a e Ha _. by apply B8.
  - intros a e i Ha _. by apply B9.
Qed.
Lemma extends_le X P p q : page_le P p q → extends X p q.
Proof.
  intros [(_ & _ & Hss) Hb]. pose proof (λ z, ss_page_of p q z Hss) as Hp. destruct Hss as [S1 S2 S3 S4 S5 S6 S7 S8 S9].
  split; try done.
  intros a e Ha He. exists e. rewrite S8 by done. split; [done|]. by left.
Qed.
Lemma extends_dirs X p m :
  (∀ d, dirs p !! current_page_dir p = Some d →
     ∃ d', m !! current_page_dir p = Some d' ∧ ∀ j, 959 ≤ j < 1023 → table_of d' j = table_of d j) →
  is_Some (dirs p !! current_page_dir p) → extends X p (with_dirs p m).
Proof.
  intros Hm Hc. assert (Hp : ∀ z, in_heap_range z → page_of (with_dirs p m) z = page_of p z) by (intros; by apply dirs_page_of).
  split; try done.
  - intros z pa. by apply backed_page_of.
  - intros a e _ He. exists e. split; [done|]. by left.
Qed.
Lemma extends_add_table X fr p t :
  (∀ z, t ≤ z < t + 4096 → pte p !! z = None ∧ ¬ in_blocks z fr) → extends X p (add_table t p).
Proof.
  intros Hn. split; try done.
  - intros z pa. by apply (add_table_backed fr).
  - intros a e _ He. exists e. rewrite (add_table_old fr) by eauto. split; [done|]. by left.
Qed.

Lemma page_le_none P p q a : page_le P p q → pte p !! a = None → pte q !! a = None.
Proof.
  intros [(_ & _ & [_ _ _ _ _ _ S7 _ _]) _] Ha. destruct (pte q !! a) as [e|] eqn:He; [|done].
  destruct (proj1 (S7 a)) as [e' He']; [by eexists|]. congruence.
Qed.

(** * The state the operations work on *)
Record space_state fr al hole (s : kstate) : Prop := {
  sp_heap : kheap_ok F s fr al;
  sp_space : space F K fr hole s.2
}.
Lemma sp_inv fr al hole s : space_state fr al hole s → page_inv F s.2.
Proof. intros [Hk _]. exact (heap_env _ _ _ Hk). Qed.
Lemma sp_cur_dir fr al hole s : space_state fr al hole s → is_Some (dirs s.2 !! current_page_dir s.2).
Proof. intros Hs. destruct (pi_dir _ _ (sp_inv _ _ _ _ Hs)) as (d & Hd & _). by exists d. Qed.

(** [size] fresh bytes at [t], mapped *)
Record fresh_object palign fr fr' q t size : Prop := {
  fo_aligned : t mod 2 ^ palign = 0;
  fo_heap : KERNEL_HEAP_BEGIN ≤ t ∧ t + size ≤ KERNEL_HEAP_END;
  fo_was z : t ≤ z < t + size → in_blocks z fr;
  fo_now z : t ≤ z < t + size → ¬ in_blocks z fr';
  fo_less z : in_blocks z fr' → in_blocks z fr;
  fo_map z : t ≤ z < t + size → page_mapped q z
}.

Section NewObject.
Context (E : string → Prop) (HE : ∀ n fr size palign msg, kmalloc_fails n fr size palign msg → E msg).

Lemma new_object_ok X size palign s fr al hole :
  space_state fr al hole s → 0 < size < 2 ^ 31 → 0 ≤ palign ≤ 22 →
  wp (kernel_kmalloc size palign)
    (λ t s', ∃ fr' u, space_state fr' (Alloc t size u :: al) hole s' ∧ extends X s.2 s'.2 ∧
       dirs s'.2 = dirs s.2 ∧ fresh_object palign fr fr' s'.2 t size ∧
       (∀ z, t ≤ z < t + size → pte s.2 !! z = None ∧ dirs s.2 !! z = None) ∧ (∀ z, pte s.2 !! z = None → pte s'.2 !! z = None)) E s.
Proof.
  intros Hss Hsz Hpal. pose proof (sp_inv _ _ _ _ Hss) as Hi. destruct Hss as [Hk Hs].
  eapply wp_mono_E; [apply (kernel_kmalloc_space F size palign s fr al Hk); unfold sizeof_Block_t; lia| |by apply HE].
  intros t s' (got & fr0 & u & ps & (Hgot & (Hf1 & Hf2) & _) & Hfr & -> & Hc & Hk' & _ & _ & Hle).
  assert (Hg : in_heap got) by (eapply layout_in; [apply Hk|set_solver]).
  destruct (payload_spec palign got Hpal Hg) as (Hlo & Hal & _); [unfold sizeof_Block_t in *; lia|].
  pose proof Hg as (Hg1 & Hg2 & Hg3). set (t := payload palign got) in *.
  assert (Hs0 : 0 ≤ size) by lia.
  destruct (carve_spec _ _ _ _ _ Hg2 (proj1 Hlo) Hs0 Hf2 Hc) as (Hparts & Hu1 & Hu2 & _).
  assert (Hless : ∀ z, in_blocks z (ps ++ fr0) → in_blocks z fr).
  { intros z [Hz|Hz]%in_blocks_app; rewrite Hfr; apply in_blocks_cons; [left|by right].
    eapply parts_in; [exact Hparts|]. apply in_blocks_cons. by right. }
  assert (Hz : ∀ z, t ≤ z < t + size → in_block z u).
  { intros z Hz. unfold in_block. unfold sizeof_Block_t in *. lia. }
  assert (Hwas : ∀ z, t ≤ z < t + size → in_blocks z fr).
  { intros z Hr. rewrite Hfr. apply in_blocks_cons. left. eapply parts_in; [exact Hparts|].
    apply in_blocks_cons. left. auto. }
  assert (Hs' : space F K (ps ++ fr0) hole s'.2) by (eapply space_le; [exact Hs|exact Hi|exact Hle|exact Hless]).
  exists (ps ++ fr0), u. split; [by split|]. split; [by eapply extends_le|]. split; [by destruct Hle as [(_ & _ & [S1 _]) _]|].
  split; [split|].
  - exact Hal.
  - unfold sizeof_Block_t in *. lia.
  - exact Hwas.
  - intros z Hr. eapply (proj1 (layout_sep _ _ _ z (heap_layout _ _ _ Hk') (Hz z Hr))).
  - exact Hless.
  - intros z Hr. pose proof (heap_al _ _ _ Hk') as Ha. apply Forall_cons in Ha as [Ha _].
    apply (alloc_mapped _ _ Ha). simpl. unfold sizeof_Block_t. lia.
  - split.
    + intros z Hr. split.
      * destruct (pte s.2 !! z) as [e|] eqn:Hpz; [|done].
        destruct (sp_key _ _ _ _ _ Hs z) as (_ & _ & Hn); [by eexists|]. by destruct Hn; apply Hwas.
      * destruct (dirs s.2 !! z) as [d|] eqn:Hdz; [|done].
        destruct (sp_mem _ _ _ _ _ Hs z d z Hdz); [unfold sizeof_Directory_t; lia|by apply Hwas].
    + intros z Hn. by apply (page_le_none _ _ _ _ Hle).
Qed.

(** Every page of the object has its frame afterwards. *)
Lemma touch_ok X t size s fr al hole :
  space_state fr al hole s → page_aligned t → 0 ≤ t → 0 < size → (∀ z, t ≤ z < t + size → page_mapped s.2 z) →
  wp (touch t size)
    (λ _ s', space_state fr al hole s' ∧ extends X s.2 s'.2 ∧ page_le (λ _, True) s.2 s'.2 ∧
       ∀ z, t ≤ z < t + size → page_aligned z → ∃ pa, backed s'.2 z pa) E s.
Proof.
  destruct s as [h p]. intros Hss Hal Ht0 Hsz Hm. pose proof (sp_inv _ _ _ _ Hss) as Hi. destruct Hss as [Hk Hs]. simpl in *.
  unfold touch. wp_step. apply wp_getp. cbn [snd]. rewrite (sp_init _ _ _ _ _ Hs). apply Z.mod_divide in Hal as [k ->]; [|lia].
  set (n := Z.shiftr (k * 4096 + size - 1) 12). assert (Hn : n = (k * 4096 + size - 1) / 4096).
  { unfold n. by rewrite Z.shiftr_div_pow2. }
  set (J (pre : list Z) (s : kstate) := ∃ q, s = (h, q) ∧ page_inv F q ∧ page_le (λ _, True) p q ∧
    ∀ g, g ∈ pre → ∃ pa, backed q (g * 4096) pa).
  eapply wp_mono; [apply (wp_for_each J)|].
  - intros pre g post s Heq (q & -> & Hq & Hle & Hb).
    assert (Hg : k ≤ g ≤ n).
    { enough (g ∈ upto (Z.shiftr (k * 4096) 12) (n + 1)) as Hin; [|rewrite Heq; set_solver].
      apply elem_of_upto in Hin. rewrite Z.shiftr_div_pow2 in Hin by lia. change (2 ^ 12) with 4096 in Hin.
      rewrite Z.div_mul in Hin by lia. lia. }
    assert (Hgs : Z.shiftl g 12 = g * 4096) by (by rewrite Z.shiftl_mul_pow2).
    assert (Hmax : cmax (k * 4096) (Z.shiftl g 12) = g * 4096).
    { unfold cmax. rewrite Hgs. case_match eqn:Hc; [apply Z.ltb_lt in Hc|apply Z.ltb_ge in Hc]; lia. }
    rewrite Hmax. wp_step. eapply wp_mono_E; [apply translate_write_ok; [exact Hq|]| |].
    + apply Hle; [done|]. apply Hm. pose proof (Z.mul_div_le (k * 4096 + size - 1) 4096 ltac:(lia)). nia.
    + intros pa ? (q' & -> & Hq' & Hle' & Hb' & _). apply wp_ret. exists q'. split; [done|]. split; [done|].
      split; [by eapply page_le_trans|]. intros g' [Hg'|Hg']%elem_of_app.
      * destruct (Hb g' Hg') as [pa' Hpa]. exists pa'. by apply Hle'.
      * apply list_elem_of_singleton in Hg' as ->. by exists pa.
    + intros msg [-> _]. exact (HE _ _ _ _ _ kmalloc_no_frame).
  - exists p. split; [done|]. split; [done|]. split; [apply page_le_refl|]. intros g Hg. by apply elem_of_nil in Hg.
  - intros _ s (q & -> & Hq & Hle & Hb). split; [split|split; [by eapply extends_le|split; [done|]]].
    + by eapply kheap_ok_le.
    + eapply space_le; [exact Hs|exact Hi|exact Hle|done].
    + intros z Hz Hza. apply Z.mod_divide in Hza as [g ->]; [|lia]. apply Hb, elem_of_upto.
      rewrite Z.shiftr_div_pow2 by lia. change (2 ^ 12) with 4096. rewrite Z.div_mul by lia.
      split; [lia|]. enough (g ≤ n) by lia. rewrite Hn. apply Z.div_le_lower_bound; lia.
Qed.
End NewObject.

(** The physical address of a touched page. *)
Lemma physical_addr_ok h p z pa E :
  page_inv F p → init_finished p = true → backed p z pa → page_aligned z →
  wp (get_physical_addr (current_page_dir p) z false false true) (λ r s', r = pa ∧ s' = (h, p)) E (h, p).
Proof.
  intros Hi Hin Hb Hz. pose proof Hb as (Hzr & Hsc & e & He & H0 & ->).
  unfold get_physical_addr. wp_step. apply wp_getp. cbn [snd]. rewrite Hin. cbn [negb].
  wp_step. eapply wp_mono; [by eapply find_page_ok|]. intros ? ? [-> ->]. rewrite (page_of_pos F) by done.
  wp_step. eapply wp_rd_pte; [exact He|]. apply Z.eqb_neq in H0 as Hb0. rewrite Hb0. cbn [andb negb].
  wp_step. apply wp_ret. wp_step. eapply wp_rd_pte; [exact He|]. apply wp_ret. split; [|done].
  destruct (pi_entry _ _ Hi z Hzr) as (e1 & He1 & Hg). simplify_eq. destruct (Hg Hsc) as (_ & _ & _ & H3).
  destruct (H3 H0) as (HF & _). destruct (pi_frames _ _ Hi) as [st Hf]. destruct (fo_range _ _ _ Hf _ HF) as [Hr _].
  change 0xFFF with (Z.ones 12). rewrite Z.land_ones by lia. change (2 ^ 12) with 4096. rewrite Hz, Z.lor_0_r, Z.add_0_r.
  rewrite Z.shiftl_mul_pow2 by lia. apply u32_small. lia.
Qed.

(** * Changing a slot *)
Section Slot.
Context (X : Z → Prop) (fr : list Block_t) (al : list alloc) (h : kheap) (p : paging) (a i : Z) (d d' : Directory_t).
Context (hole hole' : Z → Z → Prop).
Context (Hss : space_state fr al hole (h, p)) (Hd : dirs p !! a = Some d) (Hir : 0 ≤ i < 1024).
Context (Hu : a = current_page_dir p → user_index p i) (Hso : slot_only i d d').
Context (Hh : ∀ b j, ¬ hole' b j → ¬ (b = a ∧ j = i) → ¬ hole b j) (Hcur : ∀ j, 959 ≤ j < 1023 → ¬ hole' (current_page_dir p) j).
Context (Hsl : ¬ hole' a i → slot_ok F K p d' i).
Context (Hnew : ¬ hole' a i → user_index p i → table_of d' i ≠ 0 → slot_new p hole' a i (table_of d' i)).

Lemma user_slot_heap j : a = current_page_dir p → 959 ≤ j < 1023 → j ≠ i.
Proof.
  intros Ha Hj ->. pose proof (Hu Ha) as Hui. pose proof (sp_low _ _ _ _ _ (sp_space _ _ _ _ Hss)). simpl in *.
  destruct (index_apart p i) as []; [lia|by right|done].
Qed.
Lemma user_slot_cur dc : dirs p !! current_page_dir p = Some dc →
  ∃ dc', <[a:=d']> (dirs p) !! current_page_dir p = Some dc' ∧ ∀ j, 959 ≤ j < 1023 → table_of dc' j = table_of dc j.
Proof.
  intros Hdc. destruct (decide (current_page_dir p = a)) as [Ha|Ha].
  - rewrite Ha in Hdc |- *. rewrite lookup_insert_eq. exists d'. split; [done|]. intros j Hj.
    assert (dc = d) as -> by congruence. apply Hso. by apply (user_slot_heap j (eq_sym Ha)).
  - exists dc. by rewrite lookup_insert_ne.
Qed.
Lemma set_slot_ok :
  space_state fr al hole' (h, with_dirs p (<[a:=d']> (dirs p))) ∧ extends X p (with_dirs p (<[a:=d']> (dirs p))).
Proof.
  pose proof (sp_inv _ _ _ _ Hss) as Hi. destruct (pi_frames _ _ Hi) as [st Hf].
  pose proof (sp_cur_dir _ _ _ _ Hss) as Hc. pose proof user_slot_heap as Hheap. destruct Hss as [Hk Hs]. simpl in *.
  destruct (dirs_quiet F p (<[a:=d']> (dirs p)) st Hi Hf user_slot_cur) as [Hq Hfq].
  split; [split|by apply extends_dirs; [apply user_slot_cur|]].
  - by eapply kheap_ok_quiet.
  - destruct Hso as [Hso1 Hso2].
    eapply (space_slot F K fr hole hole' p a d d' i); try done.
    + intros Ha Hi'. by destruct (Hheap i Ha Hi').
Qed.
End Slot.

(** * A new table in a slot *)
Lemma backed_frame p t pa : page_inv F p → backed p t pa → page_aligned t → ∃ f, pa = Z.shiftl f 12 ∧ 0 < f < 2 ^ 20.
Proof.
  intros Hi (Hz & Hs & e & He & H0 & ->) Hal. destruct (pi_entry _ _ Hi t Hz) as (e1 & He1 & Hg). simplify_eq.
  destruct (Hg Hs) as (_ & _ & _ & H3). destruct (H3 H0) as (HF & _). destruct (pi_frames _ _ Hi) as [st Hf].
  exists (e_addr e). rewrite Hal, Z.add_0_r. split; [done|]. by apply (fo_range _ _ _ Hf).
Qed.
Lemma dentry_walk p t pa (e : Directory_entry_t) :
  page_inv F p → backed p t pa → page_aligned t → hw p t (Z.shiftl (d_addr (dentry_set_addr (Z.shiftr pa 12) e)) 12).
Proof.
  intros Hi Hb Hal. left. destruct (backed_frame p t pa Hi Hb Hal) as (f & -> & Hf). simpl.
  rewrite Z.shiftr_shiftl_l, Z.shiftl_0_r, Z.mod_small by lia. exact Hb.
Qed.
Lemma slot_new_dirs p q hole a i t d d' :
  slot_new p hole a i t → kernel_low_ntable q = kernel_low_ntable p → dirs q = <[a:=d']> (dirs p) →
  dirs p !! a = Some d → slot_only i d d' → slot_new q hole a i t.
Proof.
  intros Hn Hl Hq Hd [Hso _] b db j Hdb Hj Hh Hbj. rewrite Hq in Hdb. unfold user_index in Hj. rewrite Hl in Hj.
  apply lookup_insert_Some in Hdb as [[<- <-]|[_ Hdb]]; [|by apply (Hn b db j)].
  destruct (Hso j) as [-> _]; [intros ->; by apply Hbj|]. by apply (Hn a d j).
Qed.
Lemma add_table_state X fr al hole h p t :
  space_state fr al hole (h, p) → KERNEL_HEAP_BEGIN ≤ t ∧ t + 4096 ≤ KERNEL_HEAP_END → page_aligned t →
  (∀ z, t ≤ z < t + 4096 → pte p !! z = None ∧ ¬ in_blocks z fr) →
  space_state fr al hole (h, add_table t p) ∧ extends X p (add_table t p).
Proof.
  intros Hss Ht Hal Hn. pose proof (sp_inv _ _ _ _ Hss) as Hi. destruct (pi_frames _ _ Hi) as [st Hf].
  destruct Hss as [Hk Hs]. simpl in *. split; [split|by eapply extends_add_table].
  - eapply kheap_ok_quiet; [exact Hk|by eapply add_table_quiet|by eapply add_table_frames].
  - by eapply add_table_space.
Qed.
#[local] Opaque add_table.

(** The slot gets its entry: from here on it counts. *)
Definition open_slot hole a i : Z → Z → Prop := λ b j, hole b j ∨ b = a ∧ j = i.
Lemma close_slot_ok X fr al hole h p a i d t pa (e : Directory_entry_t) :
  let d' := dir_set_entry i (dentry_set_addr (Z.shiftr pa 12) e) d in
  space_state fr al (open_slot hole a i) (h, p) → dirs p !! a = Some d → user_index p i → table_of d i = t →
  d_present e = 1 ∧ d_rw e = 1 ∧ d_user e = 1 → user_table F p t → backed p t pa → page_aligned t →
  slot_new p hole a i t →
  space_state fr al hole (h, with_dirs p (<[a:=d']> (dirs p))) ∧ extends X p (with_dirs p (<[a:=d']> (dirs p))) ∧
  slot_only i d d' ∧ table_of d' i = t.
Proof.
  intros d' Hss Hd Hu Ht (E1 & E2 & E3) Hut Hb Hal Hn. pose proof (sp_inv _ _ _ _ Hss) as Hi.
  pose proof (sp_space _ _ _ _ Hss) as Hs. cbn [snd] in *.
  assert (Hso : slot_only i d d') by (by apply slot_only_entry). assert (Ht' : table_of d' i = t) by exact Ht.
  enough (space_state fr al hole (h, with_dirs p (<[a:=d']> (dirs p))) ∧ extends X p (with_dirs p (<[a:=d']> (dirs p)))) by tauto.
  eapply (set_slot_ok X fr al h p a i d d' (open_slot hole a i) hole); try assumption.
  - by apply (index_range p i (sp_low _ _ _ _ _ Hs)); right.
  - done.
  - intros b j Hbj Hne [Hh|Hh]; [by apply Hbj|by apply Hne].
  - intros j Hj Hh. apply (sp_cur _ _ _ _ _ Hs j Hj). by left.
  - intros _. split.
    + intros Hk. by destruct (index_apart p i (proj2 (sp_low _ _ _ _ _ Hs)) Hk).
    + intros _. right. by rewrite Ht'.
    + intros _. rewrite Ht'. unfold walk_ok, d'. rewrite entry_set. repeat (split; [assumption|]). by apply dentry_walk.
  - intros _ _ _. by rewrite Ht'.
Qed.

Section NewTable.
Context (E : string → Prop) (HE : ∀ n fr size palign msg, kmalloc_fails n fr size palign msg → E msg).

(** [t] is a table that did not exist before. *)
Record new_table (p : paging) t : Prop := {
  nt_heap : KERNEL_HEAP_BEGIN ≤ t ∧ t + 4096 ≤ KERNEL_HEAP_END;
  nt_aligned : page_aligned t;
  nt_new z : t ≤ z < t + 4096 → pte p !! z = None
}.
Lemma get_page_new_ok X h p fr al hole this addr d :
  let i := tb_idx addr in
  space_state fr al hole (h, p) → dirs p !! this = Some d → user_index p i → table_of d i = 0 → ¬ hole this i →
  wp (get_page kernel_kmalloc this addr true)
    (λ r s', ∃ t d' fr' u, r = entry_ptr t (tb_offset addr) ∧ space_state fr' (Alloc t sizeof_Table_t u :: al) hole s' ∧
       extends X p s'.2 ∧ dirs s'.2 = <[this:=d']> (dirs p) ∧ slot_only i d d' ∧ table_of d' i = t ∧
       new_table p t ∧ (∀ j, 0 ≤ j < 1024 → pte s'.2 !! entry_ptr t j = Some entry_zero) ∧
       ∀ z, in_blocks z fr' → in_blocks z fr) E (h, p).
Proof.
  intros i Hss Hd Hu Ht0 Hnh. unfold get_page. fold i. wp_step. eapply wp_rd_dir; [exact Hd|]. rewrite Ht0. cbn [Z.eqb negb].
  wp_step. eapply wp_mono; [apply (new_object_ok E HE X sizeof_Table_t 12 _ _ _ _ Hss); unfold sizeof_Table_t; lia|].
  intros t [h1 p1] (fr' & u & Hss1 & Hx1 & Hd1 & [Hal Hheap _ Hnow Hless Hmap] & Hnone & Hnone1). cbn [snd] in *.
  change (page_aligned t) in Hal. assert (Hth : 0 < t) by (rewrite KERNEL_HEAP_BEGIN_eq in Hheap; lia).
  assert (Hnt : new_table p t) by (split; [exact Hheap|exact Hal|intros z Hz; by apply Hnone]).
  assert (Hd1' : dirs p1 !! this = Some d) by congruence.
  assert (Hu1 : user_index p1 i) by (unfold user_index; by rewrite (ex_low _ _ _ Hx1)).
  pose proof (sp_space _ _ _ _ Hss) as Hs. cbn [snd] in Hs. pose proof (sp_low _ _ _ _ _ Hs) as Hlow.
  assert (Hir : 0 ≤ i < 1024) by (apply (index_range p i Hlow); by right).
  assert (Hcu : ∀ j, 959 ≤ j < 1023 → j ≠ i) by (intros j Hj ->; by destruct (index_apart p i (proj2 Hlow)); [right|]).
  set (hole2 := open_slot hole this i).
  pose proof (sp_cur _ _ _ _ _ (sp_space _ _ _ _ Hss1)) as Hcur1. cbn [snd] in Hcur1.
  assert (Hcur2 : ∀ j, 959 ≤ j < 1023 → ¬ hole2 (current_page_dir p1) j).
  { intros j Hj [Hh|[_ Hh]]; [by apply (Hcur1 j)|by apply (Hcu j)]. }
  assert (Hslotnew : slot_new p1 hole this i t).
  { eapply add_table_new; [apply (sp_space _ _ _ _ Hss1)|exact Hheap|exact Hal|].
    intros z Hz. split; [by apply Hnone1, Hnone|by apply Hnow]. }
  wp_step. eapply wp_upd_dir; [exact Hd1'|]. cbn [fst snd]. set (d2 := dir_set_table i t d).
  assert (Hso2 : slot_only i d d2) by (by apply slot_only_table).
  destruct (set_slot_ok X fr' (Alloc t sizeof_Table_t u :: al) h1 p1 this i d d2 hole hole2) as [Hss2 Hx2]; try done.
  { intros b j Hb _ Hh. apply Hb. by left. }
  { intros Hn. destruct Hn. by right. }
  { intros Hn. destruct Hn. by right. }
  set (p2 := with_dirs p1 _) in *. wp_step.
  eapply wp_mono; [apply (touch_ok E HE X t sizeof_Table_t (h1, p2) fr' _ hole2 Hss2 Hal); unfold sizeof_Table_t; [lia|lia|]|].
  { intros z Hz. destruct (Hmap z Hz) as (Hzr & Hsc & e & He & Hm). cbn [snd].
    assert (Hpg : page_of p2 z = page_of p1 z) by (by apply (ex_page _ _ _ Hx2)). split; [done|]. rewrite Hpg. by eauto. }
  intros _ [h3 p3] (Hss3 & Hx3 & Hle3 & Hb3). cbn [fst snd] in *.
  destruct (Hb3 t) as [pa Hpa]; [unfold sizeof_Table_t; lia|exact Hal|].
  pose proof (sp_cur _ _ _ _ _ (sp_space _ _ _ _ Hss3)) as Hcur3. cbn [snd] in Hcur3.
  wp_step. apply wp_getp. wp_step. apply wp_putp. cbn [fst snd].
  destruct (add_table_state X fr' (Alloc t sizeof_Table_t u :: al) hole2 h3 p3 t Hss3 Hheap Hal) as [Hss4 Hx4].
  { intros z Hz. split; [|by apply Hnow]. eapply page_le_none; [exact Hle3|]. by apply Hnone1, Hnone. }
  change (with_pte p3 (zero_table t ∪ pte p3)) with (add_table t p3).
  set (p4 := add_table t p3) in *.
  assert (Hd4 : dirs p4 = <[this:=d2]> (dirs p1)).
  { destruct Hle3 as [(_ & _ & [S1 _]) _]. change (dirs p3 = <[this:=d2]> (dirs p1)). by rewrite S1. }
  wp_step. eapply wp_rd_dir; [simpl; rewrite Hd4; apply lookup_insert_eq|].
  wp_step. eapply wp_upd_dir; [simpl; rewrite Hd4; apply lookup_insert_eq|]. cbn [fst snd].
  set (d3 := dir_set_entry i (dentry_set_all (dir_entry_of d2 i)) d2).
  assert (Hso3 : slot_only i d d3) by (by apply slot_only_entry).
  assert (Hu4 : user_index p4 i).
  { unfold user_index. by rewrite (ex_low _ _ _ Hx4), (ex_low _ _ _ Hx3), (ex_low _ _ _ Hx2). }
  destruct (set_slot_ok X fr' (Alloc t sizeof_Table_t u :: al) h3 p4 this i d2 d3 hole2 hole2) as [Hss5 Hx5]; try done.
  { by rewrite Hd4, lookup_insert_eq. }
  { by apply slot_only_entry. }
  { intros Hn. destruct Hn. by right. }
  { intros Hn. destruct Hn. by right. }
  set (p5 := with_dirs p4 _) in *. pose proof (sp_inv _ _ _ _ Hss5) as Hi5. cbn [snd] in Hi5.
  assert (Hb5 : backed p5 t pa) by (by apply (ex_backed _ _ _ Hx5), (ex_backed _ _ _ Hx4)).
  assert (Hd5 : dirs p5 = <[this:=d3]> (dirs p1)) by (unfold p5; simpl; by rewrite Hd4, insert_insert_eq).
  wp_step. apply wp_getp. cbn [snd]. wp_step.
  eapply wp_mono; [apply (physical_addr_ok h3 p5 t pa E Hi5 (sp_init _ _ _ _ _ (sp_space _ _ _ _ Hss5)) Hb5 Hal)|].
  intros ? ? [-> ->]. wp_step. eapply wp_rd_dir; [cbn [snd]; rewrite Hd5; apply lookup_insert_eq|].
  wp_step. eapply wp_upd_dir; [cbn [snd]; rewrite Hd5; apply lookup_insert_eq|]. cbn [fst snd].
  set (d4 := dir_set_entry i (dentry_set_addr (Z.shiftr pa 12) (dir_entry_of d3 i)) d3).
  assert (Hso4 : slot_only i d d4) by (by apply slot_only_entry).
  assert (Ht4 : table_of d4 i = t) by apply table_set.
  assert (Hu5 : user_index p5 i) by (unfold user_index; by rewrite (ex_low _ _ _ Hx5)).
  destruct (close_slot_ok X fr' (Alloc t sizeof_Table_t u :: al) hole h3 p5 this i d3 t pa (dir_entry_of d3 i)) as (Hss6 & Hx6 & _); try done.
  { by rewrite Hd5, lookup_insert_eq. }
  { unfold d3. by rewrite entry_set. }
  { destruct (add_table_user F p3 t Hheap) as [U1 U2]. split; [exact U1|exact U2]. }
  { eapply slot_new_dirs; [exact Hslotnew| |exact Hd5|done|exact Hso3].
    by rewrite (ex_low _ _ _ Hx5), (ex_low _ _ _ Hx4), (ex_low _ _ _ Hx3), (ex_low _ _ _ Hx2). }
  apply wp_ret. exists t, d4, fr', u. split; [done|]. split; [exact Hss6|]. split.
  { do 5 (eapply extends_trans; [eassumption|]). exact Hx6. }
  split; [cbn [snd dirs with_dirs]; by rewrite Hd5, insert_insert_eq, Hd1|]. split; [done|]. split; [done|]. split; [done|].
  split; [|exact Hless]. intros j Hj. exact (add_table_at p3 t j Hj).
Qed.
End NewTable.
End Ops.
