(* ===== verification/CloneStack.v ===== *)
(** The first part of [clone_directory] of [core/page.cpp]: the new task's
    kernel stack, a table of its own with a copy of the page the running task
    has its stack in. *)
From S2P Require Import Prelude Rbt TreeMm Common Kheap KheapSpec KheapOk Page PageInit PageOk PageFrames PageHeap PageCow KernelHeap Quiet Space SpaceOps.

Section CloneStack.
Context `{HLo : HeapLinkOk} `{FN : FreshNode} `{PL : PageLink} `{PLok : !PageLinkOk}.
Context (F : gset Z) (K : Z → Z).
Implicit Types (h : kheap) (p q : paging) (a t z f g i j : Z) (e : Table_entry_t) (d : Directory_t) (fr : list Block_t).
Implicit Types (hole : Z → Z → Prop) (st : list Z) (al : list alloc) (X : Z → Prop) (E : string → Prop).

(** * A frame with given contents for a page without one *)
Definition filled p a e0 e1 f src : paging := copy_state (alloc_state p a entry_zero false true f) e0 e1 f src.
Record filled_spec st p q a f src : Prop := {
  fs_frames : frames_ok F st q;
  fs_quiet : quiet p q;
  fs_pte b : ¬ scratch p b → b ≠ a → pte q !! b = pte p !! b;
  fs_entry : pte q !! a = Some (alloc_entry false true f entry_zero);
  fs_mappers : mappers q f = {[a]};
  fs_free : mappers p f = ∅;
  fs_copy : read_frame q f = read_frame p src;
  fs_phys x : ¬ (Z.shiftl f 12 ≤ x < Z.shiftl f 12 + 4096) → phys_at q x = phys_at p x;
  fs_dom b : is_Some (pte q !! b) → is_Some (pte p !! b)
}.
Lemma filled_ok st p a e0 e1 f src :
  page_inv F p → frames_ok F (st ++ [f]) p → foreign p a → pte p !! a = Some entry_zero →
  pte p !! empty_page0_ptr p = Some e0 → pte p !! empty_page1_ptr p = Some e1 →
  empty_page0_ptr p ≠ empty_page1_ptr p → filled_spec st p (filled p a e0 e1 f src) a f src.
Proof.
  intros Hi Hf Hfo Ha H0 H1 H01. pose proof (proj1 Hfo) as Hsc.
  destruct (frames_ok_top _ _ _ _ Hf) as (_ & _ & HfF & Hfm). destruct (fo_range _ _ _ Hf f HfF) as [Hr _].
  pose proof (frames_ok_alloc F st f p a entry_zero false true Hf Hsc Ha eq_refl) as Hf1.
  set (e' := alloc_entry false true f entry_zero). unfold filled. set (p1 := alloc_state p a entry_zero false true f) in *.
  assert (Hp1 : pte p1 = <[a:=e']> (pte p)) by done.
  assert (He' : e_addr e' = f) by (simpl; rewrite Z.mod_small; lia).
  assert (Hne : a ≠ empty_page0_ptr p ∧ a ≠ empty_page1_ptr p).
  { split; intros ->; apply Hsc; [by left|by right]. }
  destruct (copy_state_ok F st p1 e0 e1 f src Hf1) as (Hf2 & Hm2 & Hp2 & Hc2 & Hc2'); cbn zeta in *.
  { rewrite Hp1, lookup_insert_ne by tauto. exact H0. }
  { rewrite Hp1, lookup_insert_ne by tauto. exact H1. }
  { exact H01. }
  set (q := copy_state p1 e0 e1 f src) in *.
  assert (Hpte : ∀ b, ¬ scratch p b → b ≠ a → pte q !! b = pte p !! b).
  { intros b Hb Hba. rewrite Hp2 by done. by rewrite Hp1, lookup_insert_ne. }
  assert (Hqa : pte q !! a = Some e') by (rewrite Hp2 by done; by rewrite Hp1, lookup_insert_eq).
  assert (Hph : ∀ x, ¬ (Z.shiftl f 12 ≤ x < Z.shiftl f 12 + 4096) → phys_at q x = phys_at p x).
  { intros x Hx. rewrite (phys_at_copy p q f (read_frame p src)); [by rewrite decide_False|done| |apply length_read_frame].
    unfold q, copy_state. cbn [phys with_phys].
    apply (f_equal (λ l, write_phys_map l (Z.shiftl f 12) (phys p))). by apply read_frame_ext. }
  assert (Hin : ∀ b e, pte q !! b = Some e → is_Some (pte p !! b)).
  { intros b e Hb. destruct (decide (scratch p b)) as [[->| ->]|Hs]; [by exists e0|by exists e1|].
    destruct (decide (b = a)) as [->|Hba]; [by eexists|]. rewrite <- Hpte by done. by exists e. }
  assert (Hout : ∀ b, is_Some (pte p !! b) → is_Some (pte q !! b)).
  { intros b Hb. unfold q, copy_state. cbn [pte with_phys with_pte].
    rewrite !lookup_insert_is_Some'. rewrite Hp1, lookup_insert_is_Some'. tauto. }
  split; [exact Hf2| |exact Hpte|exact Hqa| |exact Hfm| |exact Hph|].
  - split; [exact (pi_dir _ _ Hi)|reflexivity|reflexivity|reflexivity|exact Hout| |].
    + intros b Hb. destruct (decide (b = a)) as [->|Hba]; [right|left; by apply Hpte]. split; [exact Hfo|].
      intros e He. rewrite Hqa in He. injection He as <-. rewrite He'. by apply free_frame.
    + intros g i Hg Hir. apply Hph. intros Hx. apply (free_frame p f Hfm). replace f with g; [done|].
      rewrite !Z.shiftl_mul_pow2 in Hx by lia. change (2 ^ 12) with 4096 in Hx. lia.
  - rewrite Hm2. rewrite (mappers_insert p a e' f p1) by done. rewrite He', decide_True by done. rewrite Hfm.
    apply union_empty_r_L.
  - simpl. rewrite Hc2. by apply read_frame_ext.
  - intros b [e He]. by eapply Hin.
Qed.
#[local] Opaque read_frame.

(** * The stack's page *)
Definition stack_page : Z := KERNEL_STACK_POS - KERNEL_STACK_SIZE.
Lemma stack_page_slot : tb_idx stack_page = 1023 ∧ tb_offset stack_page = 1022 ∧ Z.land stack_page 0xFFF = 0.
Proof. by vm_compute. Qed.
#[local] Opaque stack_page.
(** the frame behind the stack of the running task *)
Definition stack_frame p : Z :=
  match dirs p !! current_page_dir p with
  | Some d =>
    if table_of d 1023 =? 0 then 0
    else match pte p !! entry_ptr (table_of d 1023) 1022 with Some e => e_addr e | None => 0 end
  | None => 0
  end.
Definition user_entry_inv p (t : Z) : Prop :=
  foreign p (entry_ptr t 1022) ∧ ∃ e, pte p !! entry_ptr t 1022 = Some e ∧ user_entry F e.

Lemma stack_slot_ok fr al hole h p a d :
  space_state F K fr al hole (h, p) → dirs p !! a = Some d → ¬ hole a 1023 → table_of d 1023 ≠ 0 →
  KERNEL_HEAP_BEGIN ≤ table_of d 1023 ∧ user_entry_inv p (table_of d 1023).
Proof.
  intros Hss Hd Hh Ht. pose proof (sp_inv _ _ _ _ _ _ Hss) as Hi. destruct Hss as [_ Hs]. cbn [snd] in *.
  pose proof (sp_slot _ _ _ _ _ Hs a d 1023 Hd ltac:(lia) Hh) as Hsl.
  destruct (sl_user _ _ _ _ _ Hsl) as [?|[[Hu _] He]]; [by right|done|]. split; [done|]. split; [|by apply He].
  eapply space_foreign; [exact Hs|exact Hi|]. unfold entry_ptr. lia.
Qed.
Lemma frame_range st p e : frames_ok F st p → user_entry F e → 0 ≤ e_addr e < 2 ^ 20.
Proof.
  intros Hf Hin. destruct (decide (e_addr e = 0)) as [->|H0]; [lia|]. destruct (Hin H0) as [HF _].
  destruct (fo_range _ _ _ Hf _ HF). lia.
Qed.
Lemma phys_of_frame f : 0 ≤ f < 2 ^ 20 → Z.lor (u32 (Z.shiftl f 12)) (Z.land stack_page 0xFFF) = Z.shiftl f 12.
Proof.
  intros Hf. destruct stack_page_slot as (_ & _ & ->). rewrite Z.lor_0_r. apply u32_small.
  rewrite Z.shiftl_mul_pow2 by lia. lia.
Qed.
Definition stack_slot p : Prop :=
  init_finished p = true ∧ ∃ d, dirs p !! current_page_dir p = Some d ∧
    (table_of d 1023 ≠ 0 → KERNEL_HEAP_BEGIN ≤ table_of d 1023 ∧
       ∃ e, pte p !! entry_ptr (table_of d 1023) 1022 = Some e ∧ 0 ≤ e_addr e < 2 ^ 20).
Lemma space_stack_slot fr al hole h p :
  space_state F K fr al hole (h, p) → ¬ hole (current_page_dir p) 1023 → stack_slot p.
Proof.
  intros Hss Hh. pose proof (sp_inv _ _ _ _ _ _ Hss) as Hi. destruct (pi_frames _ _ Hi) as [st Hf]. cbn [snd] in *.
  split; [exact (sp_init _ _ _ _ _ (sp_space _ _ _ _ _ _ Hss))|].
  destruct (sp_cur_dir _ _ _ _ _ _ Hss) as [d Hd]. exists d. split; [exact Hd|]. intros Hne.
  destruct (stack_slot_ok _ _ _ _ _ _ d Hss Hd Hh Hne) as (Hk & _ & e & He & HF). split; [done|]. exists e.
  split; [done|]. by eapply frame_range.
Qed.
Lemma stack_source_ok h p E :
  stack_slot p →
  0 ≤ stack_frame p < 2 ^ 20 ∧
  wp (get_physical_addr (current_page_dir p) stack_page false false true)
    (λ r s', r = Z.shiftl (stack_frame p) 12 ∧ s' = (h, p)) E (h, p).
Proof.
  intros (Hin & d & Hd & Hsl). destruct stack_page_slot as (Hi1 & Hi2 & _).
  unfold stack_frame, get_physical_addr, find_page. rewrite Hd. split.
  { destruct (Z.eqb_spec (table_of d 1023) 0) as [|Hne]; [lia|]. by destruct (Hsl Hne) as (_ & e & -> & He). }
  wp_step. apply wp_getp. cbn [snd]. rewrite Hin. cbn [negb].
  wp_step. wp_step. eapply wp_rd_dir; [exact Hd|]. rewrite Hi1, Hi2.
  destruct (Z.eqb_spec (table_of d 1023) 0) as [|Hne]; [by apply wp_ret, wp_ret|].
  destruct (Hsl Hne) as (Hk & e & He & Hr). apply wp_ret. rewrite He.
  destruct (Z.eqb_spec (entry_ptr (table_of d 1023) 1022) 0) as [Hz|_].
  { unfold entry_ptr in Hz. rewrite KERNEL_HEAP_BEGIN_eq in Hk. lia. }
  wp_step. eapply wp_rd_pte; [exact He|]. cbn [negb]. rewrite andb_true_r.
  destruct (Z.eqb_spec (e_addr e) 0) as [->|H0]; [by apply wp_ret|].
  wp_step. apply wp_ret. wp_step. eapply wp_rd_pte; [exact He|]. apply wp_ret. split; [|done].
  by apply phys_of_frame.
Qed.

(** the body of [clone_directory]'s loop over the stack, after [get_page] *)
Definition fill_stack (dest : Z) : M kstate unit :=
  d ← get_physical_addr dest stack_page true false true;
  p ← getp;
  s ← get_physical_addr (current_page_dir p) stack_page false false true;
  copy_page_physical d s.
Lemma fill_stack_ok h p dest d t E :
  E no_free_frame → page_inv F p → scratch_ok p → stack_slot p → dirs p !! dest = Some d → table_of d 1023 = t →
  KERNEL_HEAP_BEGIN ≤ t → foreign p (entry_ptr t 1022) → pte p !! entry_ptr t 1022 = Some entry_zero →
  (∀ dc, dirs p !! current_page_dir p = Some dc → table_of dc 1023 ≠ t) →
  wp (fill_stack dest)
    (λ _ s', ∃ st f e0 e1, s' = (h, filled p (entry_ptr t 1022) e0 e1 f (stack_frame p)) ∧ f ∈ F ∧
       filled_spec st p s'.2 (entry_ptr t 1022) f (stack_frame p)) E (h, p).
Proof.
  intros HE Hi ([e0 H0] & [e1 H1] & H01) Hsl Hd Ht Hk Hfo Hz Hnc. set (a := entry_ptr t 1022) in *.
  pose proof Hsl as (Hin & dc & Hdc & Hsc). destruct stack_page_slot as (Hi1 & Hi2 & _).
  destruct (pi_frames _ _ Hi) as [st Hf].
  unfold fill_stack, get_physical_addr at 1, find_page at 1. wp_step. wp_step. apply wp_getp. cbn [snd]. rewrite Hin. cbn [negb].
  wp_step. wp_step. eapply wp_rd_dir; [exact Hd|]. rewrite Hi1, Hi2, Ht.
  destruct (Z.eqb_spec t 0) as [->|_]; [rewrite KERNEL_HEAP_BEGIN_eq in Hk; lia|]. apply wp_ret. fold a.
  destruct (Z.eqb_spec a 0) as [Ha|_]; [unfold a, entry_ptr in Ha; rewrite KERNEL_HEAP_BEGIN_eq in Hk; lia|].
  wp_step. eapply wp_rd_pte; [exact Hz|]. cbn [e_addr entry_zero Z.eqb andb negb]. wp_step.
  destruct st as [|f st _] using rev_ind.
  { eapply wp_mono_E; [eapply (alloc_new_ok _ _ _ _ _ _ 0 (λ msg, msg = no_free_frame)); try done| |].
    - intros Hn. by rewrite (fo_n _ _ _ Hf) in Hn.
    - intros ? ? [Hn _]. by rewrite (fo_n _ _ _ Hf) in Hn.
    - by intros ? ->. }
  destruct (frames_ok_top _ _ _ _ Hf) as (Hnz & Htop & HfF & _). destruct (fo_range _ _ _ Hf f HfF) as [Hr Hrl].
  eapply wp_mono; [eapply (alloc_new_ok _ _ _ _ _ _ f); [exact Hz|reflexivity|done|]|].
  { intros _. split; [exact Htop|]. split; [lia|exact Hrl]. }
  intros _ ? [_ ->]. set (p1 := alloc_state p a entry_zero false true f).
  assert (Hp1 : pte p1 = <[a:=alloc_entry false true f entry_zero]> (pte p)) by done.
  wp_step. eapply wp_rd_pte; [cbn [snd]; rewrite Hp1; apply lookup_insert_eq|]. apply wp_ret.
  assert (Hfe : e_addr (alloc_entry false true f entry_zero) = f) by (simpl; rewrite Z.mod_small; lia).
  rewrite Hfe, phys_of_frame by lia. wp_step. apply wp_getp. cbn [snd].
  assert (Hne : table_of dc 1023 ≠ 0 → entry_ptr (table_of dc 1023) 1022 ≠ a).
  { intros _ Heq. apply (Hnc dc Hdc). unfold a, entry_ptr in Heq. lia. }
  assert (Hsl1 : stack_slot p1).
  { split; [exact Hin|]. exists dc. split; [exact Hdc|]. intros Hn. destruct (Hsc Hn) as (Hkc & e & He & Her).
    split; [done|]. exists e. rewrite Hp1, lookup_insert_ne by (by apply not_eq_sym, Hne). done. }
  assert (Hsf : stack_frame p1 = stack_frame p).
  { unfold stack_frame. change (dirs p1) with (dirs p). change (current_page_dir p1) with (current_page_dir p). rewrite Hdc.
    destruct (Z.eqb_spec (table_of dc 1023) 0) as [|Hn]; [done|].
    by rewrite Hp1, lookup_insert_ne by (by apply not_eq_sym, Hne). }
  destruct (stack_source_ok h p1 E Hsl1) as [Hsr Hsrc]. wp_step. eapply wp_mono; [exact Hsrc|]. intros ? ? [-> ->].
  rewrite Hsf in Hsr |- *. destruct Hfo as [Hns Hnh].
  assert (Hsa : a ≠ empty_page0_ptr p ∧ a ≠ empty_page1_ptr p).
  { split; intros Heq; apply Hns; [by left|by right]. }
  eapply wp_mono; [apply (copy_page_physical_ok h p1 e0 e1 f (stack_frame p))|].
  - rewrite Hp1, lookup_insert_ne by tauto. exact H0.
  - rewrite Hp1, lookup_insert_ne by tauto. exact H1.
  - exact H01.
  - lia.
  - exact Hsr.
  - intros _ ? ->. exists st, f, e0, e1. split; [reflexivity|]. split; [exact HfF|].
    by apply (filled_ok st p a e0 e1 f).
Qed.

Lemma filled_state fr al hole h p st a e0 e1 f src :
  let q := filled p a e0 e1 f src in
  space_state F K fr al hole (h, p) → filled_spec st p q a f src → KERNEL_HEAP_BEGIN ≤ a → f ∈ F →
  space_state F K fr al hole (h, q).
Proof.
  intros q [Hk Hs] [F1 F2 F3 F4 F5 F6 F7 F8 F9] Ha HfF. cbn [snd] in *. split; [by eapply kheap_ok_quiet|]. cbn [snd].
  assert (Hm := fo_range _ _ _ F1 f HfF).
  eapply space_entries; [exact Hs|reflexivity|reflexivity|reflexivity|reflexivity|reflexivity|reflexivity| | | |].
  - apply (qu_dom _ _ F2).
  - intros b Hb. left. by apply F9.
  - intros b e Hkb Hb He. destruct (decide (b = a)) as [->|Hba].
    + right. rewrite F4 in He. injection He as <-. intros _. simpl. split; [by rewrite Z.mod_small by lia|done].
    + left. rewrite <- F3; [exact He| |exact Hba]. intros Hsc. pose proof (sp_scratch_low _ _ _ _ _ Hs b Hsc). lia.
  - intros z pa. apply (quiet_backed p q z pa F2).
Qed.
Lemma ex_read_frame X p q a e :
  extends X p q → foreign p a → pte p !! a = Some e → e_addr e ≠ 0 → read_frame q (e_addr e) = read_frame p (e_addr e).
Proof.
  intros Hx Ha He H0. apply list_eq_same_length with 4096%nat; [apply length_read_frame|apply length_read_frame|].
  intros i x y Hi Hx' Hy. rewrite lookup_read_frame in Hx', Hy by done. injection Hx' as <-. injection Hy as <-.
  eapply ex_phys; [exact Hx|exact Ha|exact He|exact H0|lia].
Qed.
Lemma extends_filled X p0 p st a e0 e1 f src :
  let q := filled p a e0 e1 f src in
  extends X p0 p → filled_spec st p q a f src → pte p0 !! a = None → extends X p0 q.
Proof.
  intros q Hx [F1 F2 F3 F4 F5 F6 F7 F8 F9] Ha.
  eapply extends_later; [exact Hx|reflexivity|reflexivity|reflexivity|reflexivity|reflexivity|reflexivity| | |].
  - intros z pa. apply (quiet_backed p q z pa F2).
  - intros b e Hb Hp0 He. exists e. split; [|by left]. rewrite F3; [exact He|apply Hb|]. intros ->. rewrite Ha in Hp0. by destruct Hp0.
  - intros b e i Hb _ He H0 Hi. apply F8. intros Hr.
    assert (Hin : b ∈ mappers p f); [|rewrite F6 in Hin; by apply elem_of_empty in Hin].
    apply elem_of_mappers. exists e. split; [exact He|]. split; [|apply Hb].
    rewrite !Z.shiftl_mul_pow2 in Hr by lia. change (2 ^ 12) with 4096 in Hr. lia.
Qed.

(** no page outside the heap has the frame *)
Definition unused_frame p f : Prop := ∀ a e, foreign p a → pte p !! a = Some e → e_addr e ≠ f.
(** The table at [t] holds a copy of the stack's page, in a frame of its own, and
    nothing else. *)
Record stack_copy p q t : Prop := {
  sk_entry : ∃ f, f ∈ F ∧ pte q !! entry_ptr t 1022 = Some (alloc_entry false true f entry_zero) ∧
    (stack_frame p ≠ 0 → read_frame q f = read_frame p (stack_frame p)) ∧ unused_frame p f;
  sk_rest j : 0 ≤ j < 1024 → j ≠ 1022 → pte q !! entry_ptr t j = Some entry_zero
}.
Lemma stack_frame_later X p q :
  extends X p q → dirs q !! current_page_dir q = dirs p !! current_page_dir p →
  (∀ dc, dirs p !! current_page_dir p = Some dc → table_of dc 1023 ≠ 0 → user_entry_inv p (table_of dc 1023)) →
  stack_frame q = stack_frame p ∧ (stack_frame p ≠ 0 → read_frame q (stack_frame p) = read_frame p (stack_frame p)).
Proof.
  intros Hx Hcur Hcs. unfold stack_frame. rewrite Hcur. destruct (dirs p !! current_page_dir p) as [dc|] eqn:Hdc; [|done].
  destruct (Z.eqb_spec (table_of dc 1023) 0) as [|Hn]; [done|]. destruct (Hcs dc eq_refl Hn) as (Hfo & e & He & _).
  destruct (ex_pte _ _ _ Hx _ e Hfo He) as (e' & He' & Hc). rewrite He, He'. split.
  - by destruct Hc as [->|(_ & _ & ->)].
  - intros H0. by eapply ex_read_frame.
Qed.
Lemma unused_earlier X p q f : extends X p q → unused_frame q f → unused_frame p f.
Proof.
  intros Hx Hu a e Ha He. destruct (ex_pte _ _ _ Hx _ e Ha He) as (e' & He' & Hc).
  assert (Hne : e_addr e' ≠ f) by (apply (Hu a e'); [by apply (ex_foreign _ _ _ _ Hx)|done]).
  by destruct Hc as [->|(_ & _ & ->)].
Qed.
(** A copy made later, and looked at later still, is one of the stack now. *)
Lemma stack_copy_earlier X p0 p q t :
  extends X p0 p → stack_frame p = stack_frame p0 → (stack_frame p0 ≠ 0 → read_frame p (stack_frame p0) = read_frame p0 (stack_frame p0)) →
  stack_copy p q t → stack_copy p0 q t.
Proof.
  intros Hx Hsf Hrf [(f & HF & He & Hr & Hu) Hz]. split; [|exact Hz]. exists f. split; [exact HF|]. split; [exact He|].
  split; [|by eapply unused_earlier]. intros H0. rewrite Hr by (by rewrite Hsf). rewrite Hsf. by apply Hrf.
Qed.
Lemma stack_copy_later X p st q q' t :
  stack_copy p q t → extends X q q' → frames_ok F st q → (∀ j, 0 ≤ j < 1024 → foreign q (entry_ptr t j) ∧ ¬ X (entry_ptr t j)) →
  stack_copy p q' t.
Proof.
  intros [(f & HF & He & Hr & Hu) Hz] Hx Hf Ht. destruct (fo_range _ _ _ Hf f HF) as [Hfr _].
  assert (Hkeep : ∀ j e, 0 ≤ j < 1024 → pte q !! entry_ptr t j = Some e → pte q' !! entry_ptr t j = Some e).
  { intros j e Hj Hje. destruct (Ht j Hj) as [Hfo HnX]. destruct (ex_pte _ _ _ Hx _ e Hfo Hje) as (e' & He' & [->|(HX & _)]); [exact He'|by destruct HnX]. }
  split.
  - exists f. split; [exact HF|]. split; [by apply Hkeep; [lia|]|]. split; [|exact Hu]. intros H0. rewrite <- Hr by done.
    assert (Hfe : e_addr (alloc_entry false true f entry_zero) = f) by (simpl; rewrite Z.mod_small; lia).
    rewrite <- Hfe. destruct (Ht 1022 ltac:(lia)) as [Hfo _]. eapply ex_read_frame; [exact Hx|exact Hfo|exact He|].
    rewrite Hfe. lia.
  - intros j Hj Hne. apply Hkeep; [done|]. by apply Hz.
Qed.
Definition clone_stack (dest : Z) : M kstate unit :=
  get_page kernel_kmalloc dest stack_page true ;; fill_stack dest.

Lemma clone_stack_ok X fr al hole h p dest d E :
  (∀ n fr size palign msg, kmalloc_fails n fr size palign msg → E msg) →
  space_state F K fr al hole (h, p) → dirs p !! dest = Some d → table_of d 1023 = 0 → ¬ hole dest 1023 →
  dest ≠ current_page_dir p → ¬ hole (current_page_dir p) 1023 →
  wp (clone_stack dest)
    (λ _ s', ∃ t d' fr' u, space_state F K fr' (Alloc t sizeof_Table_t u :: al) hole s' ∧ extends X p s'.2 ∧
       dirs s'.2 = <[dest:=d']> (dirs p) ∧ slot_only 1023 d d' ∧ table_of d' 1023 = t ∧ new_table p t ∧
       stack_copy p s'.2 t ∧ ∀ z, in_blocks z fr' → in_blocks z fr) E (h, p).
Proof.
  intros HE Hss Hd Ht0 Hh Hdc Hhc. destruct stack_page_slot as (Hi1 & Hi2 & _). unfold clone_stack. wp_step.
  eapply wp_mono; [apply (get_page_new_ok F K E HE X h p fr al hole dest stack_page d Hss Hd); rewrite Hi1|].
  { by right. } { exact Ht0. } { exact Hh. }
  rewrite Hi1. intros r [h1 p1] (t & d' & fr' & u & _ & Hss1 & Hx & Hd1 & Hso & Ht & Hnt & Hz & Hless). cbn [snd] in *.
  assert (Hcur : dirs p1 !! current_page_dir p1 = dirs p !! current_page_dir p).
  { rewrite Hd1, (ex_cur _ _ _ Hx). by rewrite lookup_insert_ne. }
  assert (Hhc1 : ¬ hole (current_page_dir p1) 1023) by (by rewrite (ex_cur _ _ _ Hx)).
  pose proof (sp_inv _ _ _ _ _ _ Hss1) as Hi. cbn [snd] in Hi.
  assert (Hcs : ∀ dc, dirs p !! current_page_dir p = Some dc → table_of dc 1023 ≠ 0 → user_entry_inv p (table_of dc 1023)).
  { intros dc Hdc' Hn. by apply (stack_slot_ok _ _ _ _ _ _ dc Hss Hdc' Hhc Hn). }
  assert (Hcne : ∀ dc, dirs p1 !! current_page_dir p1 = Some dc → table_of dc 1023 ≠ t).
  { intros dc Hdc' Heq. rewrite Hcur in Hdc'. destruct (Hcs dc Hdc') as (_ & e & He & _).
    - rewrite Heq. destruct (nt_heap _ _ Hnt) as [Hk _]. rewrite KERNEL_HEAP_BEGIN_eq in Hk. lia.
    - rewrite Heq, (nt_new _ _ Hnt) in He by (unfold entry_ptr; lia). done. }
  pose proof (sp_space _ _ _ _ _ _ Hss1) as Hs1. cbn [snd] in Hs1.
  eapply wp_mono; [apply (fill_stack_ok h1 p1 dest d' t E)|].
  - exact (HE _ _ _ _ _ kmalloc_no_frame).
  - exact Hi.
  - exact (sp_scratch _ _ _ _ _ Hs1).
  - eapply space_stack_slot; [exact Hss1|exact Hhc1].
  - rewrite Hd1. apply lookup_insert_eq.
  - exact Ht.
  - apply (nt_heap _ _ Hnt).
  - eapply space_foreign; [exact Hs1|exact Hi|]. destruct (nt_heap _ _ Hnt). unfold entry_ptr. lia.
  - apply Hz. lia.
  - exact Hcne.
  - intros _ s' (st & f & e0 & e1 & -> & HfF & Hfs). cbn [snd] in *. exists t, d', fr', u.
    assert (Hk : KERNEL_HEAP_BEGIN ≤ entry_ptr t 1022) by (destruct (nt_heap _ _ Hnt); unfold entry_ptr; lia).
    split; [by eapply filled_state|]. split.
    { eapply extends_filled; [exact Hx|exact Hfs|]. apply (nt_new _ _ Hnt). unfold entry_ptr. lia. }
    split; [exact Hd1|]. split; [exact Hso|]. split; [exact Ht|]. split; [exact Hnt|]. split; [|exact Hless].
    destruct (stack_frame_later X p p1 Hx Hcur Hcs) as [Hsf1 Hsf2]. split.
    + exists f. split; [exact HfF|]. split; [exact (fs_entry _ _ _ _ _ _ Hfs)|]. split.
      { intros H0. rewrite (fs_copy _ _ _ _ _ _ Hfs), Hsf1. by apply Hsf2. }
      eapply unused_earlier; [exact Hx|]. intros a e Ha He Heq.
      assert (Hin : a ∈ mappers p1 f); [|rewrite (fs_free _ _ _ _ _ _ Hfs) in Hin; by apply elem_of_empty in Hin].
      apply elem_of_mappers. exists e. split; [exact He|]. split; [exact Heq|apply Ha].
    + intros j Hj Hne. rewrite (fs_pte _ _ _ _ _ _ Hfs); [by apply Hz| |unfold entry_ptr; lia].
      intros Hsc. pose proof (sp_scratch_low _ _ _ _ _ Hs1 _ Hsc). destruct (nt_heap _ _ Hnt). unfold entry_ptr in *. lia.
Qed.
End CloneStack.
