(* ===== verification/CloneTable.v ===== *)
(** [clone_table] and the slots of a cloned directory ([core/page.cpp]): a user
    slot gets a table of its own that shares the pages, a kernel slot the same
    table. *)
From S2P Require Import Prelude Rbt TreeMm Common Kheap KheapSpec KheapOk Page PageInit PageOk PageFrames PageHeap PageCow KernelHeap Quiet Space SpaceOps CloneStack.

Section CloneTable.
Context `{HLo : HeapLinkOk} `{FN : FreshNode} `{PL : PageLink} `{PLok : !PageLinkOk}.
Context (F : gset Z) (K : Z → Z).
Implicit Types (h : kheap) (p q : paging) (a t z f g i j : Z) (e : Table_entry_t) (d : Directory_t) (fr : list Block_t).
Implicit Types (hole : Z → Z → Prop) (st : list Z) (al : list alloc) (X : Z → Prop) (E : string → Prop).
#[local] Opaque read_frame.

(** * [clone_table] *)
(** The tables at [ts] and [t] share the pages that [ts] had in [p]. *)
Definition cloned p q ts t : Prop :=
  ∀ j e, 0 ≤ j < 1024 → pte p !! entry_ptr ts j = Some e →
    pte q !! entry_ptr ts j = Some (shared_entry e) ∧ pte q !! entry_ptr t j = Some (shared_entry e).

Lemma shared_addr e : e_addr (shared_entry e) = e_addr e.
Proof. unfold shared_entry. by case_match. Qed.
Lemma shared_user e : user_entry F e → user_entry F (shared_entry e).
Proof. unfold user_entry. rewrite shared_addr. intros He H0. destruct (He H0). split; [done|]. unfold shared_entry. by case_match. Qed.
Lemma shared_step (P : Prop) e e' : e' = e ∨ P ∧ e_addr e ≠ 0 ∧ e' = set_rw 0 e → shared_entry e' = shared_entry e.
Proof.
  intros [->|(_ & H0 & ->)]; [done|]. unfold shared_entry. simpl. by apply Z.eqb_neq in H0 as ->.
Qed.
Lemma shared_twice (P : Prop) e e' :
  e' = shared_entry e ∨ P ∧ e_addr (shared_entry e) ≠ 0 ∧ e' = set_rw 0 (shared_entry e) → e' = shared_entry e.
Proof.
  intros [->|(_ & H0 & ->)]; [done|]. rewrite shared_addr in H0. unfold shared_entry. by apply Z.eqb_neq in H0 as ->.
Qed.

(** The loop over a fresh table, seen by the rest of the kernel. *)
Lemma share_table_ok X p0 fr al hole h p ts t E :
  space_state F K fr al hole (h, p) → extends X p0 p → user_table F p ts → user_table F p t → ts ≠ t →
  (∀ i j, 0 ≤ i < 1024 → 0 ≤ j < 1024 → entry_ptr ts i ≠ entry_ptr t j) →
  (∀ j, 0 ≤ j < 1024 → X (entry_ptr ts j)) → (∀ j, 0 ≤ j < 1024 → pte p0 !! entry_ptr t j = None) →
  (∀ j, 0 ≤ j < 1024 → pte p !! entry_ptr t j = Some entry_zero) →
  wp (for_each (upto 0 1024) (clone_entry ts t))
    (λ _ s', space_state F K fr al hole s' ∧ extends X p0 s'.2 ∧ dirs s'.2 = dirs p ∧ cloned p s'.2 ts t ∧
       (∀ z pa, backed p z pa → backed s'.2 z pa) ∧ ∀ a, is_Some (pte p !! a) ↔ is_Some (pte s'.2 !! a)) E (h, p).
Proof.
  intros Hss Hx [Hts Hes] [Ht Het] Hne Hsep HX Hnew Hz. pose proof (sp_inv _ _ _ _ _ _ Hss) as Hi.
  destruct (pi_frames _ _ Hi) as [st Hf]. destruct Hss as [Hk Hs]. cbn [snd] in *.
  set (es i := default entry_zero (pte p !! entry_ptr ts i)).
  assert (Hfo : ∀ a, KERNEL_HEAP_BEGIN ≤ a → foreign p a) by (intros; by eapply space_foreign).
  assert (Hets : ∀ i, 0 ≤ i < 1024 → pte p !! entry_ptr ts i = Some (es i) ∧ user_entry F (es i)).
  { intros i Hr. destruct (Hes i Hr) as (e & He & HF). unfold es. by rewrite He. }
  assert (Hhs : ∀ i, 0 ≤ i < 1024 → KERNEL_HEAP_BEGIN ≤ entry_ptr ts i ∧ KERNEL_HEAP_BEGIN ≤ entry_ptr t i) by (unfold entry_ptr; lia).
  eapply wp_mono; [apply (clone_entries_ok F st h p ts t es E Hf)|].
  { split.
    - intros i Hr. by apply Hets.
    - intros i Hr. by apply Hets.
    - exact Hz.
    - exact Hsep.
    - intros i Hr. apply Hfo. by apply Hhs.
    - intros i Hr. apply Hfo. by apply Hhs. }
  intros _ ? (q & -> & Hfq & Hin & Hout & Hph & Hph0 & Hdir & Hcur & E0 & E1 & El & Ei). cbn [snd].
  assert (Hcase : ∀ a, (∃ i, 0 ≤ i < 1024 ∧ (a = entry_ptr ts i ∨ a = entry_ptr t i)) ∨
                       ∀ i, 0 ≤ i < 1024 → a ≠ entry_ptr ts i ∧ a ≠ entry_ptr t i).
  { intros a. destruct (decide (Exists (λ i, a = entry_ptr ts i ∨ a = entry_ptr t i) (upto 0 1024))) as [Hex|Hn].
    - left. apply Exists_exists in Hex as (i & Hi' & Ha). exists i. split; [by apply elem_of_upto|done].
    - right. intros i Hr. split; intros Ha; apply Hn, Exists_exists; exists i; (split; [by apply elem_of_upto|]); auto. }
  assert (Hq : ∀ i, 0 ≤ i < 1024 → ∀ a, a = entry_ptr ts i ∨ a = entry_ptr t i →
     is_Some (pte p !! a) ∧ pte q !! a = Some (shared_entry (es i))).
  { intros i Hr a [->| ->]; (split; [|by apply Hin]); [eexists; by apply Hets|eexists; by apply Hz]. }
  assert (Hdom : ∀ a, is_Some (pte p !! a) ↔ is_Some (pte q !! a)).
  { intros a. destruct (Hcase a) as [(i & Hr & Ha)|Hn]; [|by rewrite Hout].
    destruct (Hq i Hr a Ha) as [Hp ->]. split; [by eexists|done]. }
  assert (Hsame : ∀ a e, pte q !! a = Some e → pte p !! a = Some e ∨
     foreign p a ∧ ∃ i, 0 ≤ i < 1024 ∧ e = shared_entry (es i)).
  { intros a e He. destruct (Hcase a) as [(i & Hr & Ha)|Hn]; [|left; by rewrite <- Hout].
    right. destruct (Hq i Hr a Ha) as [_ Hqa]. split; [|exists i; split; [done|congruence]].
    destruct (Hhs i Hr). apply Hfo. by destruct Ha as [->| ->]. }
  assert (Hqu : quiet p q).
  { split; try assumption.
    - rewrite Hdir, Hcur. exact (pi_dir _ _ Hi).
    - intros z _. unfold page_of. by rewrite Hdir, Hcur.
    - intros a. apply Hdom.
    - intros a Hsc. destruct (Hcase a) as [(i & Hr & Ha)|Hn]; [|left; by apply Hout]. right.
      destruct (Hq i Hr a Ha) as [_ Hqa]. destruct (Hhs i Hr). split; [apply Hfo; by destruct Ha as [->| ->]|].
      intros e He. rewrite Hqa in He. injection He as <-. rewrite shared_addr.
      eapply (foreign_frame F p (entry_ptr ts i)); [done|by apply Hfo|by apply Hets].
    - intros f i _ _. unfold phys_at. by rewrite Hph, Hph0. }
  assert (Hb : ∀ z pa, backed p z pa → backed q z pa) by (intros z pa; by apply quiet_backed).
  split; [split|split; [|split; [done|split; [|split; [done|exact Hdom]]]]].
  - by eapply kheap_ok_quiet.
  - eapply space_entries; [exact Hs|done|done|done|done|done|done| | | |exact Hb].
    + intros a. apply Hdom.
    + intros a Ha. left. by apply Hdom.
    + intros a e _ _ He. destruct (Hsame a e He) as [?|(_ & i & Hr & ->)]; [by left|right]. by apply shared_user, Hets.
  - eapply extends_later; [exact Hx|done|done|done|done|done| |exact Hb| |].
    + intros z _. unfold page_of. by rewrite Hdir, Hcur.
    + intros a e _ Hp0 He. destruct (Hcase a) as [(i & Hr & [->| ->])|Hn].
      * destruct (Hets i Hr) as [Hpe _]. rewrite Hpe in He. injection He as <-. exists (shared_entry (es i)).
        split; [by apply Hin|]. unfold shared_entry. destruct (Z.eqb_spec (e_addr (es i)) 0); [by left|right]. auto.
      * rewrite Hnew in Hp0 by done. by destruct Hp0.
      * exists e. rewrite Hout by done. split; [done|by left].
    + intros a e i _ _ _ _ _. unfold phys_at. by rewrite Hph, Hph0.
  - intros j e Hj He. destruct (Hets j Hj) as [Hpe _]. rewrite Hpe in He. injection He as <-. by apply Hin.
Qed.

Section MayFail.
Context (E : string → Prop) (HE : ∀ n fr size palign msg, kmalloc_fails n fr size palign msg → E msg).

(** A fresh table, touched and zeroed: what [clone_table] starts with. *)
Definition make_table : M kstate Z :=
  t ← kernel_kmalloc sizeof_Table_t 12;
  touch t sizeof_Table_t ;;
  p ← getp;
  putp (with_pte p (zero_table t ∪ pte p)) ;;
  mret t.
Lemma make_table_ok X fr al hole h p :
  space_state F K fr al hole (h, p) →
  wp make_table
    (λ t s', ∃ fr' u, space_state F K fr' (Alloc t sizeof_Table_t u :: al) hole s' ∧ extends X p s'.2 ∧ dirs s'.2 = dirs p ∧
       new_table p t ∧ user_table F s'.2 t ∧ (∀ a i, slot_new s'.2 hole a i t) ∧ (∃ pa, backed s'.2 t pa) ∧
       (∀ j, 0 ≤ j < 1024 → pte s'.2 !! entry_ptr t j = Some entry_zero) ∧
       ∀ z, in_blocks z fr' → in_blocks z fr) E (h, p).
Proof.
  intros Hss. unfold make_table. wp_step.
  eapply wp_mono; [apply (new_object_ok F K E HE X sizeof_Table_t 12 _ _ _ _ Hss); unfold sizeof_Table_t; lia|].
  intros t [h1 p1] (fr' & u & Hss1 & Hx1 & Hd1 & [Hal Hheap _ Hnow Hless Hmap] & Hnone & Hnone1). cbn [snd] in *.
  change (page_aligned t) in Hal. assert (Hth : 0 < t) by (rewrite KERNEL_HEAP_BEGIN_eq in Hheap; lia).
  assert (Hnt : new_table p t) by (split; [exact Hheap|exact Hal|intros z Hz; by apply Hnone]).
  wp_step. eapply wp_mono; [apply (touch_ok F K E HE X t sizeof_Table_t (h1, p1) fr' _ hole Hss1 Hal); unfold sizeof_Table_t; [lia|lia|exact Hmap]|].
  intros _ [h2 p2] (Hss2 & Hx2 & Hle2 & Hb2). cbn [fst snd] in *.
  destruct (Hb2 t) as [pa Hpa]; [unfold sizeof_Table_t; lia|exact Hal|].
  assert (Hfree : ∀ z, t ≤ z < t + 4096 → pte p2 !! z = None ∧ ¬ in_blocks z fr').
  { intros z Hz. split; [|by apply Hnow]. eapply page_le_none; [exact Hle2|]. by apply Hnone1, Hnone. }
  destruct (add_table_state F K X fr' (Alloc t sizeof_Table_t u :: al) hole h2 p2 t Hss2 Hheap Hal Hfree) as [Hss3 Hx3].
  pose proof (sp_space _ _ _ _ _ _ Hss2) as Hs2. cbn [snd] in Hs2.
  wp_step. apply wp_getp. wp_step. apply wp_putp. cbn [fst snd].
  change (with_pte p2 (zero_table t ∪ pte p2)) with (add_table t p2). apply wp_ret. cbn [snd].
  exists fr', u. split; [exact Hss3|]. split; [do 2 (eapply extends_trans; [eassumption|]); exact Hx3|].
  split; [change (dirs p2 = dirs p); destruct Hle2 as [(_ & _ & [S1 _]) _]; congruence|]. split; [exact Hnt|].
  split; [by apply add_table_user|]. split; [|split; [|split; [|exact Hless]]].
  - intros a i. exact (add_table_new F K fr' hole p2 t Hs2 Hheap Hal Hfree a i).
  - exists pa. eapply add_table_backed; [exact Hfree|exact Hpa].
  - intros j Hj. by apply add_table_at.
Qed.

Lemma clone_table_eq ts s : clone_table kernel_kmalloc ts s = (t ← make_table; for_each (upto 0 1024) (clone_entry ts t) ;; mret t) s.
Proof.
  unfold clone_table, make_table, mbind, M_bind. destruct (kernel_kmalloc sizeof_Table_t 12 s) as [[t s1]| | |]; [|done..].
  by destruct (touch t sizeof_Table_t s1) as [[? s2]| | |].
Qed.
Lemma clone_table_ok X fr al hole h p ts :
  space_state F K fr al hole (h, p) → user_table F p ts → (∀ j, 0 ≤ j < 1024 → X (entry_ptr ts j)) →
  wp (clone_table kernel_kmalloc ts)
    (λ t s', ∃ fr' u, space_state F K fr' (Alloc t sizeof_Table_t u :: al) hole s' ∧ extends X p s'.2 ∧ dirs s'.2 = dirs p ∧
       new_table p t ∧ user_table F s'.2 t ∧ (∀ a i, slot_new s'.2 hole a i t) ∧ (∃ pa, backed s'.2 t pa) ∧
       cloned p s'.2 ts t ∧ ∀ z, in_blocks z fr' → in_blocks z fr) E (h, p).
Proof.
  intros Hss Hut HX. unfold wp. rewrite clone_table_eq.
  enough (wp (t ← make_table; for_each (upto 0 1024) (clone_entry ts t) ;; mret t)
    (λ t s', ∃ fr' u, space_state F K fr' (Alloc t sizeof_Table_t u :: al) hole s' ∧ extends X p s'.2 ∧ dirs s'.2 = dirs p ∧
       new_table p t ∧ user_table F s'.2 t ∧ (∀ a i, slot_new s'.2 hole a i t) ∧ (∃ pa, backed s'.2 t pa) ∧
       cloned p s'.2 ts t ∧ ∀ z, in_blocks z fr' → in_blocks z fr) E (h, p)) by done.
  wp_step. eapply wp_mono; [by apply (make_table_ok X)|].
  intros t [h1 p1] (fr' & u & Hss1 & Hx1 & Hd1 & Hnt & Hut1 & Hsn & [pa Hpa] & Hz & Hless). cbn [snd] in *.
  pose proof (sp_inv _ _ _ _ _ _ Hss) as Hi. pose proof (sp_space _ _ _ _ _ _ Hss) as Hs. cbn [snd] in *.
  destruct (nt_heap _ _ Hnt) as [Hk1 Hk2].
  assert (Hfo : ∀ j, 0 ≤ j < 1024 → foreign p (entry_ptr ts j)).
  { intros j Hj. eapply space_foreign; [exact Hs|exact Hi|]. destruct Hut as [Hu _]. unfold entry_ptr. lia. }
  assert (Hsep : ∀ i j, 0 ≤ i < 1024 → 0 ≤ j < 1024 → entry_ptr ts i ≠ entry_ptr t j).
  { intros i j Hri Hrj Heq. destruct (ut_entry _ _ _ Hut i Hri) as (e & He & _).
    rewrite Heq, (nt_new _ _ Hnt) in He by (unfold entry_ptr; lia). done. }
  assert (Hut2 : user_table F p1 ts).
  { split; [apply Hut|]. intros j Hj. destruct (ut_entry _ _ _ Hut j Hj) as (e & He & HF).
    destruct (ex_pte _ _ _ Hx1 _ e (Hfo j Hj) He) as (e' & He' & Hc). exists e'. split; [done|].
    by destruct Hc as [->|(_ & _ & ->)]. }
  wp_step. eapply wp_mono; [apply (share_table_ok X p fr' _ hole h1 p1 ts t E Hss1 Hx1 Hut2 Hut1)|].
  - intros ->. by destruct (Hsep 0 0 ltac:(lia) ltac:(lia)).
  - exact Hsep.
  - exact HX.
  - intros j Hj. apply (nt_new _ _ Hnt). unfold entry_ptr. lia.
  - exact Hz.
  - intros _ [h2 p2] (Hss2 & Hx2 & Hd2 & Hcl & Hb2 & Hdom). cbn [snd] in *. apply wp_ret. exists fr', u. cbn [snd].
    assert (Hl : kernel_low_ntable p2 = kernel_low_ntable p1) by (by rewrite (ex_low _ _ _ Hx2), (ex_low _ _ _ Hx1)).
    split; [exact Hss2|]. split; [exact Hx2|]. split; [congruence|]. split; [exact Hnt|]. split; [|split; [|split; [|split; [|exact Hless]]]].
    + split; [apply Hut1|]. intros j Hj. destruct (ut_entry _ _ _ Hut2 j Hj) as (e & He & HF).
      destruct (Hcl j e Hj He) as [_ Ht]. exists (shared_entry e). split; [exact Ht|]. by apply shared_user.
    + intros a i b db j Hdb Hj. unfold user_index in Hj. rewrite Hl in Hj. rewrite Hd2 in Hdb. by apply (Hsn a i b db j).
    + exists pa. by apply Hb2.
    + intros j e Hj He. destruct (ex_pte _ _ _ Hx1 _ e (Hfo j Hj) He) as (e' & He' & Hc).
      apply shared_step in Hc. destruct (Hcl j e' Hj He') as [H1 H2]. by rewrite <- Hc.
Qed.

(** * A user slot *)
Definition clone_slot (src dest i : Z) : M kstate unit :=
  s ← rd_dir src;
  if table_of s i =? 0 then mret tt
  else
    t ← clone_table kernel_kmalloc (table_of s i);
    upd_dir dest (dir_set_table i t) ;;
    s ← rd_dir src;
    p ← getp;
    pa ← get_physical_addr (current_page_dir p) t false false true;
    upd_dir dest (dir_set_entry i (dentry_set_addr (Z.shiftr pa 12) (dir_entry_of s i))).
(** Slot [i] of the clone [dd] of [ds]. *)
Definition slot_cloned p q (ds dd : Directory_t) i : Prop :=
  table_of ds i = 0 ∧ table_of dd i = 0 ∨
  table_of ds i ≠ 0 ∧ new_table p (table_of dd i) ∧ cloned p q (table_of ds i) (table_of dd i).

Lemma clone_slot_ok X fr al hole h p src dest i ds dd :
  space_state F K fr al hole (h, p) → dirs p !! src = Some ds → dirs p !! dest = Some dd → src ≠ dest →
  dest ≠ current_page_dir p → user_index p i → ¬ hole src i → ¬ hole dest i → table_of dd i = 0 →
  (table_of ds i ≠ 0 → ∀ j, 0 ≤ j < 1024 → X (entry_ptr (table_of ds i) j)) →
  wp (clone_slot src dest i)
    (λ _ s', ∃ fr' new dd', space_state F K fr' (new ++ al) hole s' ∧ extends X p s'.2 ∧
       dirs s'.2 = <[dest:=dd']> (dirs p) ∧ slot_only i dd dd' ∧ slot_cloned p s'.2 ds dd' i ∧
       ∀ z, in_blocks z fr' → in_blocks z fr) E (h, p).
Proof.
  intros Hss Hds Hdd Hne Hdc Hu Hhs Hhd Ht0 HX. pose proof (sp_space _ _ _ _ _ _ Hss) as Hs. cbn [snd] in Hs.
  pose proof (sp_low _ _ _ _ _ Hs) as Hl. pose proof (proj1 (index_range p i Hl) (or_intror Hu)) as Hir.
  pose proof (sp_slot _ _ _ _ _ Hs src ds i Hds Hir Hhs) as [_ Hsu Hsw].
  unfold clone_slot. wp_step. eapply wp_rd_dir; [exact Hds|]. destruct (Z.eqb_spec (table_of ds i) 0) as [H0|H0].
  { apply wp_ret. exists fr, [], dd. cbn [snd]. split; [exact Hss|]. split; [apply extends_refl|].
    split; [by rewrite insert_id|]. split; [done|]. split; [by left|done]. }
  destruct (Hsu Hu) as [?|Hut]; [done|]. wp_step. eapply wp_mono; [by apply (clone_table_ok X); auto|].
  intros t [h1 p1] (fr' & u & Hss1 & Hx1 & Hd1 & Hnt & Hut1 & Hsn & [pa Hpa] & Hcl & Hless). cbn [snd] in *.
  set (al1 := Alloc t sizeof_Table_t u :: al) in *.
  assert (Hdd1 : dirs p1 !! dest = Some dd) by congruence.
  assert (Hdc1 : dest ≠ current_page_dir p1) by (by rewrite (ex_cur _ _ _ Hx1)).
  wp_step. eapply wp_upd_dir; [exact Hdd1|]. cbn [fst snd]. set (d2 := dir_set_table i t dd).
  assert (Hso2 : slot_only i dd d2) by (by apply slot_only_table).
  destruct (set_slot_ok F K X fr' al1 h1 p1 dest i dd d2 hole (open_slot hole dest i)) as [Hss2 Hx2];
    [exact Hss1|exact Hdd1|exact Hir|by intros ->|exact Hso2| | | | |].
  { intros b j Hb _ Hh. apply Hb. by left. }
  { intros j Hj [Hh|[Hh _]]; [by apply (sp_cur _ _ _ _ _ (sp_space _ _ _ _ _ _ Hss1) j Hj)|by apply Hdc1]. }
  { intros Hn. destruct Hn. by right. }
  { intros Hn. destruct Hn. by right. }
  set (p2 := with_dirs p1 (<[dest:=d2]> (dirs p1))) in *. pose proof (sp_inv _ _ _ _ _ _ Hss2) as Hi2. cbn [snd] in Hi2.
  wp_step. eapply wp_rd_dir; [cbn [snd dirs with_dirs p2]; rewrite lookup_insert_ne by done; rewrite Hd1; exact Hds|].
  wp_step. apply wp_getp. cbn [snd]. wp_step.
  eapply wp_mono; [apply (physical_addr_ok F h1 p2 t pa E Hi2)|].
  { exact (sp_init _ _ _ _ _ (sp_space _ _ _ _ _ _ Hss2)). } { by apply (ex_backed _ _ _ Hx2). } { exact (nt_aligned _ _ Hnt). }
  intros ? ? [-> ->]. assert (Hd2 : dirs p2 !! dest = Some d2) by apply lookup_insert_eq.
  eapply wp_upd_dir; [exact Hd2|]. cbn [fst snd].
  destruct (close_slot_ok F K X fr' al1 hole h1 p2 dest i d2 t pa (dir_entry_of ds i)) as (Hss3 & Hx3 & Hso3 & Ht3).
  - exact Hss2.
  - exact Hd2.
  - unfold user_index. rewrite (ex_low _ _ _ Hx2), (ex_low _ _ _ Hx1). exact Hu.
  - apply table_set.
  - destruct (Hsw H0) as (W1 & W2 & W3 & _). done.
  - destruct Hut1 as [U1 U2]. split; [exact U1|exact U2].
  - by apply (ex_backed _ _ _ Hx2).
  - exact (nt_aligned _ _ Hnt).
  - apply (slot_new_dirs p1 p2 hole dest i t dd d2 (Hsn dest i)); [apply (ex_low _ _ _ Hx2)|done|exact Hdd1|exact Hso2].
  - set (d3 := dir_set_entry i _ d2) in *. exists fr', [Alloc t sizeof_Table_t u], d3. split; [exact Hss3|].
    split; [eapply extends_trans; [exact Hx1|]; eapply extends_trans; [exact Hx2|exact Hx3]|].
    split; [cbn [snd dirs with_dirs p2]; by rewrite insert_insert_eq, Hd1|]. split; [by apply slot_only_entry|].
    split; [|exact Hless]. right. split; [done|]. rewrite Ht3. split; [exact Hnt|]. intros j e Hj He. by apply Hcl.
Qed.
End MayFail.

(** * Kernel slots *)
Lemma link_slot_ok X fr al hole h p src dest i ds dd E :
  space_state F K fr al hole (h, p) → dirs p !! src = Some ds → dirs p !! dest = Some dd → src ≠ dest →
  dest ≠ current_page_dir p → kernel_index p i → ¬ hole src i → hole dest i →
  wp (link_table src dest i)
    (λ _ s', ∃ dd', space_state F K fr al (λ b j, hole b j ∧ ¬ (b = dest ∧ j = i)) s' ∧ extends X p s'.2 ∧
       dirs s'.2 = <[dest:=dd']> (dirs p) ∧ slot_only i dd dd' ∧ table_of dd' i = table_of ds i) E (h, p).
Proof.
  intros Hss Hds Hdd Hne Hdc Hk Hhs Hhd. pose proof (sp_space _ _ _ _ _ _ Hss) as Hs. cbn [snd] in Hs.
  pose proof (sp_low _ _ _ _ _ Hs) as Hl. pose proof (proj1 (index_range p i Hl) (or_introl Hk)) as Hir.
  pose proof (sp_slot _ _ _ _ _ Hs src ds i Hds Hir Hhs) as [Hsk _ Hsw].
  unfold link_table. wp_step. eapply wp_rd_dir; [exact Hds|]. wp_step. eapply wp_upd_dir; [exact Hdd|]. cbn [fst snd].
  set (d1 := dir_set_table i (table_of ds i) dd). set (d2 := dir_set_entry i (dir_entry_of ds i) d1).
  eapply wp_upd_dir; [apply lookup_insert_eq|]. cbn [fst snd dirs with_dirs]. rewrite insert_insert_eq.
  change (with_dirs (with_dirs p (<[dest:=d1]> (dirs p))) (<[dest:=d2]> (dirs p))) with (with_dirs p (<[dest:=d2]> (dirs p))).
  assert (Hso : slot_only i dd d2) by (by apply slot_only_entry, slot_only_table).
  assert (Ht : table_of d2 i = table_of ds i) by apply table_set.
  destruct (set_slot_ok F K X fr al h p dest i dd d2 hole (λ b j, hole b j ∧ ¬ (b = dest ∧ j = i))) as [Hss' Hx'];
    [exact Hss|exact Hdd|exact Hir|by intros ->|exact Hso| | | | |].
  - intros b j Hn Hbj Hh. by apply Hn.
  - intros j Hj [Hh _]. by apply (sp_cur _ _ _ _ _ Hs j Hj).
  - intros _. split.
    + intros _. by rewrite Ht, Hsk.
    + intros Hu. by destruct (index_apart p i (proj2 Hl) Hk).
    + rewrite Ht. intros H0. unfold d2. rewrite entry_set. by apply Hsw.
  - intros _ Hu. by destruct (index_apart p i (proj2 Hl) Hk).
  - exists d2. split; [exact Hss'|]. split; [exact Hx'|]. done.
Qed.
End CloneTable.
