(* ===== verification/CloneDir.v ===== *)
(** [clone_directory] of [core/page.cpp]: a task gets a directory of its own,
    with the kernel's tables, a copy of the kernel stack's page, and every
    other page shared until one side writes to it. *)
From S2P Require Import Prelude Rbt TreeMm Common Kheap KheapSpec KheapOk Page PageInit PageOk PageFrames PageHeap PageCow KernelHeap Quiet Space SpaceOps CloneStack CloneTable.

Section CloneDir.
Context `{HLo : HeapLinkOk} `{FN : FreshNode} `{PL : PageLink} `{PLok : !PageLinkOk}.
Context (F : gset Z) (K : Z → Z).
Implicit Types (h : kheap) (p q : paging) (a t z f g i j : Z) (e : Table_entry_t) (d : Directory_t) (fr : list Block_t).
Implicit Types (hole : Z → Z → Prop) (st : list Z) (al : list alloc) (X : Z → Prop) (E : string → Prop).
#[local] Opaque read_frame.

(** * The loops over the slots *)
Lemma state_hole fr al hole hole' s :
  space_state F K fr al hole s → (∀ a i, hole a i → hole' a i) → (∀ i, 959 ≤ i < 1023 → ¬ hole' (current_page_dir s.2) i) →
  space_state F K fr al hole' s.
Proof. intros [Hk Hs] Hh Hc. split; [done|]. by eapply space_hole. Qed.
(** the kernel slots of [dest] that are not in [l] yet *)
Definition unlinked p (dest : Z) (l : list Z) : Z → Z → Prop := λ b j, b = dest ∧ kernel_index p j ∧ j ∉ l.

Lemma link_tables_ok X fr al h p0 p src dest ds dd (done_ l : list Z) E :
  space_state F K fr al (unlinked p0 dest done_) (h, p) → extends X p0 p → dirs p = <[dest:=dd]> (dirs p0) →
  dirs p0 !! src = Some ds → src ≠ dest → dest ≠ current_page_dir p → NoDup (done_ ++ l) → (∀ i, i ∈ l → kernel_index p0 i) →
  wp (for_each l (link_table src dest))
    (λ _ s', ∃ dd', space_state F K fr al (unlinked p0 dest (done_ ++ l)) s' ∧ extends X p0 s'.2 ∧
       dirs s'.2 = <[dest:=dd']> (dirs p0) ∧ (∀ j, j ∉ l → table_of dd' j = table_of dd j) ∧
       (∀ i, i ∈ l → table_of dd' i = table_of ds i) ∧ phyaddr dd' = phyaddr dd) E (h, p).
Proof.
  intros Hss Hx Hd Hds Hne Hdc Hnd Hl.
  set (J (pre : list Z) (s : kstate) := ∃ dd', space_state F K fr al (unlinked p0 dest (done_ ++ pre)) s ∧ extends X p0 s.2 ∧
    dirs s.2 = <[dest:=dd']> (dirs p0) ∧ (∀ j, j ∉ pre → table_of dd' j = table_of dd j) ∧
    (∀ i, i ∈ pre → table_of dd' i = table_of ds i) ∧ phyaddr dd' = phyaddr dd).
  eapply wp_mono; [apply (wp_for_each J)|].
  - intros pre i post [h1 p1] Heq (d1 & Hss1 & Hx1 & Hd1 & Hout & Hin & Hph). cbn [snd] in *.
    assert (Hil : i ∈ l) by (rewrite Heq; set_solver).
    assert (Hipre : i ∉ done_ ∧ i ∉ pre).
    { rewrite Heq, NoDup_app_dj in Hnd. destruct Hnd as (_ & Hdj & Hnd). split.
      - intros Hin1. apply (Hdj i Hin1). set_solver.
      - apply NoDup_app_dj in Hnd as (_ & Hdj2 & _). intros Hin2. apply (Hdj2 i Hin2). set_solver. }
    assert (Hk : kernel_index p1 i) by (unfold kernel_index; rewrite (ex_low _ _ _ Hx1); by apply Hl).
    eapply wp_mono; [apply (link_slot_ok F K X fr al (unlinked p0 dest (done_ ++ pre)) h1 p1 src dest i ds d1 E Hss1)|].
    + rewrite Hd1. by rewrite lookup_insert_ne.
    + rewrite Hd1. apply lookup_insert_eq.
    + exact Hne.
    + rewrite (ex_cur _ _ _ Hx1), <- (ex_cur _ _ _ Hx). exact Hdc.
    + exact Hk.
    + by intros [? _].
    + split; [done|]. split; [by apply Hl|]. rewrite elem_of_app. tauto.
    + intros _ s2 (d2 & Hss2 & Hx2 & Hd2 & [Hso Hso'] & Ht). exists d2. split; [|split; [|split; [|split; [|split]]]].
      * eapply state_hole; [exact Hss2| |].
        -- intros b j [(-> & Hkj & Hj) Hbj]. split; [done|]. split; [done|].
           rewrite app_assoc, elem_of_app, list_elem_of_singleton. intros [?|?]; [done|]. by apply Hbj.
        -- intros j _ [Hc _]. apply Hdc. by rewrite <- Hc, (ex_cur _ _ _ Hx2), (ex_cur _ _ _ Hx1), (ex_cur _ _ _ Hx).
      * by eapply extends_trans.
      * by rewrite Hd2, Hd1, insert_insert_eq.
      * intros j Hj. apply not_elem_of_app in Hj as [Hj1 Hj2]. rewrite not_elem_of_cons in Hj2.
        destruct (Hso j) as [-> _]; [tauto|]. by apply Hout.
      * intros j Hj. destruct (decide (j = i)) as [->|Hji]; [done|]. destruct (Hso j Hji) as [-> _]. apply Hin. set_solver.
      * congruence.
  - exists dd. rewrite app_nil_r. split; [exact Hss|]. split; [exact Hx|]. split; [exact Hd|]. split; [done|]. split; [|done].
    intros i Hi. by apply elem_of_nil in Hi.
  - intros _ s' (dd' & HJ). by exists dd'.
Qed.

(** What was shared stays shared. *)
Lemma cloned_later X p q q' ts t :
  cloned p q ts t → extends X q q' → (∀ j, 0 ≤ j < 1024 → foreign q (entry_ptr ts j) ∧ foreign q (entry_ptr t j)) →
  cloned p q' ts t.
Proof.
  intros Hc Hx Hf j e Hj He. destruct (Hc j e Hj He) as [H1 H2]. destruct (Hf j Hj) as [F1 F2].
  destruct (ex_pte _ _ _ Hx _ _ F1 H1) as (e1 & -> & C1). destruct (ex_pte _ _ _ Hx _ _ F2 H2) as (e2 & -> & C2).
  apply shared_twice in C1 as ->. apply shared_twice in C2 as ->. done.
Qed.
Lemma cloned_earlier X p0 p q ts t :
  extends X p0 p → (∀ j, 0 ≤ j < 1024 → foreign p0 (entry_ptr ts j)) → cloned p q ts t → cloned p0 q ts t.
Proof.
  intros Hx Hf Hc j e Hj He. destruct (ex_pte _ _ _ Hx _ e (Hf j Hj) He) as (e' & He' & Hs).
  apply shared_step in Hs as <-. by apply Hc.
Qed.
Lemma new_table_earlier X p0 p t :
  extends X p0 p → (∀ z, KERNEL_HEAP_BEGIN ≤ z → foreign p0 z) → new_table p t → new_table p0 t.
Proof.
  intros Hx Hf [N1 N2 N3]. split; [done|done|]. intros z Hz. destruct (pte p0 !! z) as [e|] eqn:He; [|done].
  destruct (ex_pte _ _ _ Hx z e (Hf z ltac:(lia)) He) as (e' & He' & _). by rewrite N3 in He'.
Qed.

Lemma clone_slots_ok X fr al h p0 p src dest ds dd (l : list Z) E :
  (∀ n fr size palign msg, kmalloc_fails n fr size palign msg → E msg) →
  space_state F K fr al no_hole (h, p) → extends X p0 p → (∀ z, KERNEL_HEAP_BEGIN ≤ z → foreign p0 z) →
  dirs p = <[dest:=dd]> (dirs p0) → dirs p0 !! src = Some ds → src ≠ dest → dest ≠ current_page_dir p → NoDup l →
  (∀ i, i ∈ l → user_index p0 i ∧ table_of dd i = 0 ∧ (table_of ds i = 0 ∨ KERNEL_HEAP_BEGIN ≤ table_of ds i) ∧
     (table_of ds i ≠ 0 → ∀ j, 0 ≤ j < 1024 → X (entry_ptr (table_of ds i) j))) →
  wp (for_each l (clone_slot src dest))
    (λ _ s', ∃ fr' new dd', space_state F K fr' (new ++ al) no_hole s' ∧ extends X p0 s'.2 ∧
       dirs s'.2 = <[dest:=dd']> (dirs p0) ∧ (∀ j, j ∉ l → table_of dd' j = table_of dd j) ∧
       (∀ i, i ∈ l → slot_cloned p0 s'.2 ds dd' i) ∧ phyaddr dd' = phyaddr dd ∧ (∀ z, in_blocks z fr' → in_blocks z fr) ∧
       extends X p s'.2) E (h, p).
Proof.
  intros HE Hss Hx Hfo Hd Hds Hne Hdc Hnd Hl.
  set (J (pre : list Z) (s : kstate) := ∃ fr' new dd', space_state F K fr' (new ++ al) no_hole s ∧ extends X p0 s.2 ∧
    dirs s.2 = <[dest:=dd']> (dirs p0) ∧ (∀ j, j ∉ pre → table_of dd' j = table_of dd j) ∧
    (∀ i, i ∈ pre → slot_cloned p0 s.2 ds dd' i) ∧ phyaddr dd' = phyaddr dd ∧ (∀ z, in_blocks z fr' → in_blocks z fr) ∧
    extends X p s.2).
  eapply wp_mono; [apply (wp_for_each J)|].
  - intros pre i post [h1 p1] Heq (fr1 & new1 & d1 & Hss1 & Hx1 & Hd1 & Hout & Hin & Hph & Hfr & Hxp). cbn [snd] in *.
    assert (Hil : i ∈ l) by (rewrite Heq; set_solver).
    assert (Hipre : i ∉ pre).
    { rewrite Heq, NoDup_app_dj in Hnd. destruct Hnd as (_ & Hdj & _). intros Hin1. apply (Hdj i Hin1). set_solver. }
    destruct (Hl i Hil) as (Hu & H0 & Hts & HX).
    eapply wp_mono; [apply (clone_slot_ok F K E HE X fr1 (new1 ++ al) no_hole h1 p1 src dest i ds d1 Hss1)|].
    + rewrite Hd1. by rewrite lookup_insert_ne.
    + rewrite Hd1. apply lookup_insert_eq.
    + exact Hne.
    + by rewrite (ex_cur _ _ _ Hxp).
    + unfold user_index. rewrite (ex_low _ _ _ Hx1). exact Hu.
    + by intros ?.
    + by intros ?.
    + by rewrite Hout.
    + exact HX.
    + intros _ s2 (fr2 & new2 & d2 & Hss2 & Hx2 & Hd2 & [Hso Hso'] & Hcl & Hfr2).
      exists fr2, (new2 ++ new1), d2. rewrite <- app_assoc. split; [exact Hss2|].
      split; [by eapply extends_trans|]. split; [by rewrite Hd2, Hd1, insert_insert_eq|].
      split; [|split; [|split; [congruence|split; [auto|by eapply extends_trans]]]].
      * intros j Hj. apply not_elem_of_app in Hj as [Hj1 Hj2]. rewrite not_elem_of_cons in Hj2.
        destruct (Hso j) as [-> _]; [tauto|]. by apply Hout.
      * assert (Hheap : ∀ t j, KERNEL_HEAP_BEGIN ≤ t → 0 ≤ j < 1024 → foreign p0 (entry_ptr t j) ∧ foreign p1 (entry_ptr t j)).
        { intros t j Ht Hj. assert (foreign p0 (entry_ptr t j)) by (apply Hfo; unfold entry_ptr; lia).
          split; [done|]. by apply (ex_foreign X p0 p1 _ Hx1). }
        intros j Hj. destruct (decide (j = i)) as [->|Hji].
        -- destruct Hcl as [?|(N0 & Nt & Nc)]; [by left|right]. split; [done|].
           split; [by eapply new_table_earlier|]. eapply cloned_earlier; [exact Hx1| |exact Nc].
           intros k Hk. apply (Hheap (table_of ds i) k); [|done]. by destruct Hts.
        -- assert (Hjp : j ∈ pre) by set_solver. destruct (Hso j Hji) as [Ht _]. unfold slot_cloned. rewrite Ht.
           destruct (Hin j Hjp) as [?|(N0 & Nt & Nc)]; [by left|right]. split; [done|]. split; [done|].
           eapply cloned_later; [exact Nc|exact Hx2|]. intros k Hk. split.
           ++ apply (Hheap (table_of ds j) k); [|done]. assert (Hjl : j ∈ l) by (rewrite Heq; set_solver).
              destruct (Hl j Hjl) as (_ & _ & [?|?] & _); done.
           ++ apply (Hheap (table_of d1 j) k); [|done]. apply (nt_heap _ _ Nt).
  - exists fr, [], dd. split; [exact Hss|]. split; [exact Hx|]. split; [exact Hd|]. split; [done|].
    split; [intros i Hi; by apply elem_of_nil in Hi|]. split; [done|]. split; [done|apply extends_refl].
  - intros ? s' HJ. exact HJ.
Qed.

(** * A fresh directory *)
Section MayFail.
Context (E : string → Prop) (HE : ∀ n fr size palign msg, kmalloc_fails n fr size palign msg → E msg).

Definition make_directory : M kstate Z :=
  dest ← kernel_kmalloc sizeof_Directory_t 12;
  touch dest sizeof_Directory_t ;;
  p ← getp;
  putp (with_dirs p (<[dest:=directory_zero]> (dirs p))) ;;
  pa ← get_physical_addr (current_page_dir p) (dest + 4096) false false true;
  upd_dir dest (dir_set_phyaddr pa) ;;
  mret dest.
Lemma make_directory_ok X fr al h p :
  space_state F K fr al no_hole (h, p) →
  wp make_directory
    (λ dest s', ∃ fr' u pa, space_state F K fr' (Alloc dest sizeof_Directory_t u :: al) (unlinked p dest []) s' ∧
       extends X p s'.2 ∧ dirs p !! dest = None ∧ dirs s'.2 = <[dest:=dir_set_phyaddr pa directory_zero]> (dirs p) ∧
       ∀ z, in_blocks z fr' → in_blocks z fr) E (h, p).
Proof.
  intros Hss. unfold make_directory. wp_step.
  eapply wp_mono; [apply (new_object_ok F K E HE X sizeof_Directory_t 12 _ _ _ _ Hss); unfold sizeof_Directory_t; lia|].
  intros dest [h1 p1] (fr' & u & Hss1 & Hx1 & Hd1 & [Hal Hheap _ Hnow Hless Hmap] & Hnone & Hnone1). cbn [snd] in *.
  change (page_aligned dest) in Hal. assert (Hth : 0 < dest) by (rewrite KERNEL_HEAP_BEGIN_eq in Hheap; lia).
  wp_step. eapply wp_mono; [apply (touch_ok F K E HE X dest sizeof_Directory_t (h1, p1) fr' _ no_hole Hss1 Hal); unfold sizeof_Directory_t; [lia|lia|exact Hmap]|].
  intros _ [h2 p2] (Hss2 & Hx2 & Hle2 & Hb2). cbn [fst snd] in *.
  assert (Hpal : page_aligned (dest + 4096)).
  { unfold page_aligned in *. apply Z.mod_divide in Hal as [k ->]; [|lia].
    replace (k * 4096 + 4096) with ((k + 1) * 4096) by lia. by apply Z.mod_mul. }
  destruct (Hb2 (dest + 4096)) as [pa Hpa]; [unfold sizeof_Directory_t; lia|exact Hpal|].
  assert (Hd2 : dirs p2 = dirs p) by (destruct Hle2 as [(_ & _ & [S1 _]) _]; congruence).
  assert (Hn : dirs p !! dest = None) by (apply Hnone; unfold sizeof_Directory_t; lia).
  assert (Hn2 : dirs p2 !! dest = None) by (by rewrite Hd2).
  pose proof (sp_inv _ _ _ _ _ _ Hss2) as Hi2. destruct (pi_frames _ _ Hi2) as [st2 Hf2].
  destruct (sp_cur_dir _ _ _ _ _ _ Hss2) as [dc Hdc]. cbn [snd] in *.
  assert (Hca : current_page_dir p2 ≠ dest) by (intros Heq; congruence).
  assert (Hins : ∀ d' : Directory_t, ∀ d, dirs p2 !! current_page_dir p2 = Some d →
     ∃ d1, <[dest:=d']> (dirs p2) !! current_page_dir p2 = Some d1 ∧ ∀ j, 959 ≤ j < 1023 → table_of d1 j = table_of d j).
  { intros d' d Hd. exists d. by rewrite lookup_insert_ne. }
  wp_step. apply wp_getp. wp_step. apply wp_putp. cbn [fst snd].
  destruct (dirs_quiet F p2 (<[dest:=directory_zero]> (dirs p2)) st2 Hi2 Hf2 (Hins _)) as [Hq3 Hf3].
  set (p3 := with_dirs p2 (<[dest:=directory_zero]> (dirs p2))) in *.
  assert (Hi3 : page_inv F p3) by (by eapply quiet_page_inv). wp_step.
  eapply wp_mono; [apply (physical_addr_ok F h2 p3 (dest + 4096) pa E Hi3)|].
  { exact (sp_init _ _ _ _ _ (sp_space _ _ _ _ _ _ Hss2)). } { by apply (quiet_backed p2 p3). } { exact Hpal. }
  intros ? ? [-> ->]. wp_step. eapply wp_upd_dir; [apply lookup_insert_eq|]. cbn [fst snd dirs with_dirs p3].
  rewrite insert_insert_eq. set (d0 := dir_set_phyaddr pa directory_zero).
  change (with_dirs p3 (<[dest:=d0]> (dirs p2))) with (with_dirs p2 (<[dest:=d0]> (dirs p2))).
  destruct (dirs_quiet F p2 (<[dest:=d0]> (dirs p2)) st2 Hi2 Hf2 (Hins _)) as [Hq4 Hf4].
  apply wp_ret. exists fr', u, pa. cbn [snd]. split; [split|split; [|split; [exact Hn|split; [|exact Hless]]]].
  - eapply kheap_ok_quiet; [exact (sp_heap _ _ _ _ _ _ Hss2)|exact Hq4|exact Hf4].
  - eapply space_hole; [apply (space_new_dir F K fr' no_hole p2 dest pa (sp_space _ _ _ _ _ _ Hss2))| |].
    + by exists dc.
    + exact Hn2.
    + exact Hnow.
    + by left.
    + intros a i [[]|[-> Hk]]. split; [done|]. split; [|by intros ?%elem_of_nil].
      unfold kernel_index in *. by rewrite (ex_low _ _ _ Hx2), (ex_low _ _ _ Hx1) in Hk.
    + intros i _ [Hc _]. by apply Hca.
  - eapply extends_trans; [exact Hx1|]. eapply extends_trans; [exact Hx2|]. apply extends_dirs; [apply Hins|by exists dc].
  - cbn [dirs with_dirs]. by rewrite Hd2.
Qed.

Definition clone_slots (src dest : Z) : M kstate unit :=
  p ← getp;
  for_each (upto 0 (kernel_low_ntable p)) (link_table src dest) ;;
  for_each (upto 959 1023) (link_table src dest) ;;
  clone_stack dest ;;
  p ← getp;
  for_each (upto (kernel_low_ntable p) 959) (clone_slot src dest).
Lemma stack_loop_eq dest s :
  for_pages (pages_fuel (KERNEL_STACK_POS - KERNEL_STACK_SIZE) KERNEL_STACK_POS)
    (KERNEL_STACK_POS - KERNEL_STACK_SIZE) KERNEL_STACK_POS (λ i,
    get_page kernel_kmalloc dest i true ;;
    d ← get_physical_addr dest i true false true;
    p ← getp;
    s ← get_physical_addr (current_page_dir p) i false false true;
    copy_page_physical d s) s = clone_stack dest s.
Proof.
  change (pages_fuel _ _) with 1%nat. cbn [for_pages]. change (u32 _ <? KERNEL_STACK_POS) with false.
  change (_ <? KERNEL_STACK_POS) with true. cbv iota. unfold clone_stack, fill_stack, mbind at 1, M_bind at 1.
  change (KERNEL_STACK_POS - KERNEL_STACK_SIZE) with stack_page.
  by match goal with |- match ?m with _ => _ end = _ => destruct m as [[[] ?]| | |] eqn:Hm end; rewrite <- Hm.
Qed.
Lemma clone_directory_eq src s :
  clone_directory kernel_kmalloc src s = (dest ← make_directory; clone_slots src dest ;; mret dest) s.
Proof.
  assert (Hassoc : ∀ A B C (m : M kstate A) (f : A → M kstate B) (g : B → M kstate C) s,
    ((m ≫= f) ≫= g) s = (m ≫= (λ x, f x ≫= g)) s).
  { intros A B C m f g s0. unfold mbind, M_bind. by destruct (m s0) as [[? ?]| | |]. }
  assert (Hext : ∀ A B (m m' : M kstate A) (f g : A → M kstate B) s,
    m s = m' s → (∀ x s, f x s = g x s) → (m ≫= f) s = (m' ≫= g) s).
  { intros A B m m' f g s0 Hm Hfg. unfold mbind, M_bind. rewrite Hm. by destruct (m' s0) as [[? ?]| | |]. }
  unfold clone_directory, make_directory, clone_slots.
  do 6 (rewrite Hassoc; apply Hext; [done|]; intros ? ?).
  assert (Hret : ∀ A B (x : A) (f : A → M kstate B) s, (mret x ≫= f) s = f x s) by done. rewrite Hret.
  do 3 (rewrite Hassoc; apply Hext; [done|]; intros ? ?).
  rewrite Hassoc. apply Hext; [apply stack_loop_eq|]. intros ? ?.
  rewrite Hassoc. apply Hext; [done|]. intros ? ?. by apply Hext.
Qed.

(** The clone [dd] of the directory [ds]. *)
Record cloned_dir p q (ds dd : Directory_t) : Prop := {
  cd_kernel i : kernel_index p i → table_of dd i = table_of ds i;
  cd_user i : kernel_low_ntable p ≤ i < 959 → slot_cloned p q ds dd i;
  cd_stack : new_table p (table_of dd 1023) ∧ stack_copy F p q (table_of dd 1023)
}.
(** the entries of the user pages of [ds] *)
Definition shared_pages p (ds : Directory_t) (a : Z) : Prop :=
  ∃ i j, kernel_low_ntable p ≤ i < 959 ∧ table_of ds i ≠ 0 ∧ 0 ≤ j < 1024 ∧ a = entry_ptr (table_of ds i) j.

Lemma NoDup_upto lo hi : NoDup (upto lo hi).
Proof.
  unfold upto. apply NoDup_fmap_2; [intros ???; lia|]. apply NoDup_fmap_2; [intros ???; lia|]. apply NoDup_seq.
Qed.
Lemma clone_directory_ok fr al h p src ds :
  space_state F K fr al no_hole (h, p) → dirs p !! src = Some ds →
  wp (clone_directory kernel_kmalloc src)
    (λ dest s', ∃ fr' new dd, space_state F K fr' (new ++ al) no_hole s' ∧ extends (shared_pages p ds) p s'.2 ∧
       dirs p !! dest = None ∧ dirs s'.2 = <[dest:=dd]> (dirs p) ∧ cloned_dir p s'.2 ds dd) E (h, p).
Proof.
  intros Hss Hds. set (X := shared_pages p ds). pose proof (sp_inv _ _ _ _ _ _ Hss) as Hi.
  pose proof (sp_space _ _ _ _ _ _ Hss) as Hs. destruct (sp_cur_dir _ _ _ _ _ _ Hss) as [dc Hdc]. cbn [snd] in *.
  pose proof (sp_low _ _ _ _ _ Hs) as Hl.
  assert (Hfo : ∀ z, KERNEL_HEAP_BEGIN ≤ z → foreign p z) by (intros; by eapply space_foreign).
  assert (Hut : ∀ i, user_index p i → table_of ds i = 0 ∨ user_table F p (table_of ds i)).
  { intros i Hu. apply (sl_user _ _ _ _ _ (sp_slot _ _ _ _ _ Hs src ds i Hds (proj1 (index_range p i Hl) (or_intror Hu)) id) Hu). }
  unfold wp. rewrite clone_directory_eq. fold (wp (dest ← make_directory; clone_slots src dest ;; mret dest)
    (λ dest s', ∃ fr' new dd, space_state F K fr' (new ++ al) no_hole s' ∧ extends (shared_pages p ds) p s'.2 ∧
       dirs p !! dest = None ∧ dirs s'.2 = <[dest:=dd]> (dirs p) ∧ cloned_dir p s'.2 ds dd) E (h, p)).
  wp_step. eapply wp_mono; [by apply (make_directory_ok X)|].
  intros dest [h1 p1] (fr1 & u1 & pa & Hss1 & Hx1 & Hn & Hd1 & _). cbn [snd] in *.
  set (d0 := dir_set_phyaddr pa directory_zero) in *. set (al1 := Alloc dest sizeof_Directory_t u1 :: al) in *.
  assert (Hne : src ≠ dest) by (intros ->; congruence).
  assert (Hdc1 : dest ≠ current_page_dir p) by (intros ->; congruence).
  set (l1 := upto 0 (kernel_low_ntable p)). set (l2 := upto 959 1023). set (l3 := upto (kernel_low_ntable p) 959).
  assert (Hl1 : ∀ i, i ∈ l1 ↔ 0 ≤ i < kernel_low_ntable p) by (intros; apply elem_of_upto).
  assert (Hl2 : ∀ i, i ∈ l2 ↔ 959 ≤ i < 1023) by (intros; apply elem_of_upto).
  assert (Hl3 : ∀ i, i ∈ l3 ↔ kernel_low_ntable p ≤ i < 959) by (intros; apply elem_of_upto).
  assert (Hnd : NoDup (l1 ++ l2)).
  { apply NoDup_app_dj. split; [apply NoDup_upto|]. split; [|apply NoDup_upto]. intros i Hi1%Hl1 Hi2%Hl2. lia. }
  wp_step. unfold clone_slots. wp_step. apply wp_getp. cbn [snd]. rewrite (ex_low _ _ _ Hx1). wp_step.
  eapply wp_mono; [apply (link_tables_ok X fr1 al1 h1 p p1 src dest ds d0 [] l1 E Hss1 Hx1 Hd1 Hds Hne)|].
  { by rewrite (ex_cur _ _ _ Hx1). } { apply NoDup_upto. } { intros i Hi'%Hl1. by left. }
  intros _ [h2 p2] (d2 & Hss2 & Hx2 & Hd2 & Hout2 & Hin2 & _). cbn [fst snd app] in *. wp_step.
  eapply wp_mono; [apply (link_tables_ok X fr1 al1 h2 p p2 src dest ds d2 l1 l2 E Hss2 Hx2 Hd2 Hds Hne)|].
  { by rewrite (ex_cur _ _ _ Hx2). } { exact Hnd. } { intros i Hi'%Hl2. by right. }
  intros _ [h3 p3] (d3 & Hss3 & Hx3 & Hd3 & Hout3 & Hin3 & _). cbn [fst snd] in *.
  assert (Hk3 : ∀ i, kernel_index p i → table_of d3 i = table_of ds i).
  { intros i [Hr|Hr]; [|apply Hin3; by apply Hl2]. rewrite Hout3 by (rewrite Hl2; lia). apply Hin2. by apply Hl1. }
  assert (Hu3 : ∀ i, user_index p i → table_of d3 i = 0).
  { intros i Hr. unfold user_index in Hr. rewrite Hout3, Hout2; [done|rewrite Hl1; lia|rewrite Hl2; lia]. }
  apply (state_hole fr1 al1 _ no_hole) in Hss3; [|intros a i (_ & Hk & Hn'); apply Hn'; rewrite elem_of_app, Hl1, Hl2; exact Hk|by intros ? _ []].
  wp_step. eapply wp_mono; [apply (clone_stack_ok F K X fr1 al1 no_hole h3 p3 dest d3 E HE Hss3)|].
  { rewrite Hd3. apply lookup_insert_eq. } { by apply Hu3; right. } { by intros ?. } { by rewrite (ex_cur _ _ _ Hx3). } { by intros ?. }
  intros _ [h4 p4] (t & d4 & fr4 & u4 & Hss4 & Hx4 & Hd4 & [Hso4 _] & Ht4 & Hnt & Hsk & _). cbn [fst snd] in *.
  assert (Hx04 : extends X p p4) by (by eapply extends_trans).
  wp_step. apply wp_getp. cbn [snd]. rewrite (ex_low _ _ _ Hx04). fold l3.
  eapply wp_mono; [apply (clone_slots_ok X fr4 (Alloc t sizeof_Table_t u4 :: al1) h4 p p4 src dest ds d4 l3 E HE Hss4 Hx04 Hfo)|].
  { by rewrite Hd4, Hd3, insert_insert_eq. } { exact Hds. } { exact Hne. } { by rewrite (ex_cur _ _ _ Hx04). } { apply NoDup_upto. }
  { intros i Hi'%Hl3. assert (Hu : user_index p i) by (by left). split; [done|]. split.
    { destruct (Hso4 i) as [-> _]; [lia|]. by apply Hu3. } split.
    { destruct (Hut i Hu) as [?|[[? _] _]]; [by left|by right]. } intros H0 j Hj. by exists i, j. }
  intros _ [h5 p5] (fr5 & new & d5 & Hss5 & Hx5 & Hd5 & Hout5 & Hin5 & _ & _ & Hx45). cbn [fst snd] in *. apply wp_ret.
  exists fr5, (new ++ [Alloc t sizeof_Table_t u4; Alloc dest sizeof_Directory_t u1]), d5. cbn [snd].
  rewrite <- app_assoc. split; [exact Hss5|]. split; [exact Hx5|]. split; [exact Hn|]. split; [exact Hd5|].
  assert (Ht5 : table_of d5 1023 = t) by (rewrite Hout5; [done|rewrite Hl3; lia]).
  split.
  - intros i Hk. assert (i ≠ 1023 ∧ i ∉ l3) as [Hi1 Hi2] by (unfold kernel_index in Hk; rewrite Hl3; lia).
    rewrite Hout5 by done. destruct (Hso4 i Hi1) as [-> _]. by apply Hk3.
  - intros i Hr. apply Hin5. by apply Hl3.
  - rewrite Ht5. assert (Hntp : new_table p t) by (eapply (new_table_earlier X p p3); [exact Hx3|exact Hfo|exact Hnt]).
    split; [exact Hntp|]. destruct (stack_frame_later F X p p3 Hx3) as [Hsf1 Hsf2].
    { rewrite Hd3, (ex_cur _ _ _ Hx3). by rewrite lookup_insert_ne. }
    { intros d Hd Ht. by destruct (stack_slot_ok F K fr al no_hole h p (current_page_dir p) d Hss Hd id Ht). }
    pose proof (sp_inv _ _ _ _ _ _ Hss4) as Hi4. destruct (pi_frames _ _ Hi4) as [st4 Hf4]. cbn [snd] in *.
    apply (stack_copy_later F X p st4 p4 p5 t); [by apply (stack_copy_earlier F X p p3 p4 t Hx3)|exact Hx45|exact Hf4|].
    intros j Hj. destruct (nt_heap _ _ Hntp) as [Hth _]. split.
    + apply (ex_foreign X p p4 _ Hx04), Hfo. unfold entry_ptr. lia.
    + intros (i & k & Hir & H0 & Hk & Heq). destruct (Hut i (or_introl Hir)) as [?|[_ He]]; [by destruct H0|].
      destruct (He k Hk) as (e & He' & _). rewrite <- Heq, (nt_new _ _ Hntp) in He' by (unfold entry_ptr; lia). done.
Qed.
End MayFail.
End CloneDir.
