(* ===== verification/Sigset.v ===== *)
(** [core/signal.cpp], [include/signal.h] and their copy for user programs in
    [lib/include/signal.h]: a set of signal numbers, one bit each, and the
    proof that it is a finite set. *)
From S2P Require Import Prelude.

Definition NSIGNAL_MAX : Z := 32.

(** [uint32_t val[NSIGNAL_MAX / 32]] *)
Record Sigset : Type := MkSigset { sig_val : list Z }.

(** [memset(val, c, sizeof(val))] for a byte [c] repeated in every word *)
Definition memset_words (byte : Z) : list Z :=
  replicate (Z.to_nat (NSIGNAL_MAX / 32)) (Z.land byte 0xFF * 0x01010101).

Definition Sigset_clear : Sigset := MkSigset (memset_words 0).
Definition Sigset_fill : Sigset := MkSigset (memset_words (-1)).
(** the constructors and [operator =] *)
Definition Sigset_init : Sigset := Sigset_clear.
Definition Sigset_copy (s : Sigset) : Sigset := MkSigset (sig_val s).

Definition sig_valid (signum : Z) : bool := (0 <=? signum) && (signum <? NSIGNAL_MAX).
Definition sig_index (signum : Z) : nat := Z.to_nat (Z.shiftr signum 5).
Definition sig_mask (signum : Z) : Z := u32 (Z.shiftl 1 (Z.land signum 31)).

Definition Sigset_add (signum : Z) (s : Sigset) : Sigset :=
  if sig_valid signum
  then MkSigset (alter (λ w, Z.lor w (sig_mask signum)) (sig_index signum) (sig_val s))
  else s.
Definition Sigset_del (signum : Z) (s : Sigset) : Sigset :=
  if sig_valid signum
  then MkSigset (alter (λ w, Z.land w (Z.lxor (sig_mask signum) 0xFFFFFFFF)) (sig_index signum) (sig_val s))
  else s.
Definition Sigset_test (signum : Z) (s : Sigset) : bool :=
  if sig_valid signum
  then negb (Z.land (Z.shiftr (default 0 (sig_val s !! sig_index signum)) (Z.land signum 31)) 1 =? 0)
  else false.

(** * The set it stands for *)
Definition sig_wf (s : Sigset) : Prop := ∃ w, sig_val s = [w] ∧ 0 ≤ w < 2 ^ 32.
Definition sig_elems (s : Sigset) : gset Z :=
  filter (λ n, Sigset_test n s = true) (list_to_set (upto 0 NSIGNAL_MAX)).

Section Proofs.
Implicit Types (s : Sigset) (n m w : Z).

Lemma sig_valid_spec n : sig_valid n = true ↔ 0 ≤ n < 32.
Proof. unfold sig_valid, NSIGNAL_MAX. rewrite andb_true_iff, Z.leb_le, Z.ltb_lt. done. Qed.

Lemma sig_index_0 n : 0 ≤ n < 32 → sig_index n = 0%nat.
Proof.
  intros Hn. unfold sig_index. rewrite Z.shiftr_div_pow2 by lia. by rewrite Z.div_small by (simpl; lia).
Qed.
Lemma sig_bit n : 0 ≤ n < 32 → Z.land n 31 = n.
Proof. intros Hn. change 31 with (Z.ones 5). rewrite Z.land_ones by lia. apply Z.mod_small. simpl. lia. Qed.
Lemma sig_mask_eq n : 0 ≤ n < 32 → sig_mask n = 2 ^ n.
Proof.
  intros Hn. unfold sig_mask. rewrite sig_bit, Z.shiftl_1_l by done. apply Z.mod_small.
  split; [apply Z.pow_nonneg; lia|apply Z.pow_lt_mono_r; lia].
Qed.

Lemma word_range w : 0 ≤ w → (∀ i, 32 ≤ i → Z.testbit w i = false) → 0 ≤ w < 2 ^ 32.
Proof.
  intros Hw Hb. split; [done|]. destruct (Z.eq_dec w 0) as [->|Hne]; [done|].
  apply Z.log2_lt_pow2; [lia|]. destruct (Z.lt_ge_cases (Z.log2 w) 32) as [?|Hl]; [done|].
  apply Hb in Hl. rewrite Z.bit_log2 in Hl by lia. done.
Qed.
Lemma word_high w i : 0 ≤ w < 2 ^ 32 → 32 ≤ i → Z.testbit w i = false.
Proof.
  intros [H0 Hw] Hi. destruct (Z.eq_dec w 0) as [->|]; [apply Z.bits_0|]. apply Z.bits_above_log2; [done|].
  assert (Z.log2 w < 32) by (apply Z.log2_lt_pow2; lia). lia.
Qed.

Lemma test_word w n : 0 ≤ n < 32 → Sigset_test n (MkSigset [w]) = Z.testbit w n.
Proof.
  intros Hn. unfold Sigset_test. rewrite (proj2 (sig_valid_spec n) Hn), sig_index_0, sig_bit by done. simpl.
  change 1 with (Z.ones 1). rewrite Z.land_ones by lia. change (2 ^ 1) with 2.
  rewrite <- Z.bit0_mod, Z.shiftr_spec by lia. rewrite Z.add_0_l. by destruct (Z.testbit w n).
Qed.
Lemma test_invalid s n : ¬ 0 ≤ n < 32 → Sigset_test n s = false.
Proof. intros Hn. unfold Sigset_test. destruct (sig_valid n) eqn:H; [by apply sig_valid_spec in H|done]. Qed.

Lemma add_word w n : 0 ≤ n < 32 → Sigset_add n (MkSigset [w]) = MkSigset [Z.setbit w n].
Proof.
  intros Hn. unfold Sigset_add. rewrite (proj2 (sig_valid_spec n) Hn), sig_index_0, sig_mask_eq by done.
  simpl. unfold Z.setbit. by rewrite Z.shiftl_1_l.
Qed.
Lemma del_word w n : 0 ≤ w < 2 ^ 32 → 0 ≤ n < 32 → Sigset_del n (MkSigset [w]) = MkSigset [Z.clearbit w n].
Proof.
  intros Hw Hn. unfold Sigset_del. rewrite (proj2 (sig_valid_spec n) Hn), sig_index_0, sig_mask_eq by done.
  simpl. do 2 f_equal. change 0xFFFFFFFF with (Z.ones 32). apply Z.bits_inj'. intros i Hi.
  rewrite Z.land_spec, Z.lxor_spec, Z.clearbit_eqb by lia.
  rewrite Z.pow2_bits_eqb, Z.testbit_ones_nonneg by lia. destruct (Z.ltb_spec i 32).
  - by rewrite xorb_true_r.
  - rewrite (word_high w i) by lia. done.
Qed.

Lemma elem_of_sig_elems s n : n ∈ sig_elems s ↔ 0 ≤ n < 32 ∧ Sigset_test n s = true.
Proof.
  unfold sig_elems. rewrite elem_of_filter, elem_of_list_to_set. unfold upto. change (Z.to_nat (NSIGNAL_MAX - 0)) with 32%nat.
  rewrite list_elem_of_fmap. split.
  - intros [Ht (i & -> & Hi)]. apply list_elem_of_fmap in Hi as (j & -> & Hj). apply elem_of_seq in Hj.
    split; [lia|done].
  - intros [Hn Ht]. split; [done|]. exists n. split; [lia|]. apply list_elem_of_fmap. exists (Z.to_nat n).
    split; [lia|]. apply elem_of_seq. lia.
Qed.

Lemma sig_ops_word w n : 0 ≤ w < 2 ^ 32 → 0 ≤ n < 32 →
  0 ≤ Z.setbit w n < 2 ^ 32 ∧ 0 ≤ Z.clearbit w n < 2 ^ 32.
Proof.
  intros Hw Hn. split; apply word_range.
  - apply Z.lor_nonneg. rewrite Z.shiftl_1_l. split; [lia|by apply Z.pow_nonneg].
  - intros i Hi. rewrite Z.setbit_eqb, word_high by lia. destruct (Z.eqb_spec n i); [lia|done].
  - apply Z.ldiff_nonneg. lia.
  - intros i Hi. by rewrite Z.clearbit_eqb, word_high by lia.
Qed.

(** C37: a [Sigset] is a set of the signals 0..31: clearing, filling, adding
    and deleting act on it as the set operations do, a number outside the range
    changes nothing and is never a member, and copies have the same members. *)
Theorem sigset_is_set s n :
  sig_wf s →
  sig_wf (Sigset_add n s) ∧ sig_wf (Sigset_del n s) ∧ sig_wf Sigset_clear ∧ sig_wf Sigset_fill ∧
  sig_elems Sigset_init = ∅ ∧
  (∀ m, m ∈ sig_elems Sigset_fill ↔ 0 ≤ m < 32) ∧
  sig_elems (Sigset_copy s) = sig_elems s ∧
  (∀ m, Sigset_test m s = bool_decide (m ∈ sig_elems s)) ∧
  (0 ≤ n < 32 → sig_elems (Sigset_add n s) = {[n]} ∪ sig_elems s ∧
                sig_elems (Sigset_del n s) = sig_elems s ∖ {[n]}) ∧
  (¬ 0 ≤ n < 32 → Sigset_add n s = s ∧ Sigset_del n s = s).
Proof.
  intros (w & Hs & Hw). destruct s as [val]. simpl in Hs. subst val.
  assert (Hwf : ∀ v, 0 ≤ v < 2 ^ 32 → sig_wf (MkSigset [v])) by (intros v Hv; by exists v).
  assert (Hbad : ¬ 0 ≤ n < 32 → Sigset_add n (MkSigset [w]) = MkSigset [w] ∧ Sigset_del n (MkSigset [w]) = MkSigset [w]).
  { intros Hn. unfold Sigset_add, Sigset_del. destruct (sig_valid n) eqn:Hv; [by apply sig_valid_spec in Hv|done]. }
  assert (Hcases : (0 ≤ n < 32) ∨ ¬ (0 ≤ n < 32)) by lia.
  split; [|split; [|split; [|split; [|split; [|split; [|split; [|split; [|split]]]]]]]].
  - destruct Hcases as [Hn|Hn]; [rewrite add_word by done; apply Hwf, sig_ops_word; done|].
    rewrite (proj1 (Hbad Hn)). by apply Hwf.
  - destruct Hcases as [Hn|Hn]; [rewrite del_word by done; apply Hwf, sig_ops_word; done|].
    rewrite (proj2 (Hbad Hn)). by apply Hwf.
  - by apply (Hwf 0).
  - by apply (Hwf 0xFFFFFFFF).
  - apply set_eq. intros m. rewrite elem_of_sig_elems. change Sigset_init with (MkSigset [0]). split.
    + intros [Hm Ht]. by rewrite test_word, Z.bits_0 in Ht.
    + by intros ?%elem_of_empty.
  - intros m. rewrite elem_of_sig_elems. change Sigset_fill with (MkSigset [Z.ones 32]).
    split; [by intros []|]. intros Hm. split; [done|].
    rewrite test_word, Z.testbit_ones_nonneg by lia. apply Z.ltb_lt. lia.
  - done.
  - intros m. destruct (Sigset_test m _) eqn:Ht; symmetry; [apply bool_decide_eq_true|apply bool_decide_eq_false].
    + apply elem_of_sig_elems. split; [|done].
      destruct (decide (0 ≤ m < 32)) as [?|Hm]; [done|]. by rewrite test_invalid in Ht.
    + rewrite elem_of_sig_elems. intros [_ ?]. congruence.
  - intros Hn. rewrite add_word, del_word by done. split; apply set_eq; intros m.
    + rewrite elem_of_union, elem_of_singleton, !elem_of_sig_elems. split.
      * intros [Hm Ht]. rewrite test_word, Z.setbit_eqb in Ht by lia. apply orb_true_iff in Ht as [Ht|Ht].
        { left. apply Z.eqb_eq in Ht. lia. }
        right. by rewrite test_word.
      * intros [->|[Hm Ht]]; (split; [done|]); rewrite test_word in * by done; rewrite Z.setbit_eqb by lia.
        { by rewrite Z.eqb_refl. }
        by rewrite Ht, orb_true_r.
    + rewrite elem_of_difference, elem_of_singleton, !elem_of_sig_elems. split.
      * intros [Hm Ht]. rewrite test_word, Z.clearbit_eqb in Ht by lia.
        apply andb_true_iff in Ht as [H1 H2]. rewrite test_word by done. split; [done|].
        intros ->. by rewrite Z.eqb_refl in H2.
      * intros [[Hm Ht] Hne]. split; [done|]. rewrite test_word in * by done.
        rewrite Z.clearbit_eqb, Ht by lia. simpl. apply negb_true_iff, Z.eqb_neq. lia.
  - exact Hbad.
Qed.
End Proofs.

Lemma sigset_is_set_witness :
  sig_wf (Sigset_add 14 Sigset_init) ∧ sig_elems (Sigset_add 14 Sigset_init) = {[14]} ∪ sig_elems Sigset_init.
Proof.
  assert (Hwf : sig_wf Sigset_init) by (exists 0; by vm_compute).
  destruct (sigset_is_set Sigset_init 14 Hwf) as (H1 & _ & _ & _ & _ & _ & _ & _ & H2 & _).
  split; [exact H1|]. apply H2. lia.
Defined.
