(* ===== verification/Ctype.v ===== *)
(** [include/lib/ctype.h] and [lib/cstring.cpp]: character classes, and the
    string operations on a memory of bytes. *)
From Stdlib Require Import ZifyBool.
From S2P Require Import Prelude.

(** * Character classes, on an [int] *)
Definition isascii (c : Z) : bool := Z.land c (-128) =? 0.
Definition iscntrl (c : Z) : bool := (c <? 32) || (126 <? c).
Definition isdigit (c : Z) : bool := (48 <=? c) && (c <=? 57).
Definition isgraph (c : Z) : bool := (32 <? c) && (c <=? 126).
Definition islower (c : Z) : bool := (97 <=? c) && (c <=? 122).
Definition isprint (c : Z) : bool := (32 <=? c) && (c <=? 126).
Definition isspace (c : Z) : bool :=
  (c =? 32) || (c =? 12) || (c =? 10) || (c =? 13) || (c =? 9) || (c =? 11).
Definition isupper (c : Z) : bool := (65 <=? c) && (c <=? 90).
Definition isxdigit (c : Z) : bool :=
  isdigit c || ((65 <=? c) && (c <=? 70)) || ((97 <=? c) && (c <=? 102)).
Definition isalpha (c : Z) : bool := islower c || isupper c.
Definition isalnum (c : Z) : bool := isalpha c || isdigit c.
Definition ispunct (c : Z) : bool := isgraph c && negb (isalnum c).
Definition toascii (c : Z) : Z := Z.land c 0x7f.
Definition toupper (c : Z) : Z := if (97 <=? c) && (c <=? 122) then c - 97 + 65 else c.
Definition tolower (c : Z) : Z := if (65 <=? c) && (c <=? 90) then c - 65 + 97 else c.

(** * Strings in memory *)
Definition mem : Type := Z → Z.
Definition store (m : mem) (a v : Z) : mem := λ b, if b =? a then v else m b.

(** [rep stosb], [rep movsb]: upwards, one byte at a time *)
Fixpoint memset (dest val : Z) (cnt : nat) (m : mem) : mem :=
  match cnt with O => m | S cnt => memset (dest + 1) val cnt (store m dest (u8 val)) end.
Fixpoint memcpy (dest src : Z) (cnt : nat) (m : mem) : mem :=
  match cnt with O => m | S cnt => memcpy (dest + 1) (src + 1) cnt (store m dest (m src)) end.
(** [lodsb; stosb; cmp $0, %al; jne 1b] *)
Fixpoint strcpy (fuel : nat) (dest src : Z) : M mem Z := λ m,
  match fuel with
  | O => NoFuel
  | S fuel =>
    let m' := store m dest (m src) in
    if m src =? 0 then Ret (dest, m')
    else match strcpy fuel (dest + 1) (src + 1) m' with
         | Ret (_, m'') => Ret (dest, m'')
         | r => r
         end
  end.

Section Proofs.
Implicit Types (m : mem) (a b dest src val : Z) (n : nat).

(** C40: the character classes divide the integers: every value is exactly one
    of control, space, alphanumeric and punctuation; the printable ones are
    those that are not control; letters are the upper and lower case ones,
    which the conversions exchange. *)
Theorem ctype_partition c :
  (iscntrl c = true ∨ c = 32 ∨ isalnum c = true ∨ ispunct c = true) ∧
  (isprint c = negb (iscntrl c)) ∧ (isprint c = (c =? 32) || isgraph c) ∧
  (isalnum c = true → iscntrl c = false ∧ ispunct c = false ∧ c ≠ 32) ∧
  (ispunct c = true → iscntrl c = false ∧ c ≠ 32) ∧
  (isupper (tolower c) = false ∧ islower (toupper c) = false) ∧
  (isalpha c = true → islower (tolower c) = true ∧ isupper (toupper c) = true ∧
     (toupper (tolower c) = c ∨ tolower (toupper c) = c)) ∧
  (isxdigit c = true → isalnum c = true) ∧ (isascii c = true ↔ toascii c = c).
Proof.
  unfold ispunct, isalnum, isalpha, isgraph, isprint, iscntrl, isxdigit, isdigit, islower, isupper,
    tolower, toupper.
  split_and!; try lia; try (intros; repeat case_match; lia).
  - unfold isascii, toascii. rewrite Z.eqb_eq.
    assert (Hsum : Z.land c (-128) + Z.land c 0x7f = c).
    { change (-128) with (Z.lnot (Z.ones 7)). change 0x7f with (Z.ones 7).
      rewrite <- Z.ldiff_land, Z.ldiff_ones_r, Z.land_ones by lia.
      rewrite Z.shiftr_div_pow2, Z.shiftl_mul_pow2 by lia.
      pose proof (Z.div_mod c (2 ^ 7) ltac:(lia)). lia. }
    lia.
Qed.

Lemma memset_at dest val n m b :
  memset dest val n m b = if (dest <=? b) && (b <? dest + Z.of_nat n) then u8 val else m b.
Proof.
  revert dest m; induction n as [|n IH]; intros dest m; simpl.
  - case_match; [lia|done].
  - rewrite IH. unfold store. repeat case_match; try lia; done.
Qed.

Lemma memcpy_at dest src n m b :
  dest ≤ src ∨ src + Z.of_nat n ≤ dest →
  memcpy dest src n m b = if (dest <=? b) && (b <? dest + Z.of_nat n) then m (src + (b - dest)) else m b.
Proof.
  revert dest src m; induction n as [|n IH]; intros dest src m Hov; simpl.
  - case_match; [lia|done].
  - rewrite IH by lia. unfold store. repeat case_match; try lia; try done; f_equal; lia.
Qed.

(** [memset] and [memcpy] write exactly the bytes they name; copying is
    exact when the regions are apart or the destination is the lower one (the
    scroll of the screen relies on the latter). *)
Theorem mem_ops_correct dest src val n m b :
  (dest ≤ src ∨ src + Z.of_nat n ≤ dest →
   memcpy dest src n m b = if (dest <=? b) && (b <? dest + Z.of_nat n) then m (src + (b - dest)) else m b) ∧
  memset dest val n m b = if (dest <=? b) && (b <? dest + Z.of_nat n) then u8 val else m b.
Proof. split; [apply memcpy_at|apply memset_at]. Qed.

(** [strcpy] terminates on a terminated string: it returns the
    destination after copying the string and its terminator, and nothing else
    changes. *)
Theorem strcpy_correct dest src m n :
  (∀ i, 0 ≤ i < Z.of_nat n → m (src + i) ≠ 0) → m (src + Z.of_nat n) = 0 →
  dest + Z.of_nat n < src ∨ src + Z.of_nat n < dest →
  ∃ m', strcpy (S n) dest src m = Ret (dest, m') ∧
    ∀ b, m' b = if (dest <=? b) && (b <? dest + Z.of_nat (S n)) then m (src + (b - dest)) else m b.
Proof.
  revert dest src m; induction n as [|n IH]; intros dest src m Hne H0 Hov.
  - simpl. rewrite Z.add_0_r in H0. rewrite H0. simpl. eexists. split; [done|].
    intros b. unfold store. repeat case_match; try lia; try done.
    assert (b = dest) as -> by lia. by rewrite Z.sub_diag, Z.add_0_r.
  - assert (Hs : m src ≠ 0) by (specialize (Hne 0); rewrite Z.add_0_r in Hne; apply Hne; lia).
    remember (S n) as k. simpl. apply Z.eqb_neq in Hs as Hs'. rewrite Hs'. subst k.
    destruct (IH (dest + 1) (src + 1) (store m dest (m src))) as (m' & Hrun & Hm').
    + intros i Hi. unfold store. case_match; [lia|]. replace (src + 1 + i) with (src + (i + 1)) by lia. apply Hne. lia.
    + unfold store. case_match; [lia|]. rewrite <- H0. f_equal. lia.
    + lia.
    + rewrite Hrun. eexists. split; [done|]. intros b. rewrite Hm'. unfold store.
      repeat case_match; try lia; try done; f_equal; lia.
Qed.
End Proofs.

Definition hello : mem := λ a, if (100 <=? a) && (a <? 105) then a else 0.
Lemma strcpy_correct_witness :
  ∃ m', strcpy 6 200 100 hello = Ret (200, m') ∧
    ∀ b, m' b = if (200 <=? b) && (b <? 206) then hello (100 + (b - 200)) else hello b.
Proof.
  apply (strcpy_correct 200 100 hello 5).
  - intros i Hi. unfold hello. case_match; lia.
  - done.
  - right. lia.
Defined.
Lemma mem_ops_correct_witness :
  memcpy 90 100 10 hello 93 = 103 ∧ memset 90 0x141 3 hello 91 = 0x41.
Proof.
  destruct (mem_ops_correct 90 100 0 10 hello 93) as [H1 _].
  destruct (mem_ops_correct 90 100 0x141 3 hello 91) as [_ H2].
  split; [etrans; [apply H1; lia|reflexivity]|etrans; [exact H2|reflexivity]].
Defined.
