(* ===== verification/Bytes.v ===== *)
(** Integers in memory, lowest byte first, as every component that reads or
    writes a structure through a pointer sees them. *)
From Stdlib Require Import ZifyBool.
From S2P Require Import Prelude Common Ctype.

Definition le8 (m : mem) (a : Z) : Z := u8 (m a).
Definition le16 (m : mem) (a : Z) : Z := le8 m a + 256 * le8 m (a + 1).
Definition le32 (m : mem) (a : Z) : Z := le16 m a + 65536 * le16 m (a + 2).
Definition store32 (m : mem) (a v : Z) : mem :=
  store (store (store (store m a (u8 v)) (a + 1) (u8 (v / 2 ^ 8))) (a + 2) (u8 (v / 2 ^ 16))) (a + 3) (u8 (v / 2 ^ 24)).

Section Bytes.
Implicit Types (m : mem) (a b v : Z).

Lemma le8_range m a : 0 ≤ le8 m a < 256.
Proof. apply Z.mod_pos_bound. lia. Qed.
Lemma le16_range m a : 0 ≤ le16 m a < 65536.
Proof. unfold le16. pose proof (le8_range m a). pose proof (le8_range m (a + 1)). lia. Qed.
Lemma le32_range m a : 0 ≤ le32 m a < 2 ^ 32.
Proof. unfold le32. pose proof (le16_range m a). pose proof (le16_range m (a + 2)). lia. Qed.

(** They depend on their own bytes only. *)
Lemma le32_ext m m' a a' : (∀ i, 0 ≤ i < 4 → m (a + i) = m' (a' + i)) → le32 m a = le32 m' a'.
Proof.
  intros Hm. unfold le32, le16, le8. rewrite <- !Z.add_assoc.
  pose proof (Hm 0 ltac:(lia)) as H0. rewrite !Z.add_0_r in H0.
  by rewrite H0, !Hm by lia.
Qed.
Lemma le16_ext m m' a a' : (∀ i, 0 ≤ i < 2 → m (a + i) = m' (a' + i)) → le16 m a = le16 m' a'.
Proof.
  intros Hm. unfold le16, le8. pose proof (Hm 0 ltac:(lia)) as H0. rewrite !Z.add_0_r in H0.
  by rewrite H0, !Hm by lia.
Qed.

Lemma store32_out m a v b : ¬ a ≤ b < a + 4 → store32 m a v b = m b.
Proof. intros Hb. unfold store32, store. repeat case_match; (lia || done). Qed.
Lemma store32_at m a v :
  store32 m a v a = u8 v ∧ store32 m a v (a + 1) = u8 (v / 2 ^ 8) ∧
  store32 m a v (a + 2) = u8 (v / 2 ^ 16) ∧ store32 m a v (a + 3) = u8 (v / 2 ^ 24).
Proof. unfold store32, store. split_and!; repeat case_match; (lia || done). Qed.
Lemma le32_store32 m a v : 0 ≤ v < 2 ^ 32 → le32 (store32 m a v) a = v.
Proof.
  intros Hv. unfold le32, le16, le8. rewrite <- !Z.add_assoc. change (2 + 1) with 3.
  destruct (store32_at m a v) as (-> & -> & -> & ->). unfold u8. rewrite !Z.mod_mod by lia.
  change (2 ^ 8) with 256. change (2 ^ 16) with 65536. change (2 ^ 24) with 16777216.
  Z.div_mod_to_equations. lia.
Qed.
Lemma le32_store32_ne m a v b : b + 4 ≤ a ∨ a + 4 ≤ b → le32 (store32 m a v) b = le32 m b.
Proof. intros Hab. apply le32_ext. intros i Hi. apply store32_out. lia. Qed.
End Bytes.
