(* ===== verification/Port.v ===== *)
(** [include/port.h]: the processor's input and output instructions, as a log
    of the accesses and a device that answers the reads. *)
From S2P Require Import Prelude.

Inductive io : Type := Out (port val : Z) | In (port val : Z).

(** [reply]: what the devices answer on a port after the accesses so far. *)
Record ports : Type := Ports { io_log : list io; reply : list io → Z → Z }.

(** A state with the ports in it. *)
Class HasPorts (S : Type) := { get_ports : S → ports; set_ports : ports → S → S }.
Global Instance ports_has_ports : HasPorts ports := {| get_ports p := p; set_ports p _ := p |}.

Section Port.
Context {S : Type} `{HasPorts S}.

Definition outb (port val : Z) : M S unit := λ s,
  let p := get_ports s in
  Ret (tt, set_ports (Ports (io_log p ++ [Out (u16 port) (u8 val)]) (reply p)) s).
Definition inb (port : Z) : M S Z := λ s,
  let p := get_ports s in
  let v := u8 (reply p (io_log p) (u16 port)) in
  Ret (v, set_ports (Ports (io_log p ++ [In (u16 port) v]) (reply p)) s).
Definition port_wait : M S unit := outb 0x80 0.
End Port.

(** the values written, in order, without the delays *)
Definition writes (l : list io) : list (Z * Z) :=
  omap (λ a, match a with Out 0x80 _ | In _ _ => None | Out p v => Some (p, v) end) l.
