(* ===== verification/Printf.v ===== *)
(** The number and text conversions of [printf], which [core/klog.cpp] and the
    user program [initrd.cpp] have in the same words, over what they do not
    share: where a character goes, how a finished buffer is put out, and the
    number of digits behind the point. *)
From Stdlib Require Import SpecFloat ZifyBool.
From S2P Require Import Prelude Common Ctype.

Definition chars (s : string) : list Z := (λ c, Z.of_nat (Ascii.nat_of_ascii c)) <$> String.list_ascii_of_string s.

(** * Numbers *)

(** the first loop of [u2s]: the digits of [n], the last one first *)
Fixpoint u2s_digits (fuel : nat) (n base : Z) : list Z :=
  match fuel with
  | O => []
  | S fuel =>
    if n =? 0 then []
    else
      let d := n mod base in
      (if d <? 10 then 48 + d else 97 + d - 10) :: u2s_digits fuel (n / base) base
  end.
(** the second loop: [for (i = len / 2 - 1; i >= 0; i --)] exchange *)
Fixpoint swap_loop (n : nat) (l : list Z) : list Z :=
  match n with
  | O => l
  | S i =>
    let j := (length l - 1 - i)%nat in
    match l !! i, l !! j with
    | Some a, Some b => swap_loop i (<[j := a]> (<[i := b]> l))
    | _, _ => l
    end
  end.
Definition reverse_loop (l : list Z) : list Z := swap_loop (length l / 2) l.
Definition u2s (n base : Z) : list Z :=
  if n =? 0 then chars "0" else reverse_loop (u2s_digits 32 n base).

(** [double], in the IEEE format *)
Definition double : Type := spec_float.
Definition f_prec : Z := 53.
Definition f_emax : Z := 1024.
Definition f_of_Z (z : Z) : double := binary_normalize f_prec f_emax z 0 false.
Definition f_lt (a b : double) : bool := SFltb a b.
(** [(int)f]: undefined when the value does not fit *)
Definition f_to_int (f : double) : option Z :=
  let v := match f with
           | S754_zero _ => Some 0
           | S754_finite s m e =>
             let a := if 0 <=? e then Z.pos m * 2 ^ e else Z.pos m / 2 ^ (- e) in
             Some (if s then - a else a)
           | _ => None
           end in
  match v with Some z => if (- 2 ^ 31 <=? z) && (z <? 2 ^ 31) then Some z else None | None => None end.
(** [(char)((int)((f - (int)f) * 10) + '0')], rounded to a [double] at every
    step; the i386 build may keep the intermediate values in the wider registers
    of the x87, where the last digits can differ. *)
Definition f_digit (f : double) : option Z :=
  match f_to_int f with
  | Some i =>
    match f_to_int (SFmul f_prec f_emax (SFsub f_prec f_emax f (f_of_Z i)) (f_of_Z 10)) with
    | Some d => Some (d + 48)
    | None => None
    end
  | None => None
  end.
(** the digits before the point, the last division's first *)
Fixpoint f_int_digits (fuel : nat) (f : double) : option (list Z) :=
  match fuel with
  | O => None
  | S fuel =>
    if f_lt f (f_of_Z 1) then Some []
    else
      let f := SFdiv f_prec f_emax f (f_of_Z 10) in
      match f_digit f, f_int_digits fuel f with Some d, Some l => Some (d :: l) | _, _ => None end
  end.
Fixpoint f_frac_digits (n : nat) (f : double) : option (list Z) :=
  match n with
  | O => Some []
  | S n =>
    match f_digit f, f_frac_digits n (SFmul f_prec f_emax f (f_of_Z 10)) with
    | Some d, Some l => Some (d :: l)
    | _, _ => None
    end
  end.
(** the [%f] conversion of a value not below zero *)
Definition f_text (FLOAT_PRECESION : Z) (f : double) : option (list Z) :=
  match (if f_lt f (f_of_Z 1) then Some (chars "0") else reverse_loop <$> f_int_digits 400 f),
        f_frac_digits (Z.to_nat FLOAT_PRECESION) f with
  | Some a, Some b => Some (a ++ chars "." ++ b)
  | _, _ => None
  end.

(** [%p]: eight upper-case digits *)
Definition hex_digit (x : Z) : Z := if x <? 10 then x + 48 else x + 65 - 10.
Definition p_text (val : Z) : list Z :=
  chars "#0x" ++ ((λ i, hex_digit (Z.land (Z.shiftr val (Z.shiftl (7 - i) 2)) 0xF)) <$> upto 0 8).

(** * [vprintf] *)

(** the arguments, as the caller pushed them *)
Inductive arg : Type := ArgInt (v : Z) | ArgStr (s : option (list Z)) | ArgDouble (f : double).

(** what [buf] points to; it is not initialized *)
Inductive buf_ptr : Type := BufUninit | BufMem | BufU2s | BufArg (s : list Z).
Definition BUF_MEM_SIZE : nat := 128.

(** The routine is the same text in [klog.cpp] and in the user program
    [initrd.cpp]; they differ in [putc] and in how [buf] is put out. *)
Section Vprintf.
Context (FLOAT_PRECESION : Z).
Context {S : Type} (putc_ : Z → M S unit) (put_buf : list Z → M S unit).
Context (bufs : S → list Z * list Z) (set_bufs : list Z → list Z → S → S).

Definition set_buf_mem (l : list Z) : M S unit :=
  s ← get;
  if decide (length l < BUF_MEM_SIZE)%nat then put (set_bufs l (bufs s).2 s) else fault.
Definition set_u2s (l : list Z) : M S unit := s ← get; put (set_bufs (bufs s).1 l s).
Definition buf_text (b : buf_ptr) : M S (list Z) :=
  s ← get;
  match b with
  | BufUninit => fault
  | BufMem => mret (bufs s).1
  | BufU2s => mret (bufs s).2
  | BufArg l => mret l
  end.

(** [va_arg] *)
Definition arg_int (args : list arg) : M S (Z * list arg) :=
  match args with ArgInt v :: r => mret (v, r) | _ => fault end.
Definition arg_str (args : list arg) : M S (option (list Z) * list arg) :=
  match args with ArgStr v :: r => mret (v, r) | _ => fault end.
Definition arg_double (args : list arg) : M S (double * list arg) :=
  match args with ArgDouble v :: r => mret (v, r) | _ => fault end.

(** the [switch] on the character after [%] *)
Definition convert (c : Z) (args : list arg) (buf : buf_ptr) : M S (buf_ptr * list arg) :=
  if c =? 115 then                                    (* s *)
    '(v, args) ← arg_str args;
    match v with
    | None => set_buf_mem (chars "(null)") ;; mret (BufMem, args)
    | Some l => mret (BufArg l, args)
    end
  else if c =? 120 then                               (* x *)
    '(v, args) ← arg_int args; set_u2s (u2s (u32 v) 16) ;; mret (BufU2s, args)
  else if c =? 100 then                               (* d *)
    '(v, args) ← arg_int args;
    let n := s32 v in
    (if n <? 0 then putc_ 45 else mret tt) ;;
    set_u2s (u2s (u32 (if n <? 0 then - n else n)) 10) ;; mret (BufU2s, args)
  else if c =? 117 then                               (* u *)
    '(v, args) ← arg_int args; set_u2s (u2s (u32 v) 10) ;; mret (BufU2s, args)
  else if c =? 99 then                                (* c *)
    '(v, args) ← arg_int args;
    set_buf_mem (let ch := (u8 v + 128) mod 256 - 128 in if ch =? 0 then [] else [ch]) ;; mret (BufMem, args)
  else if c =? 37 then                                (* % *)
    set_buf_mem (chars "%") ;; mret (BufMem, args)
  else if c =? 102 then                               (* f *)
    '(f, args) ← arg_double args;
    (if f_lt f (f_of_Z 0) then putc_ 45 else mret tt) ;;
    match f_text FLOAT_PRECESION (if f_lt f (f_of_Z 0) then SFopp f else f) with
    | Some l => set_buf_mem l ;; mret (BufMem, args)
    | None => fault
    end
  else if c =? 112 then                               (* p *)
    '(v, args) ← arg_int args; set_buf_mem (p_text (u32 v)) ;; mret (BufMem, args)
  else set_buf_mem (chars "(%?)") ;; mret (buf, args).

(** The loop; a [%] at the very end takes the default case on the terminator
    and then runs past it. *)
Fixpoint vprintf_loop (fmt : list Z) (args : list arg) (buf : buf_ptr) : M S unit :=
  match fmt with
  | [] => mret tt
  | c :: fmt =>
    if c =? 37 then
      match fmt with
      | c2 :: fmt =>
        '(buf, args) ← convert c2 args buf;
        l ← buf_text buf;
        put_buf l ;;
        vprintf_loop fmt args buf
      | [] =>
        '(buf, _) ← convert 0 args buf;
        l ← buf_text buf;
        put_buf l ;;
        fault
      end
    else putc_ c ;; vprintf_loop fmt args buf
  end.
End Vprintf.


(** * The routine's text *)

(** The text the loop below is shown to put out, as a function of the format
    and the arguments: it still calls [u2s] and [p_text], and is a step on the
    way to the independent reading of a format in [Denoted.v]. [None]: an
    unknown conversion, or an argument the conversion does not take. *)
Definition number_text (n : Z) : list Z := if n <? 0 then 45 :: u2s (u32 (- n)) 10 else u2s (u32 n) 10.
Definition float_text (prec : Z) (f : double) : option (list Z) :=
  l ← f_text prec (if f_lt f (f_of_Z 0) then SFopp f else f);
  if decide (length l < BUF_MEM_SIZE)%nat then Some (if f_lt f (f_of_Z 0) then 45 :: l else l) else None.
Definition conversion (prec c : Z) (args : list arg) : option (list Z * list arg) :=
  match args with
  | ArgStr v :: rest => if c =? 115 then Some (default (chars "(null)") v, rest)
                        else if c =? 37 then Some (chars "%", args) else None
  | ArgInt v :: rest =>
    if c =? 120 then Some (u2s (u32 v) 16, rest)
    else if c =? 100 then Some (number_text (s32 v), rest)
    else if c =? 117 then Some (u2s (u32 v) 10, rest)
    else if c =? 99 then Some (let ch := (u8 v + 128) mod 256 - 128 in if ch =? 0 then [] else [ch], rest)
    else if c =? 37 then Some (chars "%", args)
    else if c =? 112 then Some (p_text (u32 v), rest) else None
  | ArgDouble f :: rest =>
    if c =? 102 then (λ l, (l, rest)) <$> float_text prec f
    else if c =? 37 then Some (chars "%", args) else None
  | [] => if c =? 37 then Some (chars "%", args) else None
  end.

(** The text of a whole format. *)
Fixpoint format_text (prec : Z) (fmt : list Z) (args : list arg) : option (list Z) :=
  match fmt with
  | [] => Some []
  | c :: fmt =>
    if c =? 37 then
      match fmt with
      | c2 :: fmt =>
        match conversion prec c2 args with
        | Some (l, args) => (app l) <$> format_text prec fmt args
        | None => None
        end
      | [] => None
      end
    else (cons c) <$> format_text prec fmt args
  end.


(** * It prints that text, whoever prints *)

(** What the conversions rely on: [printed l s s'] says that between the states
    [s] and [s'] the text [l] was put out. *)
Class Printer {S : Type} (putc_ : Z → M S unit) (put_buf : list Z → M S unit)
    (bufs : S → list Z * list Z) (set_bufs : list Z → list Z → S → S)
    (ready : S → Prop) (printed : list Z → S → S → Prop) : Prop := {
  pr_refl s : ready s → printed [] s s;
  pr_app l1 l2 s1 s2 s3 : printed l1 s1 s2 → printed l2 s2 s3 → printed (l1 ++ l2) s1 s3;
  pr_ready l s s' : ready s → printed l s s' → ready s';
  pr_set b r s : ready s → printed [] s (set_bufs b r s);
  pr_bufs b r s : bufs (set_bufs b r s) = (b, r);
  pr_putc c s : ready s → ∃ s', putc_ c s = Ret (tt, s') ∧ printed [c] s s';
  pr_put_buf l s : ready s → ∃ s', put_buf l s = Ret (tt, s') ∧ printed l s s'
}.

Section Printed.
Context {S : Type} (prec : Z) {putc_ : Z → M S unit} {put_buf : list Z → M S unit}
  {bufs : S → list Z * list Z} {set_bufs : list Z → list Z → S → S}
  {ready : S → Prop} {printed : list Z → S → S → Prop}.
Context `{!Printer putc_ put_buf bufs set_bufs ready printed}.
Implicit Types (s : S) (c : Z) (l txt : list Z) (args : list arg).
#[local] Arguments f_text : simpl never.
#[local] Arguments f_lt : simpl never.
#[local] Arguments f_of_Z : simpl never.

(** The text is in [buf_mem], or in the buffer of [u2s]. *)
Lemma set_buf_mem_ok txt l s s0 args :
  (length txt < BUF_MEM_SIZE)%nat → ready s0 → printed l s0 s → ready s →
  ∃ s', (set_buf_mem bufs set_bufs txt ;; mret (BufMem, args)) s = Ret ((BufMem, args), s') ∧
    buf_text bufs BufMem s' = Ret (txt, s') ∧ printed l s0 s'.
Proof.
  intros Hl H0 Hp Hr. eexists. unfold set_buf_mem, mbind, M_bind, get. rewrite decide_True by done.
  split; [done|]. unfold buf_text, mbind, M_bind, get. rewrite pr_bufs. split; [done|].
  rewrite <- (app_nil_r l). eapply pr_app; [done|]. by apply pr_set.
Qed.
Lemma set_u2s_ok txt l s s0 args :
  ready s0 → printed l s0 s → ready s →
  ∃ s', (set_u2s bufs set_bufs txt ;; mret (BufU2s, args)) s = Ret ((BufU2s, args), s') ∧
    buf_text bufs BufU2s s' = Ret (txt, s') ∧ printed l s0 s'.
Proof.
  intros H0 Hp Hr. eexists. split; [done|]. unfold buf_text, mbind, M_bind, get. rewrite pr_bufs. split; [done|].
  rewrite <- (app_nil_r l). eapply pr_app; [done|]. by apply pr_set.
Qed.

(** [m] leaves [txt] in the buffer it returns, after printing what of [l] comes
    before it. *)
Definition converts (m : M S (buf_ptr * list arg)) (l : list Z) (rest : list arg) (s : S) : Prop :=
  ∃ pre txt buf' s', l = pre ++ txt ∧ m s = Ret ((buf', rest), s') ∧
    buf_text bufs buf' s' = Ret (txt, s') ∧ printed pre s s'.

Lemma converts_mem txt s args :
  (length txt < BUF_MEM_SIZE)%nat → ready s →
  converts (set_buf_mem bufs set_bufs txt ;; mret (BufMem, args)) txt args s.
Proof.
  intros Hl Hr. destruct (set_buf_mem_ok txt [] s s args Hl Hr (pr_refl s Hr) Hr) as (s' & H1 & H2 & H3).
  by exists [], txt, BufMem, s'.
Qed.
Lemma converts_u2s txt s args :
  ready s → converts (set_u2s bufs set_bufs txt ;; mret (BufU2s, args)) txt args s.
Proof.
  intros Hr. destruct (set_u2s_ok txt [] s s args Hr (pr_refl s Hr) Hr) as (s' & H1 & H2 & H3).
  by exists [], txt, BufU2s, s'.
Qed.
(** after the sign *)
Lemma converts_sign txt s args (b : buf_ptr) (set : M S unit) :
  ready s →
  (∀ s1, ready s1 → printed [45] s s1 →
     ∃ s', (set ;; mret (b, args)) s1 = Ret ((b, args), s') ∧ buf_text bufs b s' = Ret (txt, s') ∧ printed [45] s s') →
  converts (putc_ 45 ;; set ;; mret (b, args)) (45 :: txt) args s.
Proof.
  intros Hr Hset. destruct (pr_putc 45 s Hr) as (s1 & Hrun & Hp).
  destruct (Hset s1 (pr_ready _ _ _ Hr Hp) Hp) as (s' & H1 & H2 & H3).
  exists [45], txt, b, s'. split; [done|]. split; [|done]. unfold mbind at 1, M_bind at 1. by rewrite Hrun.
Qed.

(** A known conversion sets [buf] to its text, after the sign if there is one. *)
Lemma convert_ok c args l rest buf s :
  conversion prec c args = Some (l, rest) → ready s →
  converts (convert prec putc_ bufs set_bufs c args buf) l rest s.
Proof.
  intros Hc Hr. unfold conversion in Hc.
  assert (Hpct : c = 37 → l = chars "%" → rest = args → converts (convert prec putc_ bufs set_bufs c args buf) l rest s).
  { intros -> -> ->. by apply converts_mem; [vm_compute; lia|]. }
  destruct args as [|[v|v|f] args].
  - destruct (Z.eqb_spec c 37) as [->|]; [|done]. injection Hc as <- <-. by apply Hpct.
  - destruct (Z.eqb_spec c 120) as [->|]; [injection Hc as <- <-; by apply converts_u2s|].
    destruct (Z.eqb_spec c 100) as [->|].
    { injection Hc as <- <-. unfold number_text.
      change (convert prec putc_ bufs set_bufs 100 (ArgInt v :: args) buf) with
        (mret (v, args) ≫= λ '(v, args), let n := s32 v in
          (if n <? 0 then putc_ 45 else mret tt) ;;
          set_u2s bufs set_bufs (u2s (u32 (if n <? 0 then - n else n)) 10) ;; mret (BufU2s, args)).
      unfold converts, mbind at 1, M_bind at 1. cbv zeta beta. cbn [mret M_ret]. destruct (s32 v <? 0).
      - apply (converts_sign _ _ _ _ _ Hr). intros s1 Hr1 Hp1. by apply set_u2s_ok.
      - by apply converts_u2s. }
    destruct (Z.eqb_spec c 117) as [->|]; [injection Hc as <- <-; by apply converts_u2s|].
    destruct (Z.eqb_spec c 99) as [->|].
    { injection Hc as <- <-. apply converts_mem; [|done]. cbv zeta. unfold BUF_MEM_SIZE. case_match; simpl; lia. }
    destruct (Z.eqb_spec c 37) as [->|]; [injection Hc as <- <-; by apply Hpct|].
    destruct (Z.eqb_spec c 112) as [->|]; [|done]. injection Hc as <- <-.
    apply converts_mem; [|done]. unfold p_text. rewrite length_app, length_fmap. vm_compute. lia.
  - destruct (Z.eqb_spec c 115) as [->|].
    { injection Hc as <- <-. destruct v as [txt|].
      - exists [], txt, (BufArg txt), s. split; [done|]. split; [done|]. split; [done|]. by apply pr_refl.
      - by apply converts_mem; [vm_compute; lia|]. }
    destruct (Z.eqb_spec c 37) as [->|]; [injection Hc as <- <-; by apply Hpct|done].
  - destruct (Z.eqb_spec c 102) as [->|].
    { unfold float_text in Hc. destruct (f_text _ _) as [txt|] eqn:Ht; [simpl in Hc|done].
      destruct (decide _) as [Hl|]; [|done]. simpl in Hc. injection Hc as <- <-.
      change (convert prec putc_ bufs set_bufs 102 (ArgDouble f :: args) buf) with
        (mret (f, args) ≫= λ '(f, args),
          (if f_lt f (f_of_Z 0) then putc_ 45 else mret tt) ;;
          match f_text prec (if f_lt f (f_of_Z 0) then SFopp f else f) with
          | Some l => set_buf_mem bufs set_bufs l ;; mret (BufMem, args)
          | None => fault
          end).
      unfold converts, mbind at 1, M_bind at 1. cbv zeta beta. cbn [mret M_ret].
      destruct (f_lt f (f_of_Z 0)); rewrite Ht.
      - apply (converts_sign _ _ _ _ _ Hr). intros s1 Hr1 Hp1. by apply set_buf_mem_ok.
      - by apply converts_mem. }
    destruct (Z.eqb_spec c 37) as [->|]; [injection Hc as <- <-; by apply Hpct|done].
Qed.

Lemma vprintf_loop_ok n fmt args buf out s :
  (length fmt ≤ n)%nat → format_text prec fmt args = Some out → ready s →
  ∃ s', vprintf_loop prec putc_ put_buf bufs set_bufs fmt args buf s = Ret (tt, s') ∧ printed out s s'.
Proof.
  revert fmt args buf out s; induction n as [|n IH]; intros fmt args buf out s Hn Hf Hr.
  { destruct fmt; [|simpl in Hn; lia]. injection Hf as <-. exists s. split; [done|]. by apply pr_refl. }
  destruct fmt as [|c fmt]; [injection Hf as <-; exists s; split; [done|]; by apply pr_refl|].
  simpl in Hn, Hf |- *. destruct (Z.eqb_spec c 37) as [->|Hc].
  - destruct fmt as [|c2 fmt]; [done|]. destruct (conversion prec c2 args) as [[l rest]|] eqn:Hcv; [|done].
    destruct (format_text prec fmt rest) as [out'|] eqn:Hft; [|done]. injection Hf as <-.
    destruct (convert_ok c2 args l rest buf s Hcv Hr) as (pre & txt & buf' & s1 & -> & Hrun & Htxt & Hp1).
    unfold mbind, M_bind. rewrite Hrun, Htxt.
    destruct (pr_put_buf txt s1) as (s2 & Hrun2 & Hp2); [exact (pr_ready _ _ _ Hr Hp1)|].
    rewrite Hrun2. pose proof (pr_app _ _ _ _ _ Hp1 Hp2) as Hp12.
    destruct (IH fmt rest buf' out' s2) as (s3 & Hrun3 & Hp3); [simpl in Hn; lia|done|exact (pr_ready _ _ _ Hr Hp12)|].
    exists s3. split; [exact Hrun3|]. by eapply pr_app.
  - destruct (format_text prec fmt args) as [out'|] eqn:Hft; [|done]. injection Hf as <-.
    destruct (pr_putc c s Hr) as (s1 & Hrun & Hp1).
    destruct (IH fmt args buf out' s1) as (s2 & Hrun2 & Hp2); [lia|done|exact (pr_ready _ _ _ Hr Hp1)|].
    exists s2. unfold mbind, M_bind. rewrite Hrun. split; [exact Hrun2|].
    change (c :: out') with ([c] ++ out'). by eapply pr_app.
Qed.
End Printed.
