(* ===== verification/Denoted.v ===== *)
(** What a format and its arguments denote, independently of the conversions of
    [Printf.v]: numerals are written by place value, from a table of digits.
    That the routine's own text is the denoted one is proved here once, for
    the kernel's [printf] and the user program's. *)
From Stdlib Require Import ZifyBool.
From S2P Require Import Prelude Common Ctype Printf.

(** * Numerals *)
Definition lower_digits : list Z := chars "0123456789abcdef".
Definition upper_digits : list Z := chars "0123456789ABCDEF".

(** the [k] low places of [n], the most significant first *)
Definition place_digits (table : list Z) (base : Z) (k : nat) (n : Z) : list Z :=
  (λ i : nat, default 0 (table !! Z.to_nat (n / base ^ Z.of_nat i mod base))) <$> reverse (seq 0 k).
(** the number of places [n] needs: the least [k], one at least, with [n < base ^ k] *)
Definition places (base n : Z) : nat := default 0%nat (snd <$> list_find (λ k : nat, n < base ^ Z.of_nat k) (seq 1 32)).
(** the numeral of [n], without leading zeros *)
Definition numeral (base n : Z) : list Z := place_digits lower_digits base (places base n) n.

(** * Formats *)

(** What one conversion denotes, and the arguments it leaves; [None]: an
    unknown conversion, an argument the conversion does not take, or [%f],
    whose digits are those the rounding of [f / 10] leaves. *)
Definition denoted_conversion (c : Z) (args : list arg) : option (list Z * list arg) :=
  if c =? 37 then Some (chars "%", args)                                      (* % *)
  else match args with
  | ArgStr None :: rest => if c =? 115 then Some (chars "(null)", rest) else None          (* s *)
  | ArgStr (Some txt) :: rest => if c =? 115 then Some (txt, rest) else None
  | ArgInt v :: rest =>
    if c =? 100 then                                                          (* d *)
      Some (if s32 v <? 0 then chars "-" ++ numeral 10 (- s32 v) else numeral 10 (s32 v), rest)
    else if c =? 117 then Some (numeral 10 (v mod 2 ^ 32), rest)              (* u *)
    else if c =? 120 then Some (numeral 16 (v mod 2 ^ 32), rest)              (* x *)
    else if c =? 112 then                                                     (* p *)
      Some (chars "#0x" ++ place_digits upper_digits 16 8 (v mod 2 ^ 32), rest)
    else if c =? 99 then                                                      (* c *)
      let ch := v mod 2 ^ 8 in
      Some (if ch =? 0 then [] else [if ch <? 2 ^ 7 then ch else ch - 2 ^ 8], rest)
    else None
  | _ => None
  end.

(** The text a format and its arguments denote. *)
Fixpoint denoted_text (fmt : list Z) (args : list arg) : option (list Z) :=
  match fmt with
  | [] => Some []
  | c :: fmt =>
    if c =? 37 then
      match fmt with
      | c2 :: fmt => '(txt, rest) ← denoted_conversion c2 args; app txt <$> denoted_text fmt rest
      | [] => None
      end
    else cons c <$> denoted_text fmt args
  end.

Example denoted_numbers :
  denoted_text (chars "%d %u %x %p%c%%") [ArgInt (-2147483648); ArgInt (-1); ArgInt 48879; ArgInt 48879; ArgInt 65] =
  Some (chars "-2147483648 4294967295 beef #0x0000BEEFA%").
Proof. vm_compute. reflexivity. Qed.

(** * The exchange loop *)
Section Numerals.
Implicit Types (n base : Z) (l : list Z).

(** The exchange loop reverses. *)
Lemma swap_loop_at k l :
  (2 * k ≤ length l)%nat → length (swap_loop k l) = length l ∧
  ∀ i, (i < length l)%nat →
    swap_loop k l !! i = if decide (i < k ∨ length l - k ≤ i)%nat then l !! (length l - 1 - i)%nat else l !! i.
Proof.
  revert l; induction k as [|k IH]; intros l Hk.
  { split; [done|]. intros i Hi. rewrite decide_False by lia. done. }
  simpl swap_loop. destruct (lookup_lt_is_Some_2 l k) as [a Ha]; [lia|].
  destruct (lookup_lt_is_Some_2 l (length l - 1 - k)) as [b Hb]; [lia|]. rewrite Ha, Hb.
  set (l' := <[(length l - 1 - k)%nat := a]> (<[k := b]> l)).
  assert (Hlen : length l' = length l) by (unfold l'; by rewrite !length_insert).
  destruct (IH l') as [IH1 IH2]; [rewrite Hlen; lia|]. split; [congruence|]. intros i Hi. rewrite IH2, Hlen by lia.
  assert (Hat : ∀ j, (j < length l)%nat → l' !! j =
    if decide (j = k ∨ j = length l - 1 - k)%nat then l !! (length l - 1 - j)%nat else l !! j).
  { intros j Hj. unfold l'. destruct (decide (j = length l - 1 - k)%nat) as [->|Hj1].
    - rewrite decide_True by lia. rewrite list_lookup_insert_eq by (rewrite length_insert; lia).
      rewrite <- Ha. f_equal. lia.
    - rewrite list_lookup_insert_ne by done. destruct (decide (j = k)) as [->|Hj2].
      + rewrite decide_True by lia. rewrite list_lookup_insert_eq by lia. by rewrite <- Hb.
      + rewrite decide_False by lia. by rewrite list_lookup_insert_ne. }
  repeat case_decide; rewrite ?Hat by lia; repeat case_decide; try lia; try done; f_equal; lia.
Qed.

Lemma reverse_loop_rev l : reverse_loop l = rev l.
Proof.
  unfold reverse_loop. pose proof (Nat.div_mod_eq (length l) 2). pose proof (Nat.mod_upper_bound (length l) 2).
  destruct (swap_loop_at (length l / 2) l) as [Hlen Hat]; [lia|].
  apply list_eq. intros i. rewrite rev_alt. change (rev_append l []) with (reverse l).
  destruct (decide (i < length l)%nat) as [Hi|Hi].
  - rewrite Hat, reverse_lookup by done. case_decide; [f_equal; lia|]. f_equal. lia.
  - rewrite !lookup_ge_None_2; [done|rewrite length_reverse; lia|rewrite Hlen; lia].
Qed.


(** * Digits are places *)

Lemma digit_table (d : Z) (P : Z → Prop) : 0 ≤ d < 16 → Forall P (upto 0 16) → P d.
Proof.
  intros Hd HP. rewrite Forall_forall in HP. apply HP. unfold upto. rewrite list_elem_of_fmap.
  exists d. split; [lia|]. rewrite list_elem_of_fmap. exists (Z.to_nat d). split; [lia|]. apply elem_of_seq. lia.
Qed.
Lemma s32_range z : - 2 ^ 31 ≤ s32 z < 2 ^ 31.
Proof. unfold s32. pose proof (Z.mod_pos_bound (z + 2 ^ 31) (2 ^ 32) ltac:(lia)). lia. Qed.
(** The digits the first loop of [u2s] takes off are the places of [n], from
    the lowest to the highest that is not zero. *)
Lemma u2s_digits_places fuel n base :
  2 ≤ base ≤ 16 → 0 ≤ n < base ^ Z.of_nat fuel →
  let k := length (u2s_digits fuel n base) in
  u2s_digits fuel n base = (λ i : nat, default 0 (lower_digits !! Z.to_nat (n / base ^ Z.of_nat i mod base))) <$> seq 0 k ∧
  n < base ^ Z.of_nat k ∧ (n ≠ 0 → (1 ≤ k)%nat ∧ base ^ Z.of_nat (k - 1) ≤ n) ∧ (k ≤ fuel)%nat.
Proof.
  intros Hb. revert n; induction fuel as [|fuel IH]; intros n Hn.
  { change (base ^ Z.of_nat 0) with 1 in Hn. assert (n = 0) as -> by lia. simpl. split_and!; (done || lia). }
  simpl u2s_digits. destruct (Z.eqb_spec n 0) as [->|Hne]; [simpl; split_and!; (done || lia)|].
  rewrite Nat2Z.inj_succ, Z.pow_succ_r in Hn by lia.
  pose proof (Z.div_mod n base ltac:(lia)) as Hdm. pose proof (Z.mod_pos_bound n base ltac:(lia)) as Hmod.
  destruct (IH (n / base)) as (I1 & I2 & I3 & I4).
  { split; [apply Z.div_pos; lia|apply Z.div_lt_upper_bound; lia]. }
  simpl length. set (k := length (u2s_digits fuel (n / base) base)) in *. cbv zeta. split_and!; [|..|lia].
  - simpl seq. rewrite fmap_cons, Z.pow_0_r, Z.div_1_r. f_equal.
    + apply (digit_table (n mod base)); [lia|]. by repeat constructor.
    + rewrite I1. rewrite <- fmap_S_seq, <- list_fmap_compose. apply list_fmap_ext. intros _ i _. simpl.
      rewrite Nat2Z.inj_succ, Z.pow_succ_r, Z.div_div by lia. done.
  - rewrite Nat2Z.inj_succ, Z.pow_succ_r by lia. nia.
  - intros _. split; [lia|]. rewrite Nat.sub_succ, Nat.sub_0_r.
    destruct (decide (n / base = 0)) as [H0|H0].
    + assert (k = 0%nat) as -> by (unfold k; rewrite H0; by destruct fuel). change (base ^ Z.of_nat 0) with 1. lia.
    + destruct (I3 H0) as [Hk Hle]. replace (Z.of_nat k) with (Z.succ (Z.of_nat (k - 1))) by lia.
      rewrite Z.pow_succ_r by lia. nia.
Qed.

Lemma places_is base n k :
  2 ≤ base → (1 ≤ k ≤ 32)%nat → n < base ^ Z.of_nat k → (k = 1%nat ∨ base ^ Z.of_nat (k - 1) ≤ n) → places base n = k.
Proof.
  intros Hb Hk Hlt Hge. unfold places.
  destruct (list_find (λ k : nat, n < base ^ Z.of_nat k) (seq 1 32)) as [[i x]|] eqn:Hf.
  - apply list_find_Some in Hf as (Hi & Hx & Hfirst). apply lookup_seq in Hi as [-> Hi]. simpl.
    destruct (Nat.lt_trichotomy (1 + i) k) as [Hc|[Hc|Hc]]; [|done|].
    + destruct Hge as [->|Hge]; [lia|].
      assert (base ^ Z.of_nat (1 + i) ≤ base ^ Z.of_nat (k - 1)) by (apply Z.pow_le_mono_r; lia). lia.
    + destruct (Hfirst (k - 1)%nat k); [|lia|done]. apply lookup_seq. lia.
  - apply list_find_None in Hf. rewrite Forall_forall in Hf. destruct (Hf k); [|done].
    apply elem_of_seq. lia.
Qed.

(** [u2s] writes the numeral, in every base from binary to hexadecimal. *)
Lemma u2s_numeral n base : 0 ≤ n < 2 ^ 32 → 2 ≤ base ≤ 16 → u2s n base = numeral base n.
Proof.
  intros Hn Hb. unfold u2s, numeral. destruct (Z.eqb_spec n 0) as [->|Hne].
  { rewrite (places_is base 0 1) by (lia || (rewrite Z.pow_1_r; lia)).
    unfold place_digits. change (reverse (seq 0 1)) with [0%nat]. rewrite fmap_cons, Z.pow_0_r, Z.div_1_r, Z.mod_0_l by lia. done. }
  assert (2 ^ 32 ≤ base ^ Z.of_nat 32) by (apply Z.pow_le_mono_l; lia).
  destruct (u2s_digits_places 32 n base Hb ltac:(lia)) as (H1 & H2 & H3 & H4). destruct (H3 Hne) as [H5 H6].
  rewrite (places_is base n (length (u2s_digits 32 n base))) by (lia || done || by right).
  rewrite reverse_loop_rev, H1 at 1. unfold place_digits. rewrite fmap_reverse. by rewrite rev_alt.
Qed.

(** [%p] writes eight places in upper case. *)
Lemma p_text_places v : 0 ≤ v < 2 ^ 32 → p_text v = chars "#0x" ++ place_digits upper_digits 16 8 v.
Proof.
  intros Hv. unfold p_text. f_equal.
  assert (∀ i, 0 ≤ i < 8 → hex_digit (Z.land (Z.shiftr v (Z.shiftl (7 - i) 2)) 0xF) =
    default 0 (upper_digits !! Z.to_nat (v / 16 ^ (7 - i) mod 16))) as Hd.
  { intros i Hi. change 0xF with (Z.ones 4). rewrite Z.shiftl_mul_pow2, Z.land_ones, Z.shiftr_div_pow2 by lia.
    replace (2 ^ ((7 - i) * 2 ^ 2)) with (16 ^ (7 - i)).
    - change (2 ^ 4) with 16. apply (digit_table (v / 16 ^ (7 - i) mod 16)); [apply Z.mod_pos_bound; lia|].
      by repeat constructor.
    - rewrite (Z.mul_comm (7 - i)), Z.pow_mul_r by lia. reflexivity. }
  change (upto 0 8) with [0; 1; 2; 3; 4; 5; 6; 7]. unfold place_digits. simpl fmap at 2. 
  simpl. rewrite !Hd by lia. reflexivity.
Qed.

(** * The routine's text is the denoted one *)
Lemma denoted_conversion_text prec c args txt rest :
  denoted_conversion c args = Some (txt, rest) → conversion prec c args = Some (txt, rest).
Proof.
  unfold denoted_conversion, conversion. intros Hd.
  destruct (Z.eqb_spec c 37) as [->|Hc]; [injection Hd as <- <-; by destruct args as [|[v|v|f] args]|].
  destruct args as [|[v|[s|]|f] args]; try done; [|by destruct (c =? 115)..].
  assert (∀ z, 0 ≤ z mod 2 ^ 32 < 2 ^ 32) as Hm by (intros z; apply Z.mod_pos_bound; lia).
  destruct (Z.eqb_spec c 100) as [->|]; [simpl|].
  { injection Hd as <- <-. unfold number_text. do 2 f_equal. pose proof (s32_range v) as Hr.
    unfold u32. destruct (Z.ltb_spec (s32 v) 0); rewrite Z.mod_small by lia; by rewrite u2s_numeral by lia. }
  destruct (Z.eqb_spec c 117) as [->|]; [simpl; injection Hd as <- <-; by rewrite u2s_numeral by (lia || apply Hm)|].
  destruct (Z.eqb_spec c 120) as [->|]; [simpl; injection Hd as <- <-; by rewrite u2s_numeral by (lia || apply Hm)|].
  destruct (Z.eqb_spec c 112) as [->|]; [simpl; injection Hd as <- <-; by rewrite p_text_places by apply Hm|].
  destruct (Z.eqb_spec c 99) as [->|]; [simpl|done].
  injection Hd as <- <-. do 2 f_equal. unfold u8. pose proof (Z.mod_pos_bound v 256 ltac:(lia)) as Hv.
  change (2 ^ 8) with 256. change (2 ^ 7) with 128. set (z := v mod 256) in *.
  assert ((z + 128) mod 256 = if z <? 128 then z + 128 else z - 128) as ->.
  { destruct (Z.ltb_spec z 128); [apply Z.mod_small; lia|].
    replace (z + 128) with (z - 128 + 1 * 256) by lia. rewrite Z.mod_add by lia. apply Z.mod_small. lia. }
  destruct (Z.ltb_spec z 128), (Z.eqb_spec z 0); case_match; try lia; try done; f_equal; lia.
Qed.

Lemma denoted_format_text prec fmt args out :
  denoted_text fmt args = Some out → format_text prec fmt args = Some out.
Proof.
  remember (length fmt) as n eqn:Hn. assert (length fmt ≤ n)%nat as Hle by lia. clear Hn.
  revert fmt args out Hle; induction n as [|n IH]; intros [|c fmt] args out Hle Hd; try done; [simpl in Hle; lia|].
  simpl in Hle, Hd |- *. destruct (c =? 37).
  - destruct fmt as [|c2 fmt]; [done|].
    destruct (denoted_conversion c2 args) as [[txt rest]|] eqn:Hc; [|done].
    rewrite (denoted_conversion_text _ _ _ _ _ Hc). simpl in Hd.
    destruct (denoted_text fmt rest) as [o|] eqn:Ho; [|done].
    by rewrite (IH fmt rest o ltac:(simpl in Hle; lia) Ho).
  - destruct (denoted_text fmt args) as [o|] eqn:Ho; [|done]. by rewrite (IH fmt args o ltac:(lia) Ho).
Qed.
End Numerals.
