(* ===== verification/Klog.v ===== *)
(** [core/klog.cpp], [include/klog.h]: the text screen — colour stack, cursor,
    scrolling — and [printf]; and [core/common.cpp], which prints through it
    before it halts the machine. *)
From S2P Require Import Prelude Common Ctype Port Printf.

Definition COLOR_STACK_SIZE : Z := 32.
Definition NCOL : Z := 80.
Definition NROW : Z := 25.
Definition FLOAT_PRECESION : Z := 4.

Inductive Color_t : Type :=
| BLACK | BLUE | GREEN | CYAN | RED | MAGENTA | BROWN | LIGHT_GRAY
| DARK_GRAY | LIGHT_BLUE | LIGHT_GREEN | LIGHT_CYAN
| LIGHT_RED | LIGHT_MAGENTA | LIGHT_BROWN | WHITE.
Definition color_code (c : Color_t) : Z :=
  match c with
  | BLACK => 0 | BLUE => 1 | GREEN => 2 | CYAN => 3 | RED => 4 | MAGENTA => 5 | BROWN => 6
  | LIGHT_GRAY => 7 | DARK_GRAY => 8 | LIGHT_BLUE => 9 | LIGHT_GREEN => 10 | LIGHT_CYAN => 11
  | LIGHT_RED => 12 | LIGHT_MAGENTA => 13 | LIGHT_BROWN => 14 | WHITE => 15
  end.

Inductive Log_level_t : Type := DEBUG | INFO | ERROR.

(** The variables of [klog.cpp]; [vmem] is the memory from [videomem] on, by
    offset.  [buf_mem] and [u2s_ret] are the static buffers, as strings. *)
Record screen : Type := Screen {
  videomem : Z;
  vmem : mem;
  video_monochrome : bool;
  color_stack : list Z;
  ncolor_stack : Z;
  xpos : Z;
  ypos : Z;
  buf_mem : list Z;
  u2s_ret : list Z;
  dev : ports
}.
Definition with_vmem m s := Screen (videomem s) m (video_monochrome s) (color_stack s) (ncolor_stack s) (xpos s) (ypos s) (buf_mem s) (u2s_ret s) (dev s).
Definition with_video b mono s := Screen b (vmem s) mono (color_stack s) (ncolor_stack s) (xpos s) (ypos s) (buf_mem s) (u2s_ret s) (dev s).
Definition with_colors l n s := Screen (videomem s) (vmem s) (video_monochrome s) l n (xpos s) (ypos s) (buf_mem s) (u2s_ret s) (dev s).
Definition with_pos x y s := Screen (videomem s) (vmem s) (video_monochrome s) (color_stack s) (ncolor_stack s) x y (buf_mem s) (u2s_ret s) (dev s).
Definition with_bufs b r s := Screen (videomem s) (vmem s) (video_monochrome s) (color_stack s) (ncolor_stack s) (xpos s) (ypos s) b r (dev s).
Definition with_dev d s := Screen (videomem s) (vmem s) (video_monochrome s) (color_stack s) (ncolor_stack s) (xpos s) (ypos s) (buf_mem s) (u2s_ret s) d.
Global Instance screen_ports : HasPorts screen := {| get_ports := dev; set_ports := with_dev |}.

(** the state of static storage before [Klog::init] *)
Definition screen_start (d : ports) (m : mem) : screen :=
  Screen 0 m false (replicate (Z.to_nat COLOR_STACK_SIZE) 0) 0 0 0 [] [] d.

(** * The colour stack *)
Definition push_color (forecolor backcolor : Color_t) : M screen unit :=
  s ← get;
  let n := if ncolor_stack s =? COLOR_STACK_SIZE then ncolor_stack s - 1 else ncolor_stack s in
  let v := if video_monochrome s
           then (if color_code forecolor =? color_code backcolor then 0 else 0x07)
           else u8 (Z.lor (Z.shiftl (color_code backcolor) 4) (color_code forecolor)) in
  if decide (0 ≤ n < Z.of_nat (length (color_stack s)))
  then put (with_colors (<[Z.to_nat n := v]> (color_stack s)) (n + 1) s)
  else fault.
Definition pop_color : M screen unit :=
  s ← get;
  if 1 <? ncolor_stack s then put (with_colors (color_stack s) (ncolor_stack s - 1) s) else mret tt.
(** [color_stack[ncolor_stack - 1]] *)
Definition top_color (s : screen) : option Z :=
  if 1 <=? ncolor_stack s then color_stack s !! Z.to_nat (ncolor_stack s - 1) else None.

(** * Characters *)
Definition set_cell (i ch color : Z) (m : mem) : mem := store (store m i (u8 ch)) (i + 1) color.
(** [for (i = from; i < from + 2 * n; i += 2)]: spaces in the current colour *)
Fixpoint blank (n : nat) (i color : Z) (m : mem) : mem :=
  match n with O => m | S n => blank n (i + 2) color (set_cell i 32 color m) end.

Definition cls : M screen unit :=
  s ← get;
  match top_color s with
  | Some c => put (with_vmem (blank (Z.to_nat (NCOL * NROW)) 0 c (vmem s)) (with_pos 0 0 s))
  | None => fault
  end.

(** the end of a line, with the scroll at the bottom *)
Definition new_line : M screen unit :=
  s ← get;
  if ypos s + 1 =? NROW then
    match top_color s with
    | Some c =>
      let bsize := (NROW - 1) * NCOL * 2 in
      let m := memcpy 0 (NCOL * 2) (Z.to_nat bsize) (vmem s) in
      put (with_vmem (blank (Z.to_nat NCOL) bsize c m) (with_pos 0 (NROW - 1) s))
    | None => fault
    end
  else put (with_pos 0 (ypos s + 1) s).

Definition putc (ch : Z) : M screen unit :=
  if negb (isprint ch) && negb (ch =? 13) && negb (ch =? 10) then mret tt
  else
    s ← get;
    if ch =? 13 then put (with_pos 0 (ypos s) s)
    else
      (if negb (ch =? 10) then
         match top_color s with
         | Some c =>
           let p := (xpos s + ypos s * NCOL) * 2 in
           put (with_vmem (set_cell p ch c (vmem s)) (with_pos (xpos s + 1) (ypos s) s))
         | None => fault
         end
       else mret tt) ;;
      s ← get;
      if (ch =? 10) || (xpos s =? NCOL) then new_line else mret tt.

Definition move_cursor : M screen unit :=
  s ← get;
  let pos := ypos s * NCOL + xpos s in
  outb 0x3D4 0x0E ;;
  outb 0x3D5 (u8 (Z.land (Z.shiftr pos 8) 0xFF)) ;;
  outb 0x3D4 0x0F ;;
  outb 0x3D5 (u8 (Z.land pos 0xFF)).


Definition newline_str : string := String (Ascii.ascii_of_nat 10) EmptyString.
Definition quote_str : string := String (Ascii.ascii_of_nat 34) EmptyString.

Definition puts (str : list Z) : M screen unit := for_each str putc ;; move_cursor.

(** * [vprintf] *)
Definition klog_bufs (s : screen) : list Z * list Z := (buf_mem s, u2s_ret s).
Definition vprintf (fmt : list Z) (args : list arg) : M screen unit :=
  vprintf_loop FLOAT_PRECESION putc (λ l, for_each l putc) klog_bufs with_bufs fmt args BufUninit ;;
  move_cursor.
Definition printf (fmt : string) (args : list arg) : M screen unit := vprintf (chars fmt) args.

Definition LEVEL_STR (level : Log_level_t) : string :=
  match level with DEBUG => "[debug] " | INFO => "[info] " | ERROR => "[error] " end.
Definition log (level : Log_level_t) (fmt : string) (args : list arg) : M screen unit :=
  push_color LIGHT_BLUE BLACK ;;
  puts (chars (LEVEL_STR level)) ;;
  pop_color ;;
  vprintf (chars fmt) args ;;
  puts (chars newline_str).

(** [bios] is the halfword at 0x410 *)
Definition klog_init (bios : Z) : M screen unit :=
  s ← get;
  let mono := Z.land bios 0x30 =? 0x30 in
  put (with_video (if mono then 0xB0000 else 0xB8000) mono s) ;;
  push_color LIGHT_GRAY BLACK ;;
  cls ;;
  printf ("video intialized. mode: %s" +:+ newline_str)
    [ArgStr (Some (chars (if mono then "monochrome" else "color")))].

(** * [common.cpp]: the end of the kernel *)

(** [die], up to the loop it never leaves *)
Definition die {S} `{HasPorts S} : M S unit :=
  v ← inb 0x61;
  let port_0x61_val := Z.land v 0xFC in
  port_wait ;;
  outb 0x43 0xB6 ;;
  let count := u16 (CLOCK_TICK_RATE / 2000) in
  outb 0x42 (u8 (Z.land count 0xFF)) ;;
  outb 0x42 (u8 (Z.shiftr count 8)) ;;
  outb 0x61 (Z.lor port_0x61_val 3).
Definition panic_func (file func : string) (line : Z) (fmt : string) (args : list arg) : M screen unit :=
  push_color RED BLACK ;;
  printf ("KERNEL PANIC at %s:%s:%d :" +:+ newline_str)
    [ArgStr (Some (chars file)); ArgStr (Some (chars func)); ArgInt line] ;;
  vprintf (chars fmt) args ;;
  die.
Definition kassert_failed (statement file : string) (line : Z) : M screen unit :=
  push_color RED BLACK ;;
  printf ("assertion " +:+ quote_str +:+ "%s" +:+ quote_str +:+ " failed at %s:%d" +:+ newline_str)
    [ArgStr (Some (chars statement)); ArgStr (Some (chars file)); ArgInt line] ;;
  die.
