(* ===== verification/KlogOk.v ===== *)
(** The text screen is a terminal: what [putc] does to the video memory is what
    an abstract terminal of 25 rows of 80 cells does, it stays inside the video
    memory, and its state stays in bounds. *)
From Stdlib Require Import ZifyBool SpecFloat.
From S2P Require Import Prelude Common Ctype Port Printf Klog.

(** * The terminal *)
Record term : Type := Term { cells : Z → Z → Z * Z; cx : Z; cy : Z; pen : Z }.
Definition term_newline (t : term) : term :=
  if cy t + 1 =? NROW
  then Term (λ r c, if r =? NROW - 1 then (32, pen t) else cells t (r + 1) c) 0 (NROW - 1) (pen t)
  else Term (cells t) 0 (cy t + 1) (pen t).
Definition term_put (ch : Z) (t : term) : term :=
  let t := Term (λ r c, if (r =? cy t) && (c =? cx t) then (u8 ch, pen t) else cells t r c)
             (cx t + 1) (cy t) (pen t) in
  if cx t =? NCOL then term_newline t else t.
Definition term_putc (ch : Z) (t : term) : term :=
  if isprint ch then term_put ch t
  else if ch =? 13 then Term (cells t) 0 (cy t) (pen t)
  else if ch =? 10 then term_newline t else t.

Definition on_screen (r c : Z) : Prop := 0 ≤ r < NROW ∧ 0 ≤ c < NCOL.
Definition cell (m : mem) (r c : Z) : Z * Z := (m ((c + r * NCOL) * 2), m ((c + r * NCOL) * 2 + 1)).

Record screen_ok (s : screen) : Prop := {
  sc_stack : length (color_stack s) = 32%nat;
  sc_ncolor : 1 ≤ ncolor_stack s ≤ 32;
  sc_x : 0 ≤ xpos s < NCOL;
  sc_y : 0 ≤ ypos s < NROW
}.

(** The screen shows the terminal. *)
Record shows (s : screen) (t : term) : Prop := {
  sh_cells r c : on_screen r c → cell (vmem s) r c = cells t r c;
  sh_x : xpos s = cx t;
  sh_y : ypos s = cy t;
  sh_pen : top_color s = Some (pen t)
}.

Definition video_frame (m m' : mem) : Prop := ∀ i, ¬ 0 ≤ i < NCOL * NROW * 2 → m' i = m i.

Section Proofs.
Implicit Types (s : screen) (t : term) (m : mem) (ch r c i j color : Z) (n : nat).

Lemma top_color_some s : screen_ok s → ∃ v, top_color s = Some v.
Proof.
  intros [H1 H2 _ _]. unfold top_color. case_match; [|lia]. apply lookup_lt_is_Some_2. lia.
Qed.

Lemma set_cell_at i v color m j :
  set_cell i v color m j = if j =? i + 1 then color else if j =? i then u8 v else m j.
Proof. done. Qed.

Lemma blank_at n i color m j :
  blank n i color m j =
  if (i <=? j) && (j <? i + 2 * Z.of_nat n) then (if (j - i) mod 2 =? 0 then 32 else color) else m j.
Proof.
  revert i m; induction n as [|n IH]; intros i m; simpl; [case_match; [lia|done]|].
  rewrite IH, set_cell_at. change (u8 32) with 32.
  repeat case_match; try done; exfalso; Z.to_euclidean_division_equations; lia.
Qed.

Lemma cell_blank n i color m r c :
  i mod 2 = 0 → cell (blank n i color m) r c =
  if (i <=? (c + r * NCOL) * 2) && ((c + r * NCOL) * 2 <? i + 2 * Z.of_nat n) then (32, color) else cell m r c.
Proof.
  intros Hi. unfold cell. rewrite !blank_at. set (x := (c + r * NCOL) * 2).
  assert ((x - i) mod 2 = 0 ∧ (x + 1 - i) mod 2 = 1) as [-> ->]
    by (unfold x; Z.to_euclidean_division_equations; lia).
  simpl. assert (x mod 2 = 0) by (unfold x; Z.to_euclidean_division_equations; lia).
  clearbody x. repeat case_match; try done; exfalso; Z.to_euclidean_division_equations; lia.
Qed.

Lemma new_line_ok s t :
  screen_ok s ∨ (xpos s = NCOL ∧ screen_ok (with_pos 0 (ypos s) s)) → shows s t →
  ∃ s', new_line s = Ret (tt, s') ∧ screen_ok s' ∧ shows s' (term_newline t) ∧
    video_frame (vmem s) (vmem s') ∧ color_stack s' = color_stack s ∧ ncolor_stack s' = ncolor_stack s ∧ dev s' = dev s.
Proof.
  intros Hok [Hc Hx Hy Hp].
  assert (H1 : length (color_stack s) = 32%nat) by (destruct Hok as [[]|[_ []]]; done).
  assert (H2 : 1 ≤ ncolor_stack s ≤ 32) by (destruct Hok as [[]|[_ []]]; done).
  assert (H4 : 0 ≤ ypos s < NROW) by (destruct Hok as [[]|[_ []]]; done).
  unfold new_line, term_newline, NROW, NCOL in *. rewrite <- Hy. unfold mbind, M_bind, get.
  destruct (Z.eqb_spec (ypos s + 1) 25) as [Heq|Hne].
  - rewrite Hp. eexists. split; [done|]. split; [|split; [|split; [|done]]].
    + split; simpl; unfold NCOL, NROW; try done; lia.
    + split; [|done|done|exact Hp]. intros r c [Hr Hcc]. cbn [cells vmem with_vmem].
      unfold NCOL, NROW in *. rewrite cell_blank by done. unfold NCOL.
      destruct (Z.eqb_spec r (25 - 1)) as [->|Hr'].
      * rewrite (proj2 (andb_true_iff _ _)); [done|]. split; lia.
      * destruct ((_ <=? _) && _) eqn:Hb; [lia|]. rewrite <- Hc by (unfold on_screen, NROW, NCOL; lia).
        unfold cell. rewrite !memcpy_at by lia. unfold NCOL.
        destruct ((0 <=? (c + r * 80) * 2) && _) eqn:Hb1; [|lia].
        destruct ((0 <=? (c + r * 80) * 2 + 1) && _) eqn:Hb2; [|lia]. do 2 f_equal; lia.
    + intros i Hi. cbn [vmem with_vmem]. unfold NCOL, NROW in *. rewrite blank_at.
      destruct ((_ <=? _) && _) eqn:Hb; [lia|]. rewrite memcpy_at by lia.
      destruct ((0 <=? i) && _) eqn:Hb1; [lia|done].
  - eexists. split; [done|]. split; [|split; [|split; [|done]]].
    + split; simpl; unfold NCOL, NROW; try done; lia.
    + split; simpl; try done.
    + done.
Qed.

(** One character, for any character. *)
Lemma putc_ok ch s t :
  screen_ok s → shows s t →
  ∃ s', putc ch s = Ret (tt, s') ∧ screen_ok s' ∧ shows s' (term_putc ch t) ∧
    video_frame (vmem s) (vmem s') ∧ color_stack s' = color_stack s ∧ ncolor_stack s' = ncolor_stack s ∧ dev s' = dev s.
Proof.
  intros Hok Hsh. pose proof Hok as [H1 H2 H3 H4]. pose proof Hsh as [Hc Hx Hy Hp].
  unfold putc, term_putc. destruct (isprint ch) eqn:Hpr; simpl negb.
  - assert (ch =? 13 = false) as -> by (unfold isprint in Hpr; lia).
    assert (ch =? 10 = false) as -> by (unfold isprint in Hpr; lia). simpl.
    unfold mbind, M_bind, get. rewrite Hp. unfold put. simpl xpos. rewrite Hx. unfold term_put.
    set (s1 := with_vmem _ _). set (t1 := Term _ _ _ _).
    assert (Hs1 : shows s1 t1).
    { split; [|done|exact Hy|exact Hp]. intros r c [Hr Hcc]. unfold NCOL, NROW in *. rewrite Hx in H3.
      cbn [cells t1 vmem s1 with_vmem with_pos]. unfold cell. rewrite !set_cell_at. rewrite <- Hy. unfold NCOL.
      destruct (Z.eqb_spec r (ypos s)) as [->|Hr'], (Z.eqb_spec c (cx t)) as [->|Hc']; simpl.
      - rewrite Z.eqb_refl. destruct ((cx t + ypos s * 80) * 2 =? _) eqn:Hb; [lia|]. by rewrite !Z.eqb_refl.
      - rewrite <- Hc by done. unfold cell, NCOL. repeat case_match; try lia; done.
      - rewrite <- Hc by done. unfold cell, NCOL. repeat case_match; try lia; done.
      - rewrite <- Hc by done. unfold cell, NCOL. repeat case_match; try lia; done. }
    assert (Hfr : video_frame (vmem s) (vmem s1)).
    { intros i Hi. unfold s1. rewrite Hx in H3. cbn [vmem with_vmem]. unfold NCOL, NROW in *. rewrite set_cell_at. repeat case_match; try lia; done. }
    change (cx t1) with (cx t + 1). change (xpos s1) with (cx t + 1).
    destruct (Z.eqb_spec (cx t + 1) NCOL) as [Heq|Hne].
    + destruct (new_line_ok s1 t1) as (s' & Hrun & Hok' & Hsh' & Hfr' & Hcs & Hnc & Hdev); [|done|].
      { right. split; [unfold s1; simpl; lia|]. split; simpl; unfold NCOL in *; try done; lia. }
      exists s'. split; [done|]. split; [done|]. split; [done|]. split; [|done].
      intros i Hi. by rewrite Hfr', Hfr.
    + exists s1. split; [done|]. split; [|split; [done|split; [done|done]]].
      split; simpl; unfold NCOL in *; try done; lia.
  - destruct (Z.eqb_spec ch 13) as [->|Hcr]; simpl.
    + eexists. split; [done|]. split; [split; simpl; unfold NCOL; try done; lia|]. split; [by split|done].
    + destruct (Z.eqb_spec ch 10) as [->|Hlf]; simpl.
      * unfold mbind, M_bind, get, mret, M_ret. apply new_line_ok; [by left|done].
      * exists s. done.
Qed.

Lemma putcs_ok l s t :
  screen_ok s → shows s t →
  ∃ s', for_each l putc s = Ret (tt, s') ∧ screen_ok s' ∧ shows s' (foldl (λ t ch, term_putc ch t) t l) ∧
    video_frame (vmem s) (vmem s') ∧ color_stack s' = color_stack s ∧ ncolor_stack s' = ncolor_stack s ∧ dev s' = dev s.
Proof.
  revert s t; induction l as [|ch l IH]; intros s t Hok Hsh.
  - exists s. done.
  - destruct (putc_ok ch s t Hok Hsh) as (s1 & Hrun & Hok1 & Hsh1 & Hfr1 & Hcs1 & Hnc1 & Hd1).
    destruct (IH s1 _ Hok1 Hsh1) as (s2 & Hrun2 & Hok2 & Hsh2 & Hfr2 & Hcs2 & Hnc2 & Hd2).
    exists s2. simpl. unfold mbind, M_bind. rewrite Hrun. split; [done|]. split; [done|]. split; [done|].
    split; [|split; [congruence|split; congruence]]. intros i Hi. by rewrite Hfr2, Hfr1.
Qed.

(** * [printf] *)
Lemma shows_bufs b rt s t : shows s t → shows (with_bufs b rt s) t.
Proof. by intros []. Qed.
Lemma screen_ok_bufs b rt s : screen_ok s → screen_ok (with_bufs b rt s).
Proof. by intros []. Qed.

(** the text [l] was printed: every terminal the screen showed has taken it *)
Definition screen_ready (s : screen) : Prop := screen_ok s ∧ ∃ t, shows s t.
Record screen_printed (l : list Z) (s s' : screen) : Prop := {
  sp_ok : screen_ok s';
  sp_shows t : shows s t → shows s' (foldl (λ t ch, term_putc ch t) t l);
  sp_frame : video_frame (vmem s) (vmem s');
  sp_colors : color_stack s' = color_stack s ∧ ncolor_stack s' = ncolor_stack s;
  sp_dev : dev s' = dev s
}.

Lemma screen_printed_putcs l s :
  screen_ready s → ∃ s', for_each l putc s = Ret (tt, s') ∧ screen_printed l s s'.
Proof.
  intros [Hok [t Hsh]]. destruct (putcs_ok l s t Hok Hsh) as (s' & Hrun & Hok' & _ & Hfr & Hc & Hn & Hd).
  exists s'. split; [done|]. split; [done| |done|done|done]. intros t2 Ht2.
  destruct (putcs_ok l s t2 Hok Ht2) as (s2 & Hrun2 & _ & H2 & _). congruence.
Qed.
Lemma screen_printed_putc c s :
  screen_ready s → ∃ s', putc c s = Ret (tt, s') ∧ screen_printed [c] s s'.
Proof.
  intros Hr. destruct (screen_printed_putcs [c] s Hr) as (s' & Hrun & Hp). exists s'. split; [|done].
  simpl in Hrun. unfold mbind, M_bind in Hrun. destruct (putc c s) as [[[] ?]| | |]; [|done..]. by injection Hrun as <-.
Qed.

#[export] Instance screen_printer :
  Printer putc (λ l, for_each l putc) klog_bufs with_bufs screen_ready screen_printed.
Proof.
  constructor.
  - intros s [Hok _]. by split.
  - intros l1 l2 s1 s2 s3 [O1 S1 F1 [C1 N1] D1] [O2 S2 F2 [C2 N2] D2]. split; [done| | |split|]; try congruence.
    + intros t Ht. rewrite foldl_app. auto.
    + intros i Hi. by rewrite F2, F1.
  - intros l s s' [_ [t Ht]] [Hok Hsh _ _ _]. split; [done|]. eauto.
  - intros b r s [Hok _]. split; [by apply screen_ok_bufs|intros t Ht; by apply shows_bufs|done|done|done].
  - done.
  - intros c s Hr. by apply screen_printed_putc.
  - intros l s Hr. by apply screen_printed_putcs.
Qed.
End Proofs.
