(* ===== verification/KlogProps.v ===== *)
(** The properties of the kernel log: numbers print as their digits, [printf]
    prints what its format stands for, the screen is a terminal, and the colour
    stack stays within its array. *)
From Stdlib Require Import ZifyBool SpecFloat.
From S2P Require Import Prelude Common Ctype Port Printf Denoted Klog KlogOk.

(** * Numbers *)
Definition digit_value (c : Z) : Z := if c <=? 57 then c - 48 else c - 87.
Definition num_value (base : Z) (l : list Z) : Z := foldl (λ acc c, acc * base + digit_value c) 0 l.

Section U2s.
Implicit Types (n base : Z) (l : list Z).

Lemma digit_of d : 0 ≤ d < 16 → digit_value (if d <? 10 then 48 + d else 97 + d - 10) = d ∧
  isxdigit (if d <? 10 then 48 + d else 97 + d - 10) = true.
Proof. intros Hd. unfold digit_value, isxdigit, isdigit. repeat case_match; lia. Qed.

Lemma num_value_rev base l :
  num_value base (rev l) = foldr (λ c acc, digit_value c + base * acc) 0 l.
Proof.
  unfold num_value. induction l as [|c l IH]; [done|]. simpl. rewrite foldl_app, IH. simpl. lia.
Qed.

Lemma u2s_digits_ok fuel n base :
  10 ≤ base ≤ 16 → 0 ≤ n < 10 ^ Z.of_nat fuel →
  foldr (λ c acc, digit_value c + base * acc) 0 (u2s_digits fuel n base) = n ∧
  Forall (λ c, isxdigit c = true) (u2s_digits fuel n base) ∧
  (∀ k : nat, n < 10 ^ Z.of_nat k → (length (u2s_digits fuel n base) ≤ k)%nat) ∧
  (n ≠ 0 → ∃ c, last (u2s_digits fuel n base) = Some c ∧ digit_value c ≠ 0).
Proof.
  intros Hb. revert n; induction fuel as [|fuel IH]; intros n Hn.
  { change (10 ^ Z.of_nat 0) with 1 in Hn. assert (n = 0) as -> by lia. simpl.
    split; [done|]. split; [constructor|]. split; [lia|done]. }
  simpl u2s_digits. destruct (Z.eqb_spec n 0) as [->|Hne].
  { simpl. split; [done|]. split; [constructor|]. split; [lia|done]. }
  rewrite Nat2Z.inj_succ, Z.pow_succ_r in Hn by lia.
  pose proof (Z.div_mod n base ltac:(lia)) as Hdm. pose proof (Z.mod_pos_bound n base ltac:(lia)) as Hmod.
  assert (Hq : ∀ m, n < 10 * m → n / base < m) by (intros m Hm; apply Z.div_lt_upper_bound; nia).
  destruct (IH (n / base)) as (I1 & I2 & I3 & I4); [split; [apply Z.div_pos; lia|apply Hq; lia]|].
  destruct (digit_of (n mod base) ltac:(lia)) as [D1 D2]. simpl. rewrite I1, D1.
  split; [lia|]. split; [by constructor|]. split.
  - intros [|k] Hk; [change (10 ^ Z.of_nat 0) with 1 in Hk; lia|].
    rewrite Nat2Z.inj_succ, Z.pow_succ_r in Hk by lia. apply Hq, I3 in Hk. lia.
  - intros _. destruct (decide (n / base = 0)) as [H0|H0].
    + rewrite H0. destruct fuel; simpl; eexists; (split; [done|]); rewrite D1; lia.
    + destruct (I4 H0) as (c & Hc & Hv). exists c. split; [|done].
      destruct (u2s_digits fuel (n / base) base); [done|exact Hc].
Qed.

(** [u2s] prints a number: in the bases 10 to 16 it yields the digits of
    the value, most significant first and without a leading zero, and never
    more than the ten that fit its buffer. *)
Theorem u2s_correct n base :
  0 ≤ n < 2 ^ 32 → 10 ≤ base ≤ 16 →
  num_value base (u2s n base) = n ∧ Forall (λ c, isxdigit c = true) (u2s n base) ∧
  (1 ≤ length (u2s n base) ≤ 10)%nat ∧ (n ≠ 0 → ∃ c, head (u2s n base) = Some c ∧ digit_value c ≠ 0).
Proof.
  intros Hn Hb. unfold u2s. destruct (Z.eqb_spec n 0) as [->|Hne].
  { split; [done|]. split; [by repeat constructor|]. split; [vm_compute; lia|done]. }
  assert (H32 : 2 ^ 32 < 10 ^ Z.of_nat 10 ∧ 10 ^ Z.of_nat 10 < 10 ^ Z.of_nat 32) by by vm_compute.
  destruct (u2s_digits_ok 32 n base Hb ltac:(lia)) as (H1 & H2 & H3 & H4). rewrite reverse_loop_rev.
  split; [by rewrite num_value_rev|]. split; [by apply Forall_rev|].
  destruct (H4 Hne) as (c & Hc & Hv). split.
  - rewrite length_rev. split; [|apply H3; lia]. destruct (u2s_digits 32 n base); [done|simpl; lia].
  - intros _. exists c. split; [|done]. rewrite <- Hc.
    rewrite rev_alt. change (rev_append ?l []) with (reverse l). apply head_reverse.
Qed.
End U2s.

(** * The screen *)
Section Screen.
Implicit Types (s : screen) (t : term).

(** C25: [putc] is the terminal's character: for every character it returns,
    the screen then shows what the terminal shows — a cell written at the
    cursor, a new line, a scroll of all rows by one — and no byte outside the
    video memory changes. *)
Theorem putc_terminal ch s t :
  screen_ok s → shows s t →
  ∃ s', putc ch s = Ret (tt, s') ∧ screen_ok s' ∧ shows s' (term_putc ch t) ∧
    video_frame (vmem s) (vmem s') ∧ dev s' = dev s.
Proof.
  intros Hok Hsh. destruct (putc_ok ch s t Hok Hsh) as (s' & H1 & H2 & H3 & H4 & _ & _ & H5). by exists s'.
Qed.

(** the hardware cursor's registers *)
Definition cursor_writes (pos : Z) : list io :=
  [Out 0x3D4 0x0E; Out 0x3D5 (u8 (Z.shiftr pos 8)); Out 0x3D4 0x0F; Out 0x3D5 (u8 pos)].

Lemma u8_land z : u8 (u8 (Z.land z 0xFF)) = u8 z.
Proof.
  unfold u8. change 0xFF with (Z.ones 8). rewrite Z.land_ones by lia. by rewrite !Z.mod_mod by lia.
Qed.

Lemma move_cursor_run s :
  move_cursor s = Ret (tt, with_dev (Ports (io_log (dev s) ++ cursor_writes (ypos s * NCOL + xpos s)) (reply (dev s))) s).
Proof.
  unfold move_cursor, outb, mbind, M_bind, get, cursor_writes. simpl. unfold with_dev. simpl. do 4 f_equal.
  rewrite <- !(assoc_L (++)). simpl. by rewrite !u8_land.
Qed.

(** [puts] shows its text; only the cursor's registers are written besides. *)
Record shown (l : list Z) (s s' : screen) : Prop := {
  sh_ok : screen_ok s';
  sh_shows t : shows s t → shows s' (foldl (λ t ch, term_putc ch t) t l);
  sh_frame : video_frame (vmem s) (vmem s');
  sh_colors : color_stack s' = color_stack s ∧ ncolor_stack s' = ncolor_stack s
}.
Lemma puts_shown l s : screen_ready s → ∃ s', puts l s = Ret (tt, s') ∧ shown l s s'.
Proof.
  intros Hr. destruct (screen_printed_putcs l s Hr) as (s1 & Hrun & [Hok Hsh Hfr Hc _]).
  eexists. unfold puts, mbind, M_bind. rewrite Hrun, move_cursor_run. split; [done|].
  split; [by destruct Hok| |done|done]. intros t Ht. by destruct (Hsh t Ht).
Qed.
Lemma vprintf_ok fmt args out s t :
  format_text FLOAT_PRECESION fmt args = Some out → screen_ok s → shows s t →
  let t' := foldl (λ t ch, term_putc ch t) t out in
  ∃ s', vprintf fmt args s = Ret (tt, s') ∧ screen_ok s' ∧ shows s' t' ∧
    video_frame (vmem s) (vmem s') ∧ color_stack s' = color_stack s ∧ ncolor_stack s' = ncolor_stack s ∧
    io_log (dev s') = io_log (dev s) ++ cursor_writes (cy t' * NCOL + cx t').
Proof.
  intros Hf Hok Hsh t'.
  destruct (vprintf_loop_ok FLOAT_PRECESION (length fmt) fmt args BufUninit out s (le_n _) Hf
    (conj Hok (ex_intro _ t Hsh))) as (s1 & Hrun & [Hok1 Hsh1 Hfr [Hcs Hn] Hd]).
  apply Hsh1 in Hsh as Hsh2. unfold vprintf, mbind, M_bind. rewrite Hrun, move_cursor_run. eexists. split; [done|].
  split; [by destruct Hok1|]. split; [by destruct Hsh2|]. split; [done|]. split; [done|]. split; [done|].
  simpl. rewrite Hd. destruct Hsh2 as [_ Hx Hy _]. by rewrite Hx, Hy.
Qed.

Lemma vprintf_run fmt args out s t :
  format_text FLOAT_PRECESION fmt args = Some out → screen_ok s → shows s t →
  ∃ s', vprintf fmt args s = Ret (tt, s') ∧ screen_ok s' ∧
    ∃ pos, io_log (dev s') = io_log (dev s) ++ cursor_writes pos.
Proof.
  intros Hf Hok Hsh. destruct (vprintf_ok fmt args out s t Hf Hok Hsh) as (s' & H1 & H2 & _ & _ & _ & _ & H3). eauto.
Qed.

(** [Klog::init] blanks the screen and prints the mode, in light gray. *)
Definition text_screen (l : list Z) : term :=
  foldl (λ t ch, term_putc ch t) (Term (λ _ _, (32, 7)) 0 0 7) l.
Definition init_text (bios : Z) : list Z :=
  chars ("video intialized. mode: " +:+ (if Z.land bios 0x30 =? 0x30 then "monochrome" else "color") +:+ newline_str).
Lemma klog_init_ok bios d m :
  ∃ s', klog_init bios (screen_start d m) = Ret (tt, s') ∧ screen_ok s' ∧ shows s' (text_screen (init_text bios)) ∧
    video_frame m (vmem s').
Proof.
  unfold klog_init, init_text. generalize (Z.land bios 0x30 =? 0x30). intros mono.
  set (s0 := screen_start d m).
  set (s1 := with_video (if mono then 0xB0000 else 0xB8000) mono s0).
  rewrite (run_bind get _ s0 s0 s0) by reflexivity. cbv zeta. rewrite (run_bind (put s1) _ s0 tt s1) by reflexivity.
  set (s2 := with_colors (<[0%nat:=7]> (replicate 32 0)) 1 s1).
  assert (Hpush : push_color LIGHT_GRAY BLACK s1 = Ret (tt, s2)).
  { unfold push_color, mbind, M_bind, get, s2, s1. simpl. by destruct mono. }
  rewrite (run_bind _ _ _ _ _ Hpush).
  set (s3 := with_vmem (blank (Z.to_nat (NCOL * NROW)) 0 7 (vmem s2)) (with_pos 0 0 s2)).
  assert (Hcls : cls s2 = Ret (tt, s3)) by exact eq_refl. rewrite (run_bind _ _ _ _ _ Hcls).
  assert (Hok : screen_ok s3).
  { split; [reflexivity|change (ncolor_stack s3) with 1; lia|change (xpos s3) with 0; unfold NCOL; lia|].
    change (ypos s3) with 0. unfold NROW. lia. }
  assert (Hsh : shows s3 (Term (λ _ _, (32, 7)) 0 0 7)).
  { split; [|reflexivity..]. intros r c [Hr Hc]. unfold s3. cbn [vmem with_vmem cells].
    rewrite cell_blank by done. unfold NCOL, NROW in *.
    destruct ((0 <=? (c + r * 80) * 2) && _) eqn:Hb; [reflexivity|lia]. }
  assert (Hm : vmem s2 = m) by reflexivity. clearbody s2.
  assert (Hf : format_text FLOAT_PRECESION (chars ("video intialized. mode: %s" +:+ newline_str))
    [ArgStr (Some (chars (if mono then "monochrome" else "color")))] =
    Some (chars ("video intialized. mode: " +:+ (if mono then "monochrome" else "color") +:+ newline_str))).
  { destruct mono; vm_compute; reflexivity. }
  destruct (vprintf_ok _ _ _ s3 _ Hf Hok Hsh) as (s' & Hrun & Hok' & Hsh' & Hfr & _).
  exists s'. split; [exact Hrun|]. split; [done|]. split; [done|].
  intros i Hi. rewrite Hfr by done. unfold s3. cbn [vmem with_vmem]. rewrite blank_at.
  rewrite Hm. unfold NCOL, NROW in *. destruct ((0 <=? i) && _) eqn:Hb; [lia|reflexivity].
Qed.

(** C23: [vprintf] prints exactly the text its format and arguments denote —
    for [%s], [%d], [%u], [%x], [%p], [%c] and [%%], with the numbers written
    by place value: [numeral 10], [numeral 16], and eight upper-case places
    after [#0x] for a pointer — one character after the other, and then puts
    the cursor behind the last one. A format with [%f] denotes nothing here. *)
Theorem vprintf_correct fmt args out s t :
  denoted_text fmt args = Some out → screen_ok s → shows s t →
  let t' := foldl (λ t ch, term_putc ch t) t out in
  ∃ s', vprintf fmt args s = Ret (tt, s') ∧ screen_ok s' ∧ shows s' t' ∧
    video_frame (vmem s) (vmem s') ∧ color_stack s' = color_stack s ∧ ncolor_stack s' = ncolor_stack s ∧
    io_log (dev s') = io_log (dev s) ++ cursor_writes (cy t' * NCOL + cx t').
Proof. intros Hd. apply vprintf_ok. by apply denoted_format_text. Qed.

(** The colour stack never leaves its array: pushing keeps between one
    and 32 colours, makes the new one current and loses the old top only when
    the stack is full; popping restores what a push covered, and never removes
    the last colour. *)
Theorem color_stack_correct s fore back :
  screen_ok s ∨ s = screen_start (dev s) (vmem s) →
  ∃ s1, push_color fore back s = Ret (tt, s1) ∧ screen_ok s1 ∧ vmem s1 = vmem s ∧
    (video_monochrome s = false → top_color s1 = Some (color_code back * 16 + color_code fore)) ∧
    ncolor_stack s1 = Z.min 32 (ncolor_stack s + 1) ∧
    ∃ s2, pop_color s1 = Ret (tt, s2) ∧ screen_ok s2 ∧
      (1 ≤ ncolor_stack s < 32 → ncolor_stack s2 = ncolor_stack s ∧ top_color s2 = top_color s).
Proof.
  intros Hs.
  assert (Hb : length (color_stack s) = 32%nat ∧ 0 ≤ ncolor_stack s ≤ 32 ∧ 0 ≤ xpos s < NCOL ∧ 0 ≤ ypos s < NROW).
  { destruct Hs as [[]|Heq]; [split_and!; (done || lia)|]. rewrite Heq. simpl. unfold NCOL, NROW. split_and!; (done || lia). }
  destruct Hb as (H1 & H2 & H3 & H4). unfold push_color, mbind, M_bind, get.
  set (n := if ncolor_stack s =? COLOR_STACK_SIZE then ncolor_stack s - 1 else ncolor_stack s).
  assert (Hn : n = Z.min 31 (ncolor_stack s)) by (unfold n, COLOR_STACK_SIZE; case_match; lia).
  set (v := if video_monochrome s then _ else _).
  rewrite decide_True by lia. unfold put. set (s1 := with_colors _ _ _).
  assert (Hok1 : screen_ok s1) by (split; simpl; [by rewrite length_insert|lia|done|done]).
  exists s1. split; [done|]. split; [done|]. split; [done|]. split; [|split; [simpl; lia|]].
  - intros Hm. unfold top_color. simpl. case_match; [|lia]. replace (Z.to_nat (n + 1 - 1)) with (Z.to_nat n) by lia.
    rewrite list_lookup_insert_eq by lia. f_equal. unfold v. rewrite Hm. by destruct fore, back.
  - unfold pop_color, mbind, M_bind, get. destruct (1 <? ncolor_stack s1) eqn:Hp.
    + eexists. split; [done|]. simpl in Hp. split; [split; simpl; [by rewrite length_insert|lia|done|done]|].
      intros Hs32. simpl. split; [lia|]. unfold top_color. simpl. repeat case_match; try lia.
      rewrite list_lookup_insert_ne by lia. f_equal. lia.
    + eexists. split; [done|]. split; [done|]. simpl in Hp. intros Hs32. lia.
Qed.

(** A screen in order shows something, and [log] leaves it in order. *)
Lemma screen_ok_shows s : screen_ok s → ∃ t, shows s t.
Proof.
  intros [Hl Hn _ _]. destruct (lookup_lt_is_Some_2 (color_stack s) (Z.to_nat (ncolor_stack s - 1))) as [c Hc]; [lia|].
  exists (Term (cell (vmem s)) (xpos s) (ypos s) c). split; [done..|]. unfold top_color.
  by destruct (Z.leb_spec 1 (ncolor_stack s)); [|lia].
Qed.
Lemma log_ok level fmt args out s :
  format_text FLOAT_PRECESION (chars fmt) args = Some out → screen_ok s →
  ∃ s', log level fmt args s = Ret (tt, s') ∧ screen_ok s'.
Proof.
  intros Hf Hok. assert (Hputs : ∀ l s0, screen_ok s0 → ∃ s1, puts l s0 = Ret (tt, s1) ∧ screen_ok s1).
  { intros l s0 H0. destruct (puts_shown l s0 (conj H0 (screen_ok_shows s0 H0))) as (s1 & Hr & [H1 _ _ _]). by exists s1. }
  unfold log. destruct (color_stack_correct s LIGHT_BLUE BLACK (or_introl Hok)) as (s1 & R1 & Hok1 & _).
  rewrite (run_bind _ _ _ _ _ R1). destruct (Hputs (chars (LEVEL_STR level)) s1 Hok1) as (s2 & R2 & Hok2).
  rewrite (run_bind _ _ _ _ _ R2).
  assert (∃ s3, pop_color s2 = Ret (tt, s3) ∧ screen_ok s3) as (s3 & R3 & Hok3).
  { unfold pop_color, mbind, M_bind, get. destruct (1 <? ncolor_stack s2) eqn:Hn; (eexists; split; [done|]); [|done].
    destruct Hok2 as [H1 H2 H3 H4]. split; simpl; [done|lia|done|done]. }
  rewrite (run_bind _ _ _ _ _ R3). destruct (screen_ok_shows s3 Hok3) as [t Ht].
  destruct (vprintf_ok (chars fmt) args out s3 t Hf Hok3 Ht) as (s4 & R4 & Hok4 & _). rewrite (run_bind _ _ _ _ _ R4).
  apply Hputs. exact Hok4.
Qed.
End Screen.

(** An unknown conversion prints what the one before it printed, not [(%?)]. *)
Example vprintf_default_stale :
  (let s := with_colors (<[0%nat:=7]> (replicate 32 0)) 1 (screen_start (Ports [] (λ _ _, 0)) (λ _, 0)) in
   match vprintf (chars "%d%q") [ArgInt 5] s with
   | Ret (_, s') => ((cell (vmem s') 0 0).1, (cell (vmem s') 0 1).1, (cell (vmem s') 0 2).1)
   | _ => (0, 0, 0)
   end) = (53, 53, 0).
Proof. vm_compute. reflexivity. Qed.

(** * At a screen with one colour *)
Definition demo_screen : screen :=
  with_colors (<[0%nat:=7]> (replicate 32 0)) 1 (screen_start (Ports [] (λ _ _, 0)) (λ _, 0)).
Definition demo_term : term := Term (λ _ _, (0, 0)) 0 0 7.
Lemma demo_screen_ok : screen_ok demo_screen.
Proof. split; [done|simpl; lia|done|done]. Qed.
Lemma demo_screen_shows : shows demo_screen demo_term.
Proof. split; done. Qed.

Lemma u2s_correct_witness : num_value 10 (u2s 4294967295 10) = 4294967295 ∧ u2s 4294967295 10 = chars "4294967295".
Proof.
  split; [|by vm_compute].
  exact (proj1 (u2s_correct 4294967295 10 ltac:(lia) ltac:(lia))).
Defined.
Lemma putc_terminal_witness :
  ∃ s', putc 65 demo_screen = Ret (tt, s') ∧ screen_ok s' ∧ shows s' (term_putc 65 demo_term) ∧
    video_frame (vmem demo_screen) (vmem s') ∧ dev s' = dev demo_screen.
Proof. exact (putc_terminal 65 demo_screen demo_term demo_screen_ok demo_screen_shows). Defined.
Lemma vprintf_correct_witness :
  ∃ s', vprintf (chars "%s=%d (0x%x)") [ArgStr (Some (chars "n")); ArgInt (-42); ArgInt 255] demo_screen = Ret (tt, s') ∧
    shows s' (foldl (λ t ch, term_putc ch t) demo_term (chars "n=-42 (0xff)")) ∧ io_log (dev s') = cursor_writes 12.
Proof.
  destruct (vprintf_correct (chars "%s=%d (0x%x)") [ArgStr (Some (chars "n")); ArgInt (-42); ArgInt 255]
    (chars "n=-42 (0xff)") demo_screen demo_term ltac:(vm_compute; reflexivity) demo_screen_ok demo_screen_shows)
    as (s' & H1 & _ & Hs & _ & _ & _ & H2).
  exists s'. split; [exact H1|]. split; [exact Hs|exact H2].
Defined.
Lemma color_stack_correct_witness :
  ∃ s1, push_color RED BLACK demo_screen = Ret (tt, s1) ∧ top_color s1 = Some 4.
Proof.
  destruct (color_stack_correct demo_screen RED BLACK (or_introl demo_screen_ok)) as (s1 & H1 & _ & _ & H2 & _).
  exists s1. split; [exact H1|exact (H2 eq_refl)].
Defined.
