(* ===== verification/DescTab.v ===== *)
(** [core/descriptor_table.cpp], [include/descriptor_table.h], [include/asm.h]:
    the segment and interrupt descriptor tables, the interrupt handlers' table
    and the interrupt controllers, with the effect of the loads in
    [core/asm/misc.S] and the dispatch of [core/asm/interrupt.S]. *)
From Stdlib Require Import ZifyBool.
From S2P Require Import Prelude Common Ctype Port Printf Klog KlogOk KlogProps.

(** * Data *)
Definition KERNEL_CODE_SELECTOR : Z := 0x08.
Definition KERNEL_DATA_SELECTOR : Z := 0x10.
Definition USER_CODE_SELECTOR : Z := 0x18.
Definition USER_DATA_SELECTOR : Z := 0x20.
Definition TSS_DESCRIPTOR_SELECTOR : Z := 0x28.

Record GDT_entry_t : Type := GdtEntry {
  limit_low : Z; base_low : Z; base_middle : Z; access : Z; limit_high_and_flag : Z; base_high : Z
}.
Record IDT_entry_t : Type := IdtEntry {
  offset_low : Z; selector : Z; idt_zero : Z; flag : Z; offset_high : Z
}.
(** [GDT_ptr_t] and [IDT_ptr_t] *)
Record table_ptr : Type := TablePtr { ptr_limit : Z; ptr_base : Z }.
Record TSS_entry_t : Type := TssEntry {
  prev_tss : Z; esp0 : Z; ss0 : Z; esp1 : Z; ss1 : Z; esp2 : Z; ss2 : Z; tss_cr3 : Z;
  tss_eip : Z; tss_eflags : Z; tss_eax : Z; tss_ecx : Z; tss_edx : Z; tss_ebx : Z; tss_esp : Z; tss_ebp : Z;
  tss_esi : Z; tss_edi : Z; tss_es : Z; tss_cs : Z; tss_ss : Z; tss_ds : Z; tss_fs : Z; tss_gs : Z;
  tss_ldt : Z; tss_reserved : Z; iomap_base : Z
}.
Definition sizeof_TSS_entry_t : Z := 104.
Definition gdt_zero : GDT_entry_t := GdtEntry 0 0 0 0 0 0.
Definition idt_entry_zero : IDT_entry_t := IdtEntry 0 0 0 0 0.

(** The state pushed on the stack of an interrupt. *)
Record Isr_registers : Type := IsrFrame {
  r_ds : Z; r_edi : Z; r_esi : Z; r_ebp : Z; r_esp : Z; r_ebx : Z; r_edx : Z; r_ecx : Z; r_eax : Z;
  r_int_no : Z; r_err_code : Z; r_eip : Z; r_cs : Z; r_eflags : Z; r_useresp : Z; r_ss : Z
}.

Definition GDT_entry_set (base limit access_ flag : Z) : GDT_entry_t :=
  GdtEntry (u16 (Z.land limit 0xFFFF)) (u16 (Z.land base 0xFFFF)) (u8 (Z.land (Z.shiftr base 16) 0xFF))
    (u8 access_) (u8 (Z.lor (Z.land (Z.shiftr limit 16) 0xF) (Z.shiftl (Z.land flag 0xF) 4)))
    (u8 (Z.land (Z.shiftr base 24) 0xFF)).
Definition IDT_entry_set (offset sel_ flag_ : Z) : IDT_entry_t :=
  IdtEntry (u16 (Z.land offset 0xFFFF)) (u16 (u8 sel_)) 0 (u8 flag_)
    (u16 (Z.land (Z.shiftr offset 16) 0xFFFF)).

(** How the processor reads a descriptor. *)
Definition gdt_base (g : GDT_entry_t) : Z := base_low g + 2 ^ 16 * base_middle g + 2 ^ 24 * base_high g.
Definition gdt_limit (g : GDT_entry_t) : Z := limit_low g + 2 ^ 16 * (limit_high_and_flag g mod 16).
Definition gdt_flags (g : GDT_entry_t) : Z := limit_high_and_flag g / 16.
Definition idt_offset (d : IDT_entry_t) : Z := offset_low d + 2 ^ 16 * offset_high d.

(** * The interrupt controllers *)
Definition PIC1_COMMAND : Z := 0x20.
Definition PIC1_DATA : Z := 0x20 + 1.
Definition PIC2_COMMAND : Z := 0xA0.
Definition PIC2_DATA : Z := 0xA0 + 1.
Definition ICW1_ICW4 : Z := 0x01.
Definition ICW1_INIT : Z := 0x10.
Definition ICW4_8086 : Z := 0x01.
Definition ISR_GET_NUM_BY_IRQ (n : Z) : Z := n + 32.

Section Pic.
Context {S : Type} `{HasPorts S}.

Definition remap_PIC (offset1 offset2 : Z) : M S unit :=
  a1 ← inb PIC1_DATA;
  a2 ← inb PIC2_DATA;
  outb PIC1_COMMAND (ICW1_INIT + ICW1_ICW4) ;;
  port_wait ;;
  outb PIC2_COMMAND (ICW1_INIT + ICW1_ICW4) ;;
  port_wait ;;
  outb PIC1_DATA offset1 ;;
  port_wait ;;
  outb PIC2_DATA offset2 ;;
  port_wait ;;
  outb PIC1_DATA 4 ;;
  port_wait ;;
  outb PIC2_DATA 2 ;;
  port_wait ;;
  outb PIC1_DATA ICW4_8086 ;;
  port_wait ;;
  outb PIC2_DATA ICW4_8086 ;;
  port_wait ;;
  outb PIC1_DATA a1 ;;
  outb PIC2_DATA a2.

Definition isr_eoi (int_no : Z) : M S unit :=
  (if 40 <=? s32 int_no then outb PIC2_COMMAND 0x20 else mret tt) ;;
  outb PIC1_COMMAND 0x20.
End Pic.

Definition isr_unhandled (reg : Isr_registers) : M screen unit :=
  printf ("unhandled interrupt: int_no=0x%x  err_code=0x%x" +:+ newline_str)
    [ArgInt (r_int_no reg); ArgInt (r_err_code reg)] ;;
  if (32 <=? r_int_no reg) && (r_int_no reg <=? 47) then isr_eoi (r_int_no reg)
  else panic "unhandled interrupt".

(** * The tables *)

(** Addresses the linker chooses. *)
Class DescLink := {
  isr_stub : Z → Z;
  isr_unhandled_addr : Z;
  gdt_entries_addr : Z;
  idt_entries_addr : Z;
  tss_entry_addr : Z
}.

(** The static tables, [isr_callback_table], and the processor's registers
    for them. *)
Record desc_tables : Type := DescTables {
  gdt_entries : list GDT_entry_t;
  gdt_ptr : table_ptr;
  tss_entry : TSS_entry_t;
  idt_entries : list IDT_entry_t;
  idt_ptr : table_ptr;
  isr_callback_table : list Z;
  gdtr : option table_ptr;
  idtr : option table_ptr;
  task_register : option Z;
  dt_dev : ports
}.
Global Instance desc_ports : HasPorts desc_tables := {|
  get_ports := dt_dev;
  set_ports d t := DescTables (gdt_entries t) (gdt_ptr t) (tss_entry t) (idt_entries t) (idt_ptr t)
    (isr_callback_table t) (gdtr t) (idtr t) (task_register t) d
|}.
Definition with_callbacks (l : list Z) (t : desc_tables) : desc_tables :=
  DescTables (gdt_entries t) (gdt_ptr t) (tss_entry t) (idt_entries t) (idt_ptr t) l (gdtr t) (idtr t)
    (task_register t) (dt_dev t).

Definition tss_zero : TSS_entry_t := TssEntry 0 0 0 0 0 0 0 0 0 0 0 0 0 0 0 0 0 0 0 0 0 0 0 0 0 0 0.
Definition desc_start (d : ports) : desc_tables :=
  DescTables (replicate 6 gdt_zero) (TablePtr 0 0) tss_zero (replicate 256 idt_entry_zero) (TablePtr 0 0)
    (replicate 256 0) None None None d.

Section Tables.
Context `{DescLink}.

Definition init_tss : TSS_entry_t :=
  TssEntry 0 KERNEL_STACK_POS KERNEL_DATA_SELECTOR 0 0 0 0 0 0 0 0 0 0 0 0 0 0 0
    (Z.lor KERNEL_DATA_SELECTOR 3) (Z.lor KERNEL_CODE_SELECTOR 3) (Z.lor KERNEL_DATA_SELECTOR 3)
    (Z.lor KERNEL_DATA_SELECTOR 3) (Z.lor KERNEL_DATA_SELECTOR 3) (Z.lor KERNEL_DATA_SELECTOR 3) 0 0 0.
Definition init_gdt_entries : list GDT_entry_t :=
  [ GDT_entry_set 0 0 0 0;
    GDT_entry_set 0 0xFFFFFFFF 0x9A 0xC;
    GDT_entry_set 0 0xFFFFFFFF 0x92 0xC;
    GDT_entry_set 0 0xFFFFFFFF 0xFA 0xC;
    GDT_entry_set 0 0xFFFFFFFF 0xF2 0xC;
    GDT_entry_set tss_entry_addr (u32 (tss_entry_addr + sizeof_TSS_entry_t)) 0xE9 0 ].
(** with [gdt_flush] and [tss_flush] *)
Definition init_gdt : M desc_tables unit :=
  t ← get;
  let p := TablePtr (u16 (6 * 8 - 1)) gdt_entries_addr in
  put (DescTables init_gdt_entries p init_tss (idt_entries t) (idt_ptr t) (isr_callback_table t)
         (Some p) (idtr t) (Some (Z.lor TSS_DESCRIPTOR_SELECTOR 3)) (dt_dev t)).

Definition IDT_SEL : Z := KERNEL_CODE_SELECTOR.
Definition IDT_FLAG : Z := 0x8E.
(** [LOOP_ALL_INTERRUPT] *)
Definition all_interrupts : list Z := upto 0 48 ++ [0x80].
Definition set_gate (l : list IDT_entry_t) (n : Z) (flag : Z) : list IDT_entry_t :=
  <[Z.to_nat n := IDT_entry_set (isr_stub n) IDT_SEL flag]> l.
(** with [idt_flush] *)
Definition init_idt : M desc_tables unit :=
  t ← get;
  put (with_callbacks ((λ c, if c =? 0 then isr_unhandled_addr else c) <$> isr_callback_table t) t) ;;
  remap_PIC 32 40 ;;
  t ← get;
  let p := TablePtr (u16 (256 * 8 - 1)) idt_entries_addr in
  let gates := foldl (λ l n, set_gate l n IDT_FLAG) (replicate 256 idt_entry_zero) all_interrupts in
  let gates := set_gate gates 0x80 (Z.lor IDT_FLAG 0x60) in
  put (DescTables (gdt_entries t) (gdt_ptr t) (tss_entry t) gates p (isr_callback_table t)
         (gdtr t) (Some p) (task_register t) (dt_dev t)).

Definition init_descriptor_tables : M desc_tables unit := init_gdt ;; init_idt.

Definition isr_register (num callback : Z) : M desc_tables unit :=
  t ← get;
  if (0 <=? num) && (num <? 256)
  then put (with_callbacks (<[Z.to_nat num := callback]> (isr_callback_table t)) t)
  else mret tt.

(** What the processor and the stub of [interrupt.S] call for the interrupt
    [n]: the entry's stub is the one of [n], which calls the [n]th callback. *)
Definition dispatch (n : Z) (t : desc_tables) : option Z :=
  match idt_entries t !! Z.to_nat n with
  | Some g =>
    if (flag g / 128 =? 1) && (idt_offset g =? isr_stub n) then isr_callback_table t !! Z.to_nat n else None
  | None => None
  end.
End Tables.

(** * Properties *)
Section Proofs.
Context `{DescLink}.

Lemma land_ff z k : 0 ≤ k → Z.land z (2 ^ k - 1) = z mod 2 ^ k.
Proof. intros Hk. rewrite <- Z.land_ones by done. f_equal. rewrite Z.ones_equiv. lia. Qed.

Lemma lor_nibbles a b : 0 ≤ a < 16 → 0 ≤ b < 16 → Z.lor a (Z.shiftl b 4) = a + 16 * b.
Proof.
  intros Ha Hb.
  assert (Z.land a (Z.shiftl b 4) = 0) as Hl.
  { apply Z.bits_inj'. intros i Hi. rewrite Z.land_spec, Z.bits_0. destruct (Z.lt_ge_cases i 4).
    - rewrite Z.shiftl_spec_low by done. apply andb_false_r.
    - replace (Z.testbit a i) with false; [done|]. symmetry.
      destruct (Z.eq_dec a 0) as [->|Hne]; [apply Z.bits_0|]. apply Z.bits_above_log2; [lia|].
      assert (Z.log2 a < 4) by (apply Z.log2_lt_pow2; lia). lia. }
  pose proof (Z.add_lor_land a (Z.shiftl b 4)) as Hs. rewrite Hl in Hs. rewrite Z.shiftl_mul_pow2 in * by lia. lia.
Qed.

Lemma descriptor_fields base limit acc fl offset sel flag_ :
  0 ≤ base < 2 ^ 32 → 0 ≤ limit < 2 ^ 32 → 0 ≤ acc < 256 → 0 ≤ fl < 16 →
  0 ≤ offset < 2 ^ 32 → 0 ≤ sel < 256 → 0 ≤ flag_ < 256 →
  let g := GDT_entry_set base limit acc fl in
  let d := IDT_entry_set offset sel flag_ in
  gdt_base g = base ∧ gdt_limit g = limit mod 2 ^ 20 ∧ access g = acc ∧ gdt_flags g = fl ∧
  idt_offset d = offset ∧ selector d = sel ∧ flag d = flag_ ∧ idt_zero d = 0.
Proof.
  intros Hb Hl Ha Hf Ho Hs Hfl g d.
  unfold g, d, gdt_base, gdt_limit, gdt_flags, idt_offset, GDT_entry_set, IDT_entry_set. simpl.
  change 0xFFFF with (2 ^ 16 - 1). change 0xFF with (2 ^ 8 - 1). change 0xF with (2 ^ 4 - 1).
  rewrite !land_ff by lia. rewrite lor_nibbles by (apply Z.mod_pos_bound; lia).
  rewrite !Z.shiftr_div_pow2 by lia. unfold u8, u16.
  change (2 ^ 16) with 65536 in *. change (2 ^ 8) with 256 in *. change (2 ^ 4) with 16 in *.
  change (2 ^ 24) with 16777216. change (2 ^ 32) with 4294967296 in *. change (2 ^ 20) with 1048576.
  split_and!; Z.to_euclidean_division_equations; lia.
Qed.

(** Descriptors encode what they are given: the processor reads back the
    base, the low twenty bits of the limit, the access byte and the four flags
    of a segment, and the handler's address of an interrupt gate. *)
Theorem descriptor_roundtrip base limit acc fl offset sel flag_ :
  0 ≤ base < 2 ^ 32 → 0 ≤ limit < 2 ^ 32 → 0 ≤ acc < 256 → 0 ≤ fl < 16 →
  0 ≤ offset < 2 ^ 32 → 0 ≤ sel < 256 → 0 ≤ flag_ < 256 →
  let g := GDT_entry_set base limit acc fl in
  let d := IDT_entry_set offset sel flag_ in
  gdt_base g = base ∧ gdt_limit g = limit mod 2 ^ 20 ∧ access g = acc ∧ gdt_flags g = fl ∧
  idt_offset d = offset ∧ selector d = sel ∧ flag d = flag_ ∧ idt_zero d = 0.
Proof. apply descriptor_fields. Qed.

Lemma outb_run port val l r : outb port val (Ports l r) = Ret (tt, Ports (l ++ [Out (u16 port) (u8 val)]) r).
Proof. done. Qed.
Lemma outb_bind {B} port val l r (k : M ports B) :
  (outb port val ;; k) (Ports l r) = k (Ports (l ++ [Out (u16 port) (u8 val)]) r).
Proof. done. Qed.
Lemma inb_bind {B} port l r (k : Z → M ports B) :
  (inb port ≫= k) (Ports l r) = k (u8 (r l (u16 port))) (Ports (l ++ [In (u16 port) (u8 (r l (u16 port)))]) r).
Proof. done. Qed.

(** The controllers are programmed by the book: initialization words one
    to four to each, the vector offsets given, the masks found at the start
    restored, and nothing else written. *)
Theorem remap_PIC_correct (o1 o2 : Z) (p : ports) :
  0 ≤ o1 < 256 → 0 ≤ o2 < 256 →
  let a1 := u8 (reply p (io_log p) 0x21) in
  let a2 := u8 (reply p (io_log p ++ [In 0x21 a1]) 0xA1) in
  ∃ p', remap_PIC o1 o2 p = Ret (tt, p') ∧ reply p' = reply p ∧
    writes (io_log p') = writes (io_log p) ++
      [(0x20, 0x11); (0xA0, 0x11); (0x21, o1); (0xA1, o2); (0x21, 4); (0xA1, 2);
       (0x21, 1); (0xA1, 1); (0x21, a1); (0xA1, a2)].
Proof.
  intros Ho1 Ho2. destruct p as [l r]. intros a1 a2.
  change (u8 (r l 0x21)) in (value of a1). change (u8 (r (l ++ [In 0x21 a1]) 0xA1)) in (value of a2).
  cbn [io_log reply]. unfold remap_PIC.
  rewrite inb_bind. change (u16 PIC1_DATA) with 0x21. fold a1.
  rewrite inb_bind. change (u16 PIC2_DATA) with 0xA1. fold a2. unfold port_wait.
  rewrite !outb_bind, outb_run. eexists. split; [reflexivity|]. split; [reflexivity|].
  cbn [io_log]. rewrite <- !app_assoc.
  unfold writes. rewrite omap_app. f_equal.
  assert (Hu : ∀ z, 0 ≤ z < 256 → u8 z = z) by (intros z Hz; by apply Z.mod_small).
  assert (Hm : ∀ z, 0 ≤ u8 z < 256) by (intros z; by apply Z.mod_pos_bound).
  rewrite (Hu o1), (Hu o2), (Hu a1), (Hu a2) by (done || apply Hm). clearbody a1 a2. reflexivity.
Qed.

Lemma isr_eoi_run n (p : ports) : 0 ≤ n < 2 ^ 31 →
  isr_eoi n p = Ret (tt, Ports (io_log p ++ (if 40 <=? n then [Out 0xA0 0x20; Out 0x20 0x20] else [Out 0x20 0x20])) (reply p)).
Proof.
  intros Hn. unfold isr_eoi. rewrite (s32_small n) by exact Hn. clear Hn. destruct (40 <=? n); unfold mbind, M_bind, outb, mret, M_ret; cbn [get_ports set_ports ports_has_ports io_log reply];
    rewrite <- ?app_assoc; reflexivity.
Qed.

(** ** The dispatch of interrupts *)
Definition gates_spec : list IDT_entry_t → Prop := λ l,
  length l = 256%nat ∧
  ∀ n, 0 ≤ n < 256 → l !! Z.to_nat n =
    Some (if decide (n = 0x80) then IDT_entry_set (isr_stub n) IDT_SEL (Z.lor IDT_FLAG 0x60)
          else if decide (0 ≤ n < 48) then IDT_entry_set (isr_stub n) IDT_SEL IDT_FLAG else idt_entry_zero).

Lemma set_gates_at ns l n :
  Forall (λ m, 0 ≤ m < 256) ns → length l = 256%nat → 0 ≤ n < 256 →
  length (foldl (λ l n, set_gate l n IDT_FLAG) l ns) = 256%nat ∧
  foldl (λ l n, set_gate l n IDT_FLAG) l ns !! Z.to_nat n =
    if decide (n ∈ ns) then Some (IDT_entry_set (isr_stub n) IDT_SEL IDT_FLAG) else l !! Z.to_nat n.
Proof.
  revert l; induction ns as [|m ns IH]; intros l Hns Hl Hn; [done|].
  apply Forall_cons in Hns as [Hm Hns]. simpl.
  assert (Hl' : length (set_gate l m IDT_FLAG) = 256%nat) by (unfold set_gate; by rewrite length_insert).
  destruct (IH (set_gate l m IDT_FLAG) Hns Hl' Hn) as [IH1 IH2]. split; [done|]. rewrite IH2.
  destruct (decide (n ∈ ns)) as [Hin|Hin]; [rewrite decide_True; [done|by right]|].
  unfold set_gate. destruct (decide (n = m)) as [->|Hne].
  - rewrite decide_True by (by left). apply list_lookup_insert_eq. lia.
  - rewrite decide_False by (intros [?|?]%elem_of_cons; done). apply list_lookup_insert_ne. lia.
Qed.

Lemma init_gates_spec :
  gates_spec (set_gate (foldl (λ l n, set_gate l n IDT_FLAG) (replicate 256 idt_entry_zero) all_interrupts)
                0x80 (Z.lor IDT_FLAG 0x60)).
Proof.
  assert (Hall : Forall (λ m, 0 ≤ m < 256) all_interrupts).
  { apply Forall_app. split; [|repeat constructor; lia]. unfold upto. rewrite !Forall_fmap.
    apply Forall_forall. intros i Hi%elem_of_seq. simpl. lia. }
  assert (Hin : ∀ n, n ∈ all_interrupts ↔ 0 ≤ n < 48 ∨ n = 0x80).
  { intros n. unfold all_interrupts. rewrite elem_of_app, list_elem_of_singleton. unfold upto.
    rewrite list_elem_of_fmap. split; (intros [Hn|Hn]; [left|by right]).
    - destruct Hn as (i & -> & (j & -> & Hj%elem_of_seq)%list_elem_of_fmap). lia.
    - exists n. split; [lia|]. apply list_elem_of_fmap. exists (Z.to_nat n). split; [lia|]. apply elem_of_seq. lia. }
  split.
  - unfold set_gate at 1. rewrite length_insert. by apply (set_gates_at _ _ 0).
  - intros n Hn. unfold set_gate at 1. destruct (decide (n = 0x80)) as [->|Hne].
    + apply list_lookup_insert_eq. destruct (set_gates_at all_interrupts (replicate 256 idt_entry_zero) 0) as [-> _]; try done. lia.
    + rewrite list_lookup_insert_ne by lia.
      destruct (set_gates_at all_interrupts (replicate 256 idt_entry_zero) n) as [_ ->]; try done.
      destruct (decide (n ∈ all_interrupts)) as [Hi|Hi]; rewrite Hin in Hi.
      * rewrite decide_True by lia. done.
      * rewrite decide_False by lia. apply lookup_replicate_2. lia.
Qed.

(** Every vector goes to the stub of its number. *)
Definition dispatch_spec (t : desc_tables) : Prop :=
  length (isr_callback_table t) = 256%nat ∧ gates_spec (idt_entries t).

Lemma dispatch_at n t : (∀ n, 0 ≤ isr_stub n < 2 ^ 32) → dispatch_spec t → 0 ≤ n < 256 →
  dispatch n t = if decide (0 ≤ n < 48 ∨ n = 0x80) then isr_callback_table t !! Z.to_nat n else None.
Proof.
  intros Hstub [Hlen [_ Hg]] Hn. unfold dispatch. rewrite Hg by done.
  assert (Hoff : ∀ fl, 0 ≤ fl < 256 →
    idt_offset (IDT_entry_set (isr_stub n) IDT_SEL fl) = isr_stub n ∧ flag (IDT_entry_set (isr_stub n) IDT_SEL fl) = fl).
  { intros fl Hfl. destruct (descriptor_fields 0 0 0 0 (isr_stub n) IDT_SEL fl) as (_ & _ & _ & _ & H1 & _ & H2 & _);
      [lia|lia|lia|lia|apply Hstub|unfold IDT_SEL, KERNEL_CODE_SELECTOR; lia|done|done]. }
  destruct (decide (0 ≤ n < 48 ∨ n = 0x80)) as [Hd|Hd]; destruct (decide (n = 0x80)) as [Heq|Hne]; [|..].
  - destruct (Hoff (Z.lor IDT_FLAG 0x60)) as [-> ->]; [by vm_compute|]. rewrite (Z.eqb_refl (isr_stub n)). reflexivity.
  - rewrite decide_True by lia. destruct (Hoff IDT_FLAG) as [-> ->]; [by vm_compute|]. rewrite (Z.eqb_refl (isr_stub n)). reflexivity.
  - lia.
  - rewrite decide_False by lia. done.
Qed.

(** Programming the controllers leaves the tables alone. *)
Definition same_tables t t' : Prop :=
  isr_callback_table t' = isr_callback_table t ∧ gdt_entries t' = gdt_entries t ∧ tss_entry t' = tss_entry t ∧
  gdtr t' = gdtr t ∧ task_register t' = task_register t.
Definition keeps_tables {A} (m : M desc_tables A) : Prop := ∀ t, ∃ a t', m t = Ret (a, t') ∧ same_tables t t'.
Lemma keeps_bind {A B} (m : M desc_tables A) (f : A → M desc_tables B) :
  keeps_tables m → (∀ a, keeps_tables (f a)) → keeps_tables (m ≫= f).
Proof.
  intros Hm Hf t. destruct (Hm t) as (a & t1 & H1 & S1). destruct (Hf a t1) as (b & t2 & H2 & S2).
  exists b, t2. rewrite (run_bind _ _ _ _ _ H1). split; [done|]. unfold same_tables in *. intuition congruence.
Qed.
Lemma keeps_outb port v : keeps_tables (outb port v).
Proof. intros t. eexists _, _. split; [reflexivity|done]. Qed.
Lemma keeps_inb port : keeps_tables (inb port).
Proof. intros t. eexists _, _. split; [reflexivity|done]. Qed.
Lemma keeps_remap o1 o2 : keeps_tables (remap_PIC o1 o2).
Proof. unfold remap_PIC, port_wait. repeat (apply keeps_bind; [apply keeps_inb || apply keeps_outb|intros ?]). apply keeps_outb. Qed.

(** The tables once they are set up, and a registration. *)
Lemma init_tables_run d :
  ∃ t0, init_descriptor_tables (desc_start d) = Ret (tt, t0) ∧ dispatch_spec t0 ∧
    isr_callback_table t0 = replicate 256 isr_unhandled_addr.
Proof.
  unfold init_descriptor_tables, init_idt.
  assert (Hg : init_gdt (desc_start d) = Ret (tt, DescTables init_gdt_entries (TablePtr (u16 (6 * 8 - 1)) gdt_entries_addr)
    init_tss (replicate 256 idt_entry_zero) (TablePtr 0 0) (replicate 256 0) (Some (TablePtr (u16 (6 * 8 - 1)) gdt_entries_addr))
    None (Some (Z.lor TSS_DESCRIPTOR_SELECTOR 3)) d)) by done.
  rewrite (run_bind _ _ _ _ _ Hg). set (t1 := DescTables _ _ _ _ _ _ _ _ _ _).
  rewrite (run_bind get _ t1 t1 t1) by done.
  set (t2 := with_callbacks _ t1). rewrite (run_bind (put t2) _ t1 tt t2) by done.
  destruct (keeps_remap 32 40 t2) as ([] & t3 & Hr & Hc & _).
  rewrite (run_bind _ _ _ _ _ Hr). rewrite (run_bind get _ t3 t3 t3) by done.
  assert (Hcb : isr_callback_table t2 = replicate 256 isr_unhandled_addr) by reflexivity.
  eexists. split; [reflexivity|]. cbn [isr_callback_table]. rewrite Hc, Hcb. split; [|done]. split.
  - cbn [isr_callback_table]. apply length_replicate.
  - apply init_gates_spec.
Qed.
Lemma isr_register_run m c t :
  isr_register m c t = Ret (tt, if (0 <=? m) && (m <? 256) then with_callbacks (<[Z.to_nat m := c]> (isr_callback_table t)) t else t).
Proof. unfold isr_register, mbind, M_bind, get. by destruct ((0 <=? m) && (m <? 256)). Qed.

(** C29: after [init_descriptor_tables] and any registrations, every interrupt
    0..47 and the system call 0x80 has a present gate to the stub of its
    number, which calls the callback registered last for it, or the default
    handler; no other vector has a gate. *)
Theorem interrupts_dispatch (regs : list (Z * Z)) (d : ports) n :
  (∀ n, 0 ≤ isr_stub n < 2 ^ 32) → isr_unhandled_addr ≠ 0 → 0 ≤ n < 256 →
  ∃ t, (init_descriptor_tables ;; for_each regs (λ '(num, cb), isr_register num cb)) (desc_start d) = Ret (tt, t) ∧
    dispatch n t =
      if decide (0 ≤ n < 48 ∨ n = 0x80)
      then Some (foldl (λ cb '(m, c), if m =? n then c else cb) isr_unhandled_addr regs) else None.
Proof.
  intros Hstub Hun Hn.
  destruct (init_tables_run d) as (t0 & Hrun & Hsp & Hcb0).
  assert (Hcb : isr_callback_table t0 !! Z.to_nat n = Some isr_unhandled_addr)
    by (rewrite Hcb0; apply lookup_replicate_2; lia). clear Hcb0.
  rewrite (run_bind _ _ _ _ _ Hrun). clear Hrun.
  revert t0 Hsp Hcb. generalize isr_unhandled_addr. induction regs as [|[m c] regs IH]; intros cb t0 Hsp Hcb.
  { exists t0. split; [done|]. rewrite dispatch_at by done. by rewrite Hcb. }
  simpl. destruct ((0 <=? m) && (m <? 256)) eqn:Hm.
  - set (t1 := with_callbacks (<[Z.to_nat m := c]> (isr_callback_table t0)) t0).
    assert (Hrun : isr_register m c t0 = Ret (tt, t1)) by (rewrite isr_register_run; by rewrite Hm).
    rewrite (run_bind _ _ _ _ _ Hrun). apply (IH (if m =? n then c else cb)).
    + destruct Hsp as [Hl Hg]. split; [|done]. simpl. by rewrite length_insert.
    + simpl. destruct Hsp as [Hl _]. destruct (Z.eqb_spec m n) as [->|Hne].
      * apply list_lookup_insert_eq. lia.
      * rewrite list_lookup_insert_ne by lia. exact Hcb.
  - assert (Hrun : isr_register m c t0 = Ret (tt, t0)) by (rewrite isr_register_run; by rewrite Hm).
    rewrite (run_bind _ _ _ _ _ Hrun). assert (m =? n = false) as -> by lia. by apply IH.
Qed.

(** The default handler acknowledges exactly the hardware interrupts — the
    slave controller first for those it raised, then the master — and stops the
    kernel on every other interrupt. *)
Theorem isr_unhandled_correct reg s t :
  screen_ok s → shows s t → 0 ≤ r_int_no reg < 2 ^ 31 →
  if (32 <=? r_int_no reg) && (r_int_no reg <=? 47)
  then ∃ s' pos, isr_unhandled reg s = Ret (tt, s') ∧ screen_ok s' ∧
         io_log (dev s') = io_log (dev s) ++ cursor_writes pos ++
           (if 40 <=? r_int_no reg then [Out 0xA0 0x20; Out 0x20 0x20] else [Out 0x20 0x20])
  else isr_unhandled reg s = Panic "unhandled interrupt".
Proof.
  intros Hok Hsh Hn. unfold isr_unhandled, printf.
  set (fmt := chars _). set (args := [_; _]).
  assert (∃ out, format_text FLOAT_PRECESION fmt args = Some out) as [out Hout] by (eexists; cbv -[u2s u32 app r_int_no r_err_code]; reflexivity).
  destruct (vprintf_run fmt args out s t Hout Hok Hsh) as (s1 & Hrun & Hok1 & pos & Hlog).
  rewrite (run_bind _ _ _ _ _ Hrun). destruct ((32 <=? _) && _); [|done].
  unfold isr_eoi. rewrite s32_small by done.
  destruct (40 <=? r_int_no reg); eexists _, pos; (split; [reflexivity|]); destruct Hok1; (split; [by split|]);
    simpl; rewrite Hlog, <- !app_assoc; reflexivity.
Qed.
End Proofs.

(** The limit of the task state segment is its end address, not its size less
    one: for a segment at 0x120000 the descriptor says 0x20068. *)
Example tss_limit (L : DescLink) :
  tss_entry_addr = 0x120000 → gdt_limit <$> (init_gdt_entries !! 5%nat) = Some 0x20068.
Proof. intros H. unfold init_gdt_entries. rewrite H. by vm_compute. Qed.

(** * At addresses the linker could choose *)
Definition demo_desc_link : DescLink :=
  {| isr_stub n := 0x100000 + 32 * (n mod 1024); isr_unhandled_addr := 0x108000; gdt_entries_addr := 0x121000;
     idt_entries_addr := 0x122000; tss_entry_addr := 0x120000 |}.

Lemma descriptor_roundtrip_witness :
  gdt_base (GDT_entry_set 0x12345678 0xFFFFFFFF 0x9A 0xC) = 0x12345678 ∧
  idt_offset (IDT_entry_set 0xC0001234 8 0x8E) = 0xC0001234.
Proof.
  destruct (descriptor_roundtrip 0x12345678 0xFFFFFFFF 0x9A 0xC 0xC0001234 8 0x8E) as (H1 & _ & _ & _ & H2 & _);
    [lia..|]. split; [exact H1|exact H2].
Defined.
Lemma remap_PIC_correct_witness :
  ∃ p', remap_PIC 32 40 (Ports [] (λ _ _, 0xB8)) = Ret (tt, p') ∧ reply p' = (λ _ _, 0xB8) ∧
    writes (io_log p') = [(0x20, 0x11); (0xA0, 0x11); (0x21, 32); (0xA1, 40); (0x21, 4); (0xA1, 2);
       (0x21, 1); (0xA1, 1); (0x21, 0xB8); (0xA1, 0xB8)].
Proof. exact (remap_PIC_correct 32 40 (Ports [] (λ _ _, 0xB8)) ltac:(lia) ltac:(lia)). Defined.
Lemma interrupts_dispatch_witness :
  ∃ t, (@init_descriptor_tables demo_desc_link ;;
        for_each [(32, 0x109000); (33, 0x10A000); (32, 0x10B000)] (λ '(num, cb), isr_register num cb))
         (desc_start (Ports [] (λ _ _, 0))) = Ret (tt, t) ∧
    @dispatch demo_desc_link 32 t = Some 0x10B000.
Proof.
  exact (@interrupts_dispatch demo_desc_link [(32, 0x109000); (33, 0x10A000); (32, 0x10B000)] (Ports [] (λ _ _, 0)) 32
    ltac:(intros n; simpl; pose proof (Z.mod_pos_bound n 1024); lia) ltac:(done) ltac:(lia)).
Defined.
Definition demo_frame (n : Z) : Isr_registers := IsrFrame 0 0 0 0 0 0 0 0 0 n 0 0 0 0 0 0.
Lemma isr_unhandled_correct_witness :
  isr_unhandled (demo_frame 13) demo_screen = Panic "unhandled interrupt".
Proof. exact (isr_unhandled_correct (demo_frame 13) demo_screen demo_term demo_screen_ok demo_screen_shows ltac:(simpl; lia)). Defined.
