(* ===== verification/Errno.v ===== *)
(** [include/errno_base.h], [include/errno.h], [include/types.h],
    [core/user.cpp], [include/user.h]: error numbers, how a function fails
    with one, and the capability test. *)
From S2P Require Import Prelude.

Inductive errno_t : Type :=
| EPERM | ENOENT | ESRCH | EINTR | EIO | ENXIO | E2BIG | ENOEXEC | EBADF | ECHILD | EAGAIN | ENOMEM
| EACCES | EFAULT | ENOTBLK | EBUSY | EEXIST | EXDEV | ENODEV | ENOTDIR | EISDIR | EINVAL | ENFILE
| EMFILE | ENOTTY | ETXTBSY | EFBIG | ENOSPC | ESPIPE | EROFS | EMLINK | EPIPE | EDOM | ERANGE | ENOTSUP.

Definition errno_code (e : errno_t) : Z :=
  match e with
  | EPERM => 1 | ENOENT => 2 | ESRCH => 3 | EINTR => 4 | EIO => 5 | ENXIO => 6 | E2BIG => 7
  | ENOEXEC => 8 | EBADF => 9 | ECHILD => 10 | EAGAIN => 11 | ENOMEM => 12 | EACCES => 13
  | EFAULT => 14 | ENOTBLK => 15 | EBUSY => 16 | EEXIST => 17 | EXDEV => 18 | ENODEV => 19
  | ENOTDIR => 20 | EISDIR => 21 | EINVAL => 22 | ENFILE => 23 | EMFILE => 24 | ENOTTY => 25
  | ETXTBSY => 26 | EFBIG => 27 | ENOSPC => 28 | ESPIPE => 29 | EROFS => 30 | EMLINK => 31
  | EPIPE => 32 | EDOM => 33 | ERANGE => 34 | ENOTSUP => 35
  end.

Global Instance errno_t_eq_dec : EqDecision errno_t.
Proof. solve_decision. Defined.
Global Instance errno_code_inj : Inj (=) (=) errno_code.
Proof. intros x y. destruct x, y; simpl; intros H; (reflexivity || discriminate H). Qed.

(** Who has an error number: [set_errno] of the task component. *)
Class Errno (S : Type) := { set_errno : errno_t → M S unit }.

(** [ERROR_RETURN] *)
Definition ERROR_RETURN {S} `{Errno S} (e : errno_t) : M S Z := set_errno e ;; mret (-1).

(** * [user.cpp] *)
Inductive Cap_t : Type := CAP_KILL.
Definition cap_test (uid : Z) (cap : Cap_t) : bool := uid =? 0.
