(* ===== verification/Fs.v ===== *)
(** [fs/base.cpp], [include/fs/base.h]: the virtual file system's classes, as
    records of operations with the base class's defaults; and the RAM disk of
    [drv/ramdisk.cpp], a file over a range of memory that overrides them. *)
From Stdlib Require Import ZifyBool.
From S2P Require Import Prelude Common Errno Ctype.

Definition FILENAME_LEN_MAX : Z := 128.
Definition SEEK_SET : Z := 0.
Definition SEEK_CUR : Z := 1.
Definition SEEK_END : Z := 2.
Inductive Fsid_t : Type := FSID_RAMDISK | FSID_JKFS.
Record Stat_t : Type := Stat { mode : Z; nlink : Z }.

(** The virtual methods of a file: an object is its operations on the state
    [S]; pointers are addresses, 0 for NULL. *)
Record Node_file (S : Type) : Type := NodeFile {
  f_get_fs : M S Fsid_t;
  f_get_dir : M S Z;
  f_seek : Z → Z → M S Z;
  f_read : Z → Z → M S Z;
  f_write : Z → Z → M S Z;
  f_ioctl : Z → Z → M S Z;
  f_stat : Z → M S Z;
  f_close : M S unit
}.
Arguments f_get_fs {S} _.
Arguments f_get_dir {S} _.
Arguments f_seek {S} _ _ _.
Arguments f_read {S} _ _ _.
Arguments f_write {S} _ _ _.
Arguments f_ioctl {S} _ _ _.
Arguments f_stat {S} _ _.
Arguments f_close {S} _.

Record Node_dir (S : Type) : Type := NodeDir {
  d_get_fs : M S Fsid_t;
  d_openf : string → M S Z;
  d_opend : string → M S Z;
  d_creat : string → Z → M S Z;
  d_chmod : string → Z → M S Z;
  d_unlink : string → M S Z;
  d_link : Z → string → M S Z;
  d_symlink : string → string → M S Z;
  d_mkdir : string → Z → M S Z;
  d_rmdir : string → M S Z;
  d_mount : Z → M S Z;
  d_is_empty : M S bool;
  d_list : M S Z;
  d_get_par : M S Z;
  d_close : M S unit
}.

(** [mount_point], its accessors and the constructors *)
Record mountable : Type := Mountable { mount_point : Z }.
Definition mountable_init : mountable := Mountable 0.
Definition get_mount_point (n : mountable) : Z := mount_point n.
Definition set_mount_point (ptr : Z) (n : mountable) : mountable := Mountable ptr.

Section Base.
Context {S : Type} `{Errno S}.

(** [set_errno(ENOTSUP); return NULL] *)
Definition not_supported_null : M S Z := set_errno ENOTSUP ;; mret 0.
Definition not_supported : M S Z := ERROR_RETURN ENOTSUP.

(** The defaults of class [Node_file], for a file on the filesystem [fs]. *)
Definition Node_file_base (fs : Fsid_t) : Node_file S :=
  NodeFile S (mret fs) not_supported_null (λ _ _, not_supported) (λ _ _, not_supported)
    (λ _ _, not_supported) (λ _ _, not_supported) (λ _, not_supported) (mret tt).

Definition Dirent_next : M S bool := set_errno ENOTSUP ;; mret false.

(** The defaults of class [Node_dir]; [chmod] returns [NULL], that is 0. *)
Definition Node_dir_base (fs : Fsid_t) : Node_dir S :=
  NodeDir S (mret fs) (λ _, not_supported_null) (λ _, not_supported_null) (λ _ _, not_supported_null)
    (λ _ _, not_supported_null) (λ _, not_supported) (λ _ _, not_supported) (λ _ _, not_supported)
    (λ _ _, not_supported_null) (λ _, not_supported) (λ _, not_supported)
    (set_errno ENOTSUP ;; mret false) not_supported_null not_supported_null (mret tt).

Definition Fs_mv (oldpath newpath : string) : M S Z := not_supported.
End Base.

(** * The RAM disk *)
Record Ramdisk_file_node : Type := RamFile {
  rf_start : Z; rf_end : Z; cur_offset : Z; closed : bool
}.
Definition ramdisk_get_file_node (start end_ : Z) : Ramdisk_file_node := RamFile start end_ 0 false.

(** A state with a RAM disk file in it, the memory the disk and the buffers lie
    in, and an error number. *)
Class RamDisk (S : Type) := {
  ram_disk_errno :: Errno S;
  ram_node : S → Ramdisk_file_node;
  set_ram_node : Ramdisk_file_node → S → S;
  ram_memcpy : Z → Z → Z → M S unit
}.

Definition with_offset (o : Z) (f : Ramdisk_file_node) : Ramdisk_file_node :=
  RamFile (rf_start f) (rf_end f) o (closed f).
(** [this->end - this->start], a [uint32_t] *)
Definition rf_size (f : Ramdisk_file_node) : Z := u32 (rf_end f - rf_start f).

Section Ramdisk.
Context {S : Type} `{RamDisk S}.

Definition set_offset (o : Z) : M S unit := s ← get; put (set_ram_node (with_offset o (ram_node s)) s).

(** The sum for [SEEK_CUR] and [SEEK_END] is not bounded here; the source has
    an [int64_t], whose overflow is undefined. *)
Definition ramdisk_seek (offset whence : Z) : M S Z :=
  s ← get;
  let f := ram_node s in
  if closed f then ERROR_RETURN EBADF
  else
    let off1 := if whence =? SEEK_SET then offset
                else if whence =? SEEK_CUR then offset + cur_offset f
                else if whence =? SEEK_END then rf_size f + offset else -1 in
    if (off1 <? 0) || (rf_size f <=? off1) then ERROR_RETURN EINVAL
    else set_offset off1 ;; mret off1.

(** Reading and writing. The source keeps interrupts off around the copy
    ([CLI_SAVE_EFLAGS]); the flags are not in this state. *)
Definition ramdisk_read (buf cnt : Z) : M S Z :=
  s ← get;
  let f := ram_node s in
  if closed f then ERROR_RETURN EBADF
  else
    let cnt := u32 (cmin cnt (rf_size f - cur_offset f)) in
    if cnt =? 0 then mret 0
    else
      ram_memcpy buf (u32 (rf_start f + cur_offset f)) cnt ;;
      set_offset (cur_offset f + cnt) ;;
      mret (s32 cnt).

Definition ramdisk_write (buf cnt : Z) : M S Z :=
  s ← get;
  let f := ram_node s in
  if closed f then ERROR_RETURN EBADF
  else
    let cnt := u32 (cmin cnt (rf_size f - cur_offset f)) in
    if cnt =? 0 then mret 0
    else
      ram_memcpy (u32 (rf_start f + cur_offset f)) buf cnt ;;
      set_offset (cur_offset f + cnt) ;;
      mret (s32 cnt).

Definition ramdisk_close : M S unit :=
  s ← get;
  let f := ram_node s in
  put (set_ram_node (RamFile (rf_start f) (rf_end f) (cur_offset f) true) s).

(** the class: the base operations, five of them overridden *)
Definition ramdisk_ops : Node_file S :=
  let base := Node_file_base (S:=S) FSID_RAMDISK in
  NodeFile S (mret FSID_RAMDISK) (f_get_dir base) ramdisk_seek ramdisk_read ramdisk_write
    (f_ioctl base) (f_stat base) ramdisk_close.
End Ramdisk.

(** The disk on a flat memory. *)
Record ram : Type := Ram { ram_file : Ramdisk_file_node; ram_mem : mem; ram_errno : option errno_t }.
Global Instance ram_errno_class : Errno ram := {|
  set_errno e := λ r, Ret (tt, Ram (ram_file r) (ram_mem r) (Some e))
|}.
Global Instance ram_ram_disk : RamDisk ram := {|
  ram_node := ram_file;
  set_ram_node f r := Ram f (ram_mem r) (ram_errno r);
  ram_memcpy d s n := λ r, Ret (tt, Ram (ram_file r) (memcpy d s (Z.to_nat n) (ram_mem r)) (ram_errno r))
|}.

(** * What the RAM disk is: a file of fixed size *)
Definition content (r : ram) : list Z :=
  (λ i, ram_mem r (rf_start (ram_file r) + i)) <$> upto 0 (rf_size (ram_file r)).

Record ram_ok (r : ram) : Prop := {
  ro_range : 0 ≤ rf_start (ram_file r) ∧ rf_start (ram_file r) ≤ rf_end (ram_file r) < 2 ^ 31;
  ro_offset : 0 ≤ cur_offset (ram_file r) ≤ rf_size (ram_file r);
  ro_open : closed (ram_file r) = false
}.

(** the buffer is apart from the disk *)
Definition apart (buf n : Z) (f : Ramdisk_file_node) : Prop :=
  0 ≤ buf ∧ (buf + n ≤ rf_start f ∨ rf_end f ≤ buf).
(** the bytes of a buffer *)
Definition bytes_at (m : mem) (a n : Z) : list Z := (λ i, m (a + i)) <$> upto 0 n.

Section Proofs.
Implicit Types (r : ram) (f : Ramdisk_file_node) (m : mem) (a buf cnt n i : Z).

Lemma rf_size_eq f : 0 ≤ rf_start f → rf_start f ≤ rf_end f < 2 ^ 31 → rf_size f = rf_end f - rf_start f.
Proof. intros H1 H2. apply Z.mod_small. lia. Qed.

Lemma lookup_upto_0 n (k : nat) : (Z.of_nat k < n) → upto 0 n !! k = Some (Z.of_nat k).
Proof.
  intros Hk. unfold upto. rewrite !list_lookup_fmap, lookup_seq_lt by lia. simpl. done.
Qed.
Lemma length_bytes_at m a n : length (bytes_at m a n) = Z.to_nat n.
Proof. unfold bytes_at, upto. rewrite !length_fmap, length_seq. lia. Qed.
Lemma lookup_bytes_at m a n (k : nat) : Z.of_nat k < n → bytes_at m a n !! k = Some (m (a + Z.of_nat k)).
Proof. intros Hk. unfold bytes_at. by rewrite list_lookup_fmap, lookup_upto_0. Qed.
Lemma content_eq r : content r = bytes_at (ram_mem r) (rf_start (ram_file r)) (rf_size (ram_file r)).
Proof. done. Qed.
Lemma bytes_at_ext m m' a a' n :
  (∀ i, 0 ≤ i < n → m (a + i) = m' (a' + i)) → bytes_at m a n = bytes_at m' a' n.
Proof.
  intros Hm. apply list_eq. intros k. destruct (decide (Z.of_nat k < n)) as [Hk|Hk].
  - rewrite !lookup_bytes_at by done. f_equal. apply Hm. lia.
  - rewrite !lookup_ge_None_2; [done|rewrite length_bytes_at; lia..].
Qed.

(** the bytes that can be moved from the current position *)
Definition moved r cnt : Z := Z.min cnt (rf_size (ram_file r) - cur_offset (ram_file r)).
Lemma moved_cnt r cnt :
  ram_ok r → 0 ≤ cnt < 2 ^ 32 →
  u32 (cmin cnt (rf_size (ram_file r) - cur_offset (ram_file r))) = moved r cnt ∧ 0 ≤ moved r cnt < 2 ^ 31 ∧
  u32 (rf_start (ram_file r) + cur_offset (ram_file r)) = rf_start (ram_file r) + cur_offset (ram_file r).
Proof.
  intros [Hr Ho _] Hc. pose proof (rf_size_eq _ (proj1 Hr) (proj2 Hr)) as Hs. unfold moved, cmin.
  split_and!; [|lia|lia|apply Z.mod_small; lia].
  unfold u32. rewrite Z.mod_small; case_match; lia.
Qed.

Lemma offset_moved r cnt :
  ram_ok r → 0 ≤ cnt → 0 ≤ cur_offset (ram_file r) + moved r cnt ≤ rf_size (ram_file r).
Proof. intros [_ Ho _] Hc. unfold moved. lia. Qed.

Lemma ramdisk_read_run buf cnt r :
  ram_ok r → 0 ≤ cnt < 2 ^ 32 → apart buf (moved r cnt) (ram_file r) →
  ∃ r', f_read ramdisk_ops buf cnt r = Ret (moved r cnt, r') ∧ ram_ok r' ∧ content r' = content r ∧
    ram_errno r' = ram_errno r ∧
    cur_offset (ram_file r') = cur_offset (ram_file r) + moved r cnt ∧
    bytes_at (ram_mem r') buf (moved r cnt) =
      take (Z.to_nat (moved r cnt)) (drop (Z.to_nat (cur_offset (ram_file r))) (content r)) ∧
    ∀ a, ¬ buf ≤ a < buf + moved r cnt → ram_mem r' a = ram_mem r a.
Proof.
  intros Hok Hc [Hb Hap]. pose proof Hok as [Hr Ho Hcl]. destruct (moved_cnt r cnt Hok Hc) as (Hu & Hm & Ha).
  pose proof (rf_size_eq _ (proj1 Hr) (proj2 Hr)) as Hs.
  simpl. unfold ramdisk_read, set_offset, mbind, M_bind, get. cbn [ram_node ram_ram_disk]. rewrite Hcl, Hu, Ha.
  assert (Hread : ∀ m', (∀ i, 0 ≤ i < moved r cnt → m' (buf + i) = ram_mem r (rf_start (ram_file r) + cur_offset (ram_file r) + i)) →
    bytes_at m' buf (moved r cnt) =
      take (Z.to_nat (moved r cnt)) (drop (Z.to_nat (cur_offset (ram_file r))) (content r))).
  { intros m' Hm'. apply list_eq. intros k. destruct (decide (Z.of_nat k < moved r cnt)) as [Hk|Hk].
    - rewrite lookup_bytes_at, lookup_take_lt, lookup_drop by lia. unfold moved in *.
      rewrite content_eq, lookup_bytes_at by lia. rewrite Hm' by lia. do 2 f_equal. lia.
    - rewrite !lookup_ge_None_2; [done| |rewrite length_bytes_at; lia]. rewrite length_take. lia. }
  destruct (Z.eqb_spec (moved r cnt) 0) as [H0|H0].
  - exists r. rewrite H0. split; [done|]. split; [done|]. split; [done|]. split; [done|]. split; [lia|].
    rewrite <- H0. split; [|done]. apply Hread. lia.
  - rewrite s32_small by done. eexists. split; [done|].
    assert (Hmem : ∀ a, memcpy buf (rf_start (ram_file r) + cur_offset (ram_file r)) (Z.to_nat (moved r cnt)) (ram_mem r) a
      = if (buf <=? a) && (a <? buf + moved r cnt)
        then ram_mem r (rf_start (ram_file r) + cur_offset (ram_file r) + (a - buf)) else ram_mem r a).
    { intros a. rewrite memcpy_at by (unfold moved in *; lia). by rewrite Z2Nat.id by lia. }
    split; [|split; [|split; [done|split; [done|split]]]].
    + split; [done|apply (offset_moved r cnt Hok); lia|done].
    + rewrite !content_eq. simpl. unfold rf_size, with_offset. simpl. apply bytes_at_ext. intros i Hi.
      rewrite Hmem. unfold moved in *. fold (rf_size (ram_file r)) in Hi. case_match; [lia|done].
    + simpl. apply Hread. intros i Hi. rewrite Hmem. case_match; [f_equal; lia|lia].
    + intros a Hna. simpl. rewrite Hmem. case_match; [lia|done].
Qed.

(** C34: reading returns what the file holds at the position: it moves the
    bytes that are left, at most [cnt], into the buffer, advances the position
    by their number, and changes nothing but the buffer. *)
Theorem ramdisk_read_correct buf cnt r :
  ram_ok r → 0 ≤ cnt < 2 ^ 32 → apart buf (moved r cnt) (ram_file r) →
  ∃ r', f_read ramdisk_ops buf cnt r = Ret (moved r cnt, r') ∧ ram_ok r' ∧ content r' = content r ∧
    ram_errno r' = ram_errno r ∧
    cur_offset (ram_file r') = cur_offset (ram_file r) + moved r cnt ∧
    bytes_at (ram_mem r') buf (moved r cnt) =
      take (Z.to_nat (moved r cnt)) (drop (Z.to_nat (cur_offset (ram_file r))) (content r)) ∧
    ∀ a, ¬ buf ≤ a < buf + moved r cnt → ram_mem r' a = ram_mem r a.
Proof. apply ramdisk_read_run. Qed.

(** C35: writing replaces what the file holds at the position: the moved bytes
    become the buffer's, the rest of the file and all memory outside the disk
    stay as they are, and reading the place back gives the buffer. *)
Theorem ramdisk_write_correct buf cnt r :
  ram_ok r → 0 ≤ cnt < 2 ^ 32 → apart buf (moved r cnt) (ram_file r) →
  ∃ r', f_write ramdisk_ops buf cnt r = Ret (moved r cnt, r') ∧ ram_ok r' ∧ ram_errno r' = ram_errno r ∧
    cur_offset (ram_file r') = cur_offset (ram_file r) + moved r cnt ∧
    content r' = take (Z.to_nat (cur_offset (ram_file r))) (content r) ++ bytes_at (ram_mem r) buf (moved r cnt) ++
                 drop (Z.to_nat (cur_offset (ram_file r) + moved r cnt)) (content r) ∧
    ∀ a, ¬ rf_start (ram_file r) ≤ a < rf_end (ram_file r) → ram_mem r' a = ram_mem r a.
Proof.
  intros Hok Hc [Hb Hap]. pose proof Hok as [Hr Ho Hcl]. destruct (moved_cnt r cnt Hok Hc) as (Hu & Hm & Ha).
  pose proof (rf_size_eq _ (proj1 Hr) (proj2 Hr)) as Hs.
  simpl. unfold ramdisk_write, set_offset, mbind, M_bind, get. cbn [ram_node ram_ram_disk]. rewrite Hcl, Hu, Ha.
  destruct (Z.eqb_spec (moved r cnt) 0) as [H0|H0].
  - exists r. rewrite H0. split; [done|]. split; [done|]. split; [done|]. split; [lia|]. split; [|done].
    rewrite Z.add_0_r. change (bytes_at (ram_mem r) buf 0) with (@nil Z). simpl. by rewrite take_drop.
  - rewrite s32_small by done. eexists. split; [done|].
    assert (Hmem : ∀ a, memcpy (rf_start (ram_file r) + cur_offset (ram_file r)) buf (Z.to_nat (moved r cnt)) (ram_mem r) a
      = if (rf_start (ram_file r) + cur_offset (ram_file r) <=? a) &&
           (a <? rf_start (ram_file r) + cur_offset (ram_file r) + moved r cnt)
        then ram_mem r (buf + (a - (rf_start (ram_file r) + cur_offset (ram_file r)))) else ram_mem r a).
    { intros a. rewrite memcpy_at by (unfold moved in *; lia). by rewrite Z2Nat.id by lia. }
    split; [|split; [done|split; [done|split]]].
    + split; [done|apply (offset_moved r cnt Hok); lia|done].
    + set (o := cur_offset (ram_file r)) in *. rewrite !content_eq. simpl. unfold rf_size at 1, with_offset. simpl.
      fold (rf_size (ram_file r)). apply list_eq. intros k.
      destruct (decide (Z.of_nat k < rf_size (ram_file r))) as [Hk|Hk].
      * rewrite lookup_bytes_at, Hmem by done. unfold moved in *. fold o in Hm, H0 |- *.
        destruct (decide (Z.of_nat k < o)) as [H1|H1].
        { rewrite lookup_app_l by (rewrite length_take, length_bytes_at; lia).
          rewrite lookup_take_lt, lookup_bytes_at by lia. case_match; [lia|done]. }
        rewrite lookup_app_r by (rewrite length_take, length_bytes_at; lia).
        rewrite length_take, length_bytes_at.
        destruct (decide (Z.of_nat k < o + Z.min cnt (rf_size (ram_file r) - o))) as [H2|H2].
        { rewrite lookup_app_l by (rewrite length_bytes_at; lia). rewrite lookup_bytes_at by lia.
          case_match; [|lia]. do 2 f_equal. lia. }
        rewrite lookup_app_r by (rewrite length_bytes_at; lia). rewrite length_bytes_at, lookup_drop.
        rewrite lookup_bytes_at by lia. case_match; [lia|]. do 2 f_equal. lia.
      * rewrite !lookup_ge_None_2; [done| |rewrite length_bytes_at; lia].
        rewrite !length_app, length_take, length_drop, !length_bytes_at. unfold moved in *. fold o in Hm, H0 |- *. lia.
    + intros a Hna. simpl. rewrite Hmem. unfold moved in *. case_match; [lia|done].
Qed.

(** C36: [seek] moves the position only to an offset inside the file, counted
    from the start, the position or the end, and otherwise fails with [EINVAL];
    on a closed file every operation fails with [EBADF]; the operations the RAM
    disk does not have fail with [ENOTSUP]; no failure changes file or memory. *)
Theorem ramdisk_errors offset whence buf cnt r :
  let f := ram_file r in
  let fails {A} (m : M ram A) (v : A) e := m r = Ret (v, Ram f (ram_mem r) (Some e)) in
  let target := if whence =? SEEK_SET then Some offset else if whence =? SEEK_CUR then Some (offset + cur_offset f)
                else if whence =? SEEK_END then Some (rf_size f + offset) else None in
  (closed f = true →
     fails (f_seek ramdisk_ops offset whence) (-1) EBADF ∧ fails (f_read ramdisk_ops buf cnt) (-1) EBADF ∧
     fails (f_write ramdisk_ops buf cnt) (-1) EBADF) ∧
  (closed f = false →
     (∀ o, target = Some o → 0 ≤ o < rf_size f →
        f_seek ramdisk_ops offset whence r = Ret (o, Ram (with_offset o f) (ram_mem r) (ram_errno r))) ∧
     ((∀ o, target = Some o → ¬ 0 ≤ o < rf_size f) → fails (f_seek ramdisk_ops offset whence) (-1) EINVAL)) ∧
  fails (f_ioctl ramdisk_ops cnt buf) (-1) ENOTSUP ∧ fails (f_stat ramdisk_ops buf) (-1) ENOTSUP ∧
  fails (f_get_dir ramdisk_ops) 0 ENOTSUP.
Proof.
  intros f fails target. unfold fails, f. split; [|split].
  - intros Hcl. simpl. unfold ramdisk_seek, ramdisk_read, ramdisk_write, mbind, M_bind, get. cbn [ram_node ram_ram_disk].
    unfold f in Hcl. rewrite Hcl. done.
  - intros Hcl. unfold f in Hcl. simpl. unfold ramdisk_seek, set_offset, mbind, M_bind, get. cbn [ram_node ram_ram_disk]. rewrite Hcl.
    change (if whence =? SEEK_SET then offset
            else if whence =? SEEK_CUR then offset + cur_offset (ram_file r)
            else if whence =? SEEK_END then rf_size (ram_file r) + offset else -1)
      with (if whence =? SEEK_SET then offset
            else if whence =? SEEK_CUR then offset + cur_offset f
            else if whence =? SEEK_END then rf_size f + offset else -1).
    assert (Hoff : (if whence =? SEEK_SET then offset
            else if whence =? SEEK_CUR then offset + cur_offset f
            else if whence =? SEEK_END then rf_size f + offset else -1) = default (-1) target).
    { unfold target. by repeat case_match. }
    rewrite Hoff. split.
    + intros o Ho Hr. rewrite Ho. simpl. unfold f in Hr. destruct (_ || _) eqn:Hb; [lia|done].
    + intros Hno. destruct target as [o|]; simpl.
      * specialize (Hno o eq_refl). unfold f in Hno. destruct (_ || _) eqn:Hb; [done|lia].
      * done.
  - done.
Qed.
End Proofs.

(** * A disk of sixteen bytes *)
Definition demo_ram : ram := Ram (RamFile 0x1000 0x1010 4 false) (λ a, if a <? 0x1010 then a - 0xFFF else 0) None.
Lemma demo_ram_ok : ram_ok demo_ram.
Proof. split; simpl; [lia|vm_compute; split; discriminate|done]. Qed.
Lemma demo_ram_apart cnt : 0 ≤ cnt → apart 0x2000 (moved demo_ram cnt) (ram_file demo_ram).
Proof. intros Hc. split; [lia|]. right. simpl. lia. Qed.

Lemma ramdisk_read_correct_witness :
  ∃ r', f_read ramdisk_ops 0x2000 5 demo_ram = Ret (5, r') ∧ bytes_at (ram_mem r') 0x2000 5 = [5; 6; 7; 8; 9].
Proof.
  destruct (ramdisk_read_correct 0x2000 5 demo_ram demo_ram_ok ltac:(lia) (demo_ram_apart 5 ltac:(lia)))
    as (r' & H1 & _ & _ & _ & _ & H2 & _).
  exists r'. split; [exact H1|exact H2].
Defined.
Lemma ramdisk_write_correct_witness :
  ∃ r', f_write ramdisk_ops 0x2000 100 demo_ram = Ret (12, r') ∧ content r' = [1; 2; 3; 4; 0; 0; 0; 0; 0; 0; 0; 0; 0; 0; 0; 0].
Proof.
  destruct (ramdisk_write_correct 0x2000 100 demo_ram demo_ram_ok ltac:(lia) (demo_ram_apart 100 ltac:(lia)))
    as (r' & H1 & _ & _ & _ & H2 & _).
  exists r'. split; [exact H1|exact H2].
Defined.
Lemma ramdisk_errors_witness :
  f_seek ramdisk_ops 0 SEEK_END demo_ram = Ret (-1, Ram (ram_file demo_ram) (ram_mem demo_ram) (Some EINVAL)).
Proof.
  destruct (ramdisk_errors 0 SEEK_END 0 0 demo_ram) as (_ & H & _).
  apply (H eq_refl). intros o Ho. injection Ho as <-. vm_compute. intros [_ ?]. done.
Defined.

(** [chmod] of the base class reports success (0) while it sets [ENOTSUP]. *)
Example chmod_not_supported (fname : string) (m : Z) (r : ram) :
  d_chmod ram (Node_dir_base FSID_RAMDISK) fname m r = Ret (0, Ram (ram_file r) (ram_mem r) (Some ENOTSUP)).
Proof. reflexivity. Qed.
