(* ===== verification/Elf.v ===== *)
(** [core/elf.cpp], [include/elf_base.h]: the loader of ELF executables. It is
    written against the interface [ElfEnv]: what the page directory and the
    memory offer it. The program comes from any file of the virtual file
    system. *)
From Stdlib Require Import ZifyBool.
From S2P Require Import Prelude Common Errno Ctype Bytes Fs.

(** * [elf_base.h]: the parts of the format the loader reads *)
Definition EI_NIDENT : Z := 16.
Definition EI_MAG0 : Z := 0.
Definition ELFMAG0 : Z := 0x7f.
Definition EI_MAG1 : Z := 1.
Definition ELFMAG1 : Z := 69.
Definition EI_MAG2 : Z := 2.
Definition ELFMAG2 : Z := 76.
Definition EI_MAG3 : Z := 3.
Definition ELFMAG3 : Z := 70.
Definition EI_CLASS : Z := 4.
Definition ELFCLASS32 : Z := 1.
Definition EI_DATA : Z := 5.
Definition ELFDATA2LSB : Z := 1.
Definition EI_VERSION : Z := 6.
Definition ET_EXEC : Z := 2.
Definition EM_386 : Z := 3.
Definition EV_CURRENT : Z := 1.
Definition PT_LOAD : Z := 1.

Record Elf32_Ehdr : Type := Ehdr {
  e_ident : list Z;
  e_type : Z; e_machine : Z; e_version : Z; e_entry : Z; e_phoff : Z; e_shoff : Z; e_flags : Z;
  e_ehsize : Z; e_phentsize : Z; e_phnum : Z; e_shentsize : Z; e_shnum : Z; e_shstrndx : Z
}.
Record Elf32_Phdr : Type := Phdr {
  p_type : Z; p_offset : Z; p_vaddr : Z; p_paddr : Z; p_filesz : Z; p_memsz : Z; p_flags : Z; p_align : Z
}.
Definition sizeof_Ehdr : Z := 52.
Definition sizeof_Phdr : Z := 32.

(** The structures are read from memory as the i386 lays them out. *)
Definition Ehdr_of (m : mem) (a : Z) : Elf32_Ehdr :=
  Ehdr ((λ i, le8 m (a + i)) <$> upto 0 EI_NIDENT)
    (le16 m (a + 16)) (le16 m (a + 18)) (le32 m (a + 20)) (le32 m (a + 24)) (le32 m (a + 28))
    (le32 m (a + 32)) (le32 m (a + 36)) (le16 m (a + 40)) (le16 m (a + 42)) (le16 m (a + 44))
    (le16 m (a + 46)) (le16 m (a + 48)) (le16 m (a + 50)).
Definition Phdr_of (m : mem) (a : Z) : Elf32_Phdr :=
  Phdr (le32 m a) (le32 m (a + 4)) (le32 m (a + 8)) (le32 m (a + 12)) (le32 m (a + 16)) (le32 m (a + 20))
    (le32 m (a + 24)) (le32 m (a + 28)).

(** [CHECK_EI] *)
Definition check_ei (h : Elf32_Ehdr) (index val : Z) : bool :=
  default (-1) (e_ident h !! Z.to_nat index) =? val.
Definition is_header_valid (h : Elf32_Ehdr) : bool :=
  check_ei h EI_MAG0 ELFMAG0 && check_ei h EI_MAG1 ELFMAG1 && check_ei h EI_MAG2 ELFMAG2 &&
  check_ei h EI_MAG3 ELFMAG3 && check_ei h EI_CLASS ELFCLASS32 && check_ei h EI_DATA ELFDATA2LSB &&
  check_ei h EI_VERSION EV_CURRENT &&
  ((e_type h =? ET_EXEC) && (e_machine h =? EM_386) && (e_version h =? EV_CURRENT) &&
   negb (e_entry h =? 0) && negb (e_phoff h =? 0) && negb (e_phnum h =? 0) &&
   (e_phentsize h =? sizeof_Phdr)).

(** * What the loader is given *)
Class ElfEnv (S : Type) : Type := {
  elf_errno :: Errno S;
  (** the bytes a load through the current page directory sees *)
  elf_mem : S → mem;
  elf_memset : Z → Z → Z → M S unit;
  (** [current_page_dir->alloc_interval], [->get_page(a, true)->alloc],
      [->lazy_alloc_interval] *)
  elf_alloc_interval : Z → Z → bool → bool → M S unit;
  elf_page_alloc : Z → bool → bool → M S unit;
  elf_lazy_alloc_interval : Z → Z → bool → bool → bool → M S unit
}.

Section Loader.
Context {S : Type} `{ElfEnv S}.
(** the two globals of [kheap.cpp], and where the two locals lie *)
Context (USER_MEM_LOW USER_MEM_HIGH ehdr_at phdr_at : Z).

(** [memset] of what the file does not fill *)
Definition load_bss (space_start space_end : Z) : M S unit :=
  let start_alg := get_aligned space_start 12 in
  (if negb (space_start =? start_alg) then
     elf_page_alloc space_start true true ;;
     elf_memset space_start 0 (u32 (start_alg - space_start))
   else mret tt) ;;
  let end_alg := page_floor space_end in
  (if negb (end_alg =? space_end) then
     elf_page_alloc end_alg true true ;;
     elf_memset end_alg 0 (u32 (space_end - end_alg))
   else mret tt) ;;
  elf_lazy_alloc_interval start_alg end_alg true true true.

(** What the loop does with one header: [None] when [load_elf] returns from
    inside it, [Some b] when it goes on, [b] telling whether [load_done] was
    set. *)
Definition leave (e : errno_t) : M S (option bool) := ERROR_RETURN e ;; mret None.
Definition load_segment (file : Node_file S) (h : Elf32_Phdr) : M S (option bool) :=
  if negb (p_type h =? PT_LOAD) || (p_memsz h =? 0) then mret (Some false)
  else if (p_vaddr h <? USER_MEM_LOW) || (USER_MEM_HIGH <? p_vaddr h + p_memsz h) then leave ENOMEM
  else
    let space_end := u32 (p_vaddr h + p_memsz h) in
    let space_start := p_vaddr h in
    let bss ss := (if ss <? space_end then load_bss ss space_end else mret tt) ;; mret (Some true) in
    if negb (p_filesz h =? 0) then
      let filesz := s32 (cmin (p_filesz h) (p_memsz h)) in
      o ← f_seek file (p_offset h) SEEK_SET;
      if o =? -1 then leave EIO
      else
        elf_alloc_interval (page_floor (p_vaddr h)) (get_aligned (u32 (p_vaddr h + p_memsz h)) 12) true true ;;
        n ← f_read file (p_vaddr h) (u32 filesz);
        if negb (n =? filesz) then leave EIO else bss (u32 (space_start + filesz))
    else bss space_start.
Definition load_phdr (file : Node_file S) (e_phoff i : Z) : M S (option bool) :=
  o ← f_seek file (u32 (i * sizeof_Phdr + e_phoff)) SEEK_SET;
  if o =? -1 then leave EIO
  else
    n ← f_read file phdr_at sizeof_Phdr;
    if negb (u32 n =? sizeof_Phdr) then leave EIO
    else s ← get; load_segment file (Phdr_of (elf_mem s) phdr_at).

(** [for (i = 0; i < e_phnum; i ++)]: [n] headers are left *)
Fixpoint load_phdrs (file : Node_file S) (e_phoff : Z) (n : nat) (i : Z) (load_done : bool) : M S (option bool) :=
  match n with
  | O => mret (Some load_done)
  | Datatypes.S n =>
    r ← load_phdr file e_phoff i;
    match r with
    | None => mret None
    | Some b => load_phdrs file e_phoff n (i + 1) (load_done || b)
    end
  end.

Definition load_elf (file : option (Node_file S)) : M S Z :=
  match file with
  | None => ERROR_RETURN ENOENT
  | Some file =>
    n ← f_read file ehdr_at sizeof_Ehdr;
    if negb (u32 n =? sizeof_Ehdr) then ERROR_RETURN EIO
    else
      s ← get;
      let h := Ehdr_of (elf_mem s) ehdr_at in
      if negb (is_header_valid h) then ERROR_RETURN ENOEXEC
      else
        r ← load_phdrs file (e_phoff h) (Z.to_nat (e_phnum h)) 0 false;
        match r with
        | None => mret (-1)
        | Some false => ERROR_RETURN ENOEXEC
        | Some true => mret (s32 (e_entry h))
        end
  end.

(** * The loader stays in user space *)
Lemma page_floor_idem a : 0 ≤ a < 2 ^ 32 → page_floor (page_floor a) = page_floor a.
Proof.
  intros Ha. destruct (page_floor_spec a Ha) as [H1 H2]. rewrite (page_floor_eq a) in * by done.
  assert (0 ≤ a / 2 ^ 12) by (apply Z.div_pos; lia).
  rewrite (page_floor_eq (a / 2 ^ 12 * 2 ^ 12)) by lia. by rewrite Z.div_mul by lia.
Qed.
(** [keeps R m]: a run of [m] that returns is within [R]. *)
Definition keeps (R : S → S → Prop) {A} (m : M S A) : Prop :=
  ∀ s a s', m s = Ret (a, s') → R s s'.

Section Confined.
Context (R : S → S → Prop) `{!PreOrder R}.

Lemma keeps_ret {A} (a : A) : keeps R (mret a).
Proof. intros s b s' [= _ <-]. done. Qed.
Lemma load_keeps_bind {A B} (m : M S A) (f : A → M S B) :
  keeps R m → (∀ a, keeps R (f a)) → keeps R (m ≫= f).
Proof.
  intros Hm Hf s b s'. unfold mbind, M_bind. destruct (m s) as [[a s1]| | |] eqn:E; try discriminate.
  intros Hr. etrans; [exact (Hm _ _ _ E)|exact (Hf _ _ _ _ Hr)].
Qed.
Lemma keeps_get {A} (f : S → M S A) : (∀ s, keeps R (f s)) → keeps R (get ≫= f).
Proof. intros Hf s b s' Hr. exact (Hf s s b s' Hr). Qed.
Lemma keeps_if {A} (b : bool) (m1 m2 : M S A) :
  (b = true → keeps R m1) → (b = false → keeps R m2) → keeps R (if b then m1 else m2).
Proof. destruct b; eauto. Qed.

(** User memory, up to the kernel heap. *)
Definition user_range (b e : Z) : Prop := USER_MEM_LOW ≤ b ∧ e ≤ USER_MEM_HIGH + 1.

(** What the loader may do, as a relation on states. *)
Record may_load (file : Node_file S) : Prop := {
  ml_errno e : keeps R (set_errno e);
  ml_seek o w : keeps R (f_seek file o w);
  ml_ehdr : keeps R (f_read file ehdr_at sizeof_Ehdr);
  ml_phdr : keeps R (f_read file phdr_at sizeof_Phdr);
  ml_read a n : 0 ≤ n → user_range a (a + n) → keeps R (f_read file a n);
  ml_memset a n : 0 ≤ n → user_range a (a + n) → keeps R (elf_memset a 0 n);
  ml_page a : user_range (page_floor a) (page_floor a + 4096) → keeps R (elf_page_alloc a true true);
  ml_alloc b e : b mod 4096 = 0 → e mod 4096 = 0 → user_range b e → keeps R (elf_alloc_interval b e true true);
  ml_lazy b e : b mod 4096 = 0 → e mod 4096 = 0 → user_range b e → keeps R (elf_lazy_alloc_interval b e true true true)
}.

Context (file : Node_file S) (ML : may_load file).
(** the layout [kheap_init] chooses *)
Context (Hlow : USER_MEM_LOW mod 4096 = 0) (Hlow0 : 0 ≤ USER_MEM_LOW).
Context (Hhigh : (USER_MEM_HIGH + 1) mod 4096 = 0) (Hhigh1 : USER_MEM_HIGH < 0xF0000000).

Lemma keeps_leave e : keeps R (leave e).
Proof. unfold leave, ERROR_RETURN. repeat (apply load_keeps_bind; intros); try apply keeps_ret. apply ML. Qed.

Lemma range_u32 a n : 0 ≤ a → a + n < 2 ^ 32 → 0 ≤ n → u32 (a + n) = a + n.
Proof. intros ???. apply u32_small. lia. Qed.

Lemma mod_le x y k : 0 < k → x mod k = 0 → y mod k = 0 → x < y + k → x ≤ y.
Proof.
  intros Hk Hx Hy Hl. apply Z.mod_divide in Hx as [p ->]; [|lia]. apply Z.mod_divide in Hy as [q ->]; [|lia].
  assert (p < q + 1) by (apply (Z.mul_lt_mono_pos_r k); lia). nia.
Qed.

Lemma keeps_bss ss se :
  USER_MEM_LOW ≤ ss → ss < se → se ≤ USER_MEM_HIGH → keeps R (load_bss ss se).
Proof.
  intros H1 H2 H3. unfold load_bss.
  destruct (get_aligned_spec ss 12 ltac:(lia) ltac:(lia) ltac:(lia)) as [Ha Ham]. change (2 ^ 12) with 4096 in *.
  destruct (page_floor_spec ss ltac:(lia)) as [Hf Hfm]. destruct (page_floor_spec se ltac:(lia)) as [Hg Hgm].
  assert (get_aligned ss 12 ≤ USER_MEM_HIGH + 1) by (apply (mod_le _ _ 4096); lia || done).
  assert (USER_MEM_LOW ≤ page_floor ss) by (apply (mod_le _ _ 4096); lia || done).
  assert (USER_MEM_LOW ≤ page_floor se) by (apply (mod_le _ _ 4096); lia || done).
  assert (page_floor se + 4096 ≤ USER_MEM_HIGH + 1).
  { apply (mod_le _ _ 4096); [lia|rewrite Z.add_mod by lia; rewrite Hgm; done|done|lia]. }
  assert (page_floor ss + 4096 ≤ USER_MEM_HIGH + 1).
  { apply (mod_le _ _ 4096); [lia|rewrite Z.add_mod by lia; rewrite Hfm; done|done|lia]. }
  apply load_keeps_bind; [|intros _; apply load_keeps_bind; [|intros _]].
  - apply keeps_if; intros _; [|apply keeps_ret]. apply load_keeps_bind; [|intros _].
    + apply ML. split; lia.
    + rewrite u32_small by lia. apply ML; [lia|]. split; lia.
  - apply keeps_if; intros _; [|apply keeps_ret]. rewrite u32_small by lia. apply load_keeps_bind; [|intros _].
    + apply ML. rewrite page_floor_idem by lia. split; lia.
    + apply ML; [lia|]. split; lia.
  - apply ML; try done. split; lia.
Qed.

(** the ranges of a header's fields *)
Definition phdr_ok (h : Elf32_Phdr) : Prop :=
  0 ≤ p_vaddr h < 2 ^ 32 ∧ 0 ≤ p_memsz h < 2 ^ 32 ∧ 0 ≤ p_filesz h < 2 ^ 32.

Lemma keeps_segment h : phdr_ok h → keeps R (load_segment file h).
Proof.
  intros (Hv & Hm & Hf). unfold load_segment.
  apply keeps_if; intros E1; [apply keeps_ret|].
  apply keeps_if; intros E2; [apply keeps_leave|].
  set (v := p_vaddr h) in *. set (mz := p_memsz h) in *. set (fz := p_filesz h) in *.
  assert (Hb : USER_MEM_LOW ≤ v ∧ v + mz ≤ USER_MEM_HIGH ∧ 0 < mz) by lia.
  rewrite (u32_small (v + mz)) by lia.
  assert (Hbss : ∀ ss, USER_MEM_LOW ≤ ss →
    keeps R ((if ss <? v + mz then load_bss ss (v + mz) else mret tt) ;; mret (Some true))).
  { intros ss Hss. apply load_keeps_bind; [|intros _; apply keeps_ret].
    apply keeps_if; intros; [apply keeps_bss; lia|apply keeps_ret]. }
  apply keeps_if; intros E3; [|apply Hbss; lia].
  assert (Hc : 0 ≤ cmin fz mz ≤ mz) by (unfold cmin; case_match; lia).
  assert (Hu : u32 (s32 (cmin fz mz)) = cmin fz mz).
  { unfold s32, u32. rewrite Zminus_mod_idemp_l. rewrite Z.add_simpl_r. apply Z.mod_small. lia. }
  assert (Hs : u32 (v + s32 (cmin fz mz)) = v + cmin fz mz).
  { unfold u32 in *. rewrite <- Zplus_mod_idemp_r, Hu. apply Z.mod_small. lia. }
  apply load_keeps_bind; [apply ML|intros o]. apply keeps_if; intros _; [apply keeps_leave|].
  destruct (get_aligned_spec (v + mz) 12 ltac:(lia) ltac:(lia) ltac:(lia)) as [Ha Ham]. change (2 ^ 12) with 4096 in *.
  destruct (page_floor_spec v ltac:(lia)) as [Hp Hpm].
  apply load_keeps_bind; [|intros _].
  { apply ML; [done|done|]. split; [apply (mod_le _ _ 4096); lia || done|].
    apply (mod_le _ _ 4096); [lia|done|done|lia]. }
  apply load_keeps_bind; [|intros n].
  { apply ML; [lia|]. split; lia. }
  apply keeps_if; intros _; [apply keeps_leave|]. rewrite Hs. apply Hbss. lia.
Qed.

Lemma keeps_phdrs e_phoff n i load_done : keeps R (load_phdrs file e_phoff n i load_done).
Proof.
  revert i load_done; induction n as [|n IH]; intros i load_done; simpl; [apply keeps_ret|].
  apply load_keeps_bind; [|intros [b|]; [apply IH|apply keeps_ret]].
  unfold load_phdr. apply load_keeps_bind; [apply ML|intros o]. apply keeps_if; intros _; [apply keeps_leave|].
  apply load_keeps_bind; [apply ML|intros k]. apply keeps_if; intros _; [apply keeps_leave|].
  apply keeps_get. intros s. apply keeps_segment.
  split_and!; first [apply le32_range].
Qed.

(** C22: whatever the file holds, the loader stays in user space: everything it
    asks of the page directory and every byte it writes lies between
    [USER_MEM_LOW] and the kernel heap, its two local headers apart, and the
    intervals it passes are page aligned (so no assertion of the page directory
    fails). *)
Theorem load_elf_confined : keeps R (load_elf (Some file)).
Proof.
  unfold load_elf, ERROR_RETURN.
  assert (He : ∀ e, keeps R (set_errno e ;; mret (-1))).
  { intros e. apply load_keeps_bind; [apply ML|intros; apply keeps_ret]. }
  apply load_keeps_bind; [apply ML|intros n]. apply keeps_if; intros _; [apply He|].
  apply keeps_get. intros s. apply keeps_if; intros _; [apply He|].
  apply load_keeps_bind; [apply keeps_phdrs|intros [[|]|]]; [apply keeps_ret|apply He|apply keeps_ret].
Qed.
End Confined.
End Loader.
