(* ===== verification/ElfRam.v ===== *)
(** The loader of [Elf] on the RAM disk of [Fs], in a flat memory: what a
    program's memory holds after it was loaded. *)
From Stdlib Require Import ZifyBool.
From S2P Require Import Prelude Common Errno Ctype Bytes Fs Elf.

(** Every page can be had, with any content; pages allocated to be filled are
    zero ([Table_entry_lazy_alloc] with [fill_zero]). *)
Definition ram_update (f : mem → mem) : M ram unit :=
  λ r, Ret (tt, Ram (ram_file r) (f (ram_mem r)) (ram_errno r)).
Global Instance ram_env : ElfEnv ram := {|
  elf_errno := ram_errno_class;
  elf_mem := ram_mem;
  elf_memset a v n := ram_update (memset a v (Z.to_nat n));
  elf_alloc_interval _ _ _ _ := mret tt;
  elf_page_alloc _ _ _ := mret tt;
  elf_lazy_alloc_interval b e _ _ fill := if fill then ram_update (memset b 0 (Z.to_nat (e - b))) else mret tt
|}.

Section ElfRam.
Context (USER_MEM_LOW USER_MEM_HIGH ehdr_at phdr_at : Z).
Context (Hlow : USER_MEM_LOW mod 4096 = 0) (Hlow0 : 0 ≤ USER_MEM_LOW).
Context (Hhigh : (USER_MEM_HIGH + 1) mod 4096 = 0) (Hhigh1 : USER_MEM_LOW ≤ USER_MEM_HIGH < 0xF0000000).
(** the locals are on the kernel's stack *)
Context (Hehdr : USER_MEM_HIGH < ehdr_at) (Hphdr : USER_MEM_HIGH < phdr_at).
Implicit Types (r : ram) (m : mem) (h : Elf32_Phdr) (a i : Z) (k : nat).

(** ** The file *)
Definition disk_at r a : Prop := rf_start (ram_file r) ≤ a < rf_end (ram_file r).
(** the file lies below user memory or above it, apart from the locals *)
Definition disk_ok r : Prop :=
  ram_ok r ∧ (∀ a, disk_at r a → ¬ USER_MEM_LOW ≤ a ≤ USER_MEM_HIGH ∧ ¬ ehdr_at ≤ a < ehdr_at + sizeof_Ehdr ∧
                 ¬ phdr_at ≤ a < phdr_at + sizeof_Phdr).
(** [r'] has the same disk *)
Definition same_disk r r' : Prop :=
  rf_start (ram_file r') = rf_start (ram_file r) ∧ rf_end (ram_file r') = rf_end (ram_file r) ∧
  (∀ a, disk_at r a → ram_mem r' a = ram_mem r a).
Definition local a : Prop := ehdr_at ≤ a < ehdr_at + sizeof_Ehdr ∨ phdr_at ≤ a < phdr_at + sizeof_Phdr.

Definition file_size r : Z := rf_size (ram_file r).
Definition file_byte r i : Z := ram_mem r (rf_start (ram_file r) + i).
(** Its headers; the offset of a program header is an [uint32_t]. *)
Definition disk_ehdr r : Elf32_Ehdr := Ehdr_of (ram_mem r) (rf_start (ram_file r)).
Definition phdr_off r i : Z := (e_phoff (disk_ehdr r) + sizeof_Phdr * i) mod 2 ^ 32.
Definition disk_phdr r i : Elf32_Phdr := Phdr_of (ram_mem r) (rf_start (ram_file r) + phdr_off r i).

(** ** What loading means *)

(** The header is of a segment; the segment lies in user space; its bytes. *)
Definition is_segment h : bool := (p_type h =? PT_LOAD) && negb (p_memsz h =? 0).
Definition in_user h : bool := (USER_MEM_LOW <=? p_vaddr h) && (p_vaddr h + p_memsz h <=? USER_MEM_HIGH).
Definition filled h : Z := Z.min (p_filesz h) (p_memsz h).
Definition data h a : bool := (p_vaddr h <=? a) && (a <? p_vaddr h + filled h).

(** What is wrong with the [i]-th program header, and how it is reported: it
    is not all in the file; its segment does not lie in user space; the bytes
    of its segment are not all in the file. *)
Definition defect r i : option errno_t :=
  if file_size r <? phdr_off r i + sizeof_Phdr then Some EIO
  else if negb (is_segment (disk_phdr r i)) then None
  else if negb (in_user (disk_phdr r i)) then Some ENOMEM
  else if (0 <? p_filesz (disk_phdr r i)) && (file_size r <? p_offset (disk_phdr r i) + filled (disk_phdr r i)) then Some EIO
  else None.

(** Where zeroes are put for a part from [b] to [e] that the file does not
    fill: there; but if it begins inside a page and ends on that page, on the
    whole page. *)
Definition one_page (b e : Z) : bool := negb (b mod 4096 =? 0) && (b / 4096 =? e / 4096).
Definition zero_part (b e : Z) a : bool :=
  if one_page b e then a / 4096 =? e / 4096 else (b <=? a) && (a <? e).
Definition zeroed h a : bool :=
  (filled h <? p_memsz h) && zero_part (p_vaddr h + filled h) (p_vaddr h + p_memsz h) a.
Definition written h a : bool := zeroed h a || data h a.

(** The memory with a segment put into it, and with all segments among the
    first [k] headers, in their order. *)
Definition seg_image r h m : mem :=
  λ a, if zeroed h a then 0 else if data h a then file_byte r (p_offset h + (a - p_vaddr h)) else m a.
Fixpoint load_image r k : mem :=
  match k with
  | O => ram_mem r
  | S k =>
    if is_segment (disk_phdr r (Z.of_nat k)) then seg_image r (disk_phdr r (Z.of_nat k)) (load_image r k)
    else load_image r k
  end.
(** The memory when header [k] is defective: if its segment's bytes end with
    the file, those there are have been read. *)
Definition fault_image r k : mem :=
  let h := disk_phdr r (Z.of_nat k) in
  if (phdr_off r (Z.of_nat k) + sizeof_Phdr <=? file_size r) && is_segment h && in_user h then
    λ a, if (p_vaddr h <=? a) && (a <? p_vaddr h + (file_size r - p_offset h))
         then file_byte r (p_offset h + (a - p_vaddr h)) else load_image r k a
  else load_image r k.

(** ** One read *)
Lemma read_run r buf cnt :
  ram_ok r → 0 ≤ cnt < 2 ^ 32 → apart buf (moved r cnt) (ram_file r) →
  ∃ r', f_read ramdisk_ops buf cnt r = Ret (moved r cnt, r') ∧ ram_ok r' ∧
    rf_start (ram_file r') = rf_start (ram_file r) ∧ rf_end (ram_file r') = rf_end (ram_file r) ∧
    ram_errno r' = ram_errno r ∧
    ∀ a, ram_mem r' a = if (buf <=? a) && (a <? buf + moved r cnt)
           then file_byte r (cur_offset (ram_file r) + (a - buf)) else ram_mem r a.
Proof.
  intros Hok Hn Hap. pose proof (ro_range _ Hok) as Hr. pose proof (ro_offset _ Hok) as Ho.
  pose proof (rf_size_eq _ (proj1 Hr) (proj2 Hr)) as Hs.
  destruct (ramdisk_read_run buf cnt r Hok Hn Hap) as (r' & H1 & H2 & H3 & H4 & H5 & H6 & H7).
  exists r'. split; [done|]. split; [done|].
  assert (Hf : rf_start (ram_file r') = rf_start (ram_file r) ∧ rf_end (ram_file r') = rf_end (ram_file r)).
  { revert H1. simpl. unfold ramdisk_read, set_offset, mbind, M_bind, get. cbn [ram_node ram_ram_disk]. rewrite (ro_open _ Hok).
    destruct (moved_cnt r cnt Hok Hn) as (-> & _ & _). destruct (moved r cnt =? 0); by intros [= _ <-]. }
  destruct Hf as [-> ->]. split; [done|]. split; [done|]. split; [done|]. intros a.
  destruct ((buf <=? a) && (a <? buf + moved r cnt)) eqn:E; [|apply H7; lia].
  assert (Hl : bytes_at (ram_mem r') buf (moved r cnt) !! Z.to_nat (a - buf) = Some (ram_mem r' a)).
  { rewrite lookup_bytes_at by lia. do 2 f_equal. lia. }
  unfold moved in *. rewrite H6, lookup_take_lt, lookup_drop, content_eq, lookup_bytes_at in Hl by lia.
  injection Hl as Hl. rewrite <- Hl. unfold file_byte. f_equal. lia.
Qed.

(** positioning; outside the file it fails *)
Lemma seek_run r o :
  ram_ok r → 0 ≤ o < file_size r →
  ∃ r', f_seek ramdisk_ops o SEEK_SET r = Ret (o, r') ∧ ram_ok r' ∧ ram_file r' = with_offset o (ram_file r) ∧
    ram_mem r' = ram_mem r ∧ ram_errno r' = ram_errno r.
Proof.
  unfold file_size. intros Hok Ho. exists (Ram (with_offset o (ram_file r)) (ram_mem r) (ram_errno r)).
  split; [|split; [|split; [reflexivity|split; reflexivity]]].
  - simpl. unfold ramdisk_seek, set_offset, mbind, M_bind, get. cbn [ram_node ram_ram_disk]. rewrite (ro_open _ Hok). simpl.
    destruct (_ || _) eqn:E; [lia|]. done.
  - split; simpl; [apply Hok|unfold rf_size, with_offset in *; simpl; lia|apply Hok].
Qed.
Lemma seek_fault r o :
  ram_ok r → file_size r ≤ o →
  f_seek ramdisk_ops o SEEK_SET r = Ret (-1, Ram (ram_file r) (ram_mem r) (Some EINVAL)).
Proof.
  unfold file_size. intros Hok Ho. simpl. unfold ramdisk_seek, set_offset, mbind, M_bind, get. cbn [ram_node ram_ram_disk].
  rewrite (ro_open _ Hok). simpl. destruct (_ || _) eqn:E; [done|lia].
Qed.

Lemma same_disk_ok r r' : disk_ok r → ram_ok r' → same_disk r r' → disk_ok r'.
Proof.
  intros [Hok Hd] Hok' (H1 & H2 & _). split; [done|]. intros a Ha. apply Hd. unfold disk_at in *. lia.
Qed.
Lemma same_disk_trans r1 r2 r3 : same_disk r1 r2 → same_disk r2 r3 → same_disk r1 r3.
Proof.
  intros (H1 & H2 & H3) (H4 & H5 & H6). unfold same_disk, disk_at in *. split_and!; [lia|lia|].
  intros a Ha. rewrite H6 by lia. apply H3. lia.
Qed.
Lemma file_size_same r r' : same_disk r r' → file_size r' = file_size r.
Proof. intros (H1 & H2 & _). unfold file_size, rf_size. by rewrite H1, H2. Qed.
Lemma file_size_eq r : ram_ok r → file_size r = rf_end (ram_file r) - rf_start (ram_file r) ∧ 0 ≤ file_size r < 2 ^ 31.
Proof.
  intros Hok. pose proof (ro_range _ Hok) as Hr. unfold file_size. rewrite (rf_size_eq _ (proj1 Hr) (proj2 Hr)). lia.
Qed.
Lemma file_byte_same r r' i : ram_ok r → same_disk r r' → 0 ≤ i < file_size r → file_byte r' i = file_byte r i.
Proof.
  intros Hok (H1 & _ & H3) Hi. destruct (file_size_eq r Hok). unfold file_byte. rewrite H1. apply H3. unfold disk_at. lia.
Qed.

(** A buffer away from the disk is apart from it. *)
Lemma buffer_apart r b n :
  ram_ok r → 0 ≤ b → 0 < n ≤ file_size r → (∀ a, disk_at r a → ¬ b ≤ a < b + n) → apart b n (ram_file r).
Proof.
  intros Hok Hb Hn Hd. destruct (file_size_eq r Hok) as [Hs _]. split; [done|].
  destruct (Z.le_gt_cases (b + n) (rf_start (ram_file r))); [by left|right].
  apply Z.nlt_ge. intros Hlt. destruct (Z.le_gt_cases (rf_start (ram_file r)) b).
  - apply (Hd b); unfold disk_at; lia.
  - apply (Hd (rf_start (ram_file r))); unfold disk_at; lia.
Qed.

(** positioning and reading, into a buffer away from the disk *)
Lemma seek_read_run r o b cnt :
  ram_ok r → 0 ≤ o < file_size r → 0 ≤ b → 0 < cnt < 2 ^ 32 →
  let n := Z.min cnt (file_size r - o) in
  (∀ a, disk_at r a → ¬ b ≤ a < b + n) →
  ∃ r1 r2, f_seek ramdisk_ops o SEEK_SET r = Ret (o, r1) ∧ f_read ramdisk_ops b cnt r1 = Ret (n, r2) ∧
    ram_ok r2 ∧ same_disk r r2 ∧ ram_errno r2 = ram_errno r ∧
    ∀ a, ram_mem r2 a = if (b <=? a) && (a <? b + n) then file_byte r (o + (a - b)) else ram_mem r a.
Proof.
  intros Hok Ho Hb Hc n Hd. destruct (seek_run r o Hok Ho) as (r1 & Hrun1 & Hok1 & Hf1 & Hm1 & He1).
  assert (Hmv : moved r1 cnt = n) by (unfold moved, n, file_size; rewrite Hf1; done).
  destruct (read_run r1 b cnt Hok1 ltac:(lia)) as (r2 & Hrun2 & Hok2 & Hs2 & Hn2 & He2 & Hm2).
  { rewrite Hmv, Hf1. assert (Hap : apart b n (ram_file r)); [|exact Hap].
    apply buffer_apart; try done. unfold n. lia. }
  rewrite Hmv in *. unfold file_byte in Hm2. rewrite Hf1, Hm1 in Hm2. rewrite Hf1 in Hs2, Hn2.
  exists r1, r2. split; [done|]. split; [done|]. split; [done|]. split; [|split; [by rewrite He2|exact Hm2]].
  split; [done|]. split; [done|]. intros a Ha. rewrite Hm2. specialize (Hd a Ha). case_match; [lia|done].
Qed.

(** ** One segment *)
Lemma zero_part_parts ss se a :
  0 ≤ ss → ss < se → se < 0xF0000000 → 
  zero_part ss se a = ((ss <=? a) && (a <? get_aligned ss 12)) || ((page_floor se <=? a) && (a <? se)) ||
                      ((get_aligned ss 12 <=? a) && (a <? page_floor se)).
Proof.
  intros H1 H2 H3. unfold zero_part, one_page.
  destruct (get_aligned_spec ss 12 ltac:(lia) ltac:(lia) ltac:(lia)) as [Ha Ham]. rewrite page_floor_eq by lia.
  change (2 ^ 12) with 4096 in *.
  pose proof (Z.div_mod ss 4096 ltac:(lia)). pose proof (Z.mod_pos_bound ss 4096 ltac:(lia)).
  pose proof (Z.div_mod se 4096 ltac:(lia)). pose proof (Z.mod_pos_bound se 4096 ltac:(lia)).
  pose proof (Z.div_mod a 4096 ltac:(lia)). pose proof (Z.mod_pos_bound a 4096 ltac:(lia)).
  pose proof (Z.div_mod (get_aligned ss 12) 4096 ltac:(lia)).
  generalize dependent (get_aligned ss 12). intros al. intros.
  destruct (Z.eqb_spec (ss mod 4096) 0), (Z.eqb_spec (ss / 4096) (se / 4096)); simpl; lia.
Qed.

Lemma bss_run r ss se :
  USER_MEM_LOW ≤ ss → ss < se → se ≤ USER_MEM_HIGH →
  ∃ m', load_bss ss se r = Ret (tt, Ram (ram_file r) m' (ram_errno r)) ∧
    ∀ a, m' a = if zero_part ss se a then 0 else ram_mem r a.
Proof.
  intros H1 H2 H3.
  destruct (get_aligned_spec ss 12 ltac:(lia) ltac:(lia) ltac:(lia)) as [Ha _].
  destruct (page_floor_spec se ltac:(lia)) as [Hg _]. change (2 ^ 12) with 4096 in *.
  pose (m1 := memset ss 0 (Z.to_nat (get_aligned ss 12 - ss)) (ram_mem r)).
  pose (m2 := memset (page_floor se) 0 (Z.to_nat (se - page_floor se)) m1).
  pose (m3 := memset (get_aligned ss 12) 0 (Z.to_nat (page_floor se - get_aligned ss 12)) m2).
  exists m3. split.
  - unfold load_bss.
    rewrite (run_bind _ _ r tt (Ram (ram_file r) m1 (ram_errno r))).
    2:{ unfold m1. destruct (Z.eqb_spec ss (get_aligned ss 12)) as [E|E]; simpl.
        - rewrite <- E, Z.sub_diag. by destruct r.
        - unfold mbind, M_bind. simpl. unfold ram_update. by rewrite u32_small by lia. }
    rewrite (run_bind _ _ (Ram (ram_file r) m1 (ram_errno r)) tt (Ram (ram_file r) m2 (ram_errno r))).
    2:{ unfold m2. destruct (Z.eqb_spec (page_floor se) se) as [E|E]; simpl.
        - by rewrite E, Z.sub_diag.
        - unfold mbind, M_bind. simpl. unfold ram_update. by rewrite u32_small by lia. }
    done.
  - intros a. rewrite zero_part_parts by lia. unfold m3, m2, m1. rewrite !memset_at. change (u8 0) with 0.
    repeat case_match; try lia; done.
Qed.

Lemma filled_range h : phdr_ok h → 0 ≤ filled h ≤ p_memsz h.
Proof. intros (? & ? & ?). unfold filled. lia. Qed.

(** A segment of user space is put into user space. *)
Lemma written_user h a : phdr_ok h → in_user h = true → written h a = true → USER_MEM_LOW ≤ a ≤ USER_MEM_HIGH.
Proof.
  intros Hph Hu Hw. pose proof (filled_range h Hph) as Hfl. destruct Hph as (Hv & Hm & _).
  unfold in_user in Hu. unfold written in Hw. apply orb_true_iff in Hw as [Hz|Hd]; [|unfold data in Hd; lia].
  unfold zeroed, zero_part in Hz. apply andb_true_iff in Hz as [_ Hz].
  destruct (one_page _ _); [|lia]. apply Z.eqb_eq in Hz.
  set (e := p_vaddr h + p_memsz h) in *. assert (USER_MEM_LOW ≤ e ≤ USER_MEM_HIGH) as [He1 He2] by lia.
  clearbody e. pose proof (Z.div_mod a 4096 ltac:(lia)). pose proof (Z.mod_pos_bound a 4096 ltac:(lia)).
  pose proof (Z.div_mod e 4096 ltac:(lia)). pose proof (Z.mod_pos_bound e 4096 ltac:(lia)).
  pose proof (Z.div_mod USER_MEM_LOW 4096 ltac:(lia)). pose proof (Z.div_mod (USER_MEM_HIGH + 1) 4096 ltac:(lia)).
  rewrite Hlow, Hhigh in *. lia.
Qed.

(** The state after a segment: the same disk and error number. *)
Record stepped r r' m : Prop := {
  st_ok : ram_ok r';
  st_disk : same_disk r r';
  st_errno : ram_errno r' = ram_errno r;
  st_mem a : ram_mem r' a = m a
}.

Lemma bss_step r r2 h m :
  disk_ok r → stepped r r2 m → phdr_ok h → in_user h = true →
  ∃ r', (if p_vaddr h + filled h <? p_vaddr h + p_memsz h then load_bss (p_vaddr h + filled h) (p_vaddr h + p_memsz h)
         else mret tt) r2 = Ret (tt, r') ∧
    stepped r r' (λ a, if zeroed h a then 0 else m a).
Proof.
  intros [_ Hd] [Hok2 Hsd2 He2 Hm2] Hph Hu. pose proof (filled_range h Hph) as Hfl.
  unfold zeroed. destruct (Z.ltb_spec (p_vaddr h + filled h) (p_vaddr h + p_memsz h)) as [Hlt|Hge].
  - assert ((filled h <? p_memsz h) = true) as E by lia. pose proof Hph as (Hv & _). unfold in_user in Hu.
    destruct (bss_run r2 (p_vaddr h + filled h) (p_vaddr h + p_memsz h)) as (m' & Hrun & Hm'); [lia..|].
    eexists. split; [exact Hrun|]. split; [by destruct Hok2; split| |done|].
    + destruct Hsd2 as (S1 & S2 & S3). split; [done|]. split; [done|]. intros a Ha. simpl. rewrite Hm'.
      destruct (zero_part _ _ a) eqn:Ez; [|by apply S3]. destruct (Hd a Ha) as [Hnu _]. destruct Hnu.
      apply (written_user h); [done|by unfold in_user|]. unfold written, zeroed. by rewrite E, Ez.
    + intros a. simpl. rewrite Hm', E, Hm2. done.
  - assert ((filled h <? p_memsz h) = false) as -> by lia. exists r2. split; [done|]. by split.
Qed.

(** What the loader checks first. *)
Lemma segment_checks h (r : ram) :
  phdr_ok h → is_segment h = true → in_user h = true →
  load_segment USER_MEM_LOW USER_MEM_HIGH ramdisk_ops h r =
  (if negb (p_filesz h =? 0) then
     o ← f_seek ramdisk_ops (p_offset h) SEEK_SET;
     if o =? -1 then leave EIO
     else
       n ← f_read ramdisk_ops (p_vaddr h) (filled h);
       if negb (n =? s32 (filled h)) then leave EIO
       else (if p_vaddr h + filled h <? p_vaddr h + p_memsz h then load_bss (p_vaddr h + filled h) (p_vaddr h + p_memsz h)
             else mret tt) ;; mret (Some true)
   else (if p_vaddr h + filled h <? p_vaddr h + p_memsz h then load_bss (p_vaddr h + filled h) (p_vaddr h + p_memsz h)
         else mret tt) ;; mret (Some true)) r.
Proof.
  intros (Hv & Hm & Hf) Hs Hu. unfold is_segment in Hs. unfold in_user in Hu. unfold load_segment.
  assert (negb (p_type h =? PT_LOAD) || (p_memsz h =? 0) = false) as -> by (revert Hs; clear; repeat case_match; lia).
  assert ((p_vaddr h <? USER_MEM_LOW) || (USER_MEM_HIGH <? p_vaddr h + p_memsz h) = false) as -> by lia.
  cbv iota. rewrite (u32_small (p_vaddr h + p_memsz h)) by lia.
  assert (Hc : cmin (p_filesz h) (p_memsz h) = filled h) by (unfold cmin, filled; case_match; lia). rewrite Hc.
  assert (Hfl : 0 ≤ filled h ≤ p_memsz h) by (unfold filled; lia).
  assert (Hu32 : u32 (s32 (filled h)) = filled h).
  { unfold s32, u32. rewrite Zminus_mod_idemp_l, Z.add_simpl_r. apply Z.mod_small. lia. }
  assert (Hss : u32 (p_vaddr h + s32 (filled h)) = p_vaddr h + filled h).
  { unfold u32 in *. rewrite <- Zplus_mod_idemp_r, Hu32. apply Z.mod_small. lia. }
  destruct (Z.eqb_spec (p_filesz h) 0) as [Hz|Hz]; cbn [negb]; cbv iota zeta.
  - assert (filled h = 0) as -> by (unfold filled; lia). by rewrite Z.add_0_r.
  - rewrite Hu32, Hss. done.
Qed.

Lemma data_apart r h n :
  disk_ok r → phdr_ok h → in_user h = true → n ≤ filled h →
  ∀ a, disk_at r a → ¬ p_vaddr h ≤ a < p_vaddr h + n.
Proof.
  intros [_ Hd] Hph Hu Hn a Ha Hin. destruct (Hd a Ha) as [Hnu _]. destruct Hnu.
  apply (written_user h a Hph Hu). unfold written, data. apply orb_true_iff. right. lia.
Qed.

(** A segment without defect is put into memory. *)
Lemma segment_run r h :
  disk_ok r → phdr_ok h → 0 ≤ p_offset h → is_segment h = true → in_user h = true →
  (0 < p_filesz h → p_offset h + filled h ≤ file_size r) →
  ∃ r', load_segment USER_MEM_LOW USER_MEM_HIGH ramdisk_ops h r = Ret (Some true, r') ∧
    stepped r r' (seg_image r h (ram_mem r)).
Proof.
  intros Hdo Hph Hoff Hs Hu Hfile. pose proof Hdo as [Hok Hd]. destruct (file_size_eq r Hok) as [_ Hfs].
  pose proof (filled_range h Hph) as Hfl. pose proof Hph as (Hv & Hm & Hf).
  rewrite (segment_checks h r Hph Hs Hu). unfold seg_image.
  destruct (Z.eqb_spec (p_filesz h) 0) as [Hz|Hz]; cbn [negb]; cbv iota.
  - assert (Hf0 : filled h = 0) by (unfold filled; lia).
    destruct (bss_step r r h (ram_mem r) Hdo) as (r' & Hrun & [K1 K2 K3 K4]); [by split|done|done|].
    exists r'. rewrite (run_bind _ _ _ _ _ Hrun). split; [done|]. split; [done..|]. intros a. rewrite K4.
    assert (data h a = false) as -> by (unfold data; lia). done.
  - specialize (Hfile ltac:(lia)). assert (Hf0 : 0 < filled h).
    { unfold is_segment in Hs. unfold filled. lia. }
    destruct (seek_read_run r (p_offset h) (p_vaddr h) (filled h)) as (r1 & r2 & Hrun1 & Hrun2 & Hok2 & Hsd2 & He2 & Hm2).
    { done. } { lia. } { lia. } { lia. }
    { apply (data_apart r h); try done. lia. }
    replace (Z.min (filled h) (file_size r - p_offset h)) with (filled h) in * by lia.
    rewrite (run_bind _ _ _ _ _ Hrun1). destruct (Z.eqb_spec (p_offset h) (-1)); [lia|].
    rewrite (run_bind _ _ _ _ _ Hrun2). rewrite (s32_small (filled h)) by lia. rewrite Z.eqb_refl. cbn [negb]. cbv iota.
    destruct (bss_step r r2 h (ram_mem r2) Hdo) as (r' & Hrun & [K1 K2 K3 K4]); [by split|done|done|].
    exists r'. rewrite (run_bind _ _ _ _ _ Hrun). split; [done|]. split; [done..|]. intros a. rewrite K4, Hm2. done.
Qed.

(** A segment that does not lie in user space, or whose bytes end with the
    file, is reported. *)
Lemma segment_outside r h :
  is_segment h = true → in_user h = false →
  load_segment USER_MEM_LOW USER_MEM_HIGH ramdisk_ops h r = Ret (None, Ram (ram_file r) (ram_mem r) (Some ENOMEM)).
Proof.
  intros Hs Hu. unfold is_segment in Hs. unfold in_user in Hu. unfold load_segment.
  assert (negb (p_type h =? PT_LOAD) || (p_memsz h =? 0) = false) as -> by (revert Hs; clear; repeat case_match; lia).
  assert ((p_vaddr h <? USER_MEM_LOW) || (USER_MEM_HIGH <? p_vaddr h + p_memsz h) = true) as -> by lia. done.
Qed.
Lemma segment_truncated r h :
  disk_ok r → phdr_ok h → 0 ≤ p_offset h → is_segment h = true → in_user h = true →
  0 < p_filesz h → file_size r < p_offset h + filled h →
  ∃ r', load_segment USER_MEM_LOW USER_MEM_HIGH ramdisk_ops h r = Ret (None, r') ∧ ram_errno r' = Some EIO ∧
    ∀ a, ram_mem r' a = if (p_vaddr h <=? a) && (a <? p_vaddr h + (file_size r - p_offset h))
                        then file_byte r (p_offset h + (a - p_vaddr h)) else ram_mem r a.
Proof.
  intros Hdo Hph Hoff Hs Hu Hfz Hcut. pose proof Hdo as [Hok Hd]. destruct (file_size_eq r Hok) as [_ Hfs].
  pose proof (filled_range h Hph) as Hfl. pose proof Hph as (Hv & Hm & Hf).
  rewrite (segment_checks h r Hph Hs Hu). destruct (Z.eqb_spec (p_filesz h) 0); [lia|]. cbn [negb]. cbv iota.
  destruct (Z.lt_ge_cases (p_offset h) (file_size r)) as [Hlt|Hge].
  - destruct (seek_read_run r (p_offset h) (p_vaddr h) (filled h)) as (r1 & r2 & Hrun1 & Hrun2 & Hok2 & Hsd2 & He2 & Hm2).
    { done. } { lia. } { lia. } { lia. }
    { apply (data_apart r h); try done. lia. }
    replace (Z.min (filled h) (file_size r - p_offset h)) with (file_size r - p_offset h) in * by lia.
    rewrite (run_bind _ _ _ _ _ Hrun1). destruct (Z.eqb_spec (p_offset h) (-1)); [lia|].
    rewrite (run_bind _ _ _ _ _ Hrun2).
    assert (file_size r - p_offset h ≠ s32 (filled h)) as Hne.
    { destruct (Z.lt_ge_cases (filled h) (2 ^ 31)); [rewrite s32_small by lia; lia|].
      unfold s32. replace ((filled h + 2 ^ 31) mod 2 ^ 32) with (filled h - 2 ^ 31); [lia|].
      replace (filled h + 2 ^ 31) with (filled h - 2 ^ 31 + 1 * 2 ^ 32) by lia. rewrite Z.mod_add by lia.
      symmetry. apply Z.mod_small. lia. }
    apply Z.eqb_neq in Hne. rewrite Hne. cbn [negb]. cbv iota.
    eexists. split; [reflexivity|]. split; [reflexivity|]. exact Hm2.
  - rewrite (run_bind _ _ _ _ _ (seek_fault r (p_offset h) Hok Hge)). rewrite Z.eqb_refl.
    eexists. split; [reflexivity|]. split; [reflexivity|]. intros a. simpl. case_match; [lia|done].
Qed.

(** ** One program header *)
Ltac le_ext Hm := intros ? ?; rewrite <- ?Z.add_assoc; apply Hm; lia.
Lemma Phdr_of_ext m m' a a' : (∀ i, 0 ≤ i < sizeof_Phdr → m (a + i) = m' (a' + i)) → Phdr_of m a = Phdr_of m' a'.
Proof.
  unfold sizeof_Phdr. intros Hm. unfold Phdr_of. f_equal; apply le32_ext; le_ext Hm.
Qed.
Lemma Ehdr_of_ext m m' a a' : (∀ i, 0 ≤ i < sizeof_Ehdr → m (a + i) = m' (a' + i)) → Ehdr_of m a = Ehdr_of m' a'.
Proof.
  unfold sizeof_Ehdr. intros Hm. unfold Ehdr_of. f_equal; try (apply le32_ext; le_ext Hm); try (apply le16_ext; le_ext Hm).
  apply list_fmap_ext. intros k i Hi. unfold le8. rewrite Hm; [done|].
  apply list_elem_of_lookup_2 in Hi. unfold upto, EI_NIDENT in Hi.
  apply list_elem_of_fmap in Hi as (y & -> & Hy). apply list_elem_of_fmap in Hy as (z & -> & Hz).
  apply elem_of_seq in Hz. simpl in Hz. lia.
Qed.
Lemma phdr_of_ok m a : phdr_ok (Phdr_of m a) ∧ 0 ≤ p_offset (Phdr_of m a).
Proof. split; [split_and!|]; apply le32_range. Qed.

(** The state when [k] headers have been dealt with. *)
Record at_header r k (r' : ram) : Prop := {
  ah_ok : ram_ok r';
  ah_disk : same_disk r r';
  ah_errno : ram_errno r' = ram_errno r;
  ah_mem a : ¬ local a → ram_mem r' a = load_image r k a
}.

Section Headers.
Context (r : ram) (Hdo : disk_ok r).
#[local] Abbreviation phdr k := (disk_phdr r (Z.of_nat k)).
#[local] Abbreviation off k := (phdr_off r (Z.of_nat k)).
#[local] Abbreviation run_phdr k :=
  (load_phdr USER_MEM_LOW USER_MEM_HIGH phdr_at ramdisk_ops (e_phoff (disk_ehdr r)) (Z.of_nat k)).

Lemma phdr_off_eq i : u32 (i * sizeof_Phdr + e_phoff (disk_ehdr r)) = phdr_off r i.
Proof. unfold phdr_off, u32. f_equal. lia. Qed.
Lemma phdr_off_range i : 0 ≤ phdr_off r i.
Proof. unfold phdr_off. pose proof (Z.mod_pos_bound (e_phoff (disk_ehdr r) + sizeof_Phdr * i) (2 ^ 32)). lia. Qed.

(** Fetching it; or there is not enough of it. *)
Lemma fetch_run k r1 :
  at_header r k r1 → off k + sizeof_Phdr ≤ file_size r →
  ∃ r2, run_phdr k r1 = load_segment USER_MEM_LOW USER_MEM_HIGH ramdisk_ops (phdr k) r2 ∧ at_header r k r2.
Proof.
  intros [Hok1 Hsd1 He1 Hm1] Hin. pose proof Hdo as [Hok Hd]. pose proof (phdr_off_range (Z.of_nat k)) as Hof.
  pose proof (file_size_same _ _ Hsd1) as Hfs. unfold sizeof_Phdr in *.
  destruct (seek_read_run r1 (off k) phdr_at 32 Hok1) as (r2 & r3 & Hrun2 & Hrun3 & Hok3 & Hsd3 & He3 & Hm3); [lia..| |].
  { rewrite Hfs. replace (Z.min 32 _) with 32 by lia. intros a Ha.
    apply (same_disk_ok _ _ Hdo Hok1 Hsd1) in Ha. unfold sizeof_Phdr in Ha. lia. }
  rewrite Hfs in *. replace (Z.min 32 _) with 32 in * by lia.
  exists r3. split.
  - unfold load_phdr. rewrite phdr_off_eq. unfold sizeof_Phdr. rewrite (run_bind _ _ _ _ _ Hrun2).
    destruct (Z.eqb_spec (off k) (-1)); [lia|]. rewrite (run_bind _ _ _ _ _ Hrun3).
    change (u32 32) with 32. rewrite Z.eqb_refl. cbn [negb]. cbv iota.
    rewrite (run_bind get _ r3 r3 r3) by done. change (elf_mem r3) with (ram_mem r3).
    do 2 f_equal. apply Phdr_of_ext. unfold sizeof_Phdr. intros i Hi. rewrite Hm3.
    case_match; [|lia]. rewrite (file_byte_same r r1) by (done || lia). unfold file_byte. f_equal. lia.
  - split; [done|by eapply same_disk_trans|by rewrite He3|]. intros a Ha. rewrite <- Hm1 by done. rewrite Hm3.
    unfold local, sizeof_Phdr in Ha. case_match; [lia|done].
Qed.
Lemma fetch_fault k r1 :
  at_header r k r1 → file_size r < off k + sizeof_Phdr →
  ∃ r2, run_phdr k r1 = Ret (None, r2) ∧ ram_errno r2 = Some EIO ∧ ∀ a, ¬ local a → ram_mem r2 a = load_image r k a.
Proof.
  intros [Hok1 Hsd1 He1 Hm1] Hin. pose proof Hdo as [Hok Hd]. pose proof (phdr_off_range (Z.of_nat k)) as Hof.
  pose proof (file_size_same _ _ Hsd1) as Hfs. unfold load_phdr. rewrite phdr_off_eq. unfold sizeof_Phdr in *.
  destruct (Z.lt_ge_cases (off k) (file_size r)) as [Hlt|Hge].
  - destruct (seek_read_run r1 (off k) phdr_at 32 Hok1) as (r2 & r3 & Hrun2 & Hrun3 & Hok3 & Hsd3 & He3 & Hm3); [lia..| |].
    { rewrite Hfs. intros a Ha. apply (same_disk_ok _ _ Hdo Hok1 Hsd1) in Ha. unfold sizeof_Phdr in Ha. lia. }
    rewrite Hfs in *. replace (Z.min 32 _) with (file_size r - off k) in * by lia.
    rewrite (run_bind _ _ _ _ _ Hrun2). destruct (Z.eqb_spec (off k) (-1)); [lia|].
    rewrite (run_bind _ _ _ _ _ Hrun3). rewrite (u32_small (file_size r - off k)) by lia.
    destruct (Z.eqb_spec (file_size r - off k) 32); [lia|]. cbn [negb]. cbv iota.
    eexists. split; [reflexivity|]. split; [reflexivity|]. intros a Ha. simpl. rewrite <- Hm1 by done. rewrite Hm3.
    unfold local, sizeof_Phdr in Ha. case_match; [lia|done].
  - rewrite (run_bind _ _ _ _ _ (seek_fault r1 (off k) Hok1 ltac:(lia))). rewrite Z.eqb_refl.
    eexists. split; [reflexivity|]. split; [reflexivity|]. intros a Ha. by apply Hm1.
Qed.

(** A segment's image depends on the memory where the segment is not. *)
Lemma image_ext h r1 m1 m2 a :
  ram_ok r → same_disk r r1 → phdr_ok h → 0 ≤ p_offset h → (0 < p_filesz h → p_offset h + filled h ≤ file_size r) →
  m1 a = m2 a → seg_image r1 h m1 a = seg_image r h m2 a.
Proof.
  intros Hok Hsd (Hv & Hm & Hf) Hoff Hfi Heq. unfold seg_image. destruct (zeroed h a); [done|].
  destruct (data h a) eqn:E; [|done]. unfold data, filled in *. apply file_byte_same; [done..|lia].
Qed.

Lemma phdr_run k r1 :
  at_header r k r1 → defect r (Z.of_nat k) = None →
  ∃ r2, run_phdr k r1 = Ret (Some (is_segment (phdr k)), r2) ∧ at_header r (S k) r2.
Proof.
  intros Hat Hdef. unfold defect in Hdef. destruct (Z.ltb_spec (file_size r) (off k + sizeof_Phdr)); [done|].
  destruct (fetch_run k r1 Hat ltac:(lia)) as (r2 & Hrun & [Hok2 Hsd2 He2 Hm2]). rewrite Hrun.
  assert (phdr_ok (phdr k) ∧ 0 ≤ p_offset (phdr k)) as [Hph Hoff] by apply phdr_of_ok.
  pose proof (same_disk_ok _ _ Hdo Hok2 Hsd2) as Hdo2. pose proof (file_size_same _ _ Hsd2) as Hfs.
  destruct (is_segment (phdr k)) eqn:Hs; cbn [negb] in Hdef.
  - destruct (in_user (phdr k)) eqn:Hu; [|done]. cbn [negb] in Hdef.
    destruct ((0 <? p_filesz (phdr k)) && _) eqn:Hfi; [done|].
    assert (Hfile : 0 < p_filesz (phdr k) → p_offset (phdr k) + filled (phdr k) ≤ file_size r) by lia.
    destruct (segment_run r2 (phdr k) Hdo2 Hph Hoff Hs Hu) as (r3 & Hrun3 & [Hok3 Hsd3 He3 Hm3]); [by rewrite Hfs|].
    exists r3. split; [done|]. split; [done|by eapply same_disk_trans|by rewrite He3|]. intros a Ha. rewrite Hm3.
    cbn [load_image]. rewrite Hs. apply (image_ext _ r2); try done; [apply Hdo|by apply Hm2].
  - exists r2. split; [|by split; [done..|]; intros a Ha; cbn [load_image]; rewrite Hs; apply Hm2].
    unfold load_segment. assert (negb (p_type (phdr k) =? PT_LOAD) || (p_memsz (phdr k) =? 0) = true) as ->; [|done].
    revert Hs. unfold is_segment. clear. repeat case_match; lia.
Qed.

Lemma phdr_fault k r1 e :
  at_header r k r1 → defect r (Z.of_nat k) = Some e →
  ∃ r2, run_phdr k r1 = Ret (None, r2) ∧ ram_errno r2 = Some e ∧ ∀ a, ¬ local a → ram_mem r2 a = fault_image r k a.
Proof.
  intros Hat Hdef. unfold defect in Hdef. unfold fault_image.
  destruct (Z.ltb_spec (file_size r) (off k + sizeof_Phdr)) as [Hlt|Hge].
  { injection Hdef as <-. assert ((off k + sizeof_Phdr <=? file_size r) = false) as -> by lia.
    by apply (fetch_fault k r1). }
  assert ((off k + sizeof_Phdr <=? file_size r) = true) as -> by lia.
  destruct (fetch_run k r1 Hat Hge) as (r2 & Hrun & [Hok2 Hsd2 He2 Hm2]). rewrite Hrun.
  assert (phdr_ok (phdr k) ∧ 0 ≤ p_offset (phdr k)) as [Hph Hoff] by apply phdr_of_ok.
  pose proof (same_disk_ok _ _ Hdo Hok2 Hsd2) as Hdo2. pose proof (file_size_same _ _ Hsd2) as Hfs.
  destruct (is_segment (phdr k)) eqn:Hs; cbn [negb] in Hdef; [|done].
  destruct (in_user (phdr k)) eqn:Hu; cbn [negb] in Hdef.
  - destruct ((0 <? p_filesz (phdr k)) && _) eqn:Hfi; [|done]. injection Hdef as <-.
    destruct (segment_truncated r2 (phdr k) Hdo2 Hph Hoff Hs Hu) as (r3 & Hrun3 & He3 & Hm3); [lia..|].
    exists r3. split; [done|]. split; [done|]. intros a Ha. rewrite Hm3, Hfs. cbn [andb]. cbv beta iota.
    case_match; [apply file_byte_same; [apply Hdo|done|lia]|by apply Hm2].
  - injection Hdef as <-. rewrite (segment_outside r2 (phdr k) Hs Hu). eexists. split; [done|]. split; [done|].
    intros a Ha. by apply Hm2.
Qed.

(** ** The loop *)
Abbreviation run_phdrs := (load_phdrs USER_MEM_LOW USER_MEM_HIGH phdr_at ramdisk_ops (e_phoff (disk_ehdr r))).
Lemma phdrs_run (n : nat) k r1 b :
  at_header r k r1 → (∀ j : nat, (k ≤ j < k + n)%nat → defect r (Z.of_nat j) = None) →
  ∃ r2, run_phdrs n (Z.of_nat k) b r1 = Ret (Some (b || existsb (λ j, is_segment (phdr j)) (seq k n)), r2) ∧
    at_header r (k + n) r2.
Proof.
  revert k r1 b; induction n as [|n IH]; intros k r1 b Hat Hdef.
  { exists r1. rewrite Nat.add_0_r, orb_false_r. done. }
  destruct (phdr_run k r1 Hat (Hdef k ltac:(lia))) as (r2 & Hrun & Hat2).
  destruct (IH (S k) r2 (b || is_segment (phdr k)) Hat2) as (r3 & Hrun3 & Hat3); [intros j Hj; apply Hdef; lia|].
  exists r3. cbn [load_phdrs seq existsb]. rewrite (run_bind _ _ _ _ _ Hrun). rewrite <- Nat.add_succ_comm. split; [|done].
  replace (Z.of_nat k + 1) with (Z.of_nat (S k)) by lia. rewrite Hrun3. by rewrite orb_assoc.
Qed.
Lemma phdrs_fault (n : nat) k r1 b (j : nat) e :
  at_header r k r1 → (k ≤ j < k + n)%nat → (∀ i : nat, (k ≤ i < j)%nat → defect r (Z.of_nat i) = None) →
  defect r (Z.of_nat j) = Some e →
  ∃ r2, run_phdrs n (Z.of_nat k) b r1 = Ret (None, r2) ∧ ram_errno r2 = Some e ∧
    ∀ a, ¬ local a → ram_mem r2 a = fault_image r j a.
Proof.
  revert k r1 b; induction n as [|n IH]; intros k r1 b Hat Hj Hdef He; [lia|]. simpl.
  destruct (decide (j = k)) as [->|Hne].
  - destruct (phdr_fault k r1 e Hat He) as (r2 & Hrun & Hr2). exists r2. by rewrite (run_bind _ _ _ _ _ Hrun).
  - destruct (phdr_run k r1 Hat (Hdef k ltac:(lia))) as (r2 & Hrun & Hat2). rewrite (run_bind _ _ _ _ _ Hrun).
    replace (Z.of_nat k + 1) with (Z.of_nat (S k)) by lia. apply IH; [done|lia| |done]. intros i Hi. apply Hdef. lia.
Qed.

(** ** The whole file *)
Context (Hcur : cur_offset (ram_file r) = 0).
Lemma ehdr_run :
  sizeof_Ehdr ≤ file_size r →
  ∃ r1, f_read ramdisk_ops ehdr_at sizeof_Ehdr r = Ret (sizeof_Ehdr, r1) ∧ at_header r 0 r1 ∧
    Ehdr_of (ram_mem r1) ehdr_at = disk_ehdr r.
Proof.
  intros Hsz. pose proof Hdo as [Hok Hd]. unfold sizeof_Ehdr in *.
  assert (Hmv : moved r 52 = 52) by (unfold moved, file_size in *; lia).
  destruct (read_run r ehdr_at 52 Hok ltac:(lia)) as (r1 & Hrun1 & Hok1 & Hs1 & Hn1 & He1 & Hm1).
  { rewrite Hmv. apply buffer_apart; try done; try lia. intros a Ha. apply Hd in Ha. unfold sizeof_Ehdr in Ha. lia. }
  rewrite Hmv, Hcur in *. exists r1. split; [done|]. split; [split; [done|split_and!; [done..|]|done|]|].
  - intros a Ha. rewrite Hm1. apply Hd in Ha. unfold sizeof_Ehdr in Ha. case_match; [lia|done].
  - intros a Ha. rewrite Hm1. unfold local, sizeof_Ehdr in Ha. case_match; [lia|done].
  - apply Ehdr_of_ext. unfold sizeof_Ehdr. intros i Hi. rewrite Hm1. case_match; [|lia]. unfold file_byte. f_equal. lia.
Qed.
Lemma short_file :
  file_size r < sizeof_Ehdr →
  ∃ r', load_elf USER_MEM_LOW USER_MEM_HIGH ehdr_at phdr_at (Some ramdisk_ops) r = Ret (-1, r') ∧
    ram_errno r' = Some EIO ∧ ∀ a, ¬ local a → ram_mem r' a = ram_mem r a.
Proof.
  intros Hsz. pose proof Hdo as [Hok Hd]. destruct (file_size_eq r Hok) as [Hs Hr].
  assert (Hmv : moved r sizeof_Ehdr = file_size r) by (unfold moved, file_size, sizeof_Ehdr in *; lia).
  destruct (read_run r ehdr_at sizeof_Ehdr Hok ltac:(unfold sizeof_Ehdr; lia)) as (r1 & Hrun1 & _ & _ & _ & _ & Hm1).
  { rewrite Hmv. destruct (Z.eqb_spec (file_size r) 0) as [Hz|Hz].
    - split; [lia|]. destruct (Z.le_gt_cases ehdr_at (rf_start (ram_file r))); [left|right]; lia.
    - apply buffer_apart; try done; try lia. intros a Ha. apply Hd in Ha. unfold sizeof_Ehdr in *. lia. }
  rewrite Hmv in *. eexists. split; [|split].
  - unfold load_elf. rewrite (run_bind _ _ _ _ _ Hrun1). rewrite (u32_small (file_size r)) by (unfold sizeof_Ehdr in *; lia).
    destruct (Z.eqb_spec (file_size r) sizeof_Ehdr); [lia|]. reflexivity.
  - done.
  - simpl. intros a Ha. rewrite Hm1. unfold local, sizeof_Ehdr in *. case_match; [lia|done].
Qed.
(** What the loader does before its loop. *)
Lemma load_elf_unfold r1 :
  f_read ramdisk_ops ehdr_at sizeof_Ehdr r = Ret (sizeof_Ehdr, r1) →
  Ehdr_of (ram_mem r1) ehdr_at = disk_ehdr r →
  load_elf USER_MEM_LOW USER_MEM_HIGH ehdr_at phdr_at (Some ramdisk_ops) r =
  (if negb (is_header_valid (disk_ehdr r)) then ERROR_RETURN ENOEXEC
   else
     o ← run_phdrs (Z.to_nat (e_phnum (disk_ehdr r))) 0 false;
     match o with
     | None => mret (-1)
     | Some false => ERROR_RETURN ENOEXEC
     | Some true => mret (s32 (e_entry (disk_ehdr r)))
     end) r1.
Proof.
  intros Hrun Hh. unfold load_elf. rewrite (run_bind _ _ _ _ _ Hrun). change (u32 sizeof_Ehdr) with sizeof_Ehdr.
  rewrite Z.eqb_refl. cbn [negb]. cbv iota. rewrite (run_bind get _ r1 r1 r1) by done.
  change (elf_mem r1) with (ram_mem r1). cbv zeta. by rewrite Hh.
Qed.
End Headers.

(** What the images hold: a segment that no later one writes over is there. *)
Lemma image_kept r h m a : written h a = false → seg_image r h m a = m a.
Proof. unfold written, seg_image. intros Hw. by destruct (zeroed h a), (data h a). Qed.
Lemma load_image_frame r (n : nat) a :
  (∀ k, (k < n)%nat → is_segment (disk_phdr r (Z.of_nat k)) = true → written (disk_phdr r (Z.of_nat k)) a = false) →
  load_image r n a = ram_mem r a.
Proof.
  induction n as [|n IH]; intros Hw; [done|]. cbn [load_image].
  destruct (is_segment (disk_phdr r (Z.of_nat n))) eqn:Hs; [rewrite image_kept by (apply Hw; [lia|done])|];
    (apply IH; intros k Hk; apply Hw; lia).
Qed.

(** C31: the loader reports every defect of a file by -1 and its error number:
    no file ([ENOENT]); a file shorter than the header ([EIO]); a header that
    is not of an i386 executable ([ENOEXEC]); at whatever program header comes
    first, one that is cut off by the end of the file ([EIO]), a segment that
    does not lie in user space ([ENOMEM]) or whose bytes are cut off ([EIO]);
    no segment at all ([ENOEXEC]). Memory outside its two local headers then
    holds, besides what it held, exactly the segments before the defective
    one, and of one that is cut off the bytes there are. *)
Theorem load_elf_errors r :
  let load := load_elf USER_MEM_LOW USER_MEM_HIGH ehdr_at phdr_at in
  let n := Z.to_nat (e_phnum (disk_ehdr r)) in
  let fails e m := ∃ r', load (Some ramdisk_ops) r = Ret (-1, r') ∧ ram_errno r' = Some e ∧
    ∀ a, ¬ local a → ram_mem r' a = m a in
  disk_ok r → cur_offset (ram_file r) = 0 →
  load None r = Ret (-1, Ram (ram_file r) (ram_mem r) (Some ENOENT)) ∧
  (file_size r < sizeof_Ehdr → fails EIO (ram_mem r)) ∧
  (sizeof_Ehdr ≤ file_size r → is_header_valid (disk_ehdr r) = false → fails ENOEXEC (ram_mem r)) ∧
  (sizeof_Ehdr ≤ file_size r → is_header_valid (disk_ehdr r) = true →
   (∀ (k : nat) e, (k < n)%nat → (∀ j : nat, (j < k)%nat → defect r (Z.of_nat j) = None) →
      defect r (Z.of_nat k) = Some e → fails e (fault_image r k)) ∧
   ((∀ j : nat, (j < n)%nat → defect r (Z.of_nat j) = None ∧ is_segment (disk_phdr r (Z.of_nat j)) = false) →
      fails ENOEXEC (ram_mem r))).
Proof.
  intros load n fails Hdo Hcur. split; [done|]. split; [by apply short_file|]. split; intros Hsz Hval.
  all: destruct (ehdr_run r Hdo Hcur Hsz) as (r1 & Hrun1 & Hat1 & Hh1); pose proof (ah_mem _ _ _ Hat1) as Hm1.
  all: unfold fails, load; rewrite (load_elf_unfold r r1 Hrun1 Hh1), Hval; cbn [negb]; cbv iota; fold n.
  { eexists. split; [reflexivity|]. by split. }
  split.
  - intros k e Hk Hdef He.
    destruct (phdrs_fault r Hdo n 0 r1 false k e Hat1) as (r2 & Hrun & He2 & Hm2); [lia| |done|].
    { intros i Hi. apply Hdef. lia. }
    exists r2. by rewrite (run_bind _ _ _ _ _ Hrun).
  - intros Hnone. destruct (phdrs_run r Hdo n 0 r1 false Hat1) as (r2 & Hrun & [_ _ _ Hm2]); [intros i Hi; apply Hnone; lia|].
    eexists. rewrite (run_bind _ _ _ _ _ Hrun). split.
    + replace (existsb _ _) with false; [reflexivity|]. symmetry. apply not_true_iff_false. intros Hex.
      apply existsb_exists in Hex as (j & Hj & Hs). apply in_seq in Hj. destruct (Hnone j ltac:(lia)). congruence.
    + split; [reflexivity|]. intros a Ha. simpl. rewrite Hm2 by done. apply load_image_frame.
      intros k Hk Hs. destruct (Hnone k ltac:(lia)). congruence.
Qed.
End ElfRam.

(** * A program of two segments *)
Definition le32_bytes (z : Z) : list Z := [u8 z; u8 (z / 2 ^ 8); u8 (z / 2 ^ 16); u8 (z / 2 ^ 24)].
Definition le16_bytes (z : Z) : list Z := [u8 z; u8 (z / 2 ^ 8)].
Definition demo_ehdr_bytes (machine phnum : Z) : list Z :=
  [0x7f; 69; 76; 70; 1; 1; 1; 0; 0; 0; 0; 0; 0; 0; 0; 0] ++ le16_bytes 2 ++ le16_bytes machine ++ le32_bytes 1 ++
  le32_bytes 0x400002 ++ le32_bytes 52 ++ le32_bytes 0 ++ le32_bytes 0 ++ le16_bytes 52 ++ le16_bytes 32 ++
  le16_bytes phnum ++ le16_bytes 0 ++ le16_bytes 0 ++ le16_bytes 0.
Definition demo_phdr_bytes (off vaddr filesz memsz : Z) : list Z :=
  le32_bytes 1 ++ le32_bytes off ++ le32_bytes vaddr ++ le32_bytes 0 ++ le32_bytes filesz ++ le32_bytes memsz ++
  le32_bytes 7 ++ le32_bytes 0x1000.
Definition disk_of (l : list Z) : ram :=
  Ram (RamFile 0x1000 (0x1000 + Z.of_nat (length l)) 0 false)
    (λ a, if (0x1000 <=? a) && (a <? 0x2000) then default 0 (l !! Z.to_nat (a - 0x1000)) else 0xAA) None.
Definition demo_elf : ram := disk_of
  (demo_ehdr_bytes 3 2 ++ demo_phdr_bytes 116 0x400000 4 4 ++ demo_phdr_bytes 120 0x402000 2 0x2000 ++
   [11; 12; 13; 14; 15; 16]).
Abbreviation demo_load := (load_elf 0x400000 0xEFBFFFFF 0xFFFFE800 0xFFFFE900 (Some ramdisk_ops)).

Lemma disk_of_ok l : (length l < 4096)%nat → disk_ok 0x400000 0xEFBFFFFF 0xFFFFE800 0xFFFFE900 (disk_of l).
Proof.
  intros Hl. split.
  - split; simpl; [lia| |done]. unfold rf_size. simpl. rewrite u32_small by lia. lia.
  - unfold disk_at, sizeof_Ehdr, sizeof_Phdr. simpl. lia.
Qed.


(** a program for another machine; a segment in the kernel's memory; a second
    segment that is cut off, a header table that is *)
Definition demo_bad_machine : ram := disk_of (demo_ehdr_bytes 8 1 ++ demo_phdr_bytes 84 0x400000 4 4).
Definition demo_bad_segment : ram := disk_of (demo_ehdr_bytes 3 1 ++ demo_phdr_bytes 84 0x1000 4 4).
Definition demo_cut_segment : ram := disk_of
  (demo_ehdr_bytes 3 2 ++ demo_phdr_bytes 116 0x400000 4 4 ++ demo_phdr_bytes 120 0x402000 16 0x2000 ++
   [11; 12; 13; 14; 15; 16]).
Definition demo_cut_table : ram := disk_of (demo_ehdr_bytes 3 2 ++ demo_phdr_bytes 52 0x400000 4 4).
Lemma load_elf_errors_witness :
  (∃ r', demo_load demo_bad_machine = Ret (-1, r') ∧ ram_errno r' = Some ENOEXEC) ∧
  (∃ r', demo_load demo_bad_segment = Ret (-1, r') ∧ ram_errno r' = Some ENOMEM ∧ ram_mem r' 0x1000 = 0x7f) ∧
  (∃ r', demo_load demo_cut_segment = Ret (-1, r') ∧ ram_errno r' = Some EIO ∧ ram_mem r' 0x400003 = 14 ∧
     ram_mem r' 0x402001 = 16 ∧ ram_mem r' 0x402002 = 0xAA) ∧
  (∃ r', demo_load demo_cut_table = Ret (-1, r') ∧ ram_errno r' = Some EIO).
Proof.
  pose proof (load_elf_errors 0x400000 0xEFBFFFFF 0xFFFFE800 0xFFFFE900 eq_refl ltac:(lia) eq_refl ltac:(lia)
    ltac:(lia) ltac:(lia)) as H. cbv zeta in H.
  assert (Hloc : ∀ a, 0 ≤ a < 0xF0000000 → ¬ local 0xFFFFE800 0xFFFFE900 a).
  { intros a Ha. unfold local, sizeof_Ehdr, sizeof_Phdr. lia. }
  split; [|split; [|split]].
  - destruct (H demo_bad_machine) as (_ & _ & He & _); [apply disk_of_ok; vm_compute; lia|reflexivity|].
    destruct He as (r' & H1 & H2 & _); [vm_compute; discriminate|reflexivity|]. exists r'. by split.
  - destruct (H demo_bad_segment) as (_ & _ & _ & He); [apply disk_of_ok; vm_compute; lia|reflexivity|].
    destruct He as [He _]; [vm_compute; discriminate|reflexivity|].
    destruct (He 0%nat ENOMEM) as (r' & H1 & H2 & H3); [vm_compute; lia|intros j Hj; lia|vm_compute; reflexivity|].
    exists r'. split; [exact H1|]. split; [exact H2|]. rewrite H3 by (apply Hloc; lia). reflexivity.
  - destruct (H demo_cut_segment) as (_ & _ & _ & He); [apply disk_of_ok; vm_compute; lia|reflexivity|].
    destruct He as [He _]; [vm_compute; discriminate|reflexivity|].
    destruct (He 1%nat EIO) as (r' & H1 & H2 & H3); [vm_compute; lia| |vm_compute; reflexivity|].
    { intros j Hj. assert (j = 0%nat) as -> by lia. vm_compute. reflexivity. }
    exists r'. split; [exact H1|]. split; [exact H2|].
    split; [|split]; (rewrite H3 by (apply Hloc; lia); vm_compute; reflexivity).
  - destruct (H demo_cut_table) as (_ & _ & _ & He); [apply disk_of_ok; vm_compute; lia|reflexivity|].
    destruct He as [He _]; [vm_compute; discriminate|reflexivity|].
    destruct (He 1%nat EIO) as (r' & H1 & H2 & _); [vm_compute; lia| |vm_compute; reflexivity|].
    { intros j Hj. assert (j = 0%nat) as -> by lia. vm_compute. reflexivity. }
    exists r'. by split.
Defined.

(** The kernel's memory, its stack apart, is not the loader's. *)
Definition kernel_kept (r r' : ram) : Prop :=
  ram_ok r → ram_ok r' ∧
  ∀ a, (0 ≤ a < 0x400000 ∨ 0xF0000000 ≤ a < 0xFFFFE000) → ram_mem r' a = ram_mem r a.
Global Instance kernel_kept_preorder : PreOrder kernel_kept.
Proof.
  split; [by intros r a|]. intros r1 r2 r3 H1 H2 Hr. destruct (H1 Hr) as [Hr2 H3]. destruct (H2 Hr2) as [Hr3 H4].
  split; [done|]. intros a Ha. rewrite H4, H3; done.
Qed.
Lemma memcpy_outside dest src n m b : ¬ dest ≤ b < dest + Z.of_nat n → memcpy dest src n m b = m b.
Proof.
  revert dest src m. induction n as [|n IH]; intros dest src m Hb; [done|].
  simpl. rewrite IH by lia. unfold store. case_match; [lia|done].
Qed.
Lemma kept_update f :
  (∀ m a, (0 ≤ a < 0x400000 ∨ 0xF0000000 ≤ a < 0xFFFFE000) → f m a = m a) → keeps kernel_kept (ram_update f).
Proof. intros Hf r x r' [= _ <-] [H1 H2 H3]. split; [by split|]. intros a Ha. by apply Hf. Qed.
Lemma kept_memset dest n :
  0 ≤ n → 0x400000 ≤ dest → dest + n ≤ 0xF0000000 → keeps kernel_kept (ram_update (memset dest 0 (Z.to_nat n))).
Proof. intros Hn H1 H2. apply kept_update. intros m a Ha. rewrite memset_at. case_match; [lia|done]. Qed.
Lemma kept_read buf n :
  0 ≤ n < 2 ^ 32 → (∀ a, (0 ≤ a < 0x400000 ∨ 0xF0000000 ≤ a < 0xFFFFE000) → ¬ buf ≤ a < buf + n) →
  keeps kernel_kept (f_read ramdisk_ops buf n).
Proof.
  intros Hn Hb r x r' Hrun Hok. pose proof (ro_range _ Hok) as Hr. pose proof (ro_offset _ Hok) as Ho.
  pose proof (rf_size_eq _ (proj1 Hr) (proj2 Hr)) as Hs.
  revert Hrun. simpl. unfold ramdisk_read, set_offset, mbind, M_bind, get. cbn [ram_node ram_ram_disk]. rewrite (ro_open _ Hok).
  destruct (moved_cnt r n Hok Hn) as (-> & Hm & _). pose proof (offset_moved r n Hok ltac:(lia)) as Hom.
  destruct (moved r n =? 0); intros [= _ <-]; [done|]. split.
  - split; [exact Hr|exact Hom|apply Hok].
  - intros a Ha. simpl. apply memcpy_outside. specialize (Hb a Ha). unfold moved in *. lia.
Qed.
Lemma kept_errno e : keeps kernel_kept (set_errno (S:=ram) e).
Proof. intros r x r' [= _ <-] [H1 H2 H3]. split; [by split|done]. Qed.
Lemma kept_seek o w : keeps kernel_kept (f_seek ramdisk_ops o w).
Proof.
  intros r x r' Hrun Hok. revert Hrun. simpl. unfold ramdisk_seek, set_offset, mbind, M_bind, get. cbn [ram_node ram_ram_disk]. rewrite (ro_open _ Hok).
  set (off1 := if w =? SEEK_SET then _ else _). destruct ((off1 <? 0) || (rf_size (ram_file r) <=? off1)) eqn:E.
  - intros [= _ <-]. destruct Hok. split; [by split|done].
  - intros [= _ <-]. destruct Hok as [H1 H2 H3]. split; [|done]. split; [exact H1| |exact H3].
    simpl. unfold rf_size, with_offset in *. simpl. lia.
Qed.
Lemma kept_may_load : may_load 0x400000 0xEFBFFFFF 0xFFFFE800 0xFFFFE900 kernel_kept ramdisk_ops.
Proof.
  split; unfold user_range.
  - apply kept_errno.
  - apply kept_seek.
  - apply kept_read; unfold sizeof_Ehdr; lia.
  - apply kept_read; unfold sizeof_Phdr; lia.
  - intros a n Hn Ha. apply kept_read; lia.
  - intros a n Hn Ha. apply kept_memset; lia.
  - intros a _ r x r' [= _ <-]. done.
  - intros b e _ _ _ r x r' [= _ <-]. done.
  - intros b e _ _ Hr. destruct (Z.le_gt_cases b e) as [Hbe|Hbe]; [apply kept_memset; lia|].
    apply kept_update. intros m a _. rewrite memset_at. case_match; [lia|done].
Qed.
Definition returns {A S} (m : res (A * S)) : bool := if m is Ret _ then true else false.
Lemma demo_elf_returns : returns (demo_load demo_elf) = true.
Proof. vm_compute. reflexivity. Qed.
Lemma load_elf_confined_witness :
  ∃ v r', demo_load demo_elf = Ret (v, r') ∧
    ∀ a, (0 ≤ a < 0x400000 ∨ 0xF0000000 ≤ a < 0xFFFFE000) → ram_mem r' a = ram_mem demo_elf a.
Proof.
  pose proof demo_elf_returns as Hret. unfold returns in Hret.
  destruct (demo_load demo_elf) as [[v r']| | |] eqn:Hrun; try discriminate Hret.
  exists v, r'. split; [reflexivity|].
  refine (proj2 (load_elf_confined 0x400000 0xEFBFFFFF 0xFFFFE800 0xFFFFE900 kernel_kept ramdisk_ops kept_may_load
    eq_refl _ eq_refl _ demo_elf v r' Hrun (proj1 (disk_of_ok _ _)))); [lia|lia|vm_compute; lia].
Defined.

(** [load_elf] zeroes what it has just read when the zeroed part of a segment
    begins on the page where it ends: here the four bytes of the file are lost. *)
Definition demo_small_bss : ram := disk_of
  (demo_ehdr_bytes 3 1 ++ demo_phdr_bytes 84 0x400000 4 8 ++ [11; 12; 13; 14]).
Example load_elf_wipes :
  match demo_load demo_small_bss with
  | Ret (v, r') => (v, bytes_at (ram_mem r') 0x400000 8)
  | _ => (0, [])
  end = (0x400002, [0; 0; 0; 0; 0; 0; 0; 0]).
Proof. vm_compute. reflexivity. Qed.
