(* ===== verification/Task.v ===== *)
(** [core/task.cpp], [include/task.h]: tasks, the circular queues they are in,
    the tree that finds them by number, and the operations that create, switch,
    suspend and resume them. *)
From S2P Require Import Prelude Common Rbt Errno Sigset DescTab.

(** * Data *)
Inductive Task_state_t : Type := TS_RUNNING | TS_SLEEPING | TS_ZOMBIE.
Global Instance Task_state_eq_dec : EqDecision Task_state_t.
Proof. solve_decision. Defined.

Record Task_t : Type := MkTask {
  t_id : Z;
  t_esp : Z; t_ebp : Z; t_eip : Z;
  t_page_dir : Z;
  t_state : Task_state_t;
  t_uid : Z; t_gid : Z;
  t_errno : Z;
  t_par : Z; t_queue_next : Z; t_queue_prev : Z;
  t_sig_wakeup : Sigset
}.
(** [sizeof(Task_t)], and where [rbt_node_mem] begins in it *)
Definition sizeof_Task_t : Z := 76.
Definition rbt_node_offset : Z := 52.

Definition set_regs (esp ebp : Z) (t : Task_t) : Task_t :=
  MkTask (t_id t) esp ebp (t_eip t) (t_page_dir t) (t_state t) (t_uid t) (t_gid t) (t_errno t) (t_par t)
    (t_queue_next t) (t_queue_prev t) (t_sig_wakeup t).
Definition set_eip (v : Z) (t : Task_t) : Task_t :=
  MkTask (t_id t) (t_esp t) (t_ebp t) v (t_page_dir t) (t_state t) (t_uid t) (t_gid t) (t_errno t) (t_par t)
    (t_queue_next t) (t_queue_prev t) (t_sig_wakeup t).
Definition set_state (v : Task_state_t) (t : Task_t) : Task_t :=
  MkTask (t_id t) (t_esp t) (t_ebp t) (t_eip t) (t_page_dir t) v (t_uid t) (t_gid t) (t_errno t) (t_par t)
    (t_queue_next t) (t_queue_prev t) (t_sig_wakeup t).
Definition set_ids (uid gid : Z) (t : Task_t) : Task_t :=
  MkTask (t_id t) (t_esp t) (t_ebp t) (t_eip t) (t_page_dir t) (t_state t) uid gid (t_errno t) (t_par t)
    (t_queue_next t) (t_queue_prev t) (t_sig_wakeup t).
Definition set_terrno (v : Z) (t : Task_t) : Task_t :=
  MkTask (t_id t) (t_esp t) (t_ebp t) (t_eip t) (t_page_dir t) (t_state t) (t_uid t) (t_gid t) v (t_par t)
    (t_queue_next t) (t_queue_prev t) (t_sig_wakeup t).
Definition set_parent (v : Z) (t : Task_t) : Task_t :=
  MkTask (t_id t) (t_esp t) (t_ebp t) (t_eip t) (t_page_dir t) (t_state t) (t_uid t) (t_gid t) (t_errno t) v
    (t_queue_next t) (t_queue_prev t) (t_sig_wakeup t).
Definition set_next (v : Z) (t : Task_t) : Task_t :=
  MkTask (t_id t) (t_esp t) (t_ebp t) (t_eip t) (t_page_dir t) (t_state t) (t_uid t) (t_gid t) (t_errno t) (t_par t)
    v (t_queue_prev t) (t_sig_wakeup t).
Definition set_prev (v : Z) (t : Task_t) : Task_t :=
  MkTask (t_id t) (t_esp t) (t_ebp t) (t_eip t) (t_page_dir t) (t_state t) (t_uid t) (t_gid t) (t_errno t) (t_par t)
    (t_queue_next t) v (t_sig_wakeup t).
Definition set_sig_wakeup (v : Sigset) (t : Task_t) : Task_t :=
  MkTask (t_id t) (t_esp t) (t_ebp t) (t_eip t) (t_page_dir t) (t_state t) (t_uid t) (t_gid t) (t_errno t) (t_par t)
    (t_queue_next t) (t_queue_prev t) v.

Record Pair_id_task : Type := PairIdTask { pid : Z; task : Z }.
Global Instance Pair_id_task_lt : KeyLt Pair_id_task := λ p q, pid p <? pid q.

(** The nodes of the tree lie inside the tasks: [rbt_alloc] takes the one of
    [latest_task], [rbt_free] does nothing. [task_nodes] records, for the
    proofs, which nodes were taken. *)
Record task_pool : Type := TaskPool { latest_task : Z; task_nodes : gset Z }.
Definition node_of_task (a : Z) : Z :=
  let addr := u32 (a + rbt_node_offset) in u32 (addr + Z.land addr 1).
Definition rbt_alloc : M task_pool Z := λ q,
  let a := node_of_task (latest_task q) in Ret (a, TaskPool (latest_task q) ({[a]} ∪ task_nodes q)).
Definition rbt_free (a : Z) : M task_pool unit := λ q,
  Ret (tt, TaskPool (latest_task q) (task_nodes q ∖ {[a]})).
Global Instance task_alloc : NodeAlloc task_pool := {| node_alloc := rbt_alloc; node_free := rbt_free |}.

(** The queues of [namespace Queue]; a [Task_queue] is its pointer. *)
Inductive queue : Type := running | sleeping | zombie.

(** The variables of the file, and the interrupt flag's register. *)
Record tasks : Type := Tasks {
  store : gmap Z Task_t;
  switch_to_user_mode_called : bool;
  current_task : Z;
  rbt_id2task : rbt Pair_id_task task_pool;
  q_running : Z; q_sleeping : Z; q_zombie : Z;
  next_pid : Z;
  eflags : Z
}.
Section Updates.
Implicit Types (t : tasks).
Definition with_store v t := Tasks v (switch_to_user_mode_called t) (current_task t) (rbt_id2task t) (q_running t) (q_sleeping t) (q_zombie t) (next_pid t) (eflags t).
Definition with_user_mode v t := Tasks (store t) v (current_task t) (rbt_id2task t) (q_running t) (q_sleeping t) (q_zombie t) (next_pid t) (eflags t).
Definition with_current_task v t := Tasks (store t) (switch_to_user_mode_called t) v (rbt_id2task t) (q_running t) (q_sleeping t) (q_zombie t) (next_pid t) (eflags t).
Definition with_id2task v t := Tasks (store t) (switch_to_user_mode_called t) (current_task t) v (q_running t) (q_sleeping t) (q_zombie t) (next_pid t) (eflags t).
Definition with_next_pid v t := Tasks (store t) (switch_to_user_mode_called t) (current_task t) (rbt_id2task t) (q_running t) (q_sleeping t) (q_zombie t) v (eflags t).
Definition with_eflags v t := Tasks (store t) (switch_to_user_mode_called t) (current_task t) (rbt_id2task t) (q_running t) (q_sleeping t) (q_zombie t) (next_pid t) v.
Definition q_ptr (q : queue) t : Z := match q with running => q_running t | sleeping => q_sleeping t | zombie => q_zombie t end.
Definition with_q (q : queue) (v : Z) t : tasks :=
  Tasks (store t) (switch_to_user_mode_called t) (current_task t) (rbt_id2task t)
    (match q with running => v | _ => q_running t end) (match q with sleeping => v | _ => q_sleeping t end)
    (match q with zombie => v | _ => q_zombie t end) (next_pid t) (eflags t).
End Updates.

(** What the rest of the kernel gives: the heap behind [operator new], the page
    directories, and the stack's move into its own pages. *)
Class TaskEnv (S : Type) := {
  operator_new : Z → M S Z;
  env_clone_directory : Z → M S Z;
  get_current_page_dir : M S Z;
  set_current_page_dir : Z → M S unit;
  dir_phyaddr : Z → M S Z;
  env_move_stack : M S unit;
  env_log : string → M S unit
}.

(** The registers [switch_task] loads before it jumps; [eax] is what the
    [read_eip] it jumps back into seems to return. *)
Record cpu : Type := Cpu { r_eax : Z; r_esp : Z; r_ebp : Z; r_eip : Z; r_cr3 : Z }.
(** A function that may switch tasks returns, or jumps. *)
Inductive control (A : Type) : Type := Return (a : A) | Jump (c : cpu).
Arguments Return {A} a.
Arguments Jump {A} c.

Section Task.
Context {S : Type} `{TaskEnv S}.
(** the address of the tree's sentinel; what fresh memory holds *)
Context (NIL_task : Z) (junk_node : node Pair_id_task) (junk_id : Z).
#[local] Abbreviation TM := (M (tasks * S)).

Definition gett : TM tasks := λ s, Ret (s.1, s).
Definition modt (f : tasks → tasks) : TM unit := λ s, Ret (tt, (f s.1, s.2)).
Definition lift {A} (m : M S A) : TM A := λ s,
  match m s.2 with
  | Ret (a, x) => Ret (a, (s.1, x)) | Panic msg => Panic msg | Fault => Fault | NoFuel => NoFuel
  end.
Definition on_tree {A} (m : M (rbt Pair_id_task task_pool) A) : TM A := λ s,
  match m (rbt_id2task s.1) with
  | Ret (a, r) => Ret (a, (with_id2task r s.1, s.2)) | Panic msg => Panic msg | Fault => Fault | NoFuel => NoFuel
  end.
Definition rd_task (a : Z) : TM Task_t :=
  t ← gett; match store t !! a with Some k => mret k | None => fault end.
Definition upd_task (a : Z) (f : Task_t → Task_t) : TM unit :=
  k ← rd_task a; modt (λ t, with_store (<[a := f k]> (store t)) t).

(** [CLI_SAVE_EFLAGS], [RESTORE_EFLAGS] of [common.h] *)
Definition EFLAGS_IF : Z := 0x200.
Definition CLI_SAVE_EFLAGS : TM Z :=
  t ← gett; modt (with_eflags (Z.ldiff (eflags t) EFLAGS_IF)) ;; mret (eflags t).
Definition RESTORE_EFLAGS (v : Z) : TM unit := modt (with_eflags v).

(** ** The queues *)
Definition queue_insert (q : queue) (this_task : Z) : TM unit :=
  t ← gett;
  let ptr := q_ptr q t in
  if ptr =? 0 then
    modt (with_q q this_task) ;;
    upd_task this_task (λ k, set_prev this_task (set_next this_task k))
  else
    p ← rd_task ptr;
    upd_task this_task (set_next (t_queue_next p)) ;;
    k ← rd_task this_task;
    upd_task (t_queue_next k) (set_prev this_task) ;;
    upd_task ptr (set_next this_task) ;;
    upd_task this_task (set_prev ptr).

Definition queue_remove (q : queue) (this_task : Z) : TM unit :=
  t ← gett;
  let ptr := q_ptr q t in
  p ← rd_task ptr;
  if t_queue_next p =? ptr then
    (if ptr =? this_task then mret tt else panic "ptr == task") ;;
    modt (with_q q 0)
  else
    (if ptr =? this_task then modt (with_q q (t_queue_next p)) else mret tt) ;;
    k ← rd_task this_task;
    upd_task (t_queue_prev k) (set_next (t_queue_next k)) ;;
    k ← rd_task this_task;
    upd_task (t_queue_next k) (set_prev (t_queue_prev k)) ;;
    upd_task this_task (λ k, set_prev 0 (set_next 0 k)).

(** ** Finding and creating tasks *)
Definition id2task (id : Z) : TM Z :=
  ptr ← on_tree (find_ge NIL_task (PairIdTask id junk_id));
  if ptr =? 0 then mret 0
  else k ← on_tree (get_key ptr); mret (task k).

(** the loop ends at the first number above all that are in use *)
Fixpoint next_free_pid (fuel : nat) : TM unit :=
  t ← gett;
  a ← id2task (next_pid t);
  if a =? 0 then mret tt
  else
    match fuel with
    | O => nofuel
    | Datatypes.S fuel => modt (with_next_pid (u32 (next_pid t + 1))) ;; next_free_pid fuel
    end.
Definition get_next_pid : TM Z :=
  t ← gett;
  next_free_pid (size (nodes (rbt_id2task t))) ;;
  t ← gett;
  modt (with_next_pid (u32 (next_pid t + 1))) ;;
  mret (next_pid t).

(** [Task_t::Task_t(dir)] on the memory at [this] *)
Definition Task_t_init (this dir : Z) : TM unit :=
  id ← get_next_pid;
  modt (λ t, with_store (<[this := MkTask id 0 0 0 dir TS_RUNNING junk_id junk_id 0 0 0 0 Sigset_init]> (store t)) t) ;;
  modt (λ t, let r := rbt_id2task t in
             with_id2task (MkRbt (nodes r) (tree_root r) (TaskPool this (task_nodes (pool r)))) t) ;;
  on_tree (insert NIL_task junk_node (PairIdTask id this)).
Definition new_Task_t (dir : Z) : TM Z :=
  a ← lift (operator_new sizeof_Task_t);
  Task_t_init a dir ;;
  mret a.

(** ** Switching *)
Definition get_next_task : TM Z :=
  t ← gett; k ← rd_task (current_task t); mret (t_queue_next k).
Definition switch_task (a old_eflags : Z) : TM cpu :=
  modt (with_current_task a) ;;
  k ← rd_task a;
  lift (set_current_page_dir (t_page_dir k)) ;;
  phy ← lift (dir_phyaddr (t_page_dir k));
  modt (with_eflags old_eflags) ;;
  mret (Cpu 0xFFFFFFFF (t_esp k) (t_ebp k) (t_eip k) phy).

(** what [schedule] does from its [read_eip] on: [eip] is what that returned *)
Definition schedule_body (old_eflags esp ebp eip : Z) : TM (control unit) :=
  if eip =? 0xFFFFFFFF then mret (Return tt)
  else
    t ← gett;
    upd_task (current_task t) (set_regs esp ebp) ;;
    upd_task (current_task t) (set_eip eip) ;;
    n ← get_next_task;
    c ← switch_task n old_eflags;
    mret (Jump c).
Definition schedule (esp ebp eip : Z) : TM (control unit) :=
  old ← CLI_SAVE_EFLAGS; schedule_body old esp ebp eip.

(** [Task::init], up to its [schedule]; what it prints after that has returned
    ([Klog::log]) is in [kmain] of [Main], which has the screen *)
Definition task_init (esp ebp eip : Z) : TM (control unit) :=
  lift env_move_stack ;;
  dir ← lift get_current_page_dir;
  a ← new_Task_t dir;
  modt (with_current_task a) ;;
  upd_task a (set_ids 0 0) ;;
  queue_insert running a ;;
  schedule esp ebp eip.

(** [fork] up to its [read_eip]; its locals afterwards. In [new Task_t(...)]
    the language leaves open whether the argument, [clone_directory], or the
    allocation comes first; here the argument does, as gcc has it. *)
Record fork_locals : Type := ForkLocals { f_old_eflags : Z; par_task : Z; f_child : Z }.
Definition fork_begin : TM fork_locals :=
  old ← CLI_SAVE_EFLAGS;
  t ← gett;
  let par := current_task t in
  dir ← lift get_current_page_dir;
  dir' ← lift (env_clone_directory dir);
  child ← new_Task_t dir';
  upd_task child (set_parent par) ;;
  p ← rd_task par;
  upd_task child (set_ids (t_uid p) (t_gid p)) ;;
  queue_insert running child ;;
  mret (ForkLocals old par child).
(** from [read_eip] on; the child comes here by a jump, with the same locals on
    its copy of the stack *)
Definition fork_body (l : fork_locals) (esp ebp eip : Z) : TM Z :=
  t ← gett;
  if current_task t =? par_task l then
    upd_task (f_child l) (set_regs esp ebp) ;;
    upd_task (f_child l) (set_eip eip) ;;
    RESTORE_EFLAGS (f_old_eflags l) ;;
    k ← rd_task (f_child l);
    mret (t_id k)
  else
    RESTORE_EFLAGS (f_old_eflags l) ;;
    mret 0.
Definition fork (esp ebp eip : Z) : TM Z := l ← fork_begin; fork_body l esp ebp eip.

Definition getpid : TM Z := t ← gett; k ← rd_task (current_task t); mret (t_id k).

(** ** Errors *)
Global Instance task_errno : Errno (tasks * S) := {|
  set_errno e := t ← gett; upd_task (current_task t) (set_terrno (errno_code e))
|}.
(** [CHECK_PERM]: whether the current task may operate on [a] *)
Definition may_operate (a : Z) : TM bool :=
  k ← rd_task a;
  t ← gett;
  c ← rd_task (current_task t);
  mret (negb (negb (t_uid k =? t_uid c) && negb (cap_test (t_uid c) CAP_KILL))).
(** [GET_TASK_BY_ID_NOZOMBIE]: [None] where it makes the function fail *)
Definition get_task_nozombie (id : Z) : TM (option Z) :=
  a ← id2task id;
  if a =? 0 then mret None
  else
    k ← rd_task a;
    mret (if decide (t_state k = TS_ZOMBIE) then None else Some a).

(** ** Sleeping and waking up *)
Definition sleep_self_body (old_eflags next esp ebp eip : Z) : TM (control Z) :=
  if eip =? 0xFFFFFFFF then RESTORE_EFLAGS old_eflags ;; mret (Return 0)
  else
    t ← gett;
    upd_task (current_task t) (set_regs esp ebp) ;;
    upd_task (current_task t) (set_eip eip) ;;
    c ← switch_task next old_eflags;
    mret (Jump c).
Definition sleep (id : Z) (sig_wakeup : Sigset) (esp ebp eip : Z) : TM (control Z) :=
  o ← get_task_nozombie id;
  match o with
  | None => e ← ERROR_RETURN ESRCH; mret (Return e)
  | Some target =>
    ok ← may_operate target;
    if negb ok then e ← ERROR_RETURN EPERM; mret (Return e)
    else
      old ← CLI_SAVE_EFLAGS;
      k ← rd_task target;
      if decide (t_state k = TS_RUNNING) then
        t ← gett;
        let self := target =? current_task t in
        next ← (if self then get_next_task else mret 0);
        queue_remove running target ;;
        queue_insert sleeping target ;;
        upd_task target (set_state TS_SLEEPING) ;;
        upd_task target (set_sig_wakeup (Sigset_copy sig_wakeup)) ;;
        if self then sleep_self_body old next esp ebp eip
        else RESTORE_EFLAGS old ;; mret (Return 0)
      else RESTORE_EFLAGS old ;; mret (Return 0)
  end.
Definition wakeup (id : Z) : TM Z :=
  o ← get_task_nozombie id;
  match o with
  | None => ERROR_RETURN ESRCH
  | Some target =>
    ok ← may_operate target;
    if negb ok then ERROR_RETURN EPERM
    else
      old ← CLI_SAVE_EFLAGS;
      k ← rd_task target;
      (if decide (t_state k = TS_SLEEPING) then
         queue_remove sleeping target ;;
         queue_insert running target ;;
         upd_task target (set_state TS_RUNNING)
       else mret tt) ;;
      RESTORE_EFLAGS old ;;
      mret 0
  end.

(** [exit] saves the flags over its argument, and that is all. *)
Definition exit (status : Z) : TM unit := CLI_SAVE_EFLAGS ;; mret tt.

Definition is_kernel : TM bool := t ← gett; mret (negb (switch_to_user_mode_called t)).
(** what [switch_to_user_mode] leaves for its [iret], and the data selector it
    loads *)
Record iret_frame : Type := IretFrame { i_eip : Z; i_cs : Z; i_eflags : Z; i_esp : Z; i_ss : Z }.
Definition switch_to_user_mode (addr esp : Z) : TM (iret_frame * Z) :=
  modt (with_user_mode true) ;;
  CLI_SAVE_EFLAGS ;;
  t ← gett;
  let data := Z.lor USER_DATA_SELECTOR 3 in
  mret (IretFrame addr (Z.lor USER_CODE_SELECTOR 3) (Z.lor (eflags t) EFLAGS_IF) esp data, data).
End Task.
