(* ===== verification/TaskQueue.v ===== *)
(** The circular queues of [core/task.cpp] as lists: what a queue's pointer and
    the links of its tasks mean, and what [insert] and [remove] do to that. *)
From S2P Require Import Prelude Common Errno Sigset Task.

(** * Links *)
Section Links.
Implicit Types (st : gmap Z Task_t) (a b x y z : Z) (l : list Z).

Definition nxt st a : option Z := t_queue_next <$> st !! a.
Definition prv st a : option Z := t_queue_prev <$> st !! a.

(** from [a] over the tasks of [l] to [b], linked both ways *)
Fixpoint path st a l b : Prop :=
  match l with
  | [] => nxt st a = Some b ∧ prv st b = Some a
  | x :: l => (nxt st a = Some x ∧ prv st x = Some a) ∧ path st x l b
  end.

(** A queue holds the tasks [l], its pointer being at the first. *)
Definition queue_ok st (ptr : Z) l : Prop :=
  NoDup l ∧ 0 ∉ l ∧ match l with [] => ptr = 0 | a :: l' => ptr = a ∧ path st a l' a end.

Lemma path_app st a l1 x l2 b : path st a (l1 ++ x :: l2) b ↔ path st a l1 x ∧ path st x l2 b.
Proof. revert a; induction l1 as [|y l1 IH]; intros a; simpl; [tauto|]. rewrite IH. tauto. Qed.

Lemma path_frame st st' a l b :
  (∀ x, x ∈ a :: l → nxt st' x = nxt st x) → (∀ y, y ∈ b :: l → prv st' y = prv st y) →
  path st a l b → path st' a l b.
Proof.
  revert a; induction l as [|x l IH]; intros a Hn Hp; simpl.
  - rewrite Hn, Hp by set_solver. done.
  - rewrite Hn, Hp by set_solver. intros [? Hpath]. split; [done|]. apply IH; [..|done]; set_solver.
Qed.

Lemma path_prev st a l b : path st a l b → ∃ z, prv st b = Some z ∧ z ∈ a :: l.
Proof.
  revert a; induction l as [|x l IH]; intros a; simpl.
  - intros [_ Hp]. exists a. split; [done|set_solver].
  - intros [_ Hp]. destruct (IH x Hp) as (z & Hz & Hin). exists z. split; [done|set_solver].
Qed.
Lemma path_next st a l b : path st a l b → ∃ y, nxt st a = Some y ∧ y ∈ b :: l.
Proof.
  destruct l as [|x l]; simpl.
  - intros [Hn _]. exists b. split; [done|set_solver].
  - intros [[Hn _] _]. exists x. split; [done|set_solver].
Qed.
Lemma path_dom st a l b x : path st a l b → x ∈ a :: l → is_Some (st !! x).
Proof.
  revert a; induction l as [|y l IH]; intros a; simpl.
  - intros [Hn _] Hx. apply list_elem_of_singleton in Hx as ->. unfold nxt in Hn. destruct (st !! a); [eauto|done].
  - intros [[Hn _] Hp] Hx. apply elem_of_cons in Hx as [->|Hx]; [|by eapply IH].
    unfold nxt in Hn. destruct (st !! a); [eauto|done].
Qed.

(** A task [t] put between [a] and what followed it. *)
Lemma path_insert st st' a t y l :
  path st a l a → NoDup (t :: a :: l) → nxt st a = Some y →
  nxt st' a = Some t → nxt st' t = Some y → prv st' t = Some a → prv st' y = Some t →
  (∀ b, b ≠ a → b ≠ t → nxt st' b = nxt st b) → (∀ b, b ≠ y → b ≠ t → prv st' b = prv st b) →
  path st' a (t :: l) a.
Proof.
  intros Hp Hnd Hy H1 H2 H3 H4 Hn Hv. nd. destruct l as [|x l]; simpl in *.
  - destruct Hp as [Hna _]. rewrite Hna in Hy. injection Hy as <-. done.
  - destruct Hp as [[Hna Hpx] Hp]. rewrite Hna in Hy. injection Hy as <-. split_and!; try done.
    eapply path_frame; [..|exact Hp].
    + intros b Hb. apply Hn; intros ->; set_solver.
    + intros b Hb. nd. apply Hv; intros ->; set_solver.
Qed.

(** A task [t] taken out from between [z] and [y]. *)
Lemma path_remove st st' c l1 t l2 a z y :
  path st c l1 t → path st t l2 a → NoDup (c :: l1 ++ t :: l2) → a ∉ l1 ++ t :: l2 →
  prv st t = Some z → nxt st t = Some y →
  nxt st' z = Some y → prv st' y = Some z →
  (∀ b, b ≠ z → b ≠ t → nxt st' b = nxt st b) → (∀ b, b ≠ y → b ≠ t → prv st' b = prv st b) →
  path st' c (l1 ++ l2) a.
Proof.
  revert c; induction l1 as [|x l1 IH]; intros c Hp1 Hp2 Hnd Ha Hz Hy H1 H2 Hn Hv; simpl in *.
  - destruct Hp1 as [_ Hpt]. rewrite Hpt in Hz. injection Hz as <-. nd.
    destruct l2 as [|x l2]; simpl in *.
    + destruct Hp2 as [Hnt _]. rewrite Hnt in Hy. injection Hy as <-. done.
    + destruct Hp2 as [[Hnt _] Hp2]. rewrite Hnt in Hy. injection Hy as <-. nd. split; [done|].
      eapply path_frame; [..|exact Hp2].
      * intros b Hb. apply Hn; intros ->; set_solver.
      * intros b Hb. apply Hv; intros ->; set_solver.
  - destruct Hp1 as [[Hnc Hpx] Hp1]. destruct (path_prev _ _ _ _ Hp1) as (z' & Hz' & Hin).
    rewrite Hz' in Hz. injection Hz as ->. destruct (path_next _ _ _ _ Hp2) as (y' & Hy' & Hyin).
    rewrite Hy' in Hy. injection Hy as ->.
    apply NoDup_cons in Hnd as [Hcn Hnd]. pose proof Hnd as Hnd'. apply NoDup_cons in Hnd' as [Hxn _].
    assert (c ≠ z ∧ c ≠ t) as [Hcz Hct] by (split; intros ->; set_solver).
    assert (x ≠ y ∧ x ≠ t) as [Hxy Hxt] by (split; intros ->; set_solver).
    split; [rewrite Hn, Hv by done; done|]. apply IH; try done. set_solver.
Qed.

(** the same queue, seen from its second task *)
Lemma path_rotate st a x l : path st a (x :: l) a → path st x (l ++ [a]) x.
Proof. intros [H1 H2]. apply path_app. split; [done|]. done. Qed.

Lemma queue_ok_frame st st' p l : (∀ a, a ∈ l → st' !! a = st !! a) → queue_ok st p l → queue_ok st' p l.
Proof.
  intros Hf (Hnd & H0 & Hq). split; [done|]. split; [done|]. destruct l as [|a l]; [done|].
  destruct Hq as [-> Hp]. split; [done|]. unfold nxt, prv in *.
  eapply path_frame; [..|exact Hp]; intros b Hb; unfold nxt, prv; by rewrite Hf by set_solver.
Qed.

(** Everything of a task but its links. *)
Definition core (k : Task_t) : Task_t := set_next 0 (set_prev 0 k).
Definition same_cores st st' : Prop := core <$> st' = core <$> st.
Lemma same_cores_trans st1 st2 st3 : same_cores st1 st2 → same_cores st2 st3 → same_cores st1 st3.
Proof. unfold same_cores. congruence. Qed.
Lemma same_cores_lookup st st' a k : same_cores st st' → st !! a = Some k → ∃ k', st' !! a = Some k' ∧ core k' = core k.
Proof.
  intros Hc Hk. assert (H : (core <$> st') !! a = (core <$> st) !! a) by (by rewrite Hc).
  rewrite !lookup_fmap, Hk in H. destruct (st' !! a) as [k'|]; [|discriminate H].
  apply (inj Some) in H. exists k'. by split.
Qed.
Lemma same_cores_alter st a f : (∀ k, core (f k) = core k) → same_cores st (alter f a st).
Proof.
  intros Hf. apply map_eq. intros b. rewrite !lookup_fmap. destruct (decide (b = a)) as [->|Hb].
  - rewrite lookup_alter_eq. destruct (st !! a); simpl; [by rewrite Hf|done].
  - by rewrite lookup_alter_ne by done.
Qed.

Lemma nxt_alter_eq st a v : is_Some (st !! a) → nxt (alter (set_next v) a st) a = Some v.
Proof. intros [k Hk]. unfold nxt. by rewrite lookup_alter_eq, Hk. Qed.
Lemma prv_alter_eq st a v : is_Some (st !! a) → prv (alter (set_prev v) a st) a = Some v.
Proof. intros [k Hk]. unfold prv. by rewrite lookup_alter_eq, Hk. Qed.
Lemma nxt_alter_ne st a b f : a ≠ b → nxt (alter f a st) b = nxt st b.
Proof. intros Hab. unfold nxt. by rewrite lookup_alter_ne by done. Qed.
Lemma prv_alter_ne st a b f : a ≠ b → prv (alter f a st) b = prv st b.
Proof. intros Hab. unfold prv. by rewrite lookup_alter_ne by done. Qed.
Lemma nxt_set_prev st a b v : nxt (alter (set_prev v) a st) b = nxt st b.
Proof.
  destruct (decide (a = b)) as [->|Hb]; [|by apply nxt_alter_ne].
  unfold nxt. rewrite lookup_alter_eq. by destruct (st !! b).
Qed.
Lemma prv_set_next st a b v : prv (alter (set_next v) a st) b = prv st b.
Proof.
  destruct (decide (a = b)) as [->|Hb]; [|by apply prv_alter_ne].
  unfold prv. rewrite lookup_alter_eq. by destruct (st !! b).
Qed.
Lemma alter_some st a b f : is_Some (st !! b) → is_Some (alter f a st !! b).
Proof.
  intros Hb. destruct (decide (a = b)) as [->|Hne].
  - rewrite lookup_alter_eq. destruct Hb as [k ->]. by eexists.
  - by rewrite lookup_alter_ne.
Qed.
End Links.

(** * The operations *)
Section Ops.
Context {S : Type} `{TaskEnv S}.
Implicit Types (t : tasks) (x : S) (a p : Z) (l : list Z) (st : gmap Z Task_t).

Lemma rd_task_run a t x k : store t !! a = Some k → rd_task a (t, x) = Ret (k, (t, x)).
Proof. intros Hk. unfold rd_task, mbind, M_bind, gett. simpl. by rewrite Hk. Qed.
Lemma upd_task_run a f t x :
  is_Some (store t !! a) → upd_task a f (t, x) = Ret (tt, (with_store (alter f a (store t)) t, x)).
Proof.
  intros [k Hk]. unfold upd_task, mbind, M_bind. rewrite (rd_task_run _ _ _ _ Hk). unfold modt. simpl.
  do 4 f_equal. apply map_eq. intros b. destruct (decide (b = a)) as [->|Hb].
  - by rewrite lookup_insert_eq, lookup_alter_eq, Hk.
  - by rewrite lookup_insert_ne, lookup_alter_ne by done.
Qed.
Lemma with_store_store st t : store (with_store st t) = st.
Proof. done. Qed.
Lemma with_store_twice st st' t : with_store st (with_store st' t) = with_store st t.
Proof. done. Qed.

(** The list a queue holds after [insert]. *)
Definition queue_ins a l : list Z := match l with [] => [a] | p :: l => p :: a :: l end.

Lemma nxt_some st a v : nxt st a = Some v → ∃ k, st !! a = Some k ∧ t_queue_next k = v.
Proof. unfold nxt. destruct (st !! a) as [k|]; [|done]. intros [= <-]. eauto. Qed.
Lemma prv_some st a v : prv st a = Some v → ∃ k, st !! a = Some k ∧ t_queue_prev k = v.
Proof. unfold prv. destruct (st !! a) as [k|]; [|done]. intros [= <-]. eauto. Qed.

Lemma queue_insert_ok q a t x l :
  queue_ok (store t) (q_ptr q t) l → a ∉ l → a ≠ 0 → is_Some (store t !! a) →
  ∃ st' p', queue_insert q a (t, x) = Ret (tt, (with_q q p' (with_store st' t), x)) ∧
    queue_ok st' p' (queue_ins a l) ∧ same_cores (store t) st' ∧ ∀ b, b ∉ a :: l → st' !! b = store t !! b.
Proof.
  intros (Hnd & H0 & Hq) Ha Ha0 Hsome. set (st := store t) in *. unfold queue_insert.
  rewrite (run_bind gett _ (t, x) t (t, x)) by done. destruct l as [|p l]; simpl in *.
  - rewrite Hq. simpl. rewrite (run_bind _ _ _ tt (with_q q a t, x)) by done.
    assert (Hsome' : is_Some (store (with_q q a t) !! a)) by exact Hsome.
    rewrite upd_task_run by done. exists (alter (λ k, set_prev a (set_next a k)) a st), a. split; [done|].
    destruct Hsome as [k Hk]. split; [split; [apply NoDup_singleton|split; [set_solver|]]|split].
    + split; [done|]. simpl. unfold nxt, prv. by rewrite lookup_alter_eq, Hk.
    + by apply same_cores_alter.
    + intros b Hb. apply lookup_alter_ne. set_solver.
  - destruct Hq as [Hptr Hp]. rewrite Hptr. destruct (Z.eqb_spec p 0) as [->|Hp0]; [set_solver|].
    destruct (path_next _ _ _ _ Hp) as (y & Hy & Hyin). apply nxt_some in Hy as (kp & Hkp & Hyp).
    rewrite (run_bind _ _ _ kp (t, x)) by (by apply rd_task_run). rewrite Hyp.
    assert (Hyd : is_Some (st !! y)) by (eapply path_dom; [exact Hp|set_solver]).
    pose (st1 := alter (set_next y) a st). pose (st2 := alter (set_prev a) y st1).
    pose (st3 := alter (set_next a) p st2). pose (st4 := alter (set_prev p) a st3).
    assert (Hpd : is_Some (st !! p)) by eauto.
    assert (a ≠ p) by set_solver. assert (a ≠ y) by set_solver.
    assert (Hk1 : nxt st1 a = Some y) by (by apply nxt_alter_eq).
    apply nxt_some in Hk1 as (k1 & Hk1 & Hk1y).
    rewrite (run_bind _ _ _ tt (with_store st1 t, x)) by (by apply upd_task_run).
    rewrite (run_bind _ _ _ k1 (with_store st1 t, x)) by (by apply rd_task_run). rewrite Hk1y.
    rewrite (run_bind _ _ _ tt (with_store st2 t, x)) by (rewrite upd_task_run; [done|by apply alter_some]).
    rewrite (run_bind _ _ _ tt (with_store st3 t, x)) by (rewrite upd_task_run; [done|by do 2 apply alter_some]).
    rewrite upd_task_run by (by do 3 apply alter_some). change (alter _ _ _) with st4.
    exists st4, p. split; [by destruct t, q; simpl in Hptr; subst|]. split; [split; [|split]|split].
    + nd. apply NoDup_cons. split; [set_solver|]. apply NoDup_cons. set_solver.
    + set_solver.
    + split; [done|]. apply (path_insert st st4 p a y l); try done.
      * apply NoDup_cons. split; [set_solver|done].
      * unfold nxt. by rewrite Hkp; simpl; rewrite Hyp.
      * unfold st4. rewrite nxt_set_prev. by apply nxt_alter_eq, alter_some, alter_some.
      * unfold st4, st3. rewrite nxt_set_prev, nxt_alter_ne by done. unfold st2. rewrite nxt_set_prev. by apply nxt_alter_eq.
      * unfold st4. by apply prv_alter_eq, alter_some, alter_some, alter_some.
      * unfold st4. rewrite prv_alter_ne by done. unfold st3. rewrite prv_set_next. by apply prv_alter_eq, alter_some.
      * intros b Hb1 Hb2. unfold st4, st3, st2, st1. rewrite nxt_set_prev, nxt_alter_ne, nxt_set_prev, nxt_alter_ne; done.
      * intros b Hb1 Hb2. unfold st4, st3, st2, st1. rewrite prv_alter_ne, prv_set_next, prv_alter_ne, prv_set_next; done.
    + unfold st4, st3, st2, st1. repeat (eapply same_cores_trans; [|by apply same_cores_alter]). done.
    + intros b Hb. unfold st4, st3, st2, st1. rewrite !lookup_alter_ne; [done|set_solver..].
Qed.

(** The list a queue holds after [remove]. *)
Definition queue_del a l : list Z := filter (λ b, b ≠ a) l.
Lemma queue_del_notin a l : a ∉ l → queue_del a l = l.
Proof.
  intros Ha. unfold queue_del. induction l as [|b l IH]; [done|]. rewrite filter_cons.
  rewrite decide_True by set_solver. f_equal. apply IH. set_solver.
Qed.
Lemma queue_del_head a l : a ∉ l → queue_del a (a :: l) = l.
Proof. intros Ha. unfold queue_del. rewrite filter_cons, decide_False by naive_solver. by apply queue_del_notin. Qed.
Lemma queue_del_mid a p l1 l2 : p ≠ a → a ∉ l1 ++ l2 → queue_del a (p :: l1 ++ a :: l2) = p :: l1 ++ l2.
Proof.
  intros Hp Ha. unfold queue_del. rewrite filter_cons, decide_True, filter_app by done.
  change (filter _ (a :: l2)) with (queue_del a (a :: l2)). change (filter _ l1) with (queue_del a l1).
  rewrite queue_del_head, queue_del_notin by set_solver. done.
Qed.

(** A task seen from the one the queue will begin with. *)
Lemma remove_split st p a l :
  queue_ok st p l → a ∈ l → nxt st p ≠ Some p →
  ∃ c l1 l2, path st c l1 a ∧ path st a l2 c ∧ NoDup (c :: l1 ++ a :: l2) ∧ queue_del a l = c :: l1 ++ l2 ∧
    c :: l1 ++ a :: l2 ≡ₚ l ∧ (if p =? a then nxt st p = Some c else p = c).
Proof.
  intros (Hnd & H0 & Hq) Ha Hnp. destruct l as [|p' l]; [by apply elem_of_nil in Ha|].
  destruct Hq as [-> Hp]. destruct (Z.eqb_spec p' a) as [->|Hpa].
  - destruct l as [|c l]; [by destruct Hp as [? _]|]. exists c, l, []. pose proof (path_rotate _ _ _ _ Hp) as Hr.
    apply path_app in Hr as [Hr1 Hr2]. apply NoDup_cons in Hnd as [Han Hnd].
    split_and!; try done.
    + change (c :: l ++ [a]) with ((c :: l) ++ [a]). apply NoDup_app. split_and!; [done| |apply NoDup_singleton]. set_solver.
    + rewrite queue_del_head, app_nil_r; done.
    + change (c :: l ++ [a]) with ((c :: l) ++ [a]). by rewrite Permutation_app_comm.
    + by destruct Hp as [[? _] _].
  - apply elem_of_cons in Ha as [->|Ha]; [done|]. apply list_elem_of_split in Ha as (l1 & l2 & ->).
    apply path_app in Hp as [Hp1 Hp2]. exists p', l1, l2. split_and!; try done.
    apply queue_del_mid; [done|]. apply NoDup_cons in Hnd as [_ Hnd]. nd. apply not_elem_of_app. split; [|done].
    intros Hin. set_solver.
Qed.

Lemma with_q_id q t : with_q q (q_ptr q t) t = t.
Proof. by destruct t, q. Qed.

Lemma queue_remove_ok q a t x l :
  queue_ok (store t) (q_ptr q t) l → a ∈ l →
  ∃ st' p', queue_remove q a (t, x) = Ret (tt, (with_q q p' (with_store st' t), x)) ∧
    queue_ok st' p' (queue_del a l) ∧ same_cores (store t) st' ∧ ∀ b, b ∉ l → st' !! b = store t !! b.
Proof.
  intros Hqok Ha. set (st := store t) in *. unfold queue_remove.
  rewrite (run_bind gett _ (t, x) t (t, x)) by done.
  assert (∃ kp, st !! q_ptr q t = Some kp) as [kp Hkp].
  { destruct Hqok as (_ & _ & Hq). destruct l as [|p l]; [by apply elem_of_nil in Ha|]. destruct Hq as [-> Hp].
    destruct (path_dom _ _ _ _ p Hp ltac:(set_solver)) as [kp Hkp]. eauto. }
  rewrite (run_bind _ _ _ kp (t, x)) by (by apply rd_task_run).
  assert (Hnp : nxt st (q_ptr q t) = Some (t_queue_next kp)) by (unfold nxt; by rewrite Hkp).
  destruct (Z.eqb_spec (t_queue_next kp) (q_ptr q t)) as [Hself|Hself].
  - destruct Hqok as (Hnd & H0 & Hq). destruct l as [|p l]; [by apply elem_of_nil in Ha|]. destruct Hq as [Hptr Hp].
    rewrite Hself, Hptr in Hnp.
    destruct l as [|c l]; [|exfalso; destruct Hp as [[Hc _] _]; rewrite Hnp in Hc; injection Hc as ->; nd; set_solver].
    apply list_elem_of_singleton in Ha as ->. rewrite Hptr, Z.eqb_refl.
    rewrite (run_bind _ _ _ tt (t, x)) by done. exists st, 0. split; [done|].
    rewrite queue_del_head by apply not_elem_of_nil. split; [|done]. split; [constructor|]. split; [apply not_elem_of_nil|done].
  - destruct (remove_split st (q_ptr q t) a l Hqok Ha) as (c & l1 & l2 & Hp1 & Hp2 & Hnd & Hdel & Hperm & Hc).
    { rewrite Hnp. intros [= ?]. done. }
    destruct (path_prev _ _ _ _ Hp1) as (z & Hz & Hzin). destruct (path_next _ _ _ _ Hp2) as (y & Hy & Hyin).
    destruct (prv_some _ _ _ Hz) as (ka & Hka & Hkaz). destruct (nxt_some _ _ _ Hy) as (ka' & Hka' & Hkay).
    rewrite Hka in Hka'. injection Hka' as <-.
    assert (Hcn : c ∉ l1 ++ a :: l2) by (by apply NoDup_cons in Hnd as [? _]).
    assert (Hal : a ∉ c :: l1 ++ l2).
    { apply NoDup_cons in Hnd as [_ Hnd]. nd. apply not_elem_of_cons. split; [set_solver|].
      apply not_elem_of_app. split; [set_solver|done]. }
    assert (z ≠ a) by set_solver. assert (y ≠ a) by set_solver.
    rewrite (run_bind _ _ _ tt (with_q q c t, x)).
    2:{ destruct (q_ptr q t =? a); [|rewrite <- Hc, with_q_id; done].
        rewrite Hnp in Hc. injection Hc as ->. done. }
    rewrite (run_bind _ _ _ ka (with_q q c t, x)) by (by apply rd_task_run). rewrite Hkaz, Hkay.
    assert (Hzd : is_Some (st !! z)) by (eapply path_dom; [exact Hp1|done]).
    assert (Hyd : is_Some (st !! y)).
    { apply elem_of_cons in Hyin as [->|Hyin]; [eapply path_dom; [exact Hp1|set_solver]|eapply path_dom; [exact Hp2|set_solver]]. }
    pose (st1 := alter (set_next y) z st). pose (st2 := alter (set_prev z) y st1).
    pose (st3 := alter (λ k, set_prev 0 (set_next 0 k)) a st2).
    rewrite (run_bind _ _ _ tt (with_q q c (with_store st1 t), x)) by (by rewrite upd_task_run).
    assert (Hka1 : st1 !! a = Some ka) by (unfold st1; by rewrite lookup_alter_ne).
    rewrite (run_bind _ _ _ ka (with_q q c (with_store st1 t), x)) by (by apply rd_task_run). rewrite Hkaz, Hkay.
    rewrite (run_bind _ _ _ tt (with_q q c (with_store st2 t), x)) by (rewrite upd_task_run; [done|by apply alter_some]).
    rewrite upd_task_run by (do 2 apply alter_some; by eexists).
    exists st3, c. split; [done|].
    assert (Hn : ∀ b, b ≠ z → b ≠ a → nxt st3 b = nxt st b).
    { intros b Hb1 Hb2. unfold st3, st2, st1. by rewrite nxt_alter_ne, nxt_set_prev, nxt_alter_ne by done. }
    assert (Hv : ∀ b, b ≠ y → b ≠ a → prv st3 b = prv st b).
    { intros b Hb1 Hb2. unfold st3, st2, st1. by rewrite prv_alter_ne, prv_alter_ne, prv_set_next by done. }
    split; [|split].
    + rewrite Hdel. destruct Hqok as (Hndl & Hz0 & _). split; [|split; [|split; [done|]]].
      * rewrite <- Permutation_middle in Hnd. apply NoDup_cons in Hnd as [Hx Hnd]. apply NoDup_cons in Hnd as [_ Hnd].
        apply NoDup_cons. split; [set_solver|done].
      * intros Hin. apply Hz0. rewrite <- Hperm. set_solver.
      * apply (path_remove st st3 c l1 a l2 c z y); try done.
        { unfold st3, st2. rewrite nxt_alter_ne, nxt_set_prev by done. by apply nxt_alter_eq. }
        { unfold st3. rewrite prv_alter_ne by done. by apply prv_alter_eq, alter_some. }
    + unfold st3, st2, st1. repeat (eapply same_cores_trans; [|by apply same_cores_alter]). done.
    + intros b Hb. rewrite <- Hperm in Hb. unfold st3, st2, st1. rewrite !lookup_alter_ne; [done|set_solver..].
Qed.
End Ops.
