(* ===== verification/TaskOk.v ===== *)
(** The invariant of [core/task.cpp]: the queues partition the tasks by their
    state, and the tree of numbers, whose nodes lie inside the tasks, finds each
    task by its number; what each operation does to that. *)
From Stdlib Require Import ZifyBool.
From S2P Require Import Prelude Common Rbt RbTree RbtRep RbtFind Errno Sigset Task TaskQueue.

(** * The nodes inside the tasks *)
Definition task_region (a : Z) : Prop := KERNEL_HEAP_BEGIN ≤ a ∧ a + sizeof_Task_t ≤ KERNEL_HEAP_END.
Definition tasks_apart (a b : Z) : Prop := a + sizeof_Task_t ≤ b ∨ b + sizeof_Task_t ≤ a.
Definition node_region (b : Z) : Prop := valid_addr b ∧ KERNEL_HEAP_BEGIN ≤ b < KERNEL_HEAP_END.

Lemma node_of_task_in a :
  task_region a → a + rbt_node_offset ≤ node_of_task a ≤ a + rbt_node_offset + 1 ∧ node_region (node_of_task a).
Proof.
  intros [H1 H2]. unfold sizeof_Task_t in H2. rewrite KERNEL_HEAP_BEGIN_eq in H1. rewrite KERNEL_HEAP_END_eq in H2.
  unfold node_of_task, rbt_node_offset. rewrite (u32_small (a + 52)) by lia.
  assert (Hodd : Z.land (a + 52) 1 = (a + 52) mod 2) by (change 1 with (Z.ones 1); by rewrite Z.land_ones by lia).
  rewrite Hodd. pose proof (Z.mod_pos_bound (a + 52) 2 ltac:(lia)) as Hm. rewrite u32_small by lia.
  split; [lia|]. unfold node_region, valid_addr. rewrite KERNEL_HEAP_BEGIN_eq, KERNEL_HEAP_END_eq.
  split; [|lia]. split; [lia|]. apply Z.even_spec. pose proof (Z.div_mod (a + 52) 2 ltac:(lia)) as Hd.
  set (q := (a + 52) / 2) in *. set (r := (a + 52) mod 2) in *. exists (q + r). lia.
Qed.
Lemma node_of_task_inj a b : task_region a → task_region b → tasks_apart a b → node_of_task a ≠ node_of_task b.
Proof.
  intros Ha Hb Hab. pose proof (node_of_task_in a Ha) as [? _]. pose proof (node_of_task_in b Hb) as [? _].
  unfold tasks_apart, sizeof_Task_t, rbt_node_offset in *. lia.
Qed.

(** [rbt_alloc] serves one insertion per task made. *)
Definition task_pool_ready (q : task_pool) : Prop :=
  node_region (node_of_task (latest_task q)) ∧ node_of_task (latest_task q) ∉ task_nodes q.
Global Instance task_pool_laws : NodeAllocLaws task_pool.
Proof.
  refine {| pool_inv _ := True; pool_live := task_nodes; pool_room _ := True; pool_full := EmptyString; pool_ready := task_pool_ready;
    pool_gives q a := a = node_of_task (latest_task q);
    pool_region := node_region; pool_region_valid a Ha := proj1 Ha |}.
  - abstract (intros q _ [Hr Hn]; unfold wp; simpl; done).
  - abstract (intros q a _ Ha; unfold wp; simpl; done).
Defined.

Global Instance Pair_id_task_lt_laws : KeyLtLaws Pair_id_task.
Proof. split; intros [] []; [|intros []]; unfold key_lt, Pair_id_task_lt; simpl; lia. Qed.

(** * What the kernel promises the tasks *)
Class TaskEnvLaws (S : Type) `{TaskEnv S} : Type := {
  (** the memory given out for the tasks of [B] is still theirs *)
  env_inv : S → gset Z → Prop;
  (** the page directories, with their physical addresses; the current one *)
  env_dirs : S → Z → option Z;
  env_cur : S → Z;
  (** the kernel may stop for lack of memory *)
  env_fails : string → Prop;
  env_inv_mono x (B B' : gset Z) : env_inv x B → B' ⊆ B → env_inv x B';
  operator_new_ok x (B : gset Z) :
    env_inv x B →
    wp (operator_new sizeof_Task_t) (λ a x', task_region a ∧ (∀ b, b ∈ B → tasks_apart a b) ∧
      env_dirs x' = env_dirs x ∧ env_cur x' = env_cur x ∧ env_inv x' ({[a]} ∪ B)) env_fails x;
  env_clone_ok x B d :
    env_inv x B → is_Some (env_dirs x d) →
    wp (env_clone_directory d) (λ d' x', is_Some (env_dirs x' d') ∧
      (∀ e, is_Some (env_dirs x e) → env_dirs x' e = env_dirs x e) ∧
      env_cur x' = env_cur x ∧ env_inv x' B) env_fails x;
  env_get_cur x : get_current_page_dir x = Ret (env_cur x, x);
  env_set_cur_ok x B d :
    env_inv x B → is_Some (env_dirs x d) →
    ∃ x', set_current_page_dir d x = Ret (tt, x') ∧ env_cur x' = d ∧ env_dirs x' = env_dirs x ∧ env_inv x' B;
  env_phyaddr x d p : env_dirs x d = Some p → dir_phyaddr d x = Ret (p, x);
  env_move_stack_ok x B :
    env_inv x B →
    wp env_move_stack (λ _ x', (∀ d, env_dirs x' d = env_dirs x d) ∧ env_cur x' = env_cur x ∧ env_inv x' B) env_fails x
}.

(** * Which queue holds what *)
Global Instance queue_eq_dec : EqDecision queue.
Proof. solve_decision. Defined.
(** The state of the tasks of a queue, and what each queue holds. *)
Definition state_of (q : queue) : Task_state_t :=
  match q with running => TS_RUNNING | sleeping => TS_SLEEPING | zombie => TS_ZOMBIE end.
Global Instance state_of_inj : Inj (=) (=) state_of.
Proof. intros [] []; simpl; congruence. Qed.
Definition queued (ls : queue → list Z) : list Z := ls running ++ ls sleeping ++ ls zombie.
Definition upd_queue (q : queue) l (ls : queue → list Z) : queue → list Z := λ q', if decide (q' = q) then l else ls q'.

Section Queued.
Implicit Types (ls : queue → list Z) (l : list Z) (a b : Z) (q : queue) (st : gmap Z Task_t).
Lemma queued_in ls q a : a ∈ ls q → a ∈ queued ls.
Proof. unfold queued. destruct q; set_solver. Qed.
Lemma elem_of_queued ls a : a ∈ queued ls ↔ ∃ q, a ∈ ls q.
Proof.
  split; [|intros [q Hq]; by eapply queued_in]. unfold queued. rewrite !elem_of_app. intros [H|[H|H]]; eauto.
Qed.
Lemma queued_disjoint ls q q' a : NoDup (queued ls) → q ≠ q' → a ∈ ls q → a ∉ ls q'.
Proof.
  intros Hnd Hne Ha Ha'. unfold queued in Hnd. apply NoDup_app_dj in Hnd as (_ & H1 & Hnd).
  apply NoDup_app_dj in Hnd as (_ & H2 & _). apply dj_app_r in H1 as [H1 H3].
  destruct q, q'; try done;
    first [exact (H1 _ Ha Ha')|exact (H1 _ Ha' Ha)|exact (H2 _ Ha Ha')|exact (H2 _ Ha' Ha)|exact (H3 _ Ha Ha')|exact (H3 _ Ha' Ha)].
Qed.
Lemma queue_del_perm a l : NoDup l → a ∈ l → l ≡ₚ a :: queue_del a l.
Proof.
  intros Hnd Ha. apply list_elem_of_split in Ha as (l1 & l2 & ->).
  rewrite <- Permutation_middle in Hnd. apply NoDup_cons in Hnd as [Ha _].
  unfold queue_del. rewrite filter_app. change (filter _ (a :: l2)) with (queue_del a (a :: l2)).
  change (filter _ l1) with (queue_del a l1). rewrite queue_del_head, queue_del_notin by set_solver.
  by rewrite <- Permutation_middle.
Qed.
Lemma queue_ins_perm a l : queue_ins a l ≡ₚ a :: l.
Proof. destruct l as [|b l]; simpl; [done|]. constructor. Qed.
Lemma queued_upd q l ls a : l ≡ₚ a :: ls q → queued (upd_queue q l ls) ≡ₚ a :: queued ls.
Proof.
  intros Hl. unfold queued, upd_queue. destruct q; simpl; rewrite Hl; simpl; [done|..].
  - by rewrite <- Permutation_middle.
  - rewrite !app_assoc. by rewrite <- Permutation_middle.
Qed.
Lemma upd_queue_eq q l ls : upd_queue q l ls q = l.
Proof. unfold upd_queue. by rewrite decide_True. Qed.
Lemma upd_queue_ne q q' l ls : q' ≠ q → upd_queue q l ls q' = ls q'.
Proof. intros Hq. unfold upd_queue. by rewrite decide_False. Qed.
Lemma queued_same ls ls' : (∀ q, ls' q = ls q) → queued ls' = queued ls.
Proof. intros Hl. unfold queued. by rewrite !Hl. Qed.

Lemma core_id k k' : core k' = core k → t_id k' = t_id k ∧ t_state k' = t_state k ∧ t_page_dir k' = t_page_dir k.
Proof. destruct k, k'. unfold core. simpl. intros [=]. by subst. Qed.
Lemma same_cores_dom st st' a : same_cores st st' → is_Some (st' !! a) ↔ is_Some (st !! a).
Proof.
  intros Hc. assert (H : (core <$> st') !! a = (core <$> st) !! a) by (by rewrite Hc).
  rewrite !lookup_fmap in H. destruct (st' !! a), (st !! a); try discriminate H; split; intros Hs; (eauto || by destruct Hs).
Qed.

End Queued.

(** * The invariant *)
Section Ok.
Context {S : Type} `{!TaskEnv S} `{!TaskEnvLaws S}.
Context (NIL_task : Z) `{!NilAddr (P:=task_pool) NIL_task} (junk_node : node Pair_id_task) (junk_id : Z).
Implicit Types (t : tasks) (x : S) (ls : queue → list Z) (l out odd order : list Z) (a b : Z) (q : queue).

(** [ls q] are the tasks of the queue [q] from its pointer on; [order] lists all
    tasks in the order of their numbers. The tasks of [out] are on their way
    between two queues, the state of those in [odd] may not fit their queue. Some
    task is current once there is one in a queue. *)
Record tasks_inv (out odd : list Z) t x (ls : queue → list Z) order : Prop := {
  tk_queue q : queue_ok (store t) (q_ptr q t) (ls q);
  tk_all : order ≡ₚ out ++ queued ls;
  tk_nodup : NoDup order;
  tk_dom a : is_Some (store t !! a) ↔ a ∈ order;
  tk_state a k q : a ∉ odd → store t !! a = Some k → t_state k = state_of q ↔ a ∈ ls q;
  tk_ids (i : nat) a k : order !! i = Some a → store t !! a = Some k → t_id k = Z.of_nat i;
  tk_tree : ∃ l : list (Z * Pair_id_task), rbt_ok NIL_task (rbt_id2task t) l ∧ l.*2 = imap (λ i a, PairIdTask (Z.of_nat i) a) order;
  tk_next : next_pid t = Z.of_nat (length order);
  tk_live b : b ∈ task_nodes (pool (rbt_id2task t)) → ∃ a, a ∈ order ∧ b = node_of_task a;
  tk_mem a : a ∈ order → task_region a;
  tk_apart a b : a ∈ order → b ∈ order → a ≠ b → tasks_apart a b;
  tk_dirs a k : store t !! a = Some k → is_Some (env_dirs x (t_page_dir k));
  tk_cur_dir : is_Some (env_dirs x (env_cur x));
  tk_current : order ≠ out → current_task t ∈ order;
  tk_env : env_inv x (list_to_set order)
}.
Definition tasks_ok := tasks_inv [] [].

Lemma task_addr_pos a : task_region a → a ≠ 0.
Proof. intros [Ha _]. rewrite KERNEL_HEAP_BEGIN_eq in Ha. lia. Qed.

(** There are fewer tasks than numbers. *)
Lemma count_range (l : list Z) lo hi : NoDup l → (∀ a, a ∈ l → lo ≤ a < hi) → (length l ≤ Z.to_nat (hi - lo))%nat.
Proof.
  intros Hnd Hl. assert (Hsub : l ⊆+ seqZ lo (hi - lo)).
  { apply NoDup_submseteq; [done|]. intros a Ha. apply elem_of_seqZ. specialize (Hl a Ha). lia. }
  apply submseteq_length in Hsub. by rewrite length_seqZ in Hsub.
Qed.
Lemma tasks_few out odd t x ls order :
  tasks_inv out odd t x ls order → Z.of_nat (length order) ≤ 0x10000000.
Proof.
  intros Hok. pose proof (count_range order KERNEL_HEAP_BEGIN KERNEL_HEAP_END (tk_nodup _ _ _ _ _ _ Hok)) as H.
  rewrite KERNEL_HEAP_BEGIN_eq, KERNEL_HEAP_END_eq in H.
  assert (length order ≤ Z.to_nat (0xFFC00000 - 0xEFC00000))%nat; [|lia]. apply H. intros a Ha.
  destruct (tk_mem _ _ _ _ _ _ Hok a Ha) as [H1 H2]. unfold sizeof_Task_t in H2.
  rewrite KERNEL_HEAP_BEGIN_eq in H1. rewrite KERNEL_HEAP_END_eq in H2. lia.
Qed.

(** ** Looking a number up *)
Notation id_items order := (imap (λ i a, PairIdTask (Z.of_nat i) a) order).

Lemma ge_ids (l : list (Z * Pair_id_task)) order id a :
  l.*2 = id_items order → 0 ≤ id → ge_spec (PairIdTask id junk_id) l 0 a → (∀ b, b ∈ l.*1 → b ≠ 0) →
  match order !! Z.to_nat id with
  | Some b => a ≠ 0 ∧ (a, PairIdTask id b) ∈ l
  | None => a = 0
  end.
Proof.
  intros Hl Hid Hge Hnz.
  assert (Hlk : ∀ (i : nat) p, l !! i = Some p → ∃ b, order !! i = Some b ∧ p.2 = PairIdTask (Z.of_nat i) b).
  { intros i p Hp. assert (H : l.*2 !! i = Some p.2) by (by rewrite list_lookup_fmap, Hp).
    rewrite Hl, list_lookup_imap in H. destruct (order !! i) as [b|]; [|done]. injection H as H. eauto. }
  assert (Hlen : length l = length order) by (rewrite <- (length_fmap snd l), Hl, length_imap; done).
  destruct Hge as [[-> Hb]|(l1 & k & l2 & -> & Hb & Hk)].
  - destruct (order !! Z.to_nat id) as [b|] eqn:E; [|done]. exfalso.
    assert (∃ p, l !! Z.to_nat id = Some p) as [p Hp].
    { apply lookup_lt_is_Some_2. rewrite Hlen. by eapply lookup_lt_Some. }
    destruct (Hlk _ _ Hp) as (b' & _ & Hp2). apply (proj1 (Forall_lookup _ _) Hb) in Hp.
    rewrite Hp2 in Hp. unfold key_lt, Pair_id_task_lt in Hp. simpl in Hp. lia.
  - assert (Hat : (l1 ++ (a, k) :: l2) !! length l1 = Some (a, k)) by (by rewrite lookup_app_r, Nat.sub_diag by lia).
    destruct (Hlk _ _ Hat) as (b & Hob & Hkb). simpl in Hkb. subst k.
    unfold key_lt, Pair_id_task_lt in Hk. simpl in Hk.
    assert (length l1 = Z.to_nat id) as Hl1.
    { destruct (decide (length l1 ≤ Z.to_nat id)%nat) as [Hle|Hgt]; [lia|]. exfalso.
      destruct (lookup_lt_is_Some_2 l1 (Z.to_nat id) ltac:(lia)) as [p Hp].
      assert (Hp' : (l1 ++ (a, PairIdTask (Z.of_nat (length l1)) b) :: l2) !! Z.to_nat id = Some p).
      { rewrite lookup_app_l by lia. done. }
      destruct (Hlk _ _ Hp') as (b' & _ & Hp2). apply (proj1 (Forall_lookup _ _) Hb) in Hp.
      rewrite Hp2 in Hp. unfold key_lt, Pair_id_task_lt in Hp. simpl in Hp. lia. }
    rewrite <- Hl1, Hob. split; [apply Hnz; rewrite fmap_app; set_solver|].
    replace id with (Z.of_nat (length l1)) by lia. set_solver.
Qed.

Lemma id2task_ok out odd t x ls order id :
  tasks_inv out odd t x ls order → 0 ≤ id →
  id2task NIL_task junk_id id (t, x) = Ret (default 0 (order !! Z.to_nat id), (t, x)).
Proof.
  intros Hok Hid. destruct (tk_tree _ _ _ _ _ _ Hok) as (l & Hr & Hl).
  destruct (wp_returns _ _ _ (find_ge_ok (NIL:=NIL_task) (rbt_id2task t) l (PairIdTask id junk_id) (λ _, False) Hr))
    as (a & r' & Hrun & -> & Hge).
  assert (Hnz : ∀ b, b ∈ l.*1 → b ≠ 0).
  { intros b Hb. destruct (rbt_ok_live _ _ _ Hr Hb) as [[[? _] _] _]. lia. }
  pose proof (ge_ids l order id a Hl Hid Hge Hnz) as Hcase. unfold id2task.
  assert (Hon : on_tree (find_ge NIL_task (PairIdTask id junk_id)) (t, x) = Ret (a, (t, x))).
  { unfold on_tree. simpl. rewrite Hrun. by destruct t. }
  rewrite (run_bind _ _ _ _ _ Hon). destruct (order !! Z.to_nat id) as [b|]; simpl.
  - destruct Hcase as [Ha Hin]. apply Z.eqb_neq in Ha. rewrite Ha.
    destruct (wp_returns _ _ _ (rbt_get_key_ok (NIL:=NIL_task) (rbt_id2task t) l a _ (λ _, False) Hr Hin)) as (k & r' & Hk & -> & ->).
    unfold mbind, M_bind, on_tree. simpl. rewrite Hk. by destruct t.
  - by rewrite Hcase.
Qed.

(** A change of links and queue pointers only. *)
Lemma inv_relink out odd out' odd' t x ls ls' order q p st' :
  tasks_inv out odd t x ls order → same_cores (store t) st' →
  (∀ q', queue_ok st' (q_ptr q' (with_q q p (with_store st' t))) (ls' q')) →
  order ≡ₚ out' ++ queued ls' → current_task t ∈ order →
  (∀ a q', a ∉ odd' → a ∈ order → a ∉ odd ∧ (a ∈ ls' q' ↔ a ∈ ls q')) →
  tasks_inv out' odd' (with_q q p (with_store st' t)) x ls' order.
Proof.
  intros Hok Hc Hq Hall Hcur Hst.
  assert (Hlk : ∀ a k', st' !! a = Some k' → ∃ k, store t !! a = Some k ∧ core k' = core k).
  { intros a k' Hk'. destruct (proj1 (same_cores_dom _ _ a Hc) (ex_intro _ _ Hk')) as [k Hk].
    destruct (same_cores_lookup _ _ _ _ Hc Hk) as (k'' & Hk'' & Hck). exists k. split; [done|congruence]. }
  destruct Hok. split; simpl; try done.
  - intros a. rewrite (same_cores_dom _ _ a Hc). done.
  - intros a k q' Ha Hk. destruct (Hlk a k Hk) as (k0 & Hk0 & Hck). apply core_id in Hck as (_ & -> & _).
    destruct (Hst a q' Ha) as [Ha' Hiff]; [by apply tk_dom0; eexists|]. rewrite Hiff. by apply tk_state0.
  - intros i a k Hi Hk. destruct (Hlk a k Hk) as (k0 & Hk0 & Hck). apply core_id in Hck as (-> & _ & _). eauto.
  - intros a k Hk. destruct (Hlk a k Hk) as (k0 & Hk0 & Hck). apply core_id in Hck as (_ & _ & ->). eauto.
Qed.

Lemma q_ptr_with q q' p t : q_ptr q' (with_q q p t) = if decide (q' = q) then p else q_ptr q' t.
Proof. by destruct q, q'. Qed.

Lemma inv_remove odd t x ls order q a :
  tasks_inv [] odd t x ls order → a ∈ ls q →
  ∃ t', queue_remove q a (t, x) = Ret (tt, (t', x)) ∧
    tasks_inv [a] (a :: odd) t' x (upd_queue q (queue_del a (ls q)) ls) order ∧
    (∃ st' p, t' = with_q q p (with_store st' t) ∧ same_cores (store t) st').
Proof.
  intros Hok Ha. pose proof (tk_all _ _ _ _ _ _ Hok) as Hall. simpl in Hall.
  pose proof (tk_nodup _ _ _ _ _ _ Hok) as Hnd. rewrite Hall in Hnd.
  destruct (queue_remove_ok q a t x (ls q) (tk_queue _ _ _ _ _ _ Hok q) Ha) as (st' & p & Hrun & Hq & Hc & Hf).
  exists (with_q q p (with_store st' t)). split; [done|]. split; [|by eauto].
  assert (Hmem : ∀ b q', b ≠ a → b ∈ upd_queue q (queue_del a (ls q)) ls q' ↔ b ∈ ls q').
  { intros b q' Hb. unfold upd_queue. case_decide as E; [subst|done]. unfold queue_del. rewrite list_elem_of_filter. tauto. }
  apply (inv_relink [] odd) with (ls := ls); try done.
  - intros q'. rewrite q_ptr_with. unfold upd_queue. case_decide as E; [done|].
    apply (queue_ok_frame (store t)); [|apply Hok]. intros b Hb. apply Hf. by apply (queued_disjoint ls q' q).
  - etrans; [exact Hall|]. set (ls' := upd_queue q (queue_del a (ls q)) ls).
    assert (Hl : ls q ≡ₚ a :: ls' q).
    { unfold ls'. rewrite upd_queue_eq. apply queue_del_perm; [apply (tk_queue _ _ _ _ _ _ Hok q)|done]. }
    etrans; [|exact (queued_upd q (ls q) ls' a Hl)].
    rewrite (queued_same ls (upd_queue q (ls q) ls')); [done|]. intros q'. unfold ls', upd_queue. by case_decide; subst.
  - apply (tk_current _ _ _ _ _ _ Hok). intros ->. apply (queued_in ls q a) in Ha. rewrite <- Hall in Ha.
    by apply elem_of_nil in Ha.
  - intros b q' Hb _. split; [set_solver|]. apply Hmem. set_solver.
Qed.

Lemma inv_insert odd t x ls order q a :
  tasks_inv [a] odd t x ls order → a ∈ odd → current_task t ∈ order →
  ∃ t', queue_insert q a (t, x) = Ret (tt, (t', x)) ∧
    tasks_inv [] odd t' x (upd_queue q (queue_ins a (ls q)) ls) order ∧
    (∃ st' p, t' = with_q q p (with_store st' t) ∧ same_cores (store t) st').
Proof.
  intros Hok Hodd Hcur. pose proof (tk_all _ _ _ _ _ _ Hok) as Hall. simpl in Hall.
  pose proof (tk_nodup _ _ _ _ _ _ Hok) as Hnd. rewrite Hall in Hnd. apply NoDup_cons in Hnd as [Hna Hnd].
  assert (Hao : a ∈ order) by (rewrite Hall; set_solver).
  destruct (queue_insert_ok q a t x (ls q) (tk_queue _ _ _ _ _ _ Hok q)) as (st' & p & Hrun & Hq & Hc & Hf).
  { intros Ha. apply Hna. by apply (queued_in ls q). }
  { apply task_addr_pos, (tk_mem _ _ _ _ _ _ Hok _ Hao). } { by apply (tk_dom _ _ _ _ _ _ Hok). }
  exists (with_q q p (with_store st' t)). split; [done|]. split; [|by eauto].
  apply (inv_relink [a] odd) with (ls := ls); try done.
  - intros q'. rewrite q_ptr_with. unfold upd_queue. case_decide as E; [done|].
    apply (queue_ok_frame (store t)); [|apply Hok]. intros b Hb. apply Hf. apply not_elem_of_cons. split.
    + intros ->. apply Hna. by apply (queued_in ls q').
    + by apply (queued_disjoint ls q' q).
  - rewrite Hall. simpl. rewrite (queued_upd q _ ls a); [done|]. apply queue_ins_perm.
  - intros b q' Hb _. split; [done|]. unfold upd_queue. case_decide as E; [subst|done].
    rewrite queue_ins_perm. set_solver.
Qed.

(** The state fits the queue again. *)
Lemma inv_settle t x ls order q a k :
  tasks_inv [] [a] t x ls order → store t !! a = Some k → t_state k = state_of q → a ∈ ls q → tasks_ok t x ls order.
Proof.
  intros Hok Hk Hs Ha. pose proof (tk_nodup _ _ _ _ _ _ Hok) as Hnd. rewrite (tk_all _ _ _ _ _ _ Hok) in Hnd. simpl in Hnd.
  destruct Hok. split; try done. intros b kb q' _ Hkb. destruct (decide (b = a)) as [->|Hb]; [|apply tk_state0; set_solver].
  rewrite Hk in Hkb. injection Hkb as <-. rewrite Hs. split.
  - intros Heq. apply (inj state_of) in Heq as <-. done.
  - intros Hb'. destruct (decide (q = q')) as [<-|Hne]; [done|]. exfalso. by apply (queued_disjoint ls q q' a).
Qed.

(** A change of a task that leaves its number, directory and links alone. *)
Lemma inv_upd_task out odd t x ls order a f :
  tasks_inv out odd t x ls order → a ∈ order →
  (∀ k, t_id (f k) = t_id k ∧ t_queue_next (f k) = t_queue_next k ∧ t_queue_prev (f k) = t_queue_prev k ∧
        t_page_dir (f k) = t_page_dir k) →
  (a ∈ odd ∨ ∀ k, t_state (f k) = t_state k) →
  upd_task a f (t, x) = Ret (tt, (with_store (alter f a (store t)) t, x)) ∧
  tasks_inv out odd (with_store (alter f a (store t)) t) x ls order.
Proof.
  intros Hok Ha Hf Hs. assert (Hd : is_Some (store t !! a)) by (by apply (tk_dom _ _ _ _ _ _ Hok)).
  split; [by apply upd_task_run|].
  assert (Hn : ∀ b, nxt (alter f a (store t)) b = nxt (store t) b ∧ prv (alter f a (store t)) b = prv (store t) b).
  { intros b. unfold nxt, prv. destruct (decide (b = a)) as [->|Hb]; [|by rewrite lookup_alter_ne].
    rewrite lookup_alter_eq. destruct Hd as [k ->]. simpl. destruct (Hf k) as (_ & -> & -> & _). done. }
  assert (Hlk : ∀ b k', alter f a (store t) !! b = Some k' → ∃ k, store t !! b = Some k ∧ (k' = k ∨ (b = a ∧ k' = f k))).
  { intros b k' Hk'. destruct (decide (b = a)) as [->|Hb].
    - rewrite lookup_alter_eq in Hk'. destruct Hd as [k Hk]. rewrite Hk in Hk'. injection Hk' as <-. eauto.
    - rewrite lookup_alter_ne in Hk' by done. eauto. }
  destruct Hok. split; simpl; try done.
  - intros q. destruct (tk_queue0 q) as (H1 & H2 & H3). split; [done|]. split; [done|].
    change (q_ptr q (with_store _ t)) with (q_ptr q t). destruct (ls q) as [|b l]; [done|]. destruct H3 as [-> H3].
    split; [done|]. eapply path_frame; [..|exact H3]; intros c _; apply Hn.
  - intros b. rewrite <- tk_dom0. destruct (decide (b = a)) as [->|Hb]; [|by rewrite lookup_alter_ne].
    rewrite lookup_alter_eq. destruct Hd as [k ->]. simpl. split; eauto.
  - intros b k' q Hb Hk'. destruct (Hlk b k' Hk') as (k & Hk & [->|[-> ->]]); [by apply tk_state0|].
    destruct Hs as [Hs|Hs]; [done|]. rewrite Hs. by apply tk_state0.
  - intros i b k' Hi Hk'. destruct (Hlk b k' Hk') as (k & Hk & [->|[-> ->]]); [by eapply tk_ids0|].
    destruct (Hf k) as (-> & _). by eapply tk_ids0.
  - intros b k' Hk'. destruct (Hlk b k' Hk') as (k & Hk & [->|[-> ->]]); [by eapply tk_dirs0|].
    destruct (Hf k) as (_ & _ & _ & ->). by eapply tk_dirs0.
Qed.

(** Changes of the other variables. *)
Lemma inv_eflags out odd t x ls order v :
  tasks_inv out odd t x ls order → tasks_inv out odd (with_eflags v t) x ls order.
Proof. intros []. by split. Qed.
Lemma inv_current out odd t x ls order a :
  tasks_inv out odd t x ls order → a ∈ order → tasks_inv out odd (with_current_task a t) x ls order.
Proof. intros [] Ha. by split. Qed.
Lemma inv_env out odd t x x' ls order :
  tasks_inv out odd t x ls order → env_inv x' (list_to_set order) →
  (∀ e, is_Some (env_dirs x e) → env_dirs x' e = env_dirs x e) → is_Some (env_dirs x (env_cur x')) →
  tasks_inv out odd t x' ls order.
Proof.
  intros [] Hi Hd Hc. split; try done.
  - intros a k Hk. rewrite Hd; eauto.
  - by rewrite Hd.
Qed.
End Ok.
