(* ===== verification/TaskOps.v ===== *)
(** What creating, switching, suspending and resuming tasks does to the
    invariant of [TaskOk]. *)
From S2P Require Import Prelude Common Rbt RbTree RbtRep RbtFind Errno Sigset Task TaskQueue TaskOk.

Section Ops.
Context {S : Type} `{!TaskEnv S} `{!TaskEnvLaws S}.
Context (NIL_task : Z) `{!NilAddr (P:=task_pool) NIL_task} (junk_node : node Pair_id_task) (junk_id : Z).
Implicit Types (t : tasks) (x : S) (ls : queue → list Z) (out odd order : list Z) (a b : Z) (q : queue).
#[local] Abbreviation tasks_inv := (tasks_inv NIL_task).
#[local] Abbreviation tasks_ok := (tasks_ok NIL_task).

(** ** Creating *)
Lemma get_next_pid_ok out odd t x ls order :
  tasks_inv out odd t x ls order →
  get_next_pid NIL_task junk_id (t, x) =
    Ret (Z.of_nat (length order), (with_next_pid (Z.of_nat (length order) + 1) t, x)).
Proof.
  intros Hok. pose proof (tk_next _ _ _ _ _ _ _ Hok) as Hn. pose proof (tasks_few _ _ _ _ _ _ _ Hok) as Hfew.
  unfold get_next_pid. rewrite (run_bind gett _ (t, x) t (t, x)) by done.
  assert (Hfree : ∀ fuel, next_free_pid NIL_task junk_id fuel (t, x) = Ret (tt, (t, x))).
  { intros fuel. assert (Hid : id2task NIL_task junk_id (next_pid t) (t, x) = Ret (0, (t, x))).
    { rewrite (id2task_ok _ _ _ _ _ _ _ _ _ Hok) by lia. rewrite Hn, Nat2Z.id, lookup_ge_None_2 by lia. done. }
    destruct fuel; simpl; rewrite (run_bind gett _ (t, x) t (t, x)) by done; rewrite (run_bind _ _ _ _ _ Hid); done. }
  rewrite (run_bind _ _ _ _ _ (Hfree _)). rewrite (run_bind gett _ (t, x) t (t, x)) by done.
  unfold mbind, M_bind, modt. simpl. rewrite Hn, u32_small by lia. done.
Qed.

Lemma on_tree_wp {A} (m : M (rbt Pair_id_task task_pool) A) (Q : A → tasks * S → Prop) E t x :
  wp m (λ v r, Q v (with_id2task r t, x)) E (rbt_id2task t) → wp (on_tree m) Q E (t, x).
Proof. unfold wp, on_tree. simpl. by destruct (m (rbt_id2task t)) as [[? ?]| | |]. Qed.
Lemma lift_wp {A} (m : M S A) (Q : A → tasks * S → Prop) E t x :
  wp m (λ v x', Q v (t, x')) E x → wp (lift m) Q E (t, x).
Proof. unfold wp, lift. simpl. by destruct (m x) as [[? ?]| | |]. Qed.
Lemma modt_wp f (Q : unit → tasks * S → Prop) E t x : Q tt (f t, x) → wp (modt f) Q E (t, x).
Proof. done. Qed.

Lemma below_all n a (l : list (Z * Pair_id_task)) order l1 l2 :
  l.*2 = imap (λ i a, PairIdTask (Z.of_nat i) a) order → n = Z.of_nat (length order) → l = l1 ++ l2 →
  above (PairIdTask n a) l2 → l2 = [].
Proof.
  intros Hl -> -> Hab. destruct l2 as [|p l2]; [done|]. exfalso. apply Forall_cons in Hab as [Hp _].
  assert (Hlk : (l1 ++ p :: l2).*2 !! length l1 = Some p.2).
  { rewrite list_lookup_fmap, lookup_app_r, Nat.sub_diag by lia. done. }
  rewrite Hl, list_lookup_imap in Hlk. destruct (order !! length l1) as [b|] eqn:E; [|done].
  apply lookup_lt_Some in E. apply (inj Some) in Hlk. rewrite <- Hlk in Hp. unfold key_lt, Pair_id_task_lt in Hp. simpl in Hp. lia.
Qed.

Definition new_task (n dir : Z) : Task_t := MkTask n 0 0 0 dir TS_RUNNING junk_id junk_id 0 0 0 0 Sigset_init.

Lemma Task_t_init_ok t x ls order a dir :
  tasks_ok t x ls order → task_region a → (∀ b, b ∈ order → tasks_apart a b) →
  env_inv x ({[a]} ∪ list_to_set order) →
  is_Some (env_dirs x dir) →
  wp (Task_t_init NIL_task junk_node junk_id a dir)
    (λ _ s', ∃ t', s' = (t', x) ∧ tasks_inv [a] [a] t' x ls (order ++ [a]) ∧
       store t' = <[a := new_task (Z.of_nat (length order)) dir]> (store t) ∧ current_task t' = current_task t ∧
       eflags t' = eflags t)
    (λ _, False) (t, x).
Proof.
  intros Hok Hreg Hap Hblk Hdir.
  assert (Hna : a ∉ order).
  { intros Ha. specialize (Hap a Ha). unfold tasks_apart, sizeof_Task_t in Hap. lia. }
  pose proof (tasks_few _ _ _ _ _ _ _ Hok) as Hfew. set (n := Z.of_nat (length order)) in *.
  destruct (tk_tree _ _ _ _ _ _ _ Hok) as (l & Hr & Hl).
  set (t2 := with_id2task (MkRbt (nodes (rbt_id2task t)) (tree_root (rbt_id2task t))
     (TaskPool a (task_nodes (pool (rbt_id2task t))))) (with_store (<[a := new_task n dir]> (store t)) (with_next_pid (n + 1) t))).
  assert (Hr2 : rbt_ok NIL_task (rbt_id2task t2) l).
  { unfold t2. simpl. eapply (rbt_ok_pool_to _ _ (pool (rbt_id2task t))); [by destruct (rbt_id2task t)|done|].
    intros b Hb. apply (rbt_ok_live _ _ _ Hr Hb). }
  assert (Hready : pool_ready (pool (rbt_id2task t2))).
  { split; simpl; [by apply node_of_task_in|]. intros Hin. destruct (tk_live _ _ _ _ _ _ _ Hok _ Hin) as (b & Hb & Heq).
    pose proof (tk_mem _ _ _ _ _ _ _ Hok b Hb) as Hbr. by apply (node_of_task_inj a b Hreg Hbr (Hap b Hb)). }
  unfold Task_t_init. apply wp_bind. eapply wp_of_run; [exact (get_next_pid_ok _ _ _ _ _ _ Hok)|]. fold n.
  apply wp_bind, modt_wp, wp_bind, modt_wp, on_tree_wp.
  eapply wp_mono_E; [exact (insert_ok junk_node (rbt_id2task t2) l (PairIdTask n a) Hr2 Hready)| |intros ? [Hnr _]; by destruct Hnr].
  intros [] r' (c & l1 & l2 & Hsplit & _ & Hab & Hr' & Hfresh & Hlive & Hgive). simpl in Hgive.
  pose proof (below_all n a l order l1 l2 Hl eq_refl Hsplit Hab) as ->. rewrite app_nil_r in Hsplit. subst l1.
  exists (with_id2task r' t2). split; [reflexivity|]. split; [|done].
  assert (Hst : store (with_id2task r' t2) = <[a := new_task n dir]> (store t)) by done.
  assert (Hne : ∀ b, b ∈ order → (<[a := new_task n dir]> (store t)) !! b = store t !! b).
  { intros b Hb. apply lookup_insert_ne. by intros <-. }
  pose proof Hok as []. split; rewrite ?Hst; try done.
  - intros q. apply (queue_ok_frame (store t)); [|apply tk_queue]. intros b Hb. apply Hne.
    rewrite tk_all. simpl. by eapply queued_in.
  - rewrite tk_all. simpl. by rewrite Permutation_app_comm.
  - apply NoDup_app. split_and!; [done| |apply NoDup_singleton]. intros b Hb Hb'. apply list_elem_of_singleton in Hb' as ->. done.
  - intros b. rewrite elem_of_app, list_elem_of_singleton, <- tk_dom. destruct (decide (b = a)) as [->|Hb].
    + rewrite lookup_insert_eq. split; eauto.
    + rewrite lookup_insert_ne by done. naive_solver.
  - intros b k q Hb Hk. rewrite lookup_insert_ne in Hk by set_solver. apply tk_state; [set_solver|done].
  - intros i b k Hi Hk. apply lookup_app_Some in Hi as [Hi|[Hi Hb]].
    + rewrite Hne in Hk by (by eapply list_elem_of_lookup_2). by eapply tk_ids.
    + apply list_lookup_singleton_Some in Hb as [Hb <-]. rewrite lookup_insert_eq in Hk. injection Hk as <-.
      unfold n. simpl. lia.
  - exists (l ++ [(c, PairIdTask n a)]). split; [done|].
    rewrite fmap_app, Hl, imap_app. simpl. do 3 f_equal. by rewrite Nat.add_0_r.
  - simpl. rewrite length_app. simpl. lia.
  - simpl. change (pool_live (pool r')) with (task_nodes (pool r')) in Hlive. rewrite Hlive. intros b Hb.
    apply elem_of_union in Hb as [Hb|Hb].
    + apply elem_of_singleton in Hb as ->. exists a. split; [set_solver|done].
    + destruct (tk_live b Hb) as (d & Hd & ->). exists d. split; [set_solver|done].
  - intros b Hb. apply elem_of_app in Hb as [Hb|Hb]; [auto|]. apply list_elem_of_singleton in Hb as ->. done.
  - intros b d Hb Hd Hbd. apply elem_of_app in Hb as [Hb|Hb], Hd as [Hd|Hd].
    + auto.
    + apply list_elem_of_singleton in Hd as ->. specialize (Hap b Hb). unfold tasks_apart in *. lia.
    + apply list_elem_of_singleton in Hb as ->. auto.
    + apply list_elem_of_singleton in Hb as ->. apply list_elem_of_singleton in Hd as ->. done.
  - intros b k Hk. destruct (decide (b = a)) as [->|Hb].
    + rewrite lookup_insert_eq in Hk. by injection Hk as <-.
    + rewrite lookup_insert_ne in Hk by done. eauto.
  - simpl. intros Hne'. apply elem_of_app. left. apply tk_current. intros ->. by apply Hne'.
  - eapply env_inv_mono; [exact Hblk|]. rewrite list_to_set_app_L. set_solver.
Qed.

Lemma lift_cur t x : lift get_current_page_dir (t, x) = Ret (env_cur x, (t, x)).
Proof. unfold lift. simpl. by rewrite env_get_cur. Qed.

Lemma new_Task_t_ok t x ls order dir :
  tasks_ok t x ls order → is_Some (env_dirs x dir) →
  wp (new_Task_t NIL_task junk_node junk_id dir)
    (λ a s', ∃ t' x', s' = (t', x') ∧ a ∉ order ∧ tasks_inv [a] [a] t' x' ls (order ++ [a]) ∧
       store t' = <[a := new_task (Z.of_nat (length order)) dir]> (store t) ∧ current_task t' = current_task t ∧
       eflags t' = eflags t ∧ env_cur x' = env_cur x ∧ env_dirs x' = env_dirs x)
    env_fails (t, x).
Proof.
  intros Hok Hdir. unfold new_Task_t. apply wp_bind, lift_wp.
  eapply wp_mono; [apply operator_new_ok, Hok|]. intros a x' (Hreg & Hap & Hdirs & Hcur & Hinv).
  assert (Hok' : tasks_ok t x' ls order).
  { destruct Hok. split; rewrite ?Hcur, ?Hdirs; try done. eapply env_inv_mono; [exact Hinv|]. set_solver. }
  apply wp_bind. eapply wp_mono_E; [apply (Task_t_init_ok t x' ls order a dir Hok' Hreg)| |done].
  - intros b Hb. apply Hap. by apply elem_of_list_to_set.
  - exact Hinv.
  - by rewrite Hdirs.
  - intros [] s' (t' & -> & Hok2 & Hst & Hc & He). apply wp_ret. exists t', x'. split_and!; try done.
    intros Ha. apply (elem_of_list_to_set (C:=gset Z)) in Ha. specialize (Hap a Ha).
    unfold tasks_apart, sizeof_Task_t in Hap. lia.
Qed.

Definition masked (v : Z) : Z := Z.ldiff v EFLAGS_IF.
Lemma cli_run t x : CLI_SAVE_EFLAGS (S:=S) (t, x) = Ret (eflags t, (with_eflags (masked (eflags t)) t, x)).
Proof. done. Qed.

(** The child as [fork] leaves it, and what it keeps of the other tasks. *)
Record forked (t : tasks) (cur child : Z) (n : Z) (t' : tasks) : Prop := {
  fk_child : ∃ k p, store t' !! child = Some k ∧ store t !! cur = Some p ∧ t_id k = n ∧ t_par k = cur ∧
               t_uid k = t_uid p ∧ t_gid k = t_gid p ∧ t_state k = TS_RUNNING;
  fk_others b : b ≠ child → core <$> store t' !! b = core <$> store t !! b
}.

Lemma fork_begin_ok t x ls order :
  tasks_ok t x ls order → order ≠ [] →
  wp (fork_begin NIL_task junk_node junk_id)
    (λ l s', ∃ t' x' child, s' = (t', x') ∧ l = ForkLocals (eflags t) (current_task t) child ∧ child ∉ order ∧
       tasks_ok t' x' (upd_queue running (queue_ins child (ls running)) ls) (order ++ [child]) ∧
       forked t (current_task t) child (Z.of_nat (length order)) t' ∧
       current_task t' = current_task t ∧ eflags t' = masked (eflags t) ∧ env_cur x' = env_cur x)
    env_fails (t, x).
Proof.
  intros Hok Hne. unfold fork_begin. apply wp_bind. eapply wp_of_run; [exact (cli_run t x)|].
  set (t0 := with_eflags (masked (eflags t)) t).
  assert (Hok0 : tasks_ok t0 x ls order) by (by apply inv_eflags).
  apply wp_bind. eapply wp_of_run; [reflexivity|]. cbv zeta.
  apply wp_bind. eapply wp_of_run; [exact (lift_cur t0 x)|].
  apply wp_bind, lift_wp. eapply wp_mono; [apply env_clone_ok; apply Hok|].
  intros dir x1 (Hd1 & Hds & Hc1 & Hi1).
  assert (Hok1 : tasks_ok t0 x1 ls order).
  { apply (inv_env _ _ _ _ x); try done. rewrite Hc1. apply Hok. }
  apply wp_bind. eapply wp_mono; [exact (new_Task_t_ok t0 x1 ls order dir Hok1 Hd1)|].
  intros child s (t2 & x2 & -> & Hnew & Hok2 & Hst2 & Hc2 & He2 & Hcur2 & _).
  change (current_task t0) with (current_task t) in *.
  assert (Hcin : child ∈ order ++ [child]) by set_solver.
  assert (Hcur : current_task t ∈ order) by exact (tk_current _ _ _ _ _ _ _ Hok Hne).
  destruct (inv_upd_task _ _ _ _ _ _ _ child (set_parent (current_task t)) Hok2 Hcin) as [Hrun3 Hok3]; [by intros; split_and!|by right|].
  set (t3 := with_store _ t2) in *.
  apply wp_bind. eapply wp_of_run; [exact Hrun3|].
  destruct (proj2 (tk_dom _ _ _ _ _ _ _ Hok (current_task t)) Hcur) as [p Hp].
  assert (Hcne : child ≠ current_task t) by (intros ->; done).
  assert (Hp3 : store t3 !! current_task t = Some p).
  { unfold t3. simpl. by rewrite lookup_alter_ne, Hst2, lookup_insert_ne by done. }
  apply wp_bind. eapply wp_of_run; [exact (rd_task_run _ _ _ _ Hp3)|].
  destruct (inv_upd_task _ _ _ _ _ _ _ child (set_ids (t_uid p) (t_gid p)) Hok3 Hcin) as [Hrun4 Hok4]; [by intros; split_and!|by right|].
  set (t4 := with_store _ t3) in *.
  apply wp_bind. eapply wp_of_run; [exact Hrun4|].
  assert (Hcur4 : current_task t4 ∈ order ++ [child]).
  { change (current_task t4) with (current_task t2). rewrite Hc2. set_solver. }
  destruct (inv_insert NIL_task [child] t4 x2 ls _ running child Hok4 ltac:(set_solver) Hcur4) as (t5 & Hrun5 & Hok5 & st' & pq & -> & Hsc).
  apply wp_bind. eapply wp_of_run; [exact Hrun5|]. apply wp_ret.
  set (t5 := with_q running pq (with_store st' t4)) in *.
  assert (Hch : store t4 !! child = Some (set_ids (t_uid p) (t_gid p) (set_parent (current_task t) (new_task (Z.of_nat (length order)) dir)))).
  { unfold t4, t3. simpl. by rewrite !lookup_alter_eq, Hst2, lookup_insert_eq. }
  destruct (same_cores_lookup _ _ _ _ Hsc Hch) as (k & Hk & Hck).
  exists t5, x2, child. split; [done|]. split; [done|]. split; [done|]. split; [|split; [|split_and!]].
  - apply (inv_settle NIL_task t5 x2 _ _ running child k); try done.
    + apply core_id in Hck as (_ & -> & _). done.
    + rewrite upd_queue_eq, queue_ins_perm. set_solver.
  - split.
    + exists k, p. split_and!; try done; by (destruct k; unfold core in Hck; simpl in Hck; injection Hck; intros; subst).
    + intros b Hb. transitivity (core <$> store t4 !! b).
      * change (store t5) with st'. rewrite <- !lookup_fmap. by rewrite Hsc.
      * unfold t4, t3. simpl. by rewrite !lookup_alter_ne, Hst2, lookup_insert_ne by done.
  - exact Hc2.
  - exact He2.
  - by rewrite Hcur2, Hc1.
Qed.

(** ** Switching *)
Lemma queue_next_in (st : gmap Z Task_t) p (l : list Z) a :
  queue_ok st p l → a ∈ l → ∃ y, nxt st a = Some y ∧ y ∈ l.
Proof.
  intros (_ & _ & Hq) Ha. destruct l as [|c l]; [by apply elem_of_nil in Ha|]. destruct Hq as [_ Hp].
  assert (H : ∀ c d l, path st c l d → a ∈ c :: l → ∃ y, nxt st a = Some y ∧ y ∈ d :: l).
  { clear. intros c d l. revert c. induction l as [|x l IH]; intros c; simpl.
    - intros [Hn _] Ha. apply list_elem_of_singleton in Ha as ->. exists d. split; [done|set_solver].
    - intros [[Hn _] Hp] Ha. apply elem_of_cons in Ha as [->|Ha]; [exists x; split; [done|set_solver]|].
      destruct (IH x Hp Ha) as (y & Hy & Hin). exists y. split; [done|set_solver]. }
  exact (H c c l Hp Ha).
Qed.

Lemma inv_next out odd t x ls order a :
  tasks_inv out odd t x ls order → a ∈ queued ls → ∃ y q, nxt (store t) a = Some y ∧ y ∈ ls q ∧ a ∈ ls q ∧ y ∈ order.
Proof.
  intros Hok Ha. apply elem_of_queued in Ha as [q Hq].
  destruct (queue_next_in _ _ _ _ (tk_queue _ _ _ _ _ _ _ Hok q) Hq) as (y & Hy & Hin). exists y, q. split_and!; try done.
  rewrite (tk_all _ _ _ _ _ _ _ Hok). apply elem_of_app. right. by eapply queued_in.
Qed.

Lemma switch_task_ok out odd t x ls order a old :
  tasks_inv out odd t x ls order → a ∈ order →
  ∃ k x' phy, switch_task a old (t, x) =
      Ret (Cpu 0xFFFFFFFF (t_esp k) (t_ebp k) (t_eip k) phy, (with_eflags old (with_current_task a t), x')) ∧
    store t !! a = Some k ∧ env_dirs x (t_page_dir k) = Some phy ∧ env_cur x' = t_page_dir k ∧
    env_dirs x' = env_dirs x ∧
    tasks_inv out odd (with_eflags old (with_current_task a t)) x' ls order.
Proof.
  intros Hok Ha. destruct (proj2 (tk_dom _ _ _ _ _ _ _ Hok a) Ha) as [k Hk].
  destruct (tk_dirs _ _ _ _ _ _ _ Hok a k Hk) as [phy Hphy].
  destruct (env_set_cur_ok x (list_to_set order) (t_page_dir k)) as (x' & Hrun & Hcur & Hdirs & Hinv); [apply Hok|by eexists|].
  exists k, x', phy. split.
  - unfold switch_task. rewrite (run_bind _ _ _ tt (with_current_task a t, x)) by done.
    rewrite (run_bind _ _ _ k (with_current_task a t, x)) by (by apply rd_task_run).
    rewrite (run_bind _ _ _ tt (with_current_task a t, x')) by (unfold lift; simpl; by rewrite Hrun).
    rewrite (run_bind _ _ _ phy (with_current_task a t, x')); [done|].
    unfold lift. simpl. rewrite (env_phyaddr x' _ phy); [done|]. by rewrite Hdirs.
  - split_and!; try done. apply inv_eflags, inv_current; [|done].
    apply (inv_env _ _ _ _ x); try done; [by rewrite Hdirs|rewrite Hcur; by eexists].
Qed.

(** What the saving of the registers writes. *)
Definition saved (esp ebp eip : Z) (k : Task_t) : Task_t := set_eip eip (set_regs esp ebp k).
Lemma save_regs_ok out odd t x ls order a esp ebp eip :
  tasks_inv out odd t x ls order → a ∈ order →
  let t' := with_store (alter (saved esp ebp eip) a (store t)) t in
  (upd_task a (set_regs esp ebp) ;; upd_task a (set_eip eip)) (t, x) = Ret (tt, (t', x)) ∧
  tasks_inv out odd t' x ls order.
Proof.
  intros Hok Ha t'.
  destruct (inv_upd_task _ _ _ _ _ _ _ a (set_regs esp ebp) Hok Ha) as [H1 Hok1]; [by intros; split_and!|by right|].
  destruct (inv_upd_task _ _ _ _ _ _ _ a (set_eip eip) Hok1 Ha) as [H2 Hok2]; [by intros; split_and!|by right|].
  assert (Heq : with_store (alter (set_eip eip) a (alter (set_regs esp ebp) a (store t))) t = t').
  { unfold t'. f_equal. apply map_eq. intros b. destruct (decide (a = b)) as [->|Hb].
    - rewrite !lookup_alter_eq. by destruct (store t !! b).
    - by rewrite !lookup_alter_ne. }
  rewrite with_store_twice, with_store_store, Heq in H2. rewrite with_store_twice, with_store_store, Heq in Hok2.
  by rewrite (run_bind _ _ _ _ _ H1), H2.
Qed.

Lemma schedule_ok t x ls order esp ebp eip :
  tasks_ok t x ls order → order ≠ [] → eip ≠ 0xFFFFFFFF →
  ∃ t' x' c k next, schedule esp ebp eip (t, x) = Ret (Jump c, (t', x')) ∧ tasks_ok t' x' ls order ∧
    nxt (store t) (current_task t) = Some next ∧ current_task t' = next ∧ eflags t' = eflags t ∧
    store t' = alter (saved esp ebp eip) (current_task t) (store t) ∧
    store t' !! next = Some k ∧ c = Cpu 0xFFFFFFFF (t_esp k) (t_ebp k) (t_eip k) (default 0 (env_dirs x (t_page_dir k))) ∧
    env_cur x' = t_page_dir k ∧ env_dirs x' = env_dirs x.
Proof.
  intros Hok Hne Heip. unfold schedule. rewrite (run_bind _ _ _ _ _ (cli_run t x)). unfold schedule_body.
  apply Z.eqb_neq in Heip. rewrite Heip. set (t0 := with_eflags (masked (eflags t)) t).
  assert (Hok0 : tasks_ok t0 x ls order) by (by apply inv_eflags).
  rewrite (run_bind gett _ (t0, x) t0 (t0, x)) by done.
  assert (Hcur : current_task t ∈ order) by exact (tk_current _ _ _ _ _ _ _ Hok Hne).
  destruct (save_regs_ok _ _ _ _ _ _ (current_task t) esp ebp eip Hok0 Hcur) as [Hsave Hok1].
  set (t1 := with_store _ t0) in *. change (current_task t0) with (current_task t).
  rewrite <- bind_assoc. rewrite (run_bind _ _ _ _ _ Hsave).
  destruct (inv_next _ _ _ _ _ _ (current_task t) Hok) as (next & q & Hnext & _ & _ & Hnin).
  { pose proof (tk_all _ _ _ _ _ _ _ Hok) as Hall. by rewrite Hall in Hcur. }
  assert (Hnext1 : nxt (store t1) (current_task t) = Some next).
  { revert Hnext. unfold nxt, t1. simpl. rewrite lookup_alter_eq. by destruct (store t !! current_task t). }
  apply nxt_some in Hnext1 as (kc & Hkc & Hkn).
  assert (Hget : get_next_task (t1, x) = Ret (next, (t1, x))).
  { unfold get_next_task. rewrite (run_bind gett _ (t1, x) t1 (t1, x)) by done.
    rewrite (run_bind _ _ _ kc (t1, x)) by (by apply rd_task_run). by rewrite Hkn. }
  rewrite (run_bind _ _ _ _ _ Hget).
  destruct (switch_task_ok _ _ _ _ _ _ next (eflags t) Hok1 Hnin) as (k & x' & phy & Hsw & Hk & Hphy & Hcx & Hdx & Hok2).
  rewrite (run_bind _ _ _ _ _ Hsw). exists (with_eflags (eflags t) (with_current_task next t1)), x'.
  eexists _, k, next. split; [reflexivity|]. split_and!; try done. by rewrite Hphy.
Qed.

(** ** Looking a task up for an operation *)
Lemma get_task_ok t x ls order id :
  tasks_ok t x ls order → 0 ≤ id →
  get_task_nozombie NIL_task junk_id id (t, x) =
    Ret (match order !! Z.to_nat id with
         | Some a => if decide (a ∈ ls zombie) then None else Some a
         | None => None
         end, (t, x)).
Proof.
  intros Hok Hid. unfold get_task_nozombie. rewrite (run_bind _ _ _ _ _ (id2task_ok _ _ _ _ _ _ _ _ _ Hok Hid)).
  destruct (order !! Z.to_nat id) as [a|] eqn:E; simpl; [|done].
  assert (Ha : a ∈ order) by (by eapply list_elem_of_lookup_2).
  destruct (Z.eqb_spec a 0) as [->|_].
  { pose proof (tk_mem _ _ _ _ _ _ _ Hok 0 Ha) as Hr. by apply task_addr_pos in Hr. }
  destruct (proj2 (tk_dom _ _ _ _ _ _ _ Hok a) Ha) as [k Hk].
  rewrite (run_bind _ _ _ k (t, x)) by (by apply rd_task_run).
  pose proof (tk_state _ _ _ _ _ _ _ Hok a k zombie ltac:(apply not_elem_of_nil) Hk) as Hs. simpl in Hs.
  repeat case_decide; tauto || done.
Qed.

(** the permission [CHECK_PERM] asks for *)
Definition permitted (st : gmap Z Task_t) (cur a : Z) : Prop :=
  ∃ k c, st !! a = Some k ∧ st !! cur = Some c ∧ (t_uid k = t_uid c ∨ t_uid c = 0).
Lemma may_operate_ok t x ls order a :
  tasks_ok t x ls order → a ∈ order → order ≠ [] →
  ∃ ok : bool, may_operate a (t, x) = Ret (ok, (t, x)) ∧ (ok = true ↔ permitted (store t) (current_task t) a).
Proof.
  intros Hok Ha Hne. destruct (proj2 (tk_dom _ _ _ _ _ _ _ Hok a) Ha) as [k Hk].
  destruct (proj2 (tk_dom _ _ _ _ _ _ _ Hok _) (tk_current _ _ _ _ _ _ _ Hok Hne)) as [c Hc].
  eexists. split.
  - unfold may_operate. rewrite (run_bind _ _ _ k (t, x)) by (by apply rd_task_run).
    rewrite (run_bind gett _ (t, x) t (t, x)) by done.
    rewrite (run_bind _ _ _ c (t, x)) by (by apply rd_task_run). reflexivity.
  - unfold cap_test, permitted. rewrite negb_true_iff, andb_false_iff, !negb_false_iff, !Z.eqb_eq.
    split; [intros Hp; by exists k, c|]. intros (k' & c' & Hk' & Hc' & Hp). by simplify_eq.
Qed.

Lemma set_errno_ok t x ls order e :
  tasks_ok t x ls order → order ≠ [] →
  let t' := with_store (alter (set_terrno (errno_code e)) (current_task t) (store t)) t in
  set_errno e (t, x) = Ret (tt, (t', x)) ∧ tasks_ok t' x ls order.
Proof.
  intros Hok Hne t'. simpl. rewrite (run_bind gett _ (t, x) t (t, x)) by done.
  apply inv_upd_task; [done|exact (tk_current _ _ _ _ _ _ _ Hok Hne)|by intros; split_and!|by right].
Qed.
End Ops.
