(* ===== verification/TaskSleep.v ===== *)
(** What [sleep], [wakeup] and [init] of [core/task.cpp] do to the invariant of
    [TaskOk]. *)
From S2P Require Import Prelude Common Rbt RbTree RbtRep RbtFind Errno Sigset Task TaskQueue TaskOk TaskOps.

Section Sleep.
Context {S : Type} `{!TaskEnv S} `{!TaskEnvLaws S}.
Context (NIL_task : Z) `{!NilAddr (P:=task_pool) NIL_task} (junk_node : node Pair_id_task) (junk_id : Z).
Implicit Types (t : tasks) (x : S) (ls : queue → list Z) (order : list Z) (a b : Z) (q : queue) (sig : Sigset).
#[local] Abbreviation tasks_inv := (tasks_inv NIL_task).
#[local] Abbreviation tasks_ok := (tasks_ok NIL_task).
#[local] Abbreviation sleep := (sleep NIL_task junk_id).
#[local] Abbreviation wakeup := (wakeup NIL_task junk_id).

(** A task's way from one queue to another. *)
Definition moved_queues from to a ls : queue → list Z :=
  upd_queue to (queue_ins a (ls to)) (upd_queue from (queue_del a (ls from)) ls).

(** Only [a] changes, by [f] and in its links. *)
Definition only_changes (st st' : gmap Z Task_t) a (f : Task_t → Task_t) : Prop :=
  ∀ b, core <$> st' !! b = core <$> (if decide (b = a) then f <$> st !! b else st !! b).

Lemma move_ok t x ls order from to a :
  tasks_ok t x ls order → from ≠ to → a ∈ ls from →
  ∃ t1 t2 t3, queue_remove from a (t, x) = Ret (tt, (t1, x)) ∧ queue_insert to a (t1, x) = Ret (tt, (t2, x)) ∧
    upd_task a (set_state (state_of to)) (t2, x) = Ret (tt, (t3, x)) ∧
    tasks_ok t3 x (moved_queues from to a ls) order ∧
    current_task t3 = current_task t ∧ eflags t3 = eflags t ∧
    only_changes (store t) (store t3) a (set_state (state_of to)).
Proof.
  intros Hok Hft Ha.
  destruct (inv_remove NIL_task [] t x ls order from a Hok Ha) as (t1 & Hrun1 & Hok1 & st1 & p1 & Ht1 & Hc1).
  assert (Hao : a ∈ order).
  { pose proof (tk_all _ _ _ _ _ _ _ Hok) as Hall. rewrite Hall. simpl. by eapply queued_in. }
  assert (Hne : order ≠ []) by (intros ->; by apply elem_of_nil in Hao).
  assert (Hcur1 : current_task t1 ∈ order) by (rewrite Ht1; exact (tk_current _ _ _ _ _ _ _ Hok Hne)).
  destruct (inv_insert NIL_task [a] t1 x _ order to a Hok1 ltac:(set_solver) Hcur1) as (t2 & Hrun2 & Hok2 & st2 & p2 & Ht2 & Hc2).
  destruct (inv_upd_task NIL_task [] [a] t2 x _ order a (set_state (state_of to)) Hok2 Hao) as [Hrun3 Hok3];
    [by intros; split_and!|by left; set_solver|].
  set (t3 := with_store _ t2) in *. exists t1, t2, t3. split; [done|]. split; [done|]. split; [done|].
  assert (Hls : upd_queue from (queue_del a (ls from)) ls to = ls to) by (by apply upd_queue_ne).
  rewrite Hls in Hok3.
  destruct (proj2 (tk_dom _ _ _ _ _ _ _ Hok3 a) Hao) as [k Hk].
  split; [|split_and!].
  - apply (inv_settle NIL_task t3 x _ order to a k); [done|done| |].
    + unfold t3 in Hk. simpl in Hk. rewrite lookup_alter_eq in Hk. destruct (store t2 !! a); [|done]. by injection Hk as <-.
    + unfold moved_queues. rewrite upd_queue_eq, queue_ins_perm. set_solver.
  - unfold t3. simpl. by rewrite Ht2, Ht1; destruct from, to.
  - unfold t3. simpl. by rewrite Ht2, Ht1; destruct from, to.
  - intros b. assert (Hcb : core <$> store t2 !! b = core <$> store t !! b).
    { rewrite Ht2, <- !lookup_fmap. change (store (with_q _ _ (with_store st2 t1))) with st2. rewrite Hc2.
      rewrite Ht1. change (store (with_q _ _ (with_store st1 t))) with st1. by rewrite Hc1. }
    unfold t3. simpl. case_decide as E; [subst b|by rewrite lookup_alter_ne].
    rewrite lookup_alter_eq. destruct (store t2 !! a) as [k2|], (store t !! a) as [k1|]; simpl in *; try done.
    apply (inj Some) in Hcb. f_equal. unfold core in *. destruct k1, k2. simpl in *. by simplify_eq.
Qed.

Lemma restore_back t x : RESTORE_EFLAGS (S:=S) (eflags t) (with_eflags (masked (eflags t)) t, x) = Ret (tt, (t, x)).
Proof. by destruct t. Qed.

Section Target.
Context (t : tasks) (x : S) (ls : queue → list Z) (order : list Z) (id a : Z).
Context (Hok : tasks_ok t x ls order) (Hid : 0 ≤ id) (Hat : order !! Z.to_nat id = Some a).
Context (Hnz : a ∉ ls zombie).

Lemma target_in : a ∈ order.
Proof. by eapply list_elem_of_lookup_2. Qed.
Lemma target_ne : order ≠ [].
Proof. intros Heq. by rewrite Heq in Hat. Qed.
Lemma target_found : get_task_nozombie NIL_task junk_id id (t, x) = Ret (Some a, (t, x)).
Proof.
  rewrite (get_task_ok _ _ _ _ _ _ _ Hok Hid), Hat. by rewrite decide_False.
Qed.
(** Up to the point where the operation has interrupts off and looks at the
    target's state. *)
Lemma target_permitted :
  permitted (store t) (current_task t) a → may_operate a (t, x) = Ret (true, (t, x)).
Proof.
  intros Hp. destruct (may_operate_ok _ _ _ _ _ _ Hok target_in target_ne) as (ok & Hrun & Hiff).
  rewrite Hrun. by rewrite (proj2 Hiff Hp).
Qed.
Lemma target_refused :
  ¬ permitted (store t) (current_task t) a → may_operate a (t, x) = Ret (false, (t, x)).
Proof.
  intros Hp. destruct (may_operate_ok _ _ _ _ _ _ Hok target_in target_ne) as (ok & Hrun & Hiff).
  rewrite Hrun. destruct ok; [|done]. by destruct Hp; apply Hiff.
Qed.
Lemma target_state : ∃ k q, store t !! a = Some k ∧ t_state k = state_of q ∧ a ∈ ls q ∧ q ≠ zombie.
Proof.
  destruct (proj2 (tk_dom _ _ _ _ _ _ _ Hok a) target_in) as [k Hk].
  pose proof (tk_all _ _ _ _ _ _ _ Hok) as Hall. simpl in Hall.
  assert (Hq : a ∈ queued ls) by (rewrite <- Hall; apply target_in). apply elem_of_queued in Hq as [q Hq].
  exists k, q. split_and!; [done| |done|by intros ->].
  by apply (tk_state _ _ _ _ _ _ _ Hok a k q); [apply not_elem_of_nil|done|].
Qed.

Lemma wakeup_ok :
  permitted (store t) (current_task t) a →
  (a ∈ ls sleeping →
     ∃ t', wakeup id (t, x) = Ret (0, (t', x)) ∧ tasks_ok t' x (moved_queues sleeping running a ls) order ∧
       current_task t' = current_task t ∧ eflags t' = eflags t ∧
       only_changes (store t) (store t') a (set_state TS_RUNNING)) ∧
  (a ∉ ls sleeping → wakeup id (t, x) = Ret (0, (t, x))).
Proof.
  intros Hp. destruct target_state as (k & q & Hk & Hs & Hq & Hqz).
  set (t0 := with_eflags (masked (eflags t)) t).
  assert (Hok0 : tasks_ok t0 x ls order) by (by apply inv_eflags).
  unfold Task.wakeup. rewrite (run_bind _ _ _ _ _ target_found), (run_bind _ _ _ _ _ (target_permitted Hp)).
  cbn [negb]. cbv iota. rewrite (run_bind _ _ _ _ _ (cli_run t x)). fold t0.
  rewrite (run_bind _ _ _ k (t0, x)) by (by apply rd_task_run). split.
  - intros Ha. destruct (move_ok t0 x ls order sleeping running a Hok0 ltac:(done) Ha)
      as (t1 & t2 & t3 & Hr1 & Hr2 & Hr3 & Hok3 & Hc3 & He3 & Hch).
    assert (Hst : t_state k = TS_SLEEPING).
    { by apply (tk_state _ _ _ _ _ _ _ Hok a k sleeping); [apply not_elem_of_nil|done|]. }
    rewrite decide_True by done.
    rewrite (run_bind _ _ _ tt (t3, x)).
    2:{ rewrite (run_bind _ _ _ _ _ Hr1), (run_bind _ _ _ _ _ Hr2). exact Hr3. }
    rewrite (run_bind _ _ _ tt (with_eflags (eflags t) t3, x)) by done.
    exists (with_eflags (eflags t) t3). split; [done|]. split; [by apply inv_eflags|]. done.
  - intros Ha. rewrite decide_False.
    2:{ intros Hst. apply Ha. by apply (tk_state _ _ _ _ _ _ _ Hok a k sleeping); [apply not_elem_of_nil|done|]. }
    rewrite (run_bind _ _ _ tt (t0, x)) by done.
    rewrite (run_bind _ _ _ tt (t, x)); [done|]. apply restore_back.
Qed.

(** the two updates of a task that falls asleep *)
Definition slept sig (k : Task_t) : Task_t := set_sig_wakeup (Sigset_copy sig) (set_state TS_SLEEPING k).

Lemma sleep_ok sig esp ebp eip :
  permitted (store t) (current_task t) a → eip ≠ 0xFFFFFFFF →
  (a ∈ ls running → a ≠ current_task t →
     ∃ t', sleep id sig esp ebp eip (t, x) = Ret (Return 0, (t', x)) ∧
       tasks_ok t' x (moved_queues running sleeping a ls) order ∧
       current_task t' = current_task t ∧ eflags t' = eflags t ∧ only_changes (store t) (store t') a (slept sig)) ∧
  (a ∈ ls running → a = current_task t →
     ∃ t' x' c next, sleep id sig esp ebp eip (t, x) = Ret (Jump c, (t', x')) ∧
       tasks_ok t' x' (moved_queues running sleeping a ls) order ∧
       nxt (store t) a = Some next ∧ current_task t' = next ∧ eflags t' = eflags t ∧
       only_changes (store t) (store t') a (λ k, saved esp ebp eip (slept sig k)) ∧
       env_dirs x' = env_dirs x) ∧
  (a ∉ ls running → sleep id sig esp ebp eip (t, x) = Ret (Return 0, (t, x))).
Proof.
  intros Hp Heip. destruct target_state as (k & q & Hk & Hs & Hq & Hqz).
  set (t0 := with_eflags (masked (eflags t)) t).
  assert (Hok0 : tasks_ok t0 x ls order) by (by apply inv_eflags).
  assert (Hrunning : a ∈ ls running ↔ t_state k = TS_RUNNING).
  { symmetry. by apply (tk_state _ _ _ _ _ _ _ Hok a k running); [apply not_elem_of_nil|]. }
  unfold Task.sleep. rewrite (run_bind _ _ _ _ _ target_found), (run_bind _ _ _ _ _ (target_permitted Hp)).
  cbn [negb]. cbv iota. rewrite (run_bind _ _ _ _ _ (cli_run t x)). fold t0.
  rewrite (run_bind _ _ _ k (t0, x)) by (by apply rd_task_run).
  assert (Hmove : a ∈ ls running → ∃ t1 t2 t3 t4,
    queue_remove running a (t0, x) = Ret (tt, (t1, x)) ∧ queue_insert sleeping a (t1, x) = Ret (tt, (t2, x)) ∧
    upd_task a (set_state TS_SLEEPING) (t2, x) = Ret (tt, (t3, x)) ∧
    upd_task a (set_sig_wakeup (Sigset_copy sig)) (t3, x) = Ret (tt, (t4, x)) ∧
    tasks_ok t4 x (moved_queues running sleeping a ls) order ∧ current_task t4 = current_task t ∧
    only_changes (store t) (store t4) a (slept sig)).
  { intros Ha. destruct (move_ok t0 x ls order running sleeping a Hok0 ltac:(done) Ha)
      as (t1 & t2 & t3 & Hr1 & Hr2 & Hr3 & Hok3 & Hc3 & He3 & Hch).
    destruct (inv_upd_task NIL_task [] [] t3 x _ order a (set_sig_wakeup (Sigset_copy sig)) Hok3 target_in) as [Hr4 Hok4];
      [by intros; split_and!|by right|].
    exists t1, t2, t3. eexists. split; [done|]. split; [done|]. split; [done|]. split; [exact Hr4|]. split; [done|].
    split; [done|]. intros b. specialize (Hch b). simpl in *. case_decide as E; [subst b|by rewrite lookup_alter_ne].
    rewrite lookup_alter_eq. destruct (store t3 !! a) as [k3|], (store t !! a) as [k0|]; simpl in *; try done.
    apply (inj Some) in Hch. f_equal. unfold core, slept in *. destruct k3, k0. simpl in *. by simplify_eq. }
  split; [|split].
  - intros Ha Hne. destruct (Hmove Ha) as (t1 & t2 & t3 & t4 & Hr1 & Hr2 & Hr3 & Hr4 & Hok4 & Hc4 & Hch).
    rewrite decide_True by (by apply Hrunning). rewrite (run_bind gett _ (t0, x) t0 (t0, x)) by done. cbv zeta.
    apply Z.eqb_neq in Hne. change (current_task t0) with (current_task t). rewrite Hne.
    rewrite (run_bind _ _ _ 0 (t0, x)) by done.
    rewrite (run_bind _ _ _ _ _ Hr1), (run_bind _ _ _ _ _ Hr2), (run_bind _ _ _ _ _ Hr3), (run_bind _ _ _ _ _ Hr4).
    rewrite (run_bind _ _ _ tt (with_eflags (eflags t) t4, x)) by done.
    exists (with_eflags (eflags t) t4). split; [done|]. split; [by apply inv_eflags|]. done.
  - intros Ha Heq. destruct (Hmove Ha) as (t1 & t2 & t3 & t4 & Hr1 & Hr2 & Hr3 & Hr4 & Hok4 & Hc4 & Hch).
    rewrite decide_True by (by apply Hrunning). rewrite (run_bind gett _ (t0, x) t0 (t0, x)) by done. cbv zeta.
    change (current_task t0) with (current_task t). rewrite <- Heq, Z.eqb_refl.
    destruct (inv_next NIL_task _ _ _ _ _ _ a Hok) as (next & q' & Hnext & _ & _ & Hnin); [by eapply queued_in|].
    pose proof (nxt_some _ _ _ Hnext) as (kn & Hkn & Hknn). rewrite Hk in Hkn. injection Hkn as <-.
    rewrite (run_bind _ _ _ next (t0, x)).
    2:{ unfold get_next_task. rewrite (run_bind gett _ (t0, x) t0 (t0, x)) by done.
        change (current_task t0) with (current_task t). rewrite <- Heq.
        rewrite (run_bind _ _ _ k (t0, x)) by (by apply rd_task_run). by rewrite Hknn. }
    rewrite (run_bind _ _ _ _ _ Hr1), (run_bind _ _ _ _ _ Hr2), (run_bind _ _ _ _ _ Hr3), (run_bind _ _ _ _ _ Hr4).
    unfold sleep_self_body. apply Z.eqb_neq in Heip. rewrite Heip.
    rewrite (run_bind gett _ (t4, x) t4 (t4, x)) by done. rewrite Hc4, <- Heq.
    destruct (save_regs_ok NIL_task _ _ _ _ _ _ a esp ebp eip Hok4 target_in) as [Hsave Hok5].
    rewrite <- bind_assoc, (run_bind _ _ _ _ _ Hsave).
    destruct (switch_task_ok NIL_task _ _ _ _ _ _ next (eflags t) Hok5 Hnin) as (kx & x' & phy & Hsw & Hkx & Hphy & Hcx & Hdx & Hok6).
    rewrite (run_bind _ _ _ _ _ Hsw). eexists _, x', _, next. split; [reflexivity|]. split; [done|]. split; [done|].
    split; [done|]. split; [done|]. split; [|done]. intros b. specialize (Hch b). simpl in *.
    case_decide as E; [subst b|by rewrite lookup_alter_ne]. rewrite lookup_alter_eq.
    destruct (store t4 !! a) as [k4|], (store t !! a) as [k0|]; simpl in *; try done.
    apply (inj Some) in Hch. f_equal. unfold core, saved in *. destruct k4, k0. simpl in *. by simplify_eq.
  - intros Ha. rewrite decide_False by (by rewrite <- Hrunning).
    rewrite (run_bind _ _ _ tt (t, x)); [done|]. apply restore_back.
Qed.
End Target.
End Sleep.
