(* ===== verification/TaskProps.v ===== *)
(** The properties of the task component: what [fork], [sleep], [wakeup] and
    the lookup of a task do, that the scheduler is fair, and that no sequence of
    calls breaks the queues or the tree of numbers. *)
From S2P Require Import Prelude Common Rbt RbTree RbtRep RbtFind Errno Sigset Task TaskQueue TaskOk TaskOps TaskSleep.

Section Props.
Context {S : Type} `{!TaskEnv S} `{!TaskEnvLaws S}.
Context (NIL_task : Z) `{!NilAddr (P:=task_pool) NIL_task} (junk_node : node Pair_id_task) (junk_id : Z).
Implicit Types (t : tasks) (x : S) (ls : queue → list Z) (order : list Z) (a b : Z) (q : queue) (sig : Sigset).
#[local] Abbreviation tasks_inv := (tasks_inv NIL_task).
#[local] Abbreviation tasks_ok := (tasks_ok NIL_task).
#[local] Abbreviation sleep := (sleep NIL_task junk_id).
#[local] Abbreviation wakeup := (wakeup NIL_task junk_id).
#[local] Abbreviation fork := (fork NIL_task junk_node junk_id).

(** ** [fork] *)
Lemma fork_ok t x ls order esp ebp eip :
  tasks_ok t x ls order → order ≠ [] →
  wp (fork esp ebp eip)
    (λ v s', ∃ t' x' child k p, s' = (t', x') ∧ v = Z.of_nat (length order) ∧ child ∉ order ∧
       tasks_ok t' x' (upd_queue running (queue_ins child (ls running)) ls) (order ++ [child]) ∧
       current_task t' = current_task t ∧ eflags t' = eflags t ∧
       store t !! current_task t = Some p ∧ store t' !! child = Some k ∧
       t_id k = v ∧ t_par k = current_task t ∧ t_uid k = t_uid p ∧ t_gid k = t_gid p ∧ t_state k = TS_RUNNING ∧
       t_esp k = esp ∧ t_ebp k = ebp ∧ t_eip k = eip ∧
       (∀ b, b ≠ child → core <$> store t' !! b = core <$> store t !! b))
    env_fails (t, x).
Proof.
  intros Hok Hne. unfold Task.fork. apply wp_bind.
  eapply wp_mono; [exact (fork_begin_ok NIL_task junk_node junk_id t x ls order Hok Hne)|].
  intros l s (t1 & x1 & child & -> & -> & Hch & Hok1 & [Hfc Hfo] & Hc1 & He1 & _).
  destruct Hfc as (k & p & Hk & Hp & Hid & Hpar & Hu & Hg & Hst).
  unfold fork_body. apply wp_bind. eapply wp_of_run; [reflexivity|]. cbn [fst f_old_eflags par_task f_child].
  rewrite Hc1, Z.eqb_refl.
  assert (Hcin : child ∈ order ++ [child]) by set_solver.
  destruct (save_regs_ok NIL_task _ _ _ _ _ _ child esp ebp eip Hok1 Hcin) as [Hsave Hok2].
  set (t2 := with_store _ t1) in *. 
  assert (Hk2 : store t2 !! child = Some (saved esp ebp eip k)).
  { unfold t2. simpl. by rewrite lookup_alter_eq, Hk. }
  eapply wp_of_run with (a := t_id k) (s' := (with_eflags (eflags t) t2, x1)).
  - rewrite <- bind_assoc, (run_bind _ _ _ _ _ Hsave).
    rewrite (run_bind _ _ _ tt (with_eflags (eflags t) t2, x1)) by done.
    rewrite (run_bind _ _ _ (saved esp ebp eip k) (with_eflags (eflags t) t2, x1)) by (by apply rd_task_run). done.
  - exists (with_eflags (eflags t) t2), x1, child, (saved esp ebp eip k), p.
    split; [done|]. split; [done|]. split; [done|]. split; [by apply inv_eflags|]. split_and!; try done.
    intros b Hb. rewrite <- Hfo by done. unfold t2. simpl. by rewrite lookup_alter_ne.
Qed.

(** C10: [fork] makes exactly one new task and returns twice: in the parent it
    gives the child's number, which is fresh, and leaves the caller running
    with its interrupt flag restored; the child is the caller's, with its user
    and group, queued right behind the queue's pointer, and will continue where
    the caller read its own program counter, with the caller's stack and frame
    pointer; when it does, [fork] gives it 0. All other tasks stay as they
    are. *)
Theorem fork_correct t x ls order esp ebp eip :
  tasks_ok t x ls order → order ≠ [] →
  wp (fork esp ebp eip)
    (λ v s', ∃ t' x' child k p, s' = (t', x') ∧ v = Z.of_nat (length order) ∧ child ∉ order ∧
       tasks_ok t' x' (upd_queue running (queue_ins child (ls running)) ls) (order ++ [child]) ∧
       current_task t' = current_task t ∧ eflags t' = eflags t ∧
       store t !! current_task t = Some p ∧ store t' !! child = Some k ∧
       t_id k = v ∧ t_par k = current_task t ∧ t_uid k = t_uid p ∧ t_gid k = t_gid p ∧ t_state k = TS_RUNNING ∧
       t_esp k = esp ∧ t_ebp k = ebp ∧ t_eip k = eip ∧
       (∀ b, b ≠ child → core <$> store t' !! b = core <$> store t !! b) ∧
       (∀ t2 x2 esp' ebp', current_task t2 = child →
          fork_body (ForkLocals (eflags t) (current_task t) child) esp' ebp' 0xFFFFFFFF (t2, x2) =
          Ret (0, (with_eflags (eflags t) t2, x2))))
    env_fails (t, x).
Proof.
  intros Hok Hne. eapply wp_mono; [exact (fork_ok t x ls order esp ebp eip Hok Hne)|].
  intros v s' (t' & x' & child & k & p & H1 & H2 & Hch & H).
  exists t', x', child, k, p. split; [done|]. split; [done|]. split; [done|].
  destruct H as (G1 & G2 & G3 & G4 & G5 & G6 & G7 & G8 & G9 & G10 & G11 & G12 & G13 & G14).
  split_and!; try done.
  intros t2 x2 esp' ebp' Hc. unfold fork_body. rewrite (run_bind gett _ (t2, x2) t2 (t2, x2)) by done.
  cbn [par_task f_old_eflags]. rewrite Hc.
  destruct (Z.eqb_spec child (current_task t)) as [->|_]; [|done].
  by destruct (Hch (tk_current _ _ _ _ _ _ _ Hok Hne)).
Qed.

(** ** Finding a task *)
(** looking a number up finds the task that has this number, and nothing
    when there is none; the search, which would accept any greater number, never
    meets one, because the numbers in use are those below the next one. *)
Theorem id2task_exact t x ls order id :
  tasks_ok t x ls order → 0 ≤ id →
  ∃ a, id2task NIL_task junk_id id (t, x) = Ret (a, (t, x)) ∧
    ((a = 0 ∧ next_pid t ≤ id ∧ ∀ b k, store t !! b = Some k → t_id k ≠ id) ∨
     (∃ k, store t !! a = Some k ∧ t_id k = id ∧ id < next_pid t)).
Proof.
  intros Hok Hid. eexists. split; [exact (id2task_ok _ _ _ _ _ _ _ _ _ Hok Hid)|].
  rewrite (tk_next _ _ _ _ _ _ _ Hok). destruct (order !! Z.to_nat id) as [a|] eqn:E; simpl.
  - right. assert (Ha : a ∈ order) by (by eapply list_elem_of_lookup_2).
    destruct (proj2 (tk_dom _ _ _ _ _ _ _ Hok a) Ha) as [k Hk]. exists k. split; [done|].
    rewrite (tk_ids _ _ _ _ _ _ _ Hok _ a k E Hk). apply lookup_lt_Some in E. lia.
  - left. apply lookup_ge_None in E. split; [done|]. split; [lia|]. intros b k Hk Heq.
    assert (Hb : b ∈ order) by (apply (tk_dom _ _ _ _ _ _ _ Hok); by eexists).
    apply list_elem_of_lookup in Hb as [i Hi]. rewrite (tk_ids _ _ _ _ _ _ _ Hok i b k Hi Hk) in Heq.
    apply lookup_lt_Some in Hi. lia.
Qed.

(** ** [sleep] and [wakeup] *)
(** C16: [sleep] suspends a running task: it goes from the running queue to the
    sleeping one, with the signals that may wake it; for another task the
    caller goes on; the caller itself is saved and the task after it takes over.
    Calling it for a task that does not run has no effect. *)
Theorem sleep_correct t x ls order id a sig esp ebp eip :
  tasks_ok t x ls order → 0 ≤ id → order !! Z.to_nat id = Some a → a ∉ ls zombie →
  permitted (store t) (current_task t) a → eip ≠ 0xFFFFFFFF →
  (a ∈ ls running → a ≠ current_task t →
     ∃ t', sleep id sig esp ebp eip (t, x) = Ret (Return 0, (t', x)) ∧
       tasks_ok t' x (moved_queues running sleeping a ls) order ∧
       current_task t' = current_task t ∧ eflags t' = eflags t ∧ only_changes (store t) (store t') a (slept sig)) ∧
  (a ∈ ls running → a = current_task t →
     ∃ t' x' c next, sleep id sig esp ebp eip (t, x) = Ret (Jump c, (t', x')) ∧
       tasks_ok t' x' (moved_queues running sleeping a ls) order ∧
       nxt (store t) a = Some next ∧ current_task t' = next ∧ eflags t' = eflags t ∧
       only_changes (store t) (store t') a (λ k, saved esp ebp eip (slept sig k)) ∧
       env_dirs x' = env_dirs x) ∧
  (a ∉ ls running → sleep id sig esp ebp eip (t, x) = Ret (Return 0, (t, x))).
Proof. intros. eapply sleep_ok; done. Qed.

(** C20: [wakeup] returns a sleeping task to the running queue, right behind its
    pointer, with nothing else about it changed, and does nothing to a task that
    does not sleep; the caller always goes on, with its interrupt flag. *)
Theorem wakeup_correct t x ls order id a :
  tasks_ok t x ls order → 0 ≤ id → order !! Z.to_nat id = Some a → a ∉ ls zombie →
  permitted (store t) (current_task t) a →
  (a ∈ ls sleeping →
     ∃ t', wakeup id (t, x) = Ret (0, (t', x)) ∧ tasks_ok t' x (moved_queues sleeping running a ls) order ∧
       current_task t' = current_task t ∧ eflags t' = eflags t ∧
       only_changes (store t) (store t') a (set_state TS_RUNNING)) ∧
  (a ∉ ls sleeping → wakeup id (t, x) = Ret (0, (t, x))).
Proof. intros. eapply wakeup_ok; done. Qed.

(** Why a call on the task numbered [id] is refused. *)
Inductive refused t ls order (id : Z) : errno_t → Prop :=
| refused_no_task : order !! Z.to_nat id = None → refused t ls order id ESRCH
| refused_zombie a : order !! Z.to_nat id = Some a → a ∈ ls zombie → refused t ls order id ESRCH
| refused_perm a : order !! Z.to_nat id = Some a → a ∉ ls zombie →
    ¬ permitted (store t) (current_task t) a → refused t ls order id EPERM.

Lemma refused_run t x ls order id e sig esp ebp eip :
  tasks_ok t x ls order → order ≠ [] → 0 ≤ id → refused t ls order id e →
  let t' := with_store (alter (set_terrno (errno_code e)) (current_task t) (store t)) t in
  sleep id sig esp ebp eip (t, x) = Ret (Return (-1), (t', x)) ∧ wakeup id (t, x) = Ret (-1, (t', x)) ∧
  tasks_ok t' x ls order.
Proof.
  intros Hok Hne Hid Href t'. destruct (set_errno_ok NIL_task t x ls order e Hok Hne) as [Hset Hok']. fold t' in Hset, Hok'.
  assert (Herr : ERROR_RETURN e (t, x) = Ret (-1, (t', x))).
  { unfold ERROR_RETURN. by rewrite (run_bind _ _ _ _ _ Hset). }
  unfold Task.sleep, Task.wakeup. destruct Href as [Hn|a Ha Hz|a Ha Hz Hp].
  - pose proof (get_task_ok NIL_task junk_id t x ls order id Hok Hid) as Hg. rewrite Hn in Hg.
    rewrite !(run_bind _ _ _ _ _ Hg), (run_bind _ _ _ _ _ Herr). done.
  - pose proof (get_task_ok NIL_task junk_id t x ls order id Hok Hid) as Hg. rewrite Ha, decide_True in Hg by done.
    rewrite !(run_bind _ _ _ _ _ Hg), (run_bind _ _ _ _ _ Herr). done.
  - pose proof (get_task_ok NIL_task junk_id t x ls order id Hok Hid) as Hg. rewrite Ha, decide_False in Hg by done.
    assert (Hm : may_operate a (t, x) = Ret (false, (t, x))).
    { destruct (may_operate_ok NIL_task t x ls order a Hok) as (ok & Hrun & Hiff);
        [by eapply list_elem_of_lookup_2|done|]. rewrite Hrun. destruct ok; [|done]. by destruct Hp; apply Hiff. }
    rewrite !(run_bind _ _ _ _ _ Hg), !(run_bind _ _ _ _ _ Hm). cbn [negb]. cbv iota.
    rewrite (run_bind _ _ _ _ _ Herr). done.
Qed.

(** C30: [sleep] and [wakeup] refuse a number no task has, and a zombie's, with
    [ESRCH], and a task of another user with [EPERM] unless the caller is the
    superuser; then the error number of the caller is all that changes, and
    whoever is refused by one is refused by the other. *)
Theorem task_errors t x ls order id e sig esp ebp eip :
  tasks_ok t x ls order → order ≠ [] → 0 ≤ id → refused t ls order id e →
  let t' := with_store (alter (set_terrno (errno_code e)) (current_task t) (store t)) t in
  sleep id sig esp ebp eip (t, x) = Ret (Return (-1), (t', x)) ∧ wakeup id (t, x) = Ret (-1, (t', x)) ∧
  tasks_ok t' x ls order.
Proof. apply refused_run. Qed.

(** ** Fairness *)
(** A call of [schedule] by whatever task runs, for each element: the registers
    it would save. *)
Definition schedules (regs : list (Z * Z * Z)) : M (tasks * S) unit :=
  for_each regs (λ '(esp, ebp, eip), schedule esp ebp eip ;; mret tt).

Lemma path_nth st a (l : list Z) b (i : nat) y : path st a l b → (a :: l) !! i = Some y → nxt st y = (l ++ [b]) !! i.
Proof.
  revert a i; induction l as [|x l IH]; intros a i; simpl.
  - intros [Hn _] Hi. apply list_lookup_singleton_Some in Hi as [-> ->]. done.
  - intros [[Hn _] Hp] Hi. destruct i as [|i]; simpl in *; [by injection Hi as ->|]. by eapply IH.
Qed.
Lemma queue_nth st p (l : list Z) (i : nat) y :
  queue_ok st p l → l !! i = Some y → nxt st y = l !! (Datatypes.S i mod length l)%nat.
Proof.
  intros (_ & _ & Hq) Hi. destruct l as [|a l]; [done|]. destruct Hq as [_ Hp].
  rewrite (path_nth st a l a i y Hp Hi). apply lookup_lt_Some in Hi. cbn [length] in *.
  destruct (decide (i = length l)) as [->|Hne].
  - rewrite Nat.Div0.mod_same. simpl. by rewrite lookup_app_r, Nat.sub_diag by lia.
  - rewrite Nat.mod_small by lia. rewrite lookup_app_l by lia. done.
Qed.

Lemma schedules_ok t x ls order (i : nat) regs :
  tasks_ok t x ls order → order ≠ [] → ls running !! i = Some (current_task t) →
  Forall (λ r, r.2 ≠ 0xFFFFFFFF) regs →
  ∃ t' x', schedules regs (t, x) = Ret (tt, (t', x')) ∧ tasks_ok t' x' ls order ∧
    ls running !! ((i + length regs) mod length (ls running))%nat = Some (current_task t') ∧
    eflags t' = eflags t ∧ env_dirs x' = env_dirs x ∧
    (∀ b, (∀ j : nat, (j < length regs)%nat → ls running !! ((i + j) mod length (ls running))%nat ≠ Some b) →
       store t' !! b = store t !! b).
Proof.
  revert t x i; induction regs as [|[[esp ebp] eip] regs IH]; intros t x i Hok Hne Hi Hregs.
  - exists t, x. pose proof (lookup_lt_Some _ _ _ Hi) as Hlt. simpl. rewrite Nat.add_0_r, Nat.mod_small by done.
    done.
  - apply Forall_cons in Hregs as [Heip Hregs].
    destruct (schedule_ok NIL_task t x ls order esp ebp eip Hok Hne Heip)
      as (t1 & x1 & c & k & next & Hrun & Hok1 & Hnext & Hc1 & He1 & Hst1 & _ & _ & _ & Hd1).
    pose proof (lookup_lt_Some _ _ _ Hi) as Hlt. set (n := length (ls running)) in *.
    rewrite (queue_nth _ _ _ i _ (tk_queue _ _ _ _ _ _ _ Hok running) Hi) in Hnext. fold n in Hnext.
    rewrite <- Hc1 in Hnext.
    destruct (IH t1 x1 (Datatypes.S i mod n)%nat Hok1 Hne Hnext Hregs) as (t2 & x2 & Hrun2 & Hok2 & Hc2 & He2 & Hd2 & Hst2).
    assert (Hmod : ∀ j : nat, ((Datatypes.S i mod n + j) mod n = (i + Datatypes.S j) mod n)%nat).
    { intros j. rewrite Nat.Div0.add_mod_idemp_l. f_equal. lia. }
    exists t2, x2. split; [|split; [done|split; [|split; [|split]]]].
    + unfold schedules. simpl. unfold mbind at 1, M_bind at 1. unfold mbind at 1, M_bind at 1. rewrite Hrun. exact Hrun2.
    + rewrite <- Hc2. simpl. by rewrite <- Hmod.
    + by rewrite He2.
    + by rewrite Hd2.
    + intros b Hb. rewrite Hst2.
      * rewrite Hst1. apply lookup_alter_ne. intros <-. apply (Hb 0%nat); [simpl; lia|].
        rewrite Nat.add_0_r, Nat.mod_small by done. done.
      * intros j Hj. rewrite Hmod. apply Hb. simpl. lia.
Qed.

(** From anywhere in the queue every running task is less than a round away. *)
Lemma schedules_reach t x ls order regs b :
  tasks_ok t x ls order → order ≠ [] → current_task t ∈ ls running →
  Forall (λ r, r.2 ≠ 0xFFFFFFFF) regs → length regs = length (ls running) → b ∈ ls running →
  ∃ (n : nat) t' x', (n < length (ls running))%nat ∧
     schedules (take n regs) (t, x) = Ret (tt, (t', x')) ∧ current_task t' = b ∧ tasks_ok t' x' ls order.
Proof.
  intros Hok Hne Hcur Hregs Hlen Hb. apply list_elem_of_lookup in Hcur as [i Hi].
  pose proof (lookup_lt_Some _ _ _ Hi) as Hlt. set (m := length (ls running)) in *.
  apply list_elem_of_lookup in Hb as [j Hj]. pose proof (lookup_lt_Some _ _ _ Hj) as Hjlt. fold m in Hjlt.
  exists ((j + m - i) mod m)%nat.
  destruct (schedules_ok t x ls order i (take ((j + m - i) mod m) regs) Hok Hne Hi) as (t' & x' & Hrun & Hok' & Hc & _).
  { by apply Forall_take. }
  exists t', x'. assert (Hm : ((j + m - i) mod m < m)%nat) by (apply Nat.mod_upper_bound; lia).
  rewrite length_take, Hlen in Hc. fold m in Hc. rewrite Nat.min_l in Hc by lia.
  rewrite Nat.Div0.add_mod_idemp_r in Hc. replace (i + (j + m - i))%nat with (j + 1 * m)%nat in Hc by lia.
  rewrite Nat.Div0.mod_add, Nat.mod_small, Hj in Hc by done. injection Hc as <-. done.
Qed.

(** C11: scheduling is fair: when the current task runs, [schedule] goes round
    the running queue, so that within as many switches as there are running
    tasks each of them becomes the current one, and the queues, the sleeping
    tasks and the interrupt flag stay as they are. *)
Theorem round_robin t x ls order regs :
  tasks_ok t x ls order → order ≠ [] → current_task t ∈ ls running →
  Forall (λ r, r.2 ≠ 0xFFFFFFFF) regs → length regs = length (ls running) →
  (∀ b, b ∈ ls running → ∃ (n : nat) t' x', (n < length (ls running))%nat ∧
     schedules (take n regs) (t, x) = Ret (tt, (t', x')) ∧ current_task t' = b ∧ tasks_ok t' x' ls order) ∧
  ∃ t' x', schedules regs (t, x) = Ret (tt, (t', x')) ∧ current_task t' = current_task t ∧
    tasks_ok t' x' ls order ∧ eflags t' = eflags t ∧
    ∀ b, b ∉ ls running → store t' !! b = store t !! b.
Proof.
  intros Hok Hne Hcur Hregs Hlen. split; [intros b Hb; by eapply schedules_reach|].
  apply list_elem_of_lookup in Hcur as [i Hi].
  pose proof (lookup_lt_Some _ _ _ Hi) as Hlt. set (m := length (ls running)) in *.
  destruct (schedules_ok t x ls order i regs Hok Hne Hi Hregs) as (t' & x' & Hrun & Hok' & Hc & He & _ & Hst).
  exists t', x'. fold m in Hc. rewrite Hlen in Hc. fold m in Hc. replace (i + m)%nat with (i + 1 * m)%nat in Hc by lia.
    rewrite Nat.Div0.mod_add, Nat.mod_small, Hi in Hc by done. injection Hc as <-.
    split; [done|]. split; [done|]. split; [done|]. split; [done|]. intros b Hb. apply Hst. intros j _ Hj.
    apply Hb. by eapply list_elem_of_lookup_2.
Qed.

Lemma schedules_cons r regs t x t1 x1 c :
  schedule r.1.1 r.1.2 r.2 (t, x) = Ret (c, (t1, x1)) → schedules (r :: regs) (t, x) = schedules regs (t1, x1).
Proof.
  destruct r as [[e b] i]. simpl. intros Hrun. unfold schedules at 1. simpl. unfold mbind at 1, M_bind at 1.
  unfold mbind at 1, M_bind at 1. by rewrite Hrun.
Qed.

(** C19: a task that [schedule] switches away from comes back: when each of the
    other running tasks has called [schedule] once, the last switch jumps to the
    program counter the task had read, with its stack and frame pointer, in its
    own page directory, and with the value [0xFFFFFFFF] by which its [schedule]
    knows that it is back and returns without doing anything. These are all the
    registers a [Task_t] keeps; the flags it does not keep: [switch_task] pops
    those of the task it switches from, and nothing is said of them here. *)
Theorem context_comes_back t x ls order esp ebp eip rest pre last :
  tasks_ok t x ls order → order ≠ [] → current_task t ∈ ls running →
  (esp, ebp, eip) :: rest = pre ++ [last] → Datatypes.S (length pre) = length (ls running) →
  Forall (λ r, r.2 ≠ 0xFFFFFFFF) (pre ++ [last]) →
  ∃ t1 x1 t2 x2 k phy,
    schedules pre (t, x) = Ret (tt, (t1, x1)) ∧
    schedule last.1.1 last.1.2 last.2 (t1, x1) = Ret (Jump (Cpu 0xFFFFFFFF esp ebp eip phy), (t2, x2)) ∧
    current_task t2 = current_task t ∧ store t !! current_task t = Some k ∧
    env_dirs x (t_page_dir k) = Some phy ∧ env_cur x2 = t_page_dir k ∧
    ∀ old e b, schedule_body old e b 0xFFFFFFFF (t2, x2) = Ret (Return tt, (t2, x2)).
Proof.
  intros Hok Hne Hcur Hall Hlen Hregs. apply list_elem_of_lookup in Hcur as [i Hi].
  pose proof (lookup_lt_Some _ _ _ Hi) as Hlt. set (a := current_task t) in *.
  set (m := length (ls running)) in *.
  assert (Hao : a ∈ order) by exact (tk_current _ _ _ _ _ _ _ Hok Hne).
  destruct (proj2 (tk_dom _ _ _ _ _ _ _ Hok a) Hao) as [k Hk].
  destruct (tk_dirs _ _ _ _ _ _ _ Hok a k Hk) as [phy Hphy].
  assert (Hnd : NoDup (ls running)) by apply (tk_queue _ _ _ _ _ _ _ Hok running).
  destruct pre as [|r0 pre]; simpl in Hall, Hlen, Hregs.
  - injection Hall as <- ->. apply Forall_inv in Hregs. simpl in Hregs.
    destruct (schedule_ok NIL_task t x ls order esp ebp eip Hok Hne Hregs)
      as (t1 & x1 & c & k1 & next & Hrun & Hok1 & Hnext & Hc1 & He1 & Hst1 & Hk1 & -> & Hcx & Hd1).
    fold a in Hnext. rewrite (queue_nth _ _ _ i _ (tk_queue _ _ _ _ _ _ _ Hok running) Hi) in Hnext. fold m in Hnext.
    rewrite <- Hlen, Nat.mod_1_r in Hnext. assert (i = 0)%nat as -> by lia.
    rewrite Hi in Hnext. injection Hnext as Hnext. subst next.
    rewrite Hst1 in Hk1. fold a in Hk1. rewrite lookup_alter_eq, Hk in Hk1. injection Hk1 as <-.
    exists t, x, t1, x1, k, phy. cbn [fst snd]. rewrite Hrun. simpl. rewrite Hphy. simpl.
    split_and!; done.
  - injection Hall as <- Hrest. apply Forall_cons in Hregs as [Heip Hregs]. simpl in Heip.
    apply Forall_app in Hregs as [Hpre Hlast]. apply Forall_inv in Hlast.
    destruct (schedule_ok NIL_task t x ls order esp ebp eip Hok Hne Heip)
      as (t1 & x1 & c & k1 & next & Hrun & Hok1 & Hnext & Hc1 & He1 & Hst1 & _ & _ & _ & Hd1).
    fold a in Hnext. rewrite (queue_nth _ _ _ i _ (tk_queue _ _ _ _ _ _ _ Hok running) Hi) in Hnext. fold m in Hnext.
    rewrite <- Hc1 in Hnext.
    destruct (schedules_ok t1 x1 ls order _ pre Hok1 Hne Hnext Hpre) as (t2 & x2 & Hrun2 & Hok2 & Hc2 & He2 & Hd2 & Hst2).
    fold m in Hc2, Hst2.
    assert (Hmod : ∀ j : nat, ((Datatypes.S i mod m + j) mod m = (i + Datatypes.S j) mod m)%nat).
    { intros j. rewrite Nat.Div0.add_mod_idemp_l. f_equal. lia. }
    rewrite Hmod in Hc2.
    destruct (schedule_ok NIL_task t2 x2 ls order last.1.1 last.1.2 last.2 Hok2 Hne Hlast)
      as (t3 & x3 & c3 & k3 & next3 & Hrun3 & Hok3 & Hnext3 & Hc3 & He3 & Hst3 & Hk3 & -> & Hcx3 & Hd3).
    rewrite (queue_nth _ _ _ _ _ (tk_queue _ _ _ _ _ _ _ Hok2 running) Hc2) in Hnext3. fold m in Hnext3.
    assert (Hback : (Datatypes.S ((i + Datatypes.S (length pre)) mod m) mod m = i)%nat).
    { rewrite <- Nat.add_1_r, Nat.Div0.add_mod_idemp_l.
      replace (i + Datatypes.S (length pre) + 1)%nat with (i + 1 * m)%nat by lia.
      rewrite Nat.Div0.mod_add. by apply Nat.mod_small. }
    rewrite Hback, Hi in Hnext3. injection Hnext3 as Hnext3. subst next3.
    assert (Hsaved : store t2 !! a = Some (saved esp ebp eip k)).
    { rewrite Hst2.
      - rewrite Hst1. fold a. by rewrite lookup_alter_eq, Hk.
      - intros j Hj Hja. rewrite Hmod in Hja. pose proof (NoDup_lookup _ _ _ _ Hnd Hja Hi) as Heq.
        destruct (decide (i + Datatypes.S j < m)%nat) as [Hs|Hs]; [rewrite Nat.mod_small in Heq; lia|].
        replace (i + Datatypes.S j)%nat with ((i + Datatypes.S j - m) + 1 * m)%nat in Heq by lia.
        rewrite Nat.Div0.mod_add, Nat.mod_small in Heq; lia. }
    assert (Hna : current_task t2 ≠ a).
    { intros Heq. rewrite Heq in Hc2. pose proof (NoDup_lookup _ _ _ _ Hnd Hc2 Hi) as Heqi.
      destruct (decide (i + Datatypes.S (length pre) < m)%nat) as [Hs|Hs]; [rewrite Nat.mod_small in Heqi; lia|].
      replace (i + Datatypes.S (length pre))%nat with ((i + Datatypes.S (length pre) - m) + 1 * m)%nat in Heqi by lia.
      rewrite Nat.Div0.mod_add, Nat.mod_small in Heqi; lia. }
    rewrite Hst3, lookup_alter_ne, Hsaved in Hk3 by done. injection Hk3 as <-.
    exists t2, x2, t3, x3, k, phy. split; [by rewrite (schedules_cons (esp, ebp, eip) _ _ _ _ _ _ Hrun)|].
    rewrite Hrun3. simpl. rewrite Hd2, Hd1, Hphy. simpl.
    split_and!; done.
Qed.

(** ** Any sequence of calls *)
Inductive task_call : Type :=
| CSchedule (esp ebp eip : Z) | CFork (esp ebp eip : Z) | CSleep (id : Z) (sig : Sigset) (esp ebp eip : Z)
| CWakeup (id : Z) | CGetpid | CExit (status : Z) | CErrno (e : errno_t).
Definition run_call (c : task_call) : M (tasks * S) unit :=
  match c with
  | CSchedule esp ebp eip => schedule esp ebp eip ;; mret tt
  | CFork esp ebp eip => fork esp ebp eip ;; mret tt
  | CSleep id sig esp ebp eip => sleep id sig esp ebp eip ;; mret tt
  | CWakeup id => wakeup id ;; mret tt
  | CGetpid => getpid ;; mret tt
  | CExit status => exit status
  | CErrno e => set_errno e
  end.
(** program counters are not [0xFFFFFFFF], task numbers are unsigned *)
Definition call_ok (c : task_call) : Prop :=
  match c with
  | CSchedule _ _ eip | CFork _ _ eip => eip ≠ 0xFFFFFFFF
  | CSleep id _ _ _ eip => 0 ≤ id ∧ eip ≠ 0xFFFFFFFF
  | CWakeup id => 0 ≤ id
  | _ => True
  end.
Definition good (s : tasks * S) : Prop := ∃ ls order, tasks_ok s.1 s.2 ls order ∧ order ≠ [].

(** every task is refused or can be found and operated on *)
Lemma target_cases t x ls order id :
  tasks_ok t x ls order → order ≠ [] → 0 ≤ id →
  (∃ e, refused t ls order id e) ∨
  ∃ a, order !! Z.to_nat id = Some a ∧ a ∉ ls zombie ∧ permitted (store t) (current_task t) a.
Proof.
  intros Hok Hne Hid. destruct (order !! Z.to_nat id) as [a|] eqn:Ha; [|left; by eexists; constructor].
  destruct (decide (a ∈ ls zombie)) as [Hz|Hz]; [left; eexists; by eapply refused_zombie|].
  destruct (may_operate_ok NIL_task t x ls order a Hok) as (ok & _ & Hiff);
    [by eapply list_elem_of_lookup_2|done|]. destruct ok; [right|left].
  - exists a. split_and!; try done. by apply Hiff.
  - eexists. eapply refused_perm; [done|done|]. intros Hp. by apply Hiff in Hp.
Qed.

Lemma run_call_good c s : good s → call_ok c → wp (run_call c) (λ _ s', good s') env_fails s.
Proof.
  destruct s as [t x]. intros (ls & order & Hok & Hne) Hc. simpl in Hok.
  destruct c as [esp ebp eip|esp ebp eip|id sig esp ebp eip|id| |status|e]; simpl in *.
  - destruct (schedule_ok NIL_task t x ls order esp ebp eip Hok Hne Hc) as (t1 & x1 & c & k & next & Hrun & Hok1 & _).
    eapply wp_of_run; [by rewrite (run_bind _ _ _ _ _ Hrun)|]. by exists ls, order.
  - apply wp_bind. eapply wp_mono; [exact (fork_ok t x ls order esp ebp eip Hok Hne)|].
    intros v s' (t' & x' & child & k & p & -> & _ & _ & Hok' & _). apply wp_ret. eexists _, _. split; [exact Hok'|].
    intros H. by apply app_eq_nil in H as [_ ?].
  - destruct Hc as [Hid Heip]. destruct (target_cases t x ls order id Hok Hne Hid) as [[e Href]|(a & Ha & Hz & Hp)].
    + destruct (refused_run t x ls order id e sig esp ebp eip Hok Hne Hid Href) as (Hrun & _ & Hok').
      eapply wp_of_run; [by rewrite (run_bind _ _ _ _ _ Hrun)|]. by exists ls, order.
    + destruct (sleep_ok NIL_task junk_id t x ls order id a Hok Hid Ha Hz sig esp ebp eip Hp Heip) as (H1 & H2 & H3).
      destruct (decide (a ∈ ls running)) as [Hr|Hr].
      * destruct (decide (a = current_task t)) as [Hs|Hs].
        { destruct (H2 Hr Hs) as (t' & x' & c & next & Hrun & Hok' & _).
          eapply wp_of_run; [by rewrite (run_bind _ _ _ _ _ Hrun)|]. eexists _, _. by split. }
        destruct (H1 Hr Hs) as (t' & Hrun & Hok' & _).
        eapply wp_of_run; [by rewrite (run_bind _ _ _ _ _ Hrun)|]. eexists _, _. by split.
      * eapply wp_of_run; [by rewrite (run_bind _ _ _ _ _ (H3 Hr))|]. by exists ls, order.
  - destruct (target_cases t x ls order id Hok Hne Hc) as [[e Href]|(a & Ha & Hz & Hp)].
    + destruct (refused_run t x ls order id e Sigset_init 0 0 0 Hok Hne Hc Href) as (_ & Hrun & Hok').
      eapply wp_of_run; [by rewrite (run_bind _ _ _ _ _ Hrun)|]. by exists ls, order.
    + destruct (wakeup_ok NIL_task junk_id t x ls order id a Hok Hc Ha Hz Hp) as [H1 H2].
      destruct (decide (a ∈ ls sleeping)) as [Hs|Hs].
      * destruct (H1 Hs) as (t' & Hrun & Hok' & _). eapply wp_of_run; [by rewrite (run_bind _ _ _ _ _ Hrun)|].
        eexists _, _. by split.
      * eapply wp_of_run; [by rewrite (run_bind _ _ _ _ _ (H2 Hs))|]. by exists ls, order.
  - destruct (proj2 (tk_dom _ _ _ _ _ _ _ Hok _) (tk_current _ _ _ _ _ _ _ Hok Hne)) as [k Hk].
    assert (Hrun : getpid (t, x) = Ret (t_id k, (t, x))).
    { unfold getpid. rewrite (run_bind gett _ (t, x) t (t, x)) by done.
      by rewrite (run_bind _ _ _ _ _ (rd_task_run _ t x k Hk)). }
    eapply wp_of_run; [by rewrite (run_bind _ _ _ _ _ Hrun)|]. by exists ls, order.
  - eapply wp_of_run; [reflexivity|]. exists ls, order. split; [by apply inv_eflags|done].
  - destruct (set_errno_ok NIL_task t x ls order e Hok Hne) as [Hset Hok'].
    eapply wp_of_run; [exact Hset|]. by exists ls, order.
Qed.

Lemma run_calls_good calls s : good s → Forall call_ok calls → wp (for_each calls run_call) (λ _ s', good s') env_fails s.
Proof.
  intros Hs. revert s Hs; induction calls as [|c calls IH]; intros s Hs Hc; simpl; [by apply wp_ret|].
  apply Forall_cons in Hc as [Hc Hcs]. apply wp_bind. eapply wp_mono; [exact (run_call_good c s Hs Hc)|].
  intros [] s' Hs'. by apply IH.
Qed.

(** ** Booting *)
(** The variables before [Task::init]. *)
Definition tasks_boot (nil0 : node Pair_id_task) (flags : Z) : tasks :=
  Tasks ∅ false 0 (Rbt_init NIL_task ∅ (TaskPool 0 ∅) nil0) 0 0 0 0 flags.

Lemma boot_inv nil0 flags x :
  env_inv x ∅ → is_Some (env_dirs x (env_cur x)) → tasks_ok (tasks_boot nil0 flags) x (λ _, []) [].
Proof.
  intros Hi Hd. split; simpl; try done.
  - intros q. split; [constructor|]. split; [apply not_elem_of_nil|]. by destruct q.
  - constructor.
  - intros a. rewrite lookup_empty. split; [by intros []|intros Ha; by apply elem_of_nil in Ha].
  - exists []. split; [by apply Rbt_init_ok|done].
  - intros b Hb. set_solver.
  - intros a b Ha. by apply elem_of_nil in Ha.
Qed.

Lemma task_init_ok nil0 flags x esp ebp eip :
  env_inv x ∅ → is_Some (env_dirs x (env_cur x)) → eip ≠ 0xFFFFFFFF →
  wp (task_init NIL_task junk_node junk_id esp ebp eip) (λ _ s', ∃ a k, tasks_ok s'.1 s'.2 (upd_queue running [a] (λ _, [])) [a] ∧ current_task s'.1 = a ∧
       store s'.1 !! a = Some k ∧ t_uid k = 0) env_fails (tasks_boot nil0 flags, x).
Proof.
  intros Hi Hd Heip. unfold task_init. apply wp_bind, lift_wp. eapply wp_mono; [by apply env_move_stack_ok|].
  intros [] x1 (Hd1 & Hc1 & Hi1).
  assert (Hok : tasks_ok (tasks_boot nil0 flags) x1 (λ _, []) []) by (apply boot_inv; [done|by rewrite Hd1, Hc1]).
  apply wp_bind. eapply wp_of_run; [apply lift_cur|].
  apply wp_bind. eapply wp_mono; [apply (new_Task_t_ok NIL_task junk_node junk_id _ x1 _ [] (env_cur x1) Hok)|].
  { by rewrite Hd1, Hc1. }
  intros a s (t2 & x2 & -> & _ & Hok2 & Hst2 & _). simpl in Hok2, Hst2.
  apply wp_bind. eapply wp_of_run; [reflexivity|]. simpl fst. simpl snd.
  assert (Ha : a ∈ [a]) by set_solver.
  pose proof (inv_current NIL_task _ _ _ _ _ _ a Hok2 Ha) as Hok3.
  destruct (inv_upd_task NIL_task _ _ _ _ _ _ a (set_ids 0 0) Hok3 Ha) as [Hrun4 Hok4];
    [by intros; split_and!|by right|].
  set (t4 := with_store _ _) in *. apply wp_bind. eapply wp_of_run; [exact Hrun4|].
  destruct (inv_insert NIL_task [a] t4 x2 _ _ running a Hok4 Ha Ha) as (t5 & Hrun5 & Hok5 & st' & pq & -> & Hsc).
  apply wp_bind. eapply wp_of_run; [exact Hrun5|]. set (t5 := with_q running pq (with_store st' t4)) in *.
  assert (Hch : store t4 !! a = Some (set_ids 0 0 (new_task junk_id 0 (env_cur x1)))).
  { unfold t4. simpl. by rewrite lookup_alter_eq, Hst2, lookup_insert_eq. }
  destruct (same_cores_lookup _ _ _ _ Hsc Hch) as (k & Hk & Hck).
  assert (Hok6 : tasks_ok t5 x2 (upd_queue running (queue_ins a []) (λ _, [])) [a]).
  { apply (inv_settle NIL_task t5 x2 _ _ running a k); [exact Hok5|exact Hk| |].
    - apply core_id in Hck as (_ & -> & _). done.
    - rewrite upd_queue_eq. simpl. set_solver. }
  destruct (schedule_ok NIL_task t5 x2 _ [a] esp ebp eip Hok6 ltac:(done) Heip) as (t6 & x6 & c & k6 & next & Hrun & Hok7 & Hnext & Hc6 & _ & Hst6 & _).
  destruct (queue_next_in _ _ _ _ (tk_queue _ _ _ _ _ _ _ Hok6 running) Ha) as (y & Hy & Hya).
  apply list_elem_of_singleton in Hya as ->. change (current_task t5) with a in *. rewrite Hy in Hnext.
  injection Hnext as <-.
  eapply wp_of_run; [exact Hrun|]. exists a, (saved esp ebp eip k). split; [exact Hok7|]. split; [done|]. simpl.
  change (store t5) with st' in Hst6. rewrite Hst6, lookup_alter_eq. rewrite Hk. split; [done|].
  unfold core in Hck. destruct k. simpl in *. by injection Hck.
Qed.

(** C2: from the boot on, no sequence of calls of the task component, in
    whatever order, can break it: no call reads outside its structures or loops
    for ever, and after each the running, sleeping and zombie queues partition
    the tasks by their state, the tree of numbers lists every task, and the
    memory of no two tasks overlaps; the only way to stop is a failure of the
    kernel's memory. *)
Theorem task_system_invariant nil0 flags x esp ebp eip calls :
  env_inv x ∅ → is_Some (env_dirs x (env_cur x)) → eip ≠ 0xFFFFFFFF → Forall call_ok calls →
  wp (task_init NIL_task junk_node junk_id esp ebp eip ;; for_each calls run_call)
    (λ _ s', ∃ ls order, tasks_ok s'.1 s'.2 ls order ∧ order ≠ []) env_fails (tasks_boot nil0 flags, x).
Proof.
  intros Hi Hd Heip Hcalls. apply wp_bind. eapply wp_mono; [exact (task_init_ok nil0 flags x esp ebp eip Hi Hd Heip)|].
  intros c s' (a & k & Hok & _). apply run_calls_good; [|done]. by eexists _, _.
Qed.
End Props.
