(* ===== verification/TaskDemo.v ===== *)
(** A kernel with a simple memory, two tasks in it, and the properties of
    [TaskProps] there; and what modelling the tasks showed. *)
From S2P Require Import Prelude Common Rbt RbTree RbtRep RbtFind Errno Sigset Task TaskQueue TaskOk TaskOps TaskSleep TaskProps.

(** * Memory given out from the bottom of the kernel heap, directories at will *)
Record simple_env : Type := SimpleEnv { next_block : Z; given : list Z; next_dir : Z; cur_dir : Z }.
Definition simple_new (size : Z) : M simple_env Z := λ e,
  if KERNEL_HEAP_END <? next_block e + size then Panic "out of memory"
  else Ret (next_block e, SimpleEnv (next_block e + size) (next_block e :: given e) (next_dir e) (cur_dir e)).
Definition simple_clone (d : Z) : M simple_env Z := λ e,
  Ret (next_dir e, SimpleEnv (next_block e) (given e) (next_dir e + 1) (cur_dir e)).
Global Instance simple_task_env : TaskEnv simple_env := {|
  operator_new := simple_new;
  env_clone_directory := simple_clone;
  get_current_page_dir := λ e, Ret (cur_dir e, e);
  set_current_page_dir d := λ e, Ret (tt, SimpleEnv (next_block e) (given e) (next_dir e) d);
  dir_phyaddr d := λ e, Ret (d * 0x1000, e);
  env_move_stack := mret tt;
  env_log _ := mret tt
|}.
Definition simple_inv (e : simple_env) (B : gset Z) : Prop :=
  KERNEL_HEAP_BEGIN ≤ next_block e ∧ Forall (λ b, b + sizeof_Task_t ≤ next_block e) (given e) ∧ B ⊆ list_to_set (given e).

Lemma simple_new_ok e (B : gset Z) :
  simple_inv e B →
  wp (simple_new sizeof_Task_t) (λ a e', task_region a ∧ (∀ b, b ∈ B → tasks_apart a b) ∧
    (λ d : Z, Some (d * 0x1000)) = (λ d, Some (d * 0x1000)) ∧
    cur_dir e' = cur_dir e ∧ simple_inv e' ({[a]} ∪ B)) (λ m, m = "out of memory"%string) e.
Proof.
  intros (Hb & Hg & HB). unfold wp, simple_new. destruct (Z.ltb_spec KERNEL_HEAP_END (next_block e + sizeof_Task_t)); [done|].
  unfold task_region, tasks_apart, simple_inv. simpl. split_and!; try done.
  - intros b Hin. apply HB, elem_of_list_to_set in Hin. right. by apply (proj1 (Forall_forall _ _) Hg).
  - unfold sizeof_Task_t. lia.
  - apply Forall_cons. split; [lia|]. eapply Forall_impl; [exact Hg|]. intros b Hb'. unfold sizeof_Task_t in *. simpl in *. lia.
  - set_solver.
Qed.

Global Instance simple_env_laws : TaskEnvLaws simple_env.
Proof.
  refine {| env_inv := simple_inv; env_dirs _ d := Some (d * 0x1000);
    env_cur := cur_dir; env_fails m := m = "out of memory"%string; operator_new_ok := simple_new_ok |}.
  - abstract (intros e B B' (H1 & H2 & H3) HB; split; [exact H1|]; split; [exact H2|set_solver]).
  - abstract (intros e B d He _; unfold wp; simpl; split_and!; done).
  - abstract done.
  - abstract (intros e B d He _; eexists; split; [reflexivity|]; done).
  - abstract (intros e d p [= <-]; done).
  - abstract (intros e B He; unfold wp; simpl; done).
Defined.

Definition demo_NIL : Z := 0x130040.
Global Instance demo_NIL_ok : NilAddr (P:=task_pool) demo_NIL.
Proof.
  split; [by split; vm_compute|]. intros [_ [H _]]. rewrite KERNEL_HEAP_BEGIN_eq in H. by vm_compute in H.
Qed.
Definition demo_junk : node Pair_id_task := Node 0 0 0 (PairIdTask 0 0).

Definition start_env : simple_env := SimpleEnv KERNEL_HEAP_BEGIN [] 7 6.
Definition start_tasks : tasks * simple_env := (tasks_boot demo_NIL demo_junk 0x202, start_env).
Definition state_after {A} (m : M (tasks * simple_env) A) (s : tasks * simple_env) : tasks * simple_env :=
  match m s with Ret (_, s') => s' | _ => s end.
Definition does_return {A} (m : M (tasks * simple_env) A) (s : tasks * simple_env) : bool :=
  match m s with Ret _ => true | _ => false end.

Lemma wp_state_after {A} (m : M (tasks * simple_env) A) Q E s :
  wp m Q E s → does_return m s = true → ∃ a, m s = Ret (a, state_after m s) ∧ Q a (state_after m s).
Proof. unfold wp, does_return, state_after. destruct (m s) as [[a s']| | |]; naive_solver. Qed.

Lemma state_after_eq {A} (m : M (tasks * simple_env) A) s a s' : m s = Ret (a, s') → state_after m s = s'.
Proof. unfold state_after. by intros ->. Qed.

Abbreviation d_init := (task_init demo_NIL demo_junk 0).
Abbreviation d_fork := (fork demo_NIL demo_junk 0).
Abbreviation d_sleep := (sleep demo_NIL 0).
Abbreviation d_wakeup := (wakeup demo_NIL 0).

(** The kernel's first task; then it has forked. *)
Definition one_task : tasks * simple_env := state_after (d_init 0x100 0x200 0x300) start_tasks.
Definition two_tasks : tasks * simple_env := state_after (d_fork 0x110 0x210 0x310) one_task.
Lemma one_task_eq : one_task = state_after (d_init 0x100 0x200 0x300) (tasks_boot demo_NIL demo_junk 0x202, start_env).
Proof. reflexivity. Qed.
Lemma two_tasks_eq : two_tasks = state_after (d_fork 0x110 0x210 0x310) one_task.
Proof. reflexivity. Qed.
#[global] Opaque one_task two_tasks.
Definition A : Z := 0xEFC00000.
Definition C : Z := 0xEFC0004C.
Definition two_queues : queue → list Z := upd_queue running [A; C] (upd_queue running [A] (λ _, [])).

Lemma start_inv : simple_inv start_env ∅.
Proof. split; [done|]. split; [constructor|done]. Qed.
Lemma one_task_ok : tasks_ok demo_NIL one_task.1 one_task.2 (upd_queue running [A] (λ _, [])) [A] ∧ current_task one_task.1 = A.
Proof.
  pose proof (task_init_ok demo_NIL demo_junk 0 demo_junk 0x202 start_env 0x100 0x200 0x300 start_inv ltac:(by eexists) ltac:(done)) as H.
  assert (Hr : does_return (d_init 0x100 0x200 0x300) start_tasks = true) by (vm_compute; reflexivity).
  destruct (wp_state_after _ _ _ _ H Hr) as (c & _ & a & k & Hok & Hc & _).
  rewrite <- one_task_eq in *.
  assert (Ha : current_task one_task.1 = A) by (vm_compute; reflexivity).
  assert (a = A) as -> by (etrans; [symmetry; exact Hc|exact Ha]). split; [exact Hok|exact Ha].
Qed.
Lemma two_tasks_ok : tasks_ok demo_NIL two_tasks.1 two_tasks.2 two_queues [A; C] ∧ current_task two_tasks.1 = A.
Proof.
  destruct one_task_ok as [Hok Hcur].
  pose proof (fork_ok demo_NIL demo_junk 0 one_task.1 one_task.2 _ _ 0x110 0x210 0x310 Hok ltac:(done)) as H.
  rewrite <- surjective_pairing in H.
  assert (Hr : does_return (d_fork 0x110 0x210 0x310) one_task = true) by (vm_compute; reflexivity).
  destruct (wp_state_after _ _ _ _ H Hr) as (c & _ & t' & x' & child & k & p & Hs & _ & Hch & Hok' & Hc' & _).
  rewrite <- two_tasks_eq in *.
  assert (Ht1 : two_tasks.1 = t') by exact (f_equal fst Hs). assert (Ht2 : two_tasks.2 = x') by exact (f_equal snd Hs).
  rewrite <- Ht1, <- Ht2 in Hok'. rewrite <- Ht1, Hcur in Hc'. clear Ht1 Ht2 Hs.
  assert (Hn : nxt (store two_tasks.1) A = Some C) by (vm_compute; reflexivity).
  destruct (tk_queue _ _ _ _ _ _ _ Hok' running) as (_ & _ & Hq). rewrite upd_queue_eq in Hq. simpl in Hq.
  destruct Hq as (_ & [Hnc _] & _). assert (child = C) as -> by (apply (inj Some); etrans; [symmetry; exact Hnc|exact Hn]).
  split; [exact Hok'|exact Hc'].
Qed.

Lemma A_C_apart : A ≠ C.
Proof. done. Qed.
Lemma A_in : A ∈ [A; C].
Proof. set_solver. Qed.
Lemma C_in : C ∈ [A; C].
Proof. set_solver. Qed.
Lemma C_in1 : C ∈ [C].
Proof. set_solver. Qed.
Lemma AC_some : [A; C] ≠ [].
Proof. done. Qed.
Lemma seven_nonneg : 0 ≤ 7.
Proof. done. Qed.
Lemma pc_ok : 0x600 ≠ 0xFFFFFFFF.
Proof. done. Qed.
Lemma not_in_nil (a : Z) : a ∉ [].
Proof. apply not_elem_of_nil. Qed.
(** the two tasks' records *)
Lemma two_tasks_permitted a : a = A ∨ a = C → permitted (store two_tasks.1) (current_task two_tasks.1) a.
Proof.
  destruct two_tasks_ok as [_ ->].
  assert (HA : ∃ k, store two_tasks.1 !! A = Some k ∧ t_uid k = 0) by (eexists; split; vm_compute; reflexivity).
  assert (HC : ∃ k, store two_tasks.1 !! C = Some k ∧ t_uid k = 0) by (eexists; split; vm_compute; reflexivity).
  destruct HA as (kA & HA & HuA), HC as (kC & HC & HuC). intros [->| ->]; eexists _, _; (split; [eassumption|]); split; eauto.
Qed.

Lemma fork_correct_witness : ∃ s', d_fork 0x120 0x220 0x320 two_tasks = Ret (2, s') ∧ current_task s'.1 = A.
Proof.
  destruct two_tasks_ok as [Hok Hcur].
  pose proof (fork_correct demo_NIL demo_junk 0 two_tasks.1 two_tasks.2 two_queues [A; C] 0x120 0x220 0x320 Hok AC_some) as H.
  rewrite <- surjective_pairing in H.
  assert (Hr : does_return (d_fork 0x120 0x220 0x320) two_tasks = true) by (vm_compute; reflexivity).
  destruct (wp_state_after _ _ _ _ H Hr) as (v & Hrun & t' & x' & child & k & p & Hs & -> & _ & _ & Hc & _).
  eexists. split; [exact Hrun|]. exact (eq_trans (f_equal (λ s, current_task s.1) Hs) (eq_trans Hc Hcur)).
Defined.

Lemma id2task_exact_witness :
  ∃ a, id2task demo_NIL 0 1 two_tasks = Ret (a, two_tasks) ∧
    ((a = 0 ∧ next_pid two_tasks.1 ≤ 1 ∧ ∀ b k, store two_tasks.1 !! b = Some k → t_id k ≠ 1) ∨
     (∃ k, store two_tasks.1 !! a = Some k ∧ t_id k = 1 ∧ 1 < next_pid two_tasks.1)).
Proof.
  pose proof (id2task_exact demo_NIL 0 two_tasks.1 two_tasks.2 two_queues [A; C] 1 (proj1 two_tasks_ok) Z.le_0_1) as H.
  rewrite <- surjective_pairing in H. exact H.
Defined.

Lemma sleep_correct_witness :
  ∃ t', d_sleep 1 Sigset_fill 0x400 0x500 0x600 two_tasks = Ret (Return 0, (t', two_tasks.2)) ∧
    tasks_ok demo_NIL t' two_tasks.2 (moved_queues running sleeping C two_queues) [A; C].
Proof.
  destruct two_tasks_ok as [Hok Hcur]. pose proof (two_tasks_permitted C (or_intror eq_refl)) as Hp.
  destruct (sleep_correct demo_NIL 0 two_tasks.1 two_tasks.2 two_queues [A; C] 1 C Sigset_fill 0x400 0x500 0x600 Hok
    Z.le_0_1 eq_refl (not_in_nil C) Hp pc_ok) as (H & _ & _).
  rewrite <- surjective_pairing in H. destruct H as (t' & Hrun & Hok' & _).
  - exact C_in.
  - rewrite Hcur. apply not_eq_sym, A_C_apart.
  - exists t'. split; [exact Hrun|exact Hok'].
Defined.

(** the child sleeps *)
Definition one_sleeps : tasks * simple_env := state_after (d_sleep 1 Sigset_fill 0x400 0x500 0x600) two_tasks.
Lemma one_sleeps_eq : one_sleeps = state_after (d_sleep 1 Sigset_fill 0x400 0x500 0x600) two_tasks.
Proof. reflexivity. Qed.
#[global] Opaque one_sleeps.
Lemma one_sleeps_permitted : permitted (store one_sleeps.1) (current_task one_sleeps.1) C.
Proof.
  assert (HA : ∃ k, store one_sleeps.1 !! current_task one_sleeps.1 = Some k ∧ t_uid k = 0) by (eexists; split; vm_compute; reflexivity).
  assert (HC : ∃ k, store one_sleeps.1 !! C = Some k ∧ t_uid k = 0) by (eexists; split; vm_compute; reflexivity).
  destruct HA as (kA & HA & HuA), HC as (kC & HC & HuC). exists kC, kA. split; [exact HC|]. split; [exact HA|by right].
Qed.
Lemma one_sleeps_run t' :
  d_sleep 1 Sigset_fill 0x400 0x500 0x600 two_tasks = Ret (Return 0, (t', two_tasks.2)) →
  one_sleeps.1 = t' ∧ one_sleeps.2 = two_tasks.2.
Proof.
  intros H. apply state_after_eq in H. rewrite <- one_sleeps_eq in H.
  split; [exact (f_equal fst H)|exact (f_equal snd H)].
Qed.
Lemma one_sleeps_ok :
  tasks_ok demo_NIL one_sleeps.1 one_sleeps.2 (moved_queues running sleeping C two_queues) [A; C] ∧
  permitted (store one_sleeps.1) (current_task one_sleeps.1) C.
Proof.
  split; [|exact one_sleeps_permitted].
  destruct two_tasks_ok as [Hok Hcur]. pose proof (two_tasks_permitted C (or_intror eq_refl)) as Hp.
  destruct (sleep_ok demo_NIL 0 two_tasks.1 two_tasks.2 two_queues [A; C] 1 C Hok
    Z.le_0_1 eq_refl (not_in_nil C) Sigset_fill 0x400 0x500 0x600 Hp pc_ok) as (H & _ & _).
  rewrite <- surjective_pairing in H. destruct H as (t' & Hrun & Hok' & _).
  - exact C_in.
  - rewrite Hcur. apply not_eq_sym, A_C_apart.
  - destruct (one_sleeps_run t' Hrun) as [-> ->]. exact Hok'.
Qed.
Lemma wakeup_correct_witness :
  ∃ t', d_wakeup 1 one_sleeps = Ret (0, (t', one_sleeps.2)) ∧
    tasks_ok demo_NIL t' one_sleeps.2 (moved_queues sleeping running C (moved_queues running sleeping C two_queues)) [A; C].
Proof.
  destruct one_sleeps_ok as [Hok Hp].
  destruct (wakeup_correct demo_NIL 0 one_sleeps.1 one_sleeps.2 _ [A; C] 1 C Hok Z.le_0_1 eq_refl
    (not_in_nil C) Hp) as [H _].
  rewrite <- surjective_pairing in H. destruct H as (t' & Hrun & Hok' & _).
  - exact C_in1.
  - exists t'. split; [exact Hrun|exact Hok'].
Defined.

Lemma task_errors_witness :
  ∃ t', d_sleep 7 Sigset_init 0 0 0 two_tasks = Ret (Return (-1), (t', two_tasks.2)) ∧
    d_wakeup 7 two_tasks = Ret (-1, (t', two_tasks.2)) ∧ (t_errno <$> store t' !! A) = Some 3.
Proof.
  destruct two_tasks_ok as [Hok Hcur].
  pose proof (task_errors demo_NIL 0 two_tasks.1 two_tasks.2 two_queues [A; C] 7 ESRCH Sigset_init 0 0 0 Hok AC_some
    seven_nonneg (refused_no_task two_tasks.1 two_queues [A; C] 7 eq_refl)) as (H1 & H2 & _).
  rewrite <- surjective_pairing in H1, H2. eexists. split; [exact H1|]. split; [exact H2|]. vm_compute. reflexivity.
Defined.

Definition two_regs : list (Z * Z * Z) := [(0x10, 0x20, 0x30); (0x11, 0x21, 0x31)].
Lemma two_regs_ok : Forall (λ r, r.2 ≠ 0xFFFFFFFF) two_regs.
Proof. repeat constructor; done. Qed.
Lemma round_robin_witness :
  ∃ (n : nat) t' x', (n < 2)%nat ∧ schedules (take n two_regs) two_tasks = Ret (tt, (t', x')) ∧ current_task t' = C.
Proof.
  destruct two_tasks_ok as [Hok Hcur].
  destruct (round_robin demo_NIL two_tasks.1 two_tasks.2 two_queues [A; C] two_regs Hok AC_some) as [H _].
  - rewrite Hcur. exact A_in.
  - exact two_regs_ok.
  - reflexivity.
  - rewrite <- surjective_pairing in H. destruct (H C) as (n & t' & x' & Hn & Hrun & Hc & _).
    + exact C_in.
    + exists n, t', x'. split; [exact Hn|]. split; [exact Hrun|exact Hc].
Defined.

Lemma context_comes_back_witness :
  ∃ t1 x1 t2 x2 phy, schedules [(0x10, 0x20, 0x30)] two_tasks = Ret (tt, (t1, x1)) ∧
    schedule 0x11 0x21 0x31 (t1, x1) = Ret (Jump (Cpu 0xFFFFFFFF 0x10 0x20 0x30 phy), (t2, x2)) ∧ current_task t2 = A.
Proof.
  destruct two_tasks_ok as [Hok Hcur].
  destruct (context_comes_back demo_NIL two_tasks.1 two_tasks.2 two_queues [A; C] 0x10 0x20 0x30 [(0x11, 0x21, 0x31)]
    [(0x10, 0x20, 0x30)] (0x11, 0x21, 0x31) Hok AC_some) as (t1 & x1 & t2 & x2 & k & phy & H1 & H2 & H3 & _).
  - rewrite Hcur. exact A_in.
  - reflexivity.
  - reflexivity.
  - exact two_regs_ok.
  - rewrite <- surjective_pairing in H1. exists t1, x1, t2, x2, phy. split; [exact H1|]. split; [exact H2|].
    exact (eq_trans H3 Hcur).
Defined.

Definition demo_calls : list task_call :=
  [CFork 1 2 3; CSchedule 4 5 6; CSleep 0 Sigset_fill 7 8 9; CSleep 1 Sigset_init 7 8 9; CWakeup 0; CErrno EPERM; CWakeup 9].
Lemma task_system_invariant_witness :
  ∃ s' ls order, (d_init 1 2 3 ;; for_each demo_calls (run_call demo_NIL demo_junk 0)) start_tasks = Ret (tt, s') ∧
    tasks_ok demo_NIL s'.1 s'.2 ls order.
Proof.
  assert (Hcalls : Forall call_ok demo_calls) by (repeat constructor; done).
  pose proof (task_system_invariant demo_NIL demo_junk 0 demo_junk 0x202 start_env 1 2 3 demo_calls start_inv
    ltac:(by eexists) ltac:(done) Hcalls) as H.
  assert (Hr : does_return (d_init 1 2 3 ;; for_each demo_calls (run_call demo_NIL demo_junk 0)) start_tasks = true)
    by (vm_compute; reflexivity).
  destruct (wp_state_after _ _ _ _ H Hr) as ([] & Hrun & ls & order & Hok & _).
  eexists _, ls, order. split; [exact Hrun|exact Hok].
Defined.

(** * What the code does not mean to do *)

(** A task that is alone and puts itself to sleep is switched to itself: it goes
    on running while it is in the sleeping queue, and the running queue is
    empty. *)
Example sleep_alone :
  match d_sleep 0 Sigset_fill 0x10 0x20 0x30 one_task with
  | Ret (Jump c, (t, _)) => (r_eip c, current_task t, q_running t, t_state <$> store t !! current_task t)
  | _ => (0, 0, 0, None)
  end = (0x30, A, 0, Some TS_SLEEPING).
Proof. vm_compute. reflexivity. Qed.

(** [exit] ends nothing, and leaves interrupts, and with them the scheduler,
    off. *)
Example exit_only_stops_interrupts {S} `{TaskEnv S} (status : Z) (t : tasks) (x : S) :
  exit status (t, x) = Ret (tt, (with_eflags (Z.ldiff (eflags t) EFLAGS_IF) t, x)).
Proof. reflexivity. Qed.

(** With a number missing, [id2task] would take the next one's task: a lookup
    of 3 when only 5 is there. *)
Definition gap_tree : rbt Pair_id_task task_pool :=
  match insert demo_NIL demo_junk (PairIdTask 5 A) (Rbt_init demo_NIL ∅ (TaskPool A ∅) demo_junk) with
  | Ret (_, r) => r | _ => Rbt_init demo_NIL ∅ (TaskPool A ∅) demo_junk
  end.
Example id2task_gap :
  match id2task demo_NIL 0 3 (with_id2task gap_tree start_tasks.1, start_env) with
  | Ret (a, _) => a | _ => 0
  end = A.
Proof. vm_compute. reflexivity. Qed.
