(* ===== verification/Cxx.v ===== *)
(** [lib/cxxsupport.cpp], [include/lib/cxxsupport.h]: what the compiler expects
    of a C++ runtime — global constructors and destructors, the table of
    functions to call at the end, and the operators [new] and [delete]. *)
From S2P Require Import Prelude Rbt TreeMm Kheap Page PageInit.

Record Atexit_func_entry_t : Type := AtexitFunc { af_func : Z; af_arg : Z; dso_handle : Z }.
Definition NATEXIT_FUNCS_MAX : Z := 128.

(** the two variables of the file *)
Record cxx : Type := Cxx { atexit_funcs : list Atexit_func_entry_t; natexit_funcs : Z }.
Definition cxx_start : cxx := Cxx (replicate (Z.to_nat NATEXIT_FUNCS_MAX) (AtexitFunc 0 0 0)) 0.

(** What the runtime calls: functions by their address, and the log.  A called
    function may call the runtime in turn, so it acts on the table too. *)
Class CxxEnv (X : Type) := {
  call_func : Z → Z → M (cxx * X) unit;
  call_void : Z → M (cxx * X) unit;
  cxx_log : string → M (cxx * X) unit
}.

Section Cxx.
Context {X : Type} `{CxxEnv X}.
(** the addresses the linker put between [start_ctors] and [end_ctors],
    [start_dtors] and [end_dtors] *)
Context (ctors dtors : list Z).
#[local] Abbreviation CM := (M (cxx * X)).

Definition get_cxx : CM cxx := λ s, Ret (s.1, s).
Definition put_cxx (t : cxx) : CM unit := λ s, Ret (tt, (t, s.2)).
Definition rd_entry (i : nat) : CM Atexit_func_entry_t :=
  t ← get_cxx; match atexit_funcs t !! i with Some e => mret e | None => fault end.
Definition wr_entry (i : nat) (e : Atexit_func_entry_t) : CM unit :=
  t ← get_cxx;
  if decide (i < length (atexit_funcs t))%nat
  then put_cxx (Cxx (<[i := e]> (atexit_funcs t)) (natexit_funcs t)) else fault.
Definition set_natexit (n : Z) : CM unit := t ← get_cxx; put_cxx (Cxx (atexit_funcs t) n).

Definition cxa_atexit (func arg dso : Z) : CM Z :=
  t ← get_cxx;
  if natexit_funcs t =? NATEXIT_FUNCS_MAX then panic "too many functions registered by __cxa_atexit"
  else
    wr_entry (Z.to_nat (natexit_funcs t)) (AtexitFunc func arg dso) ;;
    set_natexit (natexit_funcs t + 1) ;;
    mret 0.

(** [for (i = n; (-- i) >= 0; )] of the two cases *)
Fixpoint finalize_all (n : nat) : CM unit :=
  match n with
  | O => mret tt
  | S i => e ← rd_entry i; call_func (af_func e) (af_arg e) ;; finalize_all i
  end.
(** [for (j = i; j + 1 < natexit_funcs; j ++) atexit_funcs[j] = atexit_funcs[j + 1]] *)
Definition shift_down (i : nat) : CM unit :=
  t ← get_cxx;
  for_each (seq i (Z.to_nat (natexit_funcs t - 1) - i)) (λ j, e ← rd_entry (S j); wr_entry j e).
Fixpoint finalize_matching (n : nat) (f : Z) : CM unit :=
  match n with
  | O => mret tt
  | S i =>
    e ← rd_entry i;
    (if af_func e =? f then
       call_func (af_func e) (af_arg e) ;;
       shift_down i ;;
       t ← get_cxx;
       set_natexit (natexit_funcs t - 1)
     else mret tt) ;;
    finalize_matching i f
  end.

Definition cxa_finalize (f : Z) : CM unit :=
  t ← get_cxx;
  if f =? 0 then
    cxx_log "__cxa_finalize called with f=0" ;;
    t ← get_cxx;
    finalize_all (Z.to_nat (natexit_funcs t)) ;;
    set_natexit 0
  else finalize_matching (Z.to_nat (natexit_funcs t)) f.

Definition cxxsupport_init : CM unit := for_each ctors call_void.
Definition cxxsupport_finalize : CM unit := for_each dtors call_void ;; cxa_finalize 0.
Definition cxa_pure_virtual : CM unit := panic "pure virtual function can not be called".
End Cxx.

(** The operators of the kernel's heap. *)
Section Operators.
Context `{HeapLink} `{FreshNode} `{PageLink}.
Definition operator_new (size : Z) : M kstate Z := kernel_kmalloc size 0.
Definition operator_new_array (size : Z) : M kstate Z := kernel_kmalloc size 0.
Definition operator_delete (p : Z) : M kstate unit := kernel_kfree p.
Definition operator_delete_array (p : Z) : M kstate unit := kernel_kfree p.
End Operators.

(** * Filters that keep everything or nothing *)
Lemma filter_keeps {A} (P : A → Prop) `{!∀ a, Decision (P a)} (l : list A) : (∀ a, P a) → filter P l = l.
Proof. intros HP. induction l as [|a l IH]; [done|]. rewrite filter_cons, decide_True by done. by rewrite IH. Qed.
Lemma filter_drops {A} (P : A → Prop) `{!∀ a, Decision (P a)} (l : list A) : (∀ a, ¬ P a) → filter P l = [].
Proof. intros HP. induction l as [|a l IH]; [done|]. by rewrite filter_cons, decide_False. Qed.

(** * Functions that leave the table alone *)
Definition on_rest {X A} (m : M X A) : M (cxx * X) A := λ s,
  match m s.2 with
  | Ret (a, x) => Ret (a, (s.1, x)) | Panic msg => Panic msg | Fault => Fault | NoFuel => NoFuel
  end.
Class CxxEnvLaws (X : Type) `{CxxEnv X} : Type := {
  act : Z → Z → M X unit;
  act_log : string → M X unit;
  call_func_acts f a s : call_func f a s = on_rest (act f a) s;
  cxx_log_acts msg s : cxx_log msg s = on_rest (act_log msg) s
}.

(** the functions in the table, in the order of their registration *)
Record registered (t : cxx) (l : list Atexit_func_entry_t) : Prop := {
  reg_size : length (atexit_funcs t) = Z.to_nat NATEXIT_FUNCS_MAX;
  reg_count : natexit_funcs t = Z.of_nat (length l);
  reg_list : take (length l) (atexit_funcs t) = l
}.

Section Laws.
Context {X : Type} `{CxxEnvLaws X}.
Implicit Types (t : cxx) (x : X) (l : list Atexit_func_entry_t).

Lemma registered_start : registered cxx_start [].
Proof. by split. Qed.
Lemma registered_bound t l : registered t l → (length l ≤ Z.to_nat NATEXIT_FUNCS_MAX)%nat.
Proof. intros [Hs _ Hl]. rewrite <- Hs, <- Hl at 1. rewrite length_take. lia. Qed.
Lemma registered_at t l i e : registered t l → l !! i = Some e → atexit_funcs t !! i = Some e.
Proof.
  intros [_ _ Hl] Hi. rewrite <- Hl in Hi. rewrite <- Hi. symmetry. apply lookup_take_lt.
  by apply lookup_lt_Some in Hi; rewrite Hl in Hi.
Qed.
Lemma registered_of t n l :
  length (atexit_funcs t) = Z.to_nat NATEXIT_FUNCS_MAX → natexit_funcs t = Z.of_nat n → length l = n →
  (∀ i, (i < n)%nat → atexit_funcs t !! i = l !! i) → registered t l.
Proof.
  intros Hs Hc Hn Hi. split; [done|by rewrite Hn|]. rewrite Hn. apply list_eq. intros i.
  destruct (decide (i < n)%nat).
  - by rewrite lookup_take_lt, Hi.
  - rewrite !lookup_ge_None_2; [done|lia|rewrite length_take; lia].
Qed.

Lemma rd_entry_run t x i e : atexit_funcs t !! i = Some e → rd_entry i (t, x) = Ret (e, (t, x)).
Proof. intros Hi. unfold rd_entry, get_cxx, mbind, M_bind. simpl. by rewrite Hi. Qed.

(** the handlers of a list, one after the other *)
Definition acts (l : list Atexit_func_entry_t) : M X unit := for_each l (λ e, act (af_func e) (af_arg e)).

Lemma finalize_all_run t x l n :
  registered t l → (n ≤ length l)%nat →
  finalize_all n (t, x) = on_rest (acts (reverse (take n l))) (t, x).
Proof.
  intros Hr. revert x; induction n as [|i IH]; intros x Hn; [done|]. simpl finalize_all.
  destruct (lookup_lt_is_Some_2 l i) as [e He]; [lia|].
  rewrite (run_bind _ _ _ _ _ (rd_entry_run t x i e (registered_at _ _ _ _ Hr He))).
  rewrite (take_S_r l i e He), reverse_app. simpl. unfold acts, mbind, M_bind, on_rest at 1. simpl.
  rewrite call_func_acts. unfold on_rest at 1. simpl.
  unfold mbind, M_bind. destruct (act (af_func e) (af_arg e) x) as [[[] x']| | |]; [|done..].
  rewrite IH by lia. done.
Qed.

Lemma wr_entry_run t x i e :
  (i < length (atexit_funcs t))%nat →
  wr_entry i e (t, x) = Ret (tt, (Cxx (<[i := e]> (atexit_funcs t)) (natexit_funcs t), x)).
Proof. intros Hi. unfold wr_entry, get_cxx, mbind, M_bind. simpl. by rewrite decide_True. Qed.

(** The loop moves the entries from [i + 1] on down by one. *)
Lemma shift_loop_run k i t :
  (i + k < length (atexit_funcs t))%nat →
  ∃ t', (∀ x, for_each (seq i k) (λ j, e ← rd_entry (S j); wr_entry j e) (t, x) = Ret (tt, (t', x))) ∧
    length (atexit_funcs t') = length (atexit_funcs t) ∧ natexit_funcs t' = natexit_funcs t ∧
    ∀ j, atexit_funcs t' !! j = atexit_funcs t !! (if decide (i ≤ j < i + k)%nat then S j else j).
Proof.
  revert i t; induction k as [|k IH]; intros i t Hk.
  { exists t. split_and!; try done. intros j. by rewrite decide_False by lia. }
  destruct (lookup_lt_is_Some_2 (atexit_funcs t) (S i)) as [e He]; [lia|].
  destruct (IH (S i) (Cxx (<[i := e]> (atexit_funcs t)) (natexit_funcs t))) as (t' & Hrun & Hlen & Hn & Hat).
  { simpl. rewrite length_insert. lia. }
  exists t'. simpl in Hlen, Hn, Hat. rewrite length_insert in Hlen. split_and!; try done.
  - intros x. simpl for_each. unfold mbind at 1, M_bind at 1.
    rewrite (run_bind _ _ _ _ _ (rd_entry_run t x _ _ He)), wr_entry_run by lia. apply Hrun.
  - intros j. rewrite Hat. destruct (decide (j = i)) as [->|Hj].
    + rewrite decide_False, decide_True by lia. by rewrite list_lookup_insert_eq by lia.
    + repeat case_decide; try lia; by rewrite list_lookup_insert_ne by lia.
Qed.

Lemma shift_down_run t l i :
  registered t l → (i < length l)%nat →
  ∃ t', registered t' (delete i l) ∧
    ∀ x, (shift_down i ;; t ← get_cxx; set_natexit (natexit_funcs t - 1)) (t, x) = Ret (tt, (t', x)).
Proof.
  intros Hr Hi. pose proof (registered_bound t l Hr) as Hb. pose proof Hr as [Hs Hc Hl].
  destruct (shift_loop_run (length l - 1 - i) i t) as (t' & Hrun & Hlen & Hn & Hat); [lia|].
  exists (Cxx (atexit_funcs t') (natexit_funcs t' - 1)). split.
  - apply (registered_of _ (length l - 1)); simpl; [congruence|lia|rewrite length_delete; [lia|by apply lookup_lt_is_Some_2]|].
    intros j Hj. rewrite Hat. destruct (decide (j < i)%nat).
    + rewrite decide_False by lia. rewrite list_lookup_delete_lt by lia.
      destruct (lookup_lt_is_Some_2 l j) as [e He]; [lia|]. by rewrite He, (registered_at t l j e Hr He).
    + rewrite decide_True by lia. rewrite list_lookup_delete_ge by lia.
      destruct (lookup_lt_is_Some_2 l (S j)) as [e He]; [lia|]. by rewrite He, (registered_at t l _ e Hr He).
  - intros x. unfold shift_down, get_cxx, mbind, M_bind. cbn [fst snd].
    replace (Z.to_nat (natexit_funcs t - 1) - i)%nat with (length l - 1 - i)%nat by lia.
    specialize (Hrun x). unfold mbind, M_bind in Hrun. by rewrite Hrun.
Qed.

(** Running on the rest with the table going from [t] to [t1], then to [t2]. *)
Lemma on_rest_bind (m k : M X unit) t t1 t2 (m' k' : M (cxx * X) unit) :
  (∀ x, m' (t, x) = on_rest m (t1, x)) → (∀ x, k' (t1, x) = on_rest k (t2, x)) →
  ∀ x, (m' ;; k') (t, x) = on_rest (m ;; k) (t2, x).
Proof.
  intros Hm Hk x. unfold mbind, M_bind, on_rest in *. rewrite Hm. simpl.
  destruct (m x) as [[[] x']| | |]; [|done..]. by rewrite Hk.
Qed.

Lemma finalize_matching_run n f t l :
  registered t l → (n ≤ length l)%nat →
  ∃ t', registered t' (filter (λ e, af_func e ≠ f) (take n l) ++ drop n l) ∧
    ∀ x, finalize_matching n f (t, x) = on_rest (acts (reverse (filter (λ e, af_func e = f) (take n l)))) (t', x).
Proof.
  revert t l; induction n as [|i IH]; intros t l Hr Hn; [by exists t|].
  destruct (lookup_lt_is_Some_2 l i) as [e He]; [lia|].
  assert (Hli : length (take i l) = i) by (rewrite length_take; lia).
  rewrite (take_S_r l i e He), !filter_app, !filter_cons, !filter_nil.
  destruct (decide (af_func e = f)) as [Hf|Hf].
  - rewrite decide_False by (intros Hn'; by apply Hn').
    destruct (shift_down_run t l i Hr ltac:(lia)) as (t1 & Hr1 & Hrun1).
    assert (Ht : take i (delete i l) = take i l)
      by (rewrite delete_take_drop, take_app_le, take_take, Nat.min_id by lia; done).
    assert (Hd : drop i (delete i l) = drop (S i) l)
      by (rewrite delete_take_drop, drop_app_ge, Hli, Nat.sub_diag by lia; done).
    specialize (IH t1 (delete i l) Hr1). rewrite Ht, Hd in IH.
    destruct IH as (t' & Hr' & Hrun'); [rewrite length_delete by (by apply lookup_lt_is_Some_2); lia|].
    rewrite app_nil_r. exists t'. split; [exact Hr'|]. intros x. rewrite reverse_app. simpl finalize_matching.
    rewrite (run_bind _ _ _ _ _ (rd_entry_run t x i e (registered_at _ _ _ _ Hr He))).
    rewrite (proj2 (Z.eqb_eq _ _) Hf). simpl. revert x. apply (on_rest_bind _ _ _ t1); [|exact Hrun'].
    intros x. unfold mbind at 1, M_bind at 1. rewrite call_func_acts. unfold on_rest. simpl.
    destruct (act (af_func e) (af_arg e) x) as [[[] x']| | |]; [|done..]. apply Hrun1.
  - rewrite decide_True by done. destruct (IH t l Hr ltac:(lia)) as (t' & Hr' & Hrun').
    exists t'. split; [by rewrite <- (assoc_L (++)); simpl; rewrite <- (drop_S l e i He)|].
    intros x. rewrite app_nil_r. simpl finalize_matching.
    rewrite (run_bind _ _ _ _ _ (rd_entry_run t x i e (registered_at _ _ _ _ Hr He))).
    rewrite (proj2 (Z.eqb_neq _ _) Hf). apply Hrun'.
Qed.

Lemma cxa_atexit_run t l f a d x :
  registered t l → (length l < Z.to_nat NATEXIT_FUNCS_MAX)%nat →
  ∃ t', registered t' (l ++ [AtexitFunc f a d]) ∧ cxa_atexit f a d (t, x) = Ret (0, (t', x)).
Proof.
  intros Hr Hl. pose proof Hr as [Hs Hc Hlist]. unfold NATEXIT_FUNCS_MAX in Hl. eexists. split; cycle 1.
  - unfold cxa_atexit, get_cxx, mbind, M_bind. cbn [fst snd].
    destruct (Z.eqb_spec (natexit_funcs t) NATEXIT_FUNCS_MAX) as [Hmax|_]; [unfold NATEXIT_FUNCS_MAX in Hmax; lia|].
    rewrite Hc, Nat2Z.id, wr_entry_run by (rewrite Hs; exact Hl). reflexivity.
  - apply (registered_of _ (S (length l))); simpl; [by rewrite length_insert|lia|by rewrite length_app; simpl; lia|].
    intros i Hi. destruct (decide (i = length l)) as [->|Hne].
    + rewrite list_lookup_insert_eq by (rewrite Hs; exact Hl). by rewrite list_lookup_middle.
    + rewrite list_lookup_insert_ne by done. rewrite lookup_app_l by lia.
      destruct (lookup_lt_is_Some_2 l i) as [e He]; [lia|]. by rewrite He, (registered_at t l i e Hr He).
Qed.

(** C28: functions registered to be called at the end are called exactly once,
    the last one first: [__cxa_finalize(NULL)] calls all of them and empties
    the table, [__cxa_finalize(f)] calls those of [f] and keeps the others in
    their order; the table takes 128 functions and the next one stops the
    kernel. *)
Theorem cxa_finalize_correct t l f x g a d :
  registered t l →
  let called e := f = 0 ∨ af_func e = f in
  (∃ t', registered t' (filter (λ e, ¬ called e) l) ∧
     cxa_finalize f (t, x) =
       on_rest ((if f =? 0 then act_log "__cxa_finalize called with f=0" else mret tt) ;;
                acts (reverse (filter called l))) (t', x)) ∧
  if decide (length l = 128)%nat
  then cxa_atexit g a d (t, x) = Panic "too many functions registered by __cxa_atexit"
  else ∃ t', registered t' (l ++ [AtexitFunc g a d]) ∧ cxa_atexit g a d (t, x) = Ret (0, (t', x)).
Proof.
  intros Hr called. split.
  - unfold cxa_finalize. rewrite (run_bind get_cxx _ (t, x) t (t, x)) by done.
    assert (Hn : Z.to_nat (natexit_funcs t) = length l) by (rewrite (reg_count t l Hr); lia).
    destruct (Z.eqb_spec f 0) as [->|Hf].
    + exists (Cxx (atexit_funcs t) 0). split.
      { rewrite filter_drops by (intros e; unfold called; naive_solver).
        split; [exact (reg_size t l Hr)|done|done]. }
      rewrite filter_keeps by (intros e; by left).
      revert x. apply (on_rest_bind _ _ _ t); [intros x; apply cxx_log_acts|]. intros x.
      rewrite (run_bind get_cxx _ (t, x) t (t, x)) by done. rewrite Hn.
      unfold mbind, M_bind. rewrite (finalize_all_run t x l (length l) Hr (le_n _)), firstn_all.
      unfold on_rest. simpl. by destruct (acts (reverse l) x) as [[[] x']| | |].
    + destruct (finalize_matching_run (length l) f t l Hr (le_n _)) as (t' & Hr' & Hrun).
      rewrite firstn_all, drop_all, app_nil_r in *. exists t'. split.
      * rewrite (list_filter_iff _ (λ e, af_func e ≠ f)); [done|]. intros e. unfold called. naive_solver.
      * rewrite Hn, Hrun. unfold on_rest, mbind, M_bind. simpl.
        rewrite (list_filter_iff called (λ e, af_func e = f)); [done|]. intros e. unfold called. naive_solver.
  - pose proof (registered_bound t l Hr) as Hb. change (Z.to_nat NATEXIT_FUNCS_MAX) with 128%nat in Hb.
    case_decide as Hl.
    + unfold cxa_atexit, get_cxx, mbind, M_bind. cbn [fst snd]. by rewrite (reg_count t l Hr), Hl.
    + apply cxa_atexit_run; [done|]. change (Z.to_nat NATEXIT_FUNCS_MAX) with 128%nat. lia.
Qed.
End Laws.

(** * Concrete functions: they leave a trace of their calls *)
Definition trace : Type := list (Z * Z).
Definition trace_call (f a : Z) : M trace unit := λ tr, Ret (tt, tr ++ [(f, a)]).
Definition trace_env : CxxEnv trace :=
  {| call_func f a := on_rest (trace_call f a); call_void f := on_rest (trace_call f 0); cxx_log _ := mret tt |}.
Definition trace_laws : @CxxEnvLaws trace trace_env.
Proof.
  refine (@Build_CxxEnvLaws trace trace_env trace_call (λ _, mret tt) _ _); [done|by intros ? [? ?]].
Defined.
Definition demo_cxx : cxx :=
  Cxx (AtexitFunc 7 1 0 :: AtexitFunc 8 2 0 :: AtexitFunc 7 3 0 :: replicate 125 (AtexitFunc 0 0 0)) 3.
Lemma demo_registered : registered demo_cxx [AtexitFunc 7 1 0; AtexitFunc 8 2 0; AtexitFunc 7 3 0].
Proof. split; reflexivity. Qed.
Lemma cxa_finalize_correct_witness :
  (∃ t', @cxa_finalize trace trace_env 0 (demo_cxx, []) = Ret (tt, (t', [(7, 3); (8, 2); (7, 1)]))) ∧
  ∃ t', @cxa_finalize trace trace_env 7 (demo_cxx, []) = Ret (tt, (t', [(7, 3); (7, 1)])) ∧
    registered t' [AtexitFunc 8 2 0].
Proof.
  split.
  - destruct (@cxa_finalize_correct trace trace_env trace_laws demo_cxx _ 0 [] 9 9 9 demo_registered) as [(t' & _ & H) _].
    exists t'. exact H.
  - destruct (@cxa_finalize_correct trace trace_env trace_laws demo_cxx _ 7 [] 9 9 9 demo_registered) as [(t' & H1 & H2) _].
    exists t'. split; [exact H2|exact H1].
Defined.

(** A function registered by another one during the final call is dropped:
    here 7 registers 8, which nobody calls. *)
Definition registering_env : CxxEnv trace := {|
  call_func f a s := match trace_call f a s.2 with
                     | Ret (_, tr) =>
                       if f =? 7 then match @cxa_atexit trace 8 0 0 (s.1, tr) with Ret (_, s) => Ret (tt, s) | _ => Fault end
                       else Ret (tt, (s.1, tr))
                     | _ => Fault
                     end;
  call_void f := mret tt; cxx_log _ := mret tt |}.
Example finalize_drops_new :
  match @cxa_finalize trace registering_env 0 (Cxx (AtexitFunc 7 1 0 :: replicate 127 (AtexitFunc 0 0 0)) 1, []) with
  | Ret (_, (t, tr)) => (natexit_funcs t, tr) | _ => (-1, [])
  end = (0, [(7, 1)]).
Proof. reflexivity. Qed.
