(* ===== verification/UserSig.v ===== *)
(** [lib/include/signal.h]: the user programs' copy of [memset], [memcpy] and
    class [Sigset], on the bytes of the program's memory; and the proof that
    its objects are the kernel's sets, which is what lets a system call take
    one by its address. *)
From Stdlib Require Import ZifyBool.
From S2P Require Import Prelude Common Ctype Bytes Sigset.

Module User.
Definition NSIGNAL_MAX : Z := 32.
Definition sizeof_val : Z := NSIGNAL_MAX / 32 * 4.

(** [rep stosb] and [rep movsb] count down an unsigned register *)
Definition memset (dest val cnt : Z) (m : mem) : mem := Ctype.memset dest val (Z.to_nat (u32 cnt)) m.
Definition memcpy (dest src cnt : Z) (m : mem) : mem := Ctype.memcpy dest src (Z.to_nat (u32 cnt)) m.

(** [val[i]] of the object at [this] *)
Definition val_at (this i : Z) : Z := this + 4 * i.

Definition clear (this : Z) (m : mem) : mem := memset this 0 sizeof_val m.
Definition fill (this : Z) (m : mem) : mem := memset this (-1) sizeof_val m.
Definition init (this : Z) (m : mem) : mem := clear this m.
Definition init_copy (this s : Z) (m : mem) : mem := memcpy this s sizeof_val m.
Definition assign (this s : Z) (m : mem) : mem := memcpy this s sizeof_val m.

(** [1 << (signum & 31)], an [int] *)
Definition bit (signum : Z) : Z := s32 (Z.shiftl 1 (Z.land signum 31)).
Definition in_range (signum : Z) : bool := (0 <=? signum) && (signum <? NSIGNAL_MAX).
Definition add (signum this : Z) (m : mem) : mem :=
  if in_range signum then
    let p := val_at this (Z.shiftr signum 5) in
    store32 m p (u32 (Z.lor (le32 m p) (bit signum)))
  else m.
Definition del (signum this : Z) (m : mem) : mem :=
  if in_range signum then
    let p := val_at this (Z.shiftr signum 5) in
    store32 m p (u32 (Z.land (le32 m p) (Z.lnot (bit signum))))
  else m.
Definition test (signum this : Z) (m : mem) : bool :=
  if in_range signum then
    negb (Z.land (Z.shiftr (le32 m (val_at this (Z.shiftr signum 5))) (Z.land signum 31)) 1 =? 0)
  else false.
End User.

(** The kernel's value of the object at [this]. *)
Definition sigset_at (m : mem) (this : Z) : Sigset :=
  MkSigset ((λ i, le32 m (this + 4 * i)) <$> upto 0 (NSIGNAL_MAX / 32)).

Section Proofs.
Implicit Types (m : mem) (this n w : Z).

Lemma sigset_at_word m this : sigset_at m this = MkSigset [le32 m this].
Proof. unfold sigset_at, upto. simpl. by rewrite Z.mul_0_r, Z.add_0_r. Qed.
Lemma sigset_at_wf m this : sig_wf (sigset_at m this).
Proof. rewrite sigset_at_word. eexists. split; [done|]. apply le32_range. Qed.

Lemma s32_bits z i : 0 ≤ i < 32 → Z.testbit (s32 z) i = Z.testbit z i.
Proof.
  intros Hi. rewrite <- (Z.mod_pow2_bits_low (s32 z) 32), <- (Z.mod_pow2_bits_low z 32) by lia. f_equal.
  unfold s32. rewrite Zminus_mod_idemp_l. f_equal. lia.
Qed.
Lemma u32_bits z i : 0 ≤ i → Z.testbit (u32 z) i = (i <? 32) && Z.testbit z i.
Proof.
  intros Hi. unfold u32. destruct (Z.ltb_spec i 32).
  - by rewrite Z.mod_pow2_bits_low.
  - by rewrite Z.mod_pow2_bits_high by lia.
Qed.
Lemma bit_bits n i : 0 ≤ n < 32 → 0 ≤ i < 32 → Z.testbit (User.bit n) i = (n =? i).
Proof.
  intros Hn Hi. unfold User.bit. rewrite s32_bits, sig_bit, Z.shiftl_1_l by done. apply Z.pow2_bits_eqb. lia.
Qed.
Lemma user_word this n : 0 ≤ n < 32 → User.val_at this (Z.shiftr n 5) = this.
Proof. intros Hn. unfold User.val_at. rewrite Z.shiftr_div_pow2, Z.div_small by lia. lia. Qed.

Lemma user_set w n : 0 ≤ w < 2 ^ 32 → 0 ≤ n < 32 → u32 (Z.lor w (User.bit n)) = Z.setbit w n.
Proof.
  intros Hw Hn. apply Z.bits_inj'. intros i Hi. rewrite u32_bits, Z.setbit_eqb, Z.lor_spec by lia.
  destruct (Z.ltb_spec i 32).
  - rewrite bit_bits by lia. apply orb_comm.
  - rewrite (word_high w i), orb_false_r by lia. simpl. symmetry. apply Z.eqb_neq. lia.
Qed.
Lemma user_clear w n : 0 ≤ w < 2 ^ 32 → 0 ≤ n < 32 → u32 (Z.land w (Z.lnot (User.bit n))) = Z.clearbit w n.
Proof.
  intros Hw Hn. apply Z.bits_inj'. intros i Hi. rewrite u32_bits, Z.clearbit_eqb, Z.land_spec, Z.lnot_spec by lia.
  destruct (Z.ltb_spec i 32).
  - by rewrite bit_bits by lia.
  - by rewrite (word_high w i) by lia.
Qed.

Lemma sigset_at_const m this c :
  sigset_at (User.memset this c User.sizeof_val m) this = MkSigset [u8 c * 0x01010101].
Proof.
  rewrite sigset_at_word. do 2 f_equal. unfold User.memset, User.sizeof_val, User.NSIGNAL_MAX.
  change (Z.to_nat (u32 (32 / 32 * 4))) with 4%nat. unfold le32, le16, le8. rewrite !memset_at.
  repeat (case_match; [|lia]). unfold u8. rewrite !Z.mod_mod by lia. lia.
Qed.

(** the user program's signal sets are the kernel's: on every object in
    memory, clearing, filling, copying, adding, deleting and testing have the
    effect that the kernel's operations have on the value read from its bytes,
    and they change no other byte. *)
Theorem user_sigset_equivalence m this src n :
  (this ≤ src ∨ src + 4 ≤ this) →
  let same m' v := sigset_at m' this = v ∧ ∀ b, ¬ this ≤ b < this + 4 → m' b = m b in
  same (User.init this m) Sigset_init ∧ same (User.clear this m) Sigset_clear ∧
  same (User.fill this m) Sigset_fill ∧
  same (User.init_copy this src m) (Sigset_copy (sigset_at m src)) ∧
  same (User.assign this src m) (Sigset_copy (sigset_at m src)) ∧
  same (User.add n this m) (Sigset_add n (sigset_at m this)) ∧
  same (User.del n this m) (Sigset_del n (sigset_at m this)) ∧
  User.test n this m = Sigset_test n (sigset_at m this).
Proof.
  intros Hov same. pose proof (le32_range m this) as Hw. change (User.in_range n) with (sig_valid n).
  assert (Hset : ∀ c v, MkSigset [u8 c * 0x01010101] = v → same (User.memset this c User.sizeof_val m) v).
  { intros c v <-. split; [apply sigset_at_const|]. intros b Hb. unfold User.memset. rewrite memset_at.
    change (Z.to_nat (u32 User.sizeof_val)) with 4%nat. case_match; [lia|done]. }
  assert (Hcpy : same (User.memcpy this src User.sizeof_val m) (Sigset_copy (sigset_at m src))).
  { assert (Hat := λ b, memcpy_at this src 4 m b Hov). unfold User.memcpy.
    change (Z.to_nat (u32 User.sizeof_val)) with 4%nat.
    generalize dependent (Ctype.memcpy this src 4 m). intros m' Hat. split.
    - rewrite !sigset_at_word. unfold Sigset_copy. simpl sig_val. do 2 f_equal. apply le32_ext. intros i Hi.
      rewrite Hat. case_match; [f_equal; lia|lia].
    - intros b Hb. rewrite Hat. case_match; [lia|done]. }
  split; [by apply Hset|]. split; [by apply Hset|]. split; [by apply Hset|]. do 2 (split; [exact Hcpy|]).
  unfold same, User.add, User.del, User.test. change (User.in_range n) with (sig_valid n).
  destruct (sig_valid n) eqn:Hv.
  - apply sig_valid_spec in Hv as Hn. rewrite user_word, user_set, user_clear, !sigset_at_word by done.
    destruct (sig_ops_word (le32 m this) n Hw Hn) as [H1 H2].
    rewrite add_word, del_word, !le32_store32, test_word by done. split_and!; try done.
    + intros b Hb. by apply store32_out.
    + intros b Hb. by apply store32_out.
    + rewrite <- test_word by done. unfold Sigset_test. rewrite Hv, sig_index_0 by done. done.
  - unfold Sigset_add, Sigset_del, Sigset_test. rewrite Hv. done.
Qed.
End Proofs.

Lemma user_sigset_equivalence_witness :
  sigset_at (User.add 14 100 (User.clear 100 hello)) 100 = Sigset_add 14 (sigset_at (User.clear 100 hello) 100) ∧
  User.test 14 100 (User.add 14 100 (User.clear 100 hello)) = true.
Proof.
  destruct (user_sigset_equivalence (User.clear 100 hello) 100 200 14 ltac:(left; lia))
    as (_ & _ & _ & _ & _ & [H _] & _).
  split; [exact H|reflexivity].
Defined.
