(* ===== verification/Initrd.v ===== *)
(** [initrd.cpp]: the first user program — its own [printf], which puts text
    out by system calls, and the tests it runs — and the proof that what it
    prints is what the kernel's [printf] would print. *)
From S2P Require Import Prelude Common Ctype Port Sigset Printf Denoted Klog KlogOk KlogProps.

Definition FLOAT_PRECESION : Z := 5.
Definition NF : Z := 4096.

(** The wrappers of [lib/include/syscall.h], as operations on the machine. *)
Class Syscalls (X : Type) := {
  sys_puts : list Z → M X Z;
  sys_fork : M X Z;
  sys_getpid : M X Z;
  sys_sleep : Z → Sigset → M X Z;
  sys_wakeup : Z → M X Z
}.

(** the static variables: the buffers of [vprintf], [u2s] and [putc], and the
    array of [test_fork] *)
Record uprog : Type := UProg { u_buf_mem : list Z; u_u2s_ret : list Z; u_putc_buf : list Z; u_f : list Z }.
Definition u_bufs {X} (s : uprog * X) : list Z * list Z := (u_buf_mem s.1, u_u2s_ret s.1).
Definition with_u_bufs {X} (b r : list Z) (s : uprog * X) : uprog * X :=
  (UProg b r (u_putc_buf s.1) (u_f s.1), s.2).

(** the copying loop: the byte just written is the one tested *)
Fixpoint strcpy_loop (fuel : nat) (dest src : Z) (m : mem) : option mem :=
  match fuel with
  | O => None
  | S fuel =>
    let m := store m dest (m src) in
    if m dest =? 0 then Some m else strcpy_loop fuel (dest + 1) (src + 1) m
  end.
Definition strcpy (fuel : nat) (dest src : Z) (m : mem) : option (Z * mem) :=
  m ← strcpy_loop fuel dest src m; Some (dest, m).

Section Program.
Context {X : Type} `{Syscalls X}.
#[local] Abbreviation UM := (M (uprog * X)).

Definition sys {A} (m : M X A) : UM A := λ s,
  match m s.2 with
  | Ret (a, x) => Ret (a, (s.1, x)) | Panic msg => Panic msg | Fault => Fault | NoFuel => NoFuel
  end.
Definition puts_ (l : list Z) : UM unit := sys (sys_puts l) ;; mret tt.

Definition putc (ch : Z) : UM unit :=
  s ← get;
  put (UProg (u_buf_mem s.1) (u_u2s_ret s.1) [ch] (u_f s.1), s.2) ;;
  puts_ [ch].

Definition vprintf (fmt : list Z) (args : list arg) : UM unit :=
  vprintf_loop FLOAT_PRECESION putc puts_ u_bufs with_u_bufs fmt args BufUninit.
Definition printf (fmt : string) (args : list arg) : UM unit := vprintf (chars fmt) args.

(** One turn of the loop of [test_sleep]; the inner loop only waits. *)
Definition test_sleep_turn (pid i : Z) : UM unit :=
  (if i =? 10 then
     if pid =? 1 then sys (sys_wakeup 0) ;; mret tt
     else if pid =? 0 then sys (sys_sleep 1 Sigset_init) ;; mret tt
     else mret tt
   else mret tt) ;;
  (if (i =? 20) && (pid =? 0) then sys (sys_wakeup 1) ;; mret tt else mret tt) ;;
  printf ("pid %d: %d" +:+ newline_str) [ArgInt pid; ArgInt i].
(** its first [n] turns; it has no end *)
Definition test_sleep (n : Z) : UM unit :=
  sys sys_fork ;;
  pid ← sys sys_getpid;
  (if pid =? 0 then sys (sys_sleep 0 Sigset_init) ;; mret tt else mret tt) ;;
  for_each (upto 0 n) (test_sleep_turn pid).

Definition set_f (i : nat) (v : Z) : UM unit :=
  s ← get; put (UProg (u_buf_mem s.1) (u_u2s_ret s.1) (u_putc_buf s.1) (<[i := v]> (u_f s.1)), s.2).
Definition get_f (i : nat) : UM Z := s ← get; match u_f s.1 !! i with Some v => mret v | None => fault end.
(** up to the endless loop after the last message *)
Definition test_fork : UM unit :=
  set_f 0 2 ;;
  puts_ (chars ("before fork()" +:+ newline_str)) ;;
  ret ← sys sys_fork;
  puts_ (chars ("fork() done" +:+ newline_str)) ;;
  set_f 1 ret ;;
  f1 ← get_f 1;
  printf ("fork() retured %d" +:+ newline_str) [ArgInt f1] ;;
  f0 ← get_f 0;
  f1 ← get_f 1;
  s ← get;
  if negb (f0 =? 2) || negb (f1 =? ret) || negb (forallb (λ v, v =? 0) (drop 2 (u_f s.1)))
  then printf ("no" +:+ newline_str) []
  else pid ← sys sys_getpid; printf ("%d: ok" +:+ newline_str) [ArgInt pid].

Definition start (n : Z) : UM unit :=
  printf ("hello, user mode!" +:+ newline_str) [] ;; test_sleep n.
End Program.

(** * What reaches the screen *)

(** The system call [sys_puts] is [Klog::puts]; the program that only prints
    needs no other. *)
Definition screen_puts (l : list Z) : M screen Z := Klog.puts l ;; mret 0.
#[local] Instance screen_calls : Syscalls screen :=
  {| sys_puts := screen_puts; sys_fork := fault; sys_getpid := fault;
     sys_sleep _ _ := fault; sys_wakeup _ := fault |}.

Definition user_ready (s : uprog * screen) : Prop := screen_ready s.2.
Definition user_shown (l : list Z) (s s' : uprog * screen) : Prop := shown l s.2 s'.2.

Lemma user_puts_shown l s :
  user_ready s → ∃ s', puts_ l s = Ret (tt, s') ∧ user_shown l s s' .
Proof.
  intros Hr. destruct (puts_shown l s.2 Hr) as (s' & Hrun & Hsh). exists (s.1, s').
  split; [|exact Hsh]. unfold puts_, sys, mbind, M_bind. simpl. unfold screen_puts, mbind, M_bind. by rewrite Hrun.
Qed.

#[local] Instance user_printer : Printer putc puts_ u_bufs with_u_bufs user_ready user_shown.
Proof.
  constructor.
  - intros s [Hok _]. by split.
  - intros l1 l2 s1 s2 s3 [O1 S1 F1 [C1 N1]] [O2 S2 F2 [C2 N2]]. split; [done| | |split]; try congruence.
    + intros t Ht. rewrite foldl_app. auto.
    + intros i Hi. by rewrite F2, F1.
  - intros l s s' [_ [t Ht]] [Hok Hsh _ _]. split; [done|]. eauto.
  - intros b r s [Hok _]. by split.
  - done.
  - intros c s Hr. destruct (user_puts_shown [c] (UProg (u_buf_mem s.1) (u_u2s_ret s.1) [c] (u_f s.1), s.2) Hr)
      as (s' & Hrun & Hsh). exists s'. split; [exact Hrun|exact Hsh].
  - intros l s Hr. by apply user_puts_shown.
Qed.

(** C24: printing from user mode is printing from the kernel. For every format
    and arguments that denote a text (those without [%f], of which the program
    prints five digits behind the point and the kernel four), the program's
    [vprintf], one system call per conversion and per character, leaves that
    text on the screen, and nothing else; the kernel's [vprintf] of the same
    format and arguments leaves the same screen, the same colours and the same
    memory outside the video area. *)
Theorem user_vprintf_equivalence fmt args out u s t :
  denoted_text fmt args = Some out → screen_ok s → shows s t →
  let t' := foldl (λ t ch, term_putc ch t) t out in
  ∃ u' s' s2, vprintf fmt args (u, s) = Ret (tt, (u', s')) ∧ Klog.vprintf fmt args s = Ret (tt, s2) ∧
    screen_ok s' ∧ shows s' t' ∧ screen_ok s2 ∧ shows s2 t' ∧
    video_frame (vmem s) (vmem s') ∧ video_frame (vmem s) (vmem s2) ∧
    color_stack s' = color_stack s ∧ color_stack s2 = color_stack s.
Proof.
  intros Hd Hok Hsh t'. pose proof (denoted_format_text FLOAT_PRECESION fmt args out Hd) as Hf.
  destruct (vprintf_loop_ok FLOAT_PRECESION (length fmt) fmt args BufUninit out (u, s) (le_n _) Hf
    (conj Hok (ex_intro _ t Hsh))) as ([u' s'] & Hrun & [Hok' Hsh' Hfr [Hc _]]).
  destruct (vprintf_ok fmt args out s t (denoted_format_text _ _ _ _ Hd) Hok Hsh)
    as (s2 & Hrun2 & Hok2 & Hsh2 & Hfr2 & Hc2 & _).
  exists u', s', s2. do 3 (split; [done|]). split; [by apply Hsh'|]. by do 5 (split; [done|]).
Qed.

Lemma user_vprintf_equivalence_witness :
  ∃ u' s' s2, vprintf (chars "pid %d: %d") [ArgInt 1; ArgInt 10] (UProg [] [] [] [], demo_screen) = Ret (tt, (u', s')) ∧
    Klog.vprintf (chars "pid %d: %d") [ArgInt 1; ArgInt 10] demo_screen = Ret (tt, s2) ∧
    (cell (vmem s') 0 4).1 = 49 ∧ (cell (vmem s2) 0 4).1 = 49.
Proof.
  destruct (user_vprintf_equivalence (chars "pid %d: %d") [ArgInt 1; ArgInt 10] (chars "pid 1: 10")
    (UProg [] [] [] []) demo_screen demo_term ltac:(vm_compute; reflexivity) demo_screen_ok demo_screen_shows)
    as (u' & s' & s2 & H1 & H2 & _ & [Hs' _ _ _] & _ & [Hs2 _ _ _] & _).
  exists u', s', s2. split; [exact H1|]. split; [exact H2|].
  split; [rewrite (Hs' 0 4 ltac:(vm_compute; intuition congruence))|rewrite (Hs2 0 4 ltac:(vm_compute; intuition congruence))];
    reflexivity.
Defined.
