(* ===== verification/Syscall.v ===== *)
(** [core/syscall.cpp], [lib/include/syscall.h] and the entry [isr0x80] of
    [core/asm/syscall.S]: the table of kernel functions a program can call, and
    the wrappers it calls them by. *)
From S2P Require Import Prelude Common Rbt Errno Ctype Bytes Port Sigset UserSig Printf Klog KlogOk KlogProps RbTree RbtRep RbtFind Task TaskQueue TaskOk TaskOps TaskSleep TaskProps TaskDemo.

Definition NR_SYSCALLS : Z := 5.

(** the registers a call passes, and the kernel's own at the point where the
    called function may switch tasks *)
Record sysregs : Type := SysRegs { g_eax : Z; g_ebx : Z; g_ecx : Z }.
Record kcontext : Type := KContext { kc_esp : Z; kc_ebp : Z; kc_eip : Z }.

(** The memory the kernel sees through the current page directory. *)
Class UserMem (X : Type) := { user_mem : X → mem }.

Section Syscall.
Context {X : Type} `{HT : !TaskEnv X} `{HM : !UserMem X}.
Context (NIL_task : Z) (junk_node : node Pair_id_task) (junk_id : Z) (kc : kcontext).
(** what [eax] holds when a function without a result returns *)
Context (junk_eax : Z).
(** longest text the loop of [Klog::puts] is followed through *)
Context (max_text : nat).
#[local] Abbreviation KM := (M (screen * (tasks * X))).

Definition on_screen {A} (m : M screen A) : KM A := λ s,
  match m s.1 with
  | Ret (a, c) => Ret (a, (c, s.2)) | Panic msg => Panic msg | Fault => Fault | NoFuel => NoFuel
  end.
Definition on_tasks {A} (m : M (tasks * X) A) : KM A := λ s,
  match m s.2 with
  | Ret (a, t) => Ret (a, (s.1, t)) | Panic msg => Panic msg | Fault => Fault | NoFuel => NoFuel
  end.
Definition returning (m : KM Z) : KM (control Z) := v ← m; mret (Return v).

(** [Klog::puts] with its argument in memory; a [char] is signed *)
Definition char_at (m : mem) (a : Z) : Z := (m a + 128) mod 256 - 128.
Fixpoint puts_at (fuel : nat) (str : Z) : KM unit :=
  s ← get;
  let ch := char_at (user_mem s.2.2) str in
  if ch =? 0 then on_screen move_cursor
  else
    match fuel with
    | O => nofuel
    | Datatypes.S fuel => on_screen (putc ch) ;; puts_at fuel (u32 (str + 1))
    end.

(** [sys_sleep] of [syscall.cpp]: the set is read through its address *)
Definition kernel_sys_sleep (pid sig_wakeup : Z) : KM (control Z) :=
  s ← get;
  on_tasks (Task.sleep NIL_task junk_id pid (sigset_at (user_mem s.2.2) sig_wakeup) (kc_esp kc) (kc_ebp kc) (kc_eip kc)).

Definition syscall_func_addr : list (sysregs → KM (control Z)) := [
  (λ g, returning (puts_at max_text (g_ebx g) ;; mret junk_eax));
  (λ g, returning (on_tasks (Task.fork NIL_task junk_node junk_id (kc_esp kc) (kc_ebp kc) (kc_eip kc))));
  (λ g, returning (on_tasks Task.getpid));
  (λ g, kernel_sys_sleep (g_ebx g) (g_ecx g));
  (λ g, returning (on_tasks (Task.wakeup NIL_task junk_id (g_ebx g))))
].

(** [cmp $NR_SYSCALLS, %eax; jge done]: a signed comparison; below zero the
    call goes through a word in front of the table *)
Definition isr0x80 (g : sysregs) : KM (control Z) :=
  if NR_SYSCALLS <=? s32 (g_eax g) then mret (Return (g_eax g))
  else if s32 (g_eax g) <? 0 then fault
  else
    match syscall_func_addr !! Z.to_nat (s32 (g_eax g)) with
    | Some f => f g
    | None => fault
    end.

(** * The program's side: [DEFN_SYSCALL0], [DEFN_SYSCALL1]; the registers an
      asm statement does not set are the caller's *)
Context (ebx ecx : Z).
Definition DEFN_SYSCALL0 (num : Z) : KM (control Z) := isr0x80 (SysRegs num ebx ecx).
Definition DEFN_SYSCALL1 (num p0 : Z) : KM (control Z) := isr0x80 (SysRegs num p0 ecx).
Definition DEFN_SYSCALL2 (num p0 p1 : Z) : KM (control Z) := isr0x80 (SysRegs num p0 p1).
Definition sys_puts (str : Z) : KM (control Z) := DEFN_SYSCALL1 0 str.
Definition sys_fork : KM (control Z) := DEFN_SYSCALL0 1.
Definition sys_getpid : KM (control Z) := DEFN_SYSCALL0 2.
Definition sys_sleep (pid sig_wakeup : Z) : KM (control Z) := isr0x80 (SysRegs 3 pid sig_wakeup).
Definition sys_wakeup (pid : Z) : KM (control Z) := DEFN_SYSCALL1 4 pid.

(** * A text in memory *)
Definition text_at (m : mem) (str : Z) (l : list Z) : Prop :=
  0 ≤ str ∧ str + Z.of_nat (length l) < 2 ^ 32 ∧ char_at m (str + Z.of_nat (length l)) = 0 ∧
  ∀ i ch, l !! i = Some ch → char_at m (str + Z.of_nat i) = ch ∧ ch ≠ 0.

Lemma text_at_cons m str ch l : text_at m str (ch :: l) → char_at m str = ch ∧ ch ≠ 0 ∧ text_at m (u32 (str + 1)) l.
Proof.
  intros (Hs & Hl & Hz & Hi). simpl in Hl. destruct (Hi 0%nat ch eq_refl) as [Hc Hne]. rewrite Z.add_0_r in Hc.
  split; [done|]. split; [done|]. rewrite u32_small by lia. split; [lia|]. split; [lia|]. split.
  - rewrite <- Hz. f_equal. simpl. lia.
  - intros i c Hc'. destruct (Hi (Datatypes.S i) c Hc') as [Hci Hcn]. split; [|done]. rewrite <- Hci. f_equal. lia.
Qed.

(** The loop over the memory is the loop over the text. *)
Lemma puts_at_run l : ∀ fuel str c t x,
  text_at (user_mem x) str l → (length l ≤ fuel)%nat →
  puts_at fuel str (c, (t, x)) =
    match (for_each l putc ;; move_cursor) c with
    | Ret (a, c') => Ret (a, (c', (t, x))) | Panic msg => Panic msg | Fault => Fault | NoFuel => NoFuel
    end.
Proof.
  induction l as [|ch l IH]; intros fuel str c t x Ht Hf.
  - destruct Ht as (_ & _ & Hz & _). rewrite Z.add_0_r in Hz.
    destruct fuel; simpl; unfold mbind at 1, M_bind at 1, get; simpl; rewrite Hz; done.
  - destruct (text_at_cons _ _ _ _ Ht) as (Hch & Hne & Ht'). destruct fuel as [|fuel]; [simpl in Hf; lia|].
    simpl. rewrite (run_bind get _ (c, (t, x)) (c, (t, x)) (c, (t, x))) by done. simpl. rewrite Hch.
    rewrite (proj2 (Z.eqb_neq _ _) Hne). unfold mbind, M_bind, on_screen. simpl.
    destruct (putc ch c) as [[[] c']| | |]; [|done..]. rewrite IH by (done || (simpl in Hf; lia)). done.
Qed.
End Syscall.

Section Calls.
Context {X : Type} `{HT : !TaskEnv X} `{HL : !TaskEnvLaws X} `{HM : !UserMem X}.
Context (NIL_task : Z) `{!NilAddr (P:=task_pool) NIL_task} (junk_node : node Pair_id_task) (junk_id : Z).
Context (kc : kcontext) (junk_eax : Z) (max_text : nat) (ebx ecx : Z).
#[local] Abbreviation KM := (M (screen * (tasks * X))).

(** C21: a program's calls reach the kernel functions they name, with their
    arguments: [sys_puts] shows the text at its address, [sys_sleep] takes the
    set in the program's memory, the results come back; a call the task
    component refuses gives the program -1 and changes only the caller's error
    number; a number not in the table changes nothing and comes back itself,
    and a negative one, which the signed comparison lets pass, faults. *)
Theorem syscalls_correct c t x ls order k :
  let s := (c, (t, x)) in
  let isr := isr0x80 NIL_task junk_node junk_id kc junk_eax max_text in
  tasks_ok NIL_task t x ls order → order ≠ [] → screen_ready c → store t !! current_task t = Some k →
  (∀ str l, text_at (user_mem x) str l → (length l ≤ max_text)%nat →
     ∃ c', sys_puts NIL_task junk_node junk_id kc junk_eax max_text ecx str s = Ret (Return junk_eax, (c', (t, x))) ∧
           shown l c c') ∧
  sys_getpid NIL_task junk_node junk_id kc junk_eax max_text ebx ecx s = Ret (Return (t_id k), s) ∧
  sys_fork NIL_task junk_node junk_id kc junk_eax max_text ebx ecx s =
    returning (on_tasks (Task.fork NIL_task junk_node junk_id (kc_esp kc) (kc_ebp kc) (kc_eip kc))) s ∧
  (∀ pid a, sys_sleep NIL_task junk_node junk_id kc junk_eax max_text pid a s =
     on_tasks (Task.sleep NIL_task junk_id pid (sigset_at (user_mem x) a) (kc_esp kc) (kc_ebp kc) (kc_eip kc)) s) ∧
  (∀ pid, sys_wakeup NIL_task junk_node junk_id kc junk_eax max_text ecx pid s =
     returning (on_tasks (Task.wakeup NIL_task junk_id pid)) s) ∧
  (∀ pid a e, 0 ≤ pid → refused t ls order pid e →
     let s' := (c, (with_store (alter (set_terrno (errno_code e)) (current_task t) (store t)) t, x)) in
     sys_sleep NIL_task junk_node junk_id kc junk_eax max_text pid a s = Ret (Return (-1), s') ∧
     sys_wakeup NIL_task junk_node junk_id kc junk_eax max_text ecx pid s = Ret (Return (-1), s')) ∧
  (∀ g, NR_SYSCALLS ≤ s32 (g_eax g) → isr g s = Ret (Return (g_eax g), s)) ∧
  (∀ g, s32 (g_eax g) < 0 → isr g s = Fault).
Proof.
  intros s isr Hok Hne Hc Hk. split_and!.
  - intros str l Ht Hl. destruct (puts_shown l c Hc) as (c' & Hrun & Hsh). exists c'. split; [|done].
    change (sys_puts NIL_task junk_node junk_id kc junk_eax max_text ecx str s) with
      (returning (puts_at max_text str ;; mret junk_eax) s).
    unfold s, returning, mbind, M_bind. rewrite (puts_at_run l) by done. unfold puts in Hrun.
    unfold mbind, M_bind in Hrun |- *. by rewrite Hrun.
  - change (sys_getpid NIL_task junk_node junk_id kc junk_eax max_text ebx ecx s) with (returning (on_tasks getpid) s).
    unfold returning, on_tasks, getpid, mbind, M_bind. cbn. unfold rd_task, mbind, M_bind. cbn. by rewrite Hk.
  - reflexivity.
  - reflexivity.
  - reflexivity.
  - intros pid a e Hp Hr s'.
    destruct (refused_run NIL_task junk_id t x ls order pid e (sigset_at (user_mem x) a) (kc_esp kc) (kc_ebp kc) (kc_eip kc)
      Hok Hne Hp Hr) as (H1 & H2 & _).
    split.
    + change (sys_sleep NIL_task junk_node junk_id kc junk_eax max_text pid a s) with
        (on_tasks (Task.sleep NIL_task junk_id pid (sigset_at (user_mem x) a) (kc_esp kc) (kc_ebp kc) (kc_eip kc)) s).
      unfold on_tasks. simpl. by rewrite H1.
    + change (sys_wakeup NIL_task junk_node junk_id kc junk_eax max_text ecx pid s) with
        (returning (on_tasks (Task.wakeup NIL_task junk_id pid)) s).
      unfold returning, on_tasks, mbind, M_bind. simpl. by rewrite H2.
  - intros g Hg. unfold isr, isr0x80. by rewrite (proj2 (Z.leb_le _ _) Hg).
  - intros g Hg. unfold isr, isr0x80. unfold NR_SYSCALLS.
    rewrite (proj2 (Z.leb_gt _ _)), (proj2 (Z.ltb_lt _ _) Hg) by lia. done.
Qed.
End Calls.

(** * Two tasks, and a program with a text and a set in its memory *)
#[local] Instance demo_user_mem : UserMem simple_env :=
  {| user_mem _ a := if a =? 0x1000 then 72 else if a =? 0x1001 then 105 else 0 |}.
Definition demo_kc : kcontext := KContext 0x10 0x20 0x30.
Lemma demo_text x : text_at (user_mem x) 0x1000 [72; 105].
Proof.
  split; [lia|]. split; [simpl; lia|]. split; [reflexivity|].
  intros [|[|i]] ch Hi; [injection Hi as <-|injection Hi as <-|discriminate]; split; (reflexivity || lia).
Qed.
Lemma demo_screen_ready : screen_ready demo_screen.
Proof. split; [exact demo_screen_ok|]. exists demo_term. exact demo_screen_shows. Qed.
Lemma some_task : ∃ k, store two_tasks.1 !! current_task two_tasks.1 = Some k.
Proof.
  destruct two_tasks_ok as [Hok _]. exact (proj2 (tk_dom _ _ _ _ _ _ _ Hok _) (tk_current _ _ _ _ _ _ _ Hok AC_some)).
Qed.
Lemma syscalls_correct_witness :
  (∃ c', sys_puts demo_NIL demo_junk 0 demo_kc 0 10 0 0x1000 (demo_screen, two_tasks) = Ret (Return 0, (c', two_tasks)) ∧
     shown [72; 105] demo_screen c') ∧
  (∃ s', sys_wakeup demo_NIL demo_junk 0 demo_kc 0 10 0 7 (demo_screen, two_tasks) = Ret (Return (-1), s')) ∧
  isr0x80 demo_NIL demo_junk 0 demo_kc 0 10 (SysRegs 9 0 0) (demo_screen, two_tasks) =
    Ret (Return 9, (demo_screen, two_tasks)).
Proof.
  destruct two_tasks_ok as [Hok Hcur]. destruct some_task as [k Hk].
  pose proof (syscalls_correct demo_NIL demo_junk 0 demo_kc 0 10 0 0 demo_screen two_tasks.1 two_tasks.2 two_queues [A; C] k
    Hok AC_some demo_screen_ready Hk) as (H1 & _ & _ & _ & _ & H2 & H3 & _).
  rewrite <- surjective_pairing in H1, H2, H3. split; [|split].
  - apply H1; [apply demo_text|simpl; lia].
  - eexists. exact (proj2 (H2 7 0 ESRCH seven_nonneg (refused_no_task two_tasks.1 two_queues [A; C] 7 eq_refl))).
  - apply H3. vm_compute. discriminate.
Defined.
