(* ===== verification/Stack.v ===== *)
(** [move_stack] of [core/task.cpp]: the boot stack is copied to the top of the
    address space, and the pointers in it that point into it are moved along. *)
From Stdlib Require Import ZifyBool.
From S2P Require Import Prelude Common Ctype Bytes.

(** The memory the stack is in: words, a copy, and the pages of the new place. *)
Class StackMem (S : Type) := {
  sm_alloc_interval : Z → Z → bool → bool → M S unit;
  sm_memcpy : Z → Z → Z → M S unit;
  sm_load : Z → M S Z;
  sm_store : Z → Z → M S unit
}.

Section MoveStack.
Context {S : Type} `{StackMem S}.
(** [esp] when the boot loader entered [loader] *)
Context (initial_stack_pointer : Z).

(** [for (i = KERNEL_STACK_POS - 4; i > new_esp; i -= 4)] *)
Fixpoint relocate (fuel : nat) (i new_esp old_esp offset : Z) : M S unit :=
  if new_esp <? i then
    match fuel with
    | O => nofuel
    | Datatypes.S fuel =>
      tmp ← sm_load i;
      (if (tmp <? initial_stack_pointer) && (old_esp <? tmp) then sm_store i (u32 (tmp + offset)) else mret tt) ;;
      relocate fuel (u32 (i - 4)) new_esp old_esp offset
    end
  else mret tt.

(** with the stack pointer and the frame pointer it is called with; those it
    returns with *)
Definition move_stack (old_esp old_ebp : Z) : M S (Z * Z) :=
  sm_alloc_interval (KERNEL_STACK_POS - KERNEL_STACK_SIZE) KERNEL_STACK_POS false true ;;
  let offset := u32 (KERNEL_STACK_POS - initial_stack_pointer) in
  let new_esp := u32 (old_esp + offset) in
  let new_ebp := u32 (old_ebp + offset) in
  sm_memcpy new_esp old_esp (u32 (initial_stack_pointer - old_esp)) ;;
  relocate (Z.to_nat (KERNEL_STACK_SIZE / 4)) (KERNEL_STACK_POS - 4) new_esp old_esp offset ;;
  mret (new_esp, new_ebp).
End MoveStack.

(** * On a flat memory *)
Global Instance flat_stack : StackMem mem := {|
  sm_alloc_interval _ _ _ _ := mret tt;
  sm_memcpy d s n := λ m, Ret (tt, memcpy d s (Z.to_nat n) m);
  sm_load a := λ m, Ret (le32 m a, m);
  sm_store a v := λ m, Ret (tt, store32 m a v)
|}.

Section Flat.
Context (isp : Z).
Implicit Types (m : mem) (a i : Z).

(** where a word of the old stack points afterwards *)
Definition moved_word (old_esp offset w : Z) : Z :=
  if (w <? isp) && (old_esp <? w) then w + offset else w.

Lemma relocate_run n fuel i new_esp old_esp offset m :
  (n ≤ fuel)%nat → 0 < new_esp → i = new_esp + 4 * Z.of_nat n → i + 4 ≤ 2 ^ 32 → 0 ≤ offset → isp + offset < 2 ^ 32 →
  ∃ m', relocate isp fuel i new_esp old_esp offset m = Ret (tt, m') ∧
    (∀ k, 0 < k ≤ Z.of_nat n → le32 m' (new_esp + 4 * k) = moved_word old_esp offset (le32 m (new_esp + 4 * k))) ∧
    ∀ b, ¬ new_esp + 4 ≤ b < i + 4 → m' b = m b.
Proof.
  intros Hf Hpos. revert fuel Hf i m; induction n as [|n IH]; intros fuel Hf i m Hi Hb Ho Hisp.
  { exists m. split; [|split; [lia|done]]. destruct fuel; simpl; by rewrite (proj2 (Z.ltb_ge _ _)) by lia. }
  destruct fuel as [|fuel]; [lia|]. simpl relocate.
  rewrite (proj2 (Z.ltb_lt _ _)) by lia. unfold mbind at 1, M_bind at 1. simpl.
  pose proof (le32_range m i) as Hw. set (w := le32 m i) in *.
  set (m1 := if (w <? isp) && (old_esp <? w) then store32 m i (u32 (w + offset)) else m).
  assert (Hrun : (if (w <? isp) && (old_esp <? w) then sm_store i (u32 (w + offset)) else mret tt) m = Ret (tt, m1))
    by (unfold m1; by destruct (_ && _)).
  rewrite (run_bind _ _ _ _ _ Hrun). rewrite u32_small by lia.
  assert (Hm1 : le32 m1 i = moved_word old_esp offset w).
  { unfold m1, moved_word. destruct ((w <? isp) && (old_esp <? w)) eqn:Hc; [|done].
    rewrite le32_store32 by apply u32_range. apply u32_small. lia. }
  assert (Hout : ∀ b, ¬ i ≤ b < i + 4 → m1 b = m b).
  { intros b Hb'. unfold m1. destruct (_ && _); [by apply store32_out|done]. }
  destruct (IH fuel ltac:(lia) (i - 4) m1) as (m' & Hrun' & Hin & Hfr); [lia..|].
  exists m'. split; [exact Hrun'|]. split.
  - intros k Hk. destruct (decide (k = Z.of_nat (Datatypes.S n))) as [->|Hne].
    + replace (new_esp + 4 * Z.of_nat (Datatypes.S n)) with i by lia. fold w. rewrite <- Hm1.
      apply le32_ext. intros j Hj. apply Hfr. lia.
    + rewrite Hin by lia. f_equal. apply le32_ext. intros j Hj. apply Hout. lia.
  - intros b Hb'. rewrite Hfr by lia. apply Hout. lia.
Qed.

(** C27: the stack is moved with its pointers: every word of the old stack is
    found at the same distance from the new top, plus that distance when it
    points into the old stack (the word at the stack pointer itself and a
    pointer to it are copied as they are), the two registers point into the new
    stack, and no byte outside it changes. *)
Theorem move_stack_correct esp ebp m :
  0 ≤ esp < isp → isp < KERNEL_STACK_POS - KERNEL_STACK_SIZE → (isp - esp) mod 4 = 0 →
  isp - esp ≤ KERNEL_STACK_SIZE → esp ≤ ebp ≤ isp →
  let offset := KERNEL_STACK_POS - isp in
  ∃ m', move_stack isp esp ebp m = Ret ((esp + offset, ebp + offset), m') ∧
    (∀ k, 0 < k → 4 * k < isp - esp →
       le32 m' (esp + offset + 4 * k) = moved_word esp offset (le32 m (esp + 4 * k))) ∧
    le32 m' (esp + offset) = le32 m esp ∧
    ∀ b, ¬ esp + offset ≤ b < KERNEL_STACK_POS → m' b = m b.
Proof.
  intros Hesp Hisp Hmod Hsize Hebp offset. unfold KERNEL_STACK_POS, KERNEL_STACK_SIZE in *.
  apply Z.mod_divide in Hmod as [n Hn]; [|done].
  assert (Hoff : u32 (0xFFFFF000 - isp) = offset) by (apply u32_small; lia).
  unfold move_stack, KERNEL_STACK_POS, KERNEL_STACK_SIZE. rewrite Hoff.
  rewrite (u32_small (esp + offset)), (u32_small (ebp + offset)), (u32_small (isp - esp)) by lia.
  assert (Hcp := λ b, memcpy_at (esp + offset) esp (Z.to_nat (isp - esp)) m b ltac:(right; lia)).
  unfold mbind at 1, M_bind at 1. simpl sm_alloc_interval. unfold mret at 1, M_ret at 1. cbv beta iota.
  unfold mbind at 1, M_bind at 1. simpl sm_memcpy. cbv beta iota.
  generalize dependent (memcpy (esp + offset) esp (Z.to_nat (isp - esp)) m). intros m1 Hcp.
  assert (Hw : ∀ k, 0 ≤ k → 4 * k < isp - esp → le32 m1 (esp + offset + 4 * k) = le32 m (esp + 4 * k)).
  { intros k Hk Hlt. apply le32_ext. intros j Hj. rewrite Hcp. case_match; [f_equal; lia|lia]. }
  destruct (relocate_run (Z.to_nat (n - 1)) (Z.to_nat (0x1000 / 4)) (0xFFFFF000 - 4) (esp + offset) esp offset m1)
    as (m' & Hrun & Hin & Hfr); try lia.
  { change (Z.to_nat (4 * 1024 / 4)) with 1024%nat in *. change (0x1000 / 4) with 1024. lia. }
  change (4 * 1024) with 0x1000. unfold mbind, M_bind. rewrite Hrun. exists m'. split; [done|]. split; [|split].
  - intros k Hk Hlt. rewrite Hin by lia. by rewrite Hw by lia.
  - pose proof (Hw 0 ltac:(lia) ltac:(lia)) as Hw0. rewrite Z.mul_0_r, !Z.add_0_r in Hw0. rewrite <- Hw0.
    apply le32_ext. intros j Hj. apply Hfr. lia.
  - intros b Hb. rewrite Hfr by lia. rewrite Hcp. case_match; [lia|done].
Qed.
End Flat.

(** A stack of four words: the second holds a frame pointer into it. *)
Definition demo_stack_mem : mem := store32 (store32 (λ _, 0) 0x7FF4 0x7FFC) 0x7FF8 0x1234.
Lemma move_stack_correct_witness :
  ∃ m', move_stack 0x8000 0x7FF0 0x7FF4 demo_stack_mem = Ret ((0xFFFFEFF0, 0xFFFFEFF4), m') ∧
    le32 m' 0xFFFFEFF4 = 0xFFFFEFFC ∧ le32 m' 0xFFFFEFF8 = 0x1234.
Proof.
  destruct (move_stack_correct 0x8000 0x7FF0 0x7FF4 demo_stack_mem ltac:(lia) eq_refl eq_refl ltac:(vm_compute; discriminate)
    ltac:(lia)) as (m' & Hrun & Hw & _).
  exists m'. split; [exact Hrun|]. split.
  - etrans; [exact (Hw 1 ltac:(lia) ltac:(lia))|reflexivity].
  - etrans; [exact (Hw 2 ltac:(lia) ltac:(lia))|reflexivity].
Defined.
