(* ===== verification/Multiboot.v ===== *)
(** [include/multiboot.h]: the header the kernel image carries, and the
    structures the boot loader leaves in memory, read as the kernel reads them
    through its pointers. *)
From S2P Require Import Prelude Common Ctype Bytes Page PageInit.

Definition MULTIBOOT_SEARCH : Z := 8192.
Definition MULTIBOOT_HEADER_MAGIC : Z := 0x1BADB002.
Definition MULTIBOOT_BOOTLOADER_MAGIC : Z := 0x2BADB002.
Definition MULTIBOOT_UNSUPPORTED : Z := 0x0000fffc.
Definition MULTIBOOT_MOD_ALIGN : Z := 0x00001000.
Definition MULTIBOOT_INFO_ALIGN : Z := 0x00000004.
Definition MULTIBOOT_PAGE_ALIGN : Z := 0x00000001.
Definition MULTIBOOT_MEMORY_INFO : Z := 0x00000002.
Definition MULTIBOOT_VIDEO_MODE : Z := 0x00000004.
Definition MULTIBOOT_AOUT_KLUDGE : Z := 0x00010000.
Definition MULTIBOOT_INFO_MEMORY : Z := 0x00000001.
Definition MULTIBOOT_INFO_BOOTDEV : Z := 0x00000002.
Definition MULTIBOOT_INFO_CMDLINE : Z := 0x00000004.
Definition MULTIBOOT_INFO_MODS : Z := 0x00000008.
Definition MULTIBOOT_INFO_AOUT_SYMS : Z := 0x00000010.
Definition MULTIBOOT_INFO_ELF_SHDR : Z := 0x00000020.
Definition MULTIBOOT_INFO_DRIVE_INFO : Z := 0x00000080.
Definition MULTIBOOT_INFO_CONFIG_TABLE : Z := 0x00000100.
Definition MULTIBOOT_INFO_BOOT_LOADER_NAME : Z := 0x00000200.
Definition MULTIBOOT_INFO_APM_TABLE : Z := 0x00000400.
Definition MULTIBOOT_INFO_VIDEO_INFO : Z := 0x00000800.
Definition MULTIBOOT_MEMORY_RESERVED : Z := 2.

(** The header [core/asm/loader.S] puts at the start of the image. *)
Definition header_flags : Z := Z.lor MULTIBOOT_PAGE_ALIGN MULTIBOOT_MEMORY_INFO.
Definition header_words : list Z :=
  [MULTIBOOT_HEADER_MAGIC; header_flags; u32 (- (MULTIBOOT_HEADER_MAGIC + header_flags))].
Example header_valid : u32 (foldr Z.add 0 header_words) = 0 ∧ Z.land header_flags MULTIBOOT_UNSUPPORTED = 0.
Proof. split; reflexivity. Qed.

(** [Multiboot_header_t], and the two tables an info structure can point to *)
Record Multiboot_header_t : Type := MultibootHeader {
  mh_magic : Z; mh_flags : Z; mh_checksum : Z;
  mh_header_addr : Z; mh_load_addr : Z; mh_load_end_addr : Z; mh_bss_end_addr : Z; mh_entry_addr : Z;
  mh_mode_type : Z; mh_width : Z; mh_height : Z; mh_depth : Z
}.
Record Multiboot_aout_symbol_table_t : Type := AoutSymbolTable {
  as_tabsize : Z; as_strsize : Z; as_addr : Z; as_reserved : Z
}.
Record Multiboot_elf_section_header_table_t : Type := ElfSectionHeaderTable {
  es_num : Z; es_size : Z; es_addr : Z; es_shndx : Z
}.
Record Multiboot_mod_list : Type := ModList { mod_start : Z; mod_end : Z; mod_cmdline : Z; mod_pad : Z }.

Section Read.
Implicit Types (m : mem) (a : Z).
(** [Multiboot_uint64_t] *)
Definition le64 m a : Z := le32 m a + 2 ^ 32 * le32 m (a + 4).

(** [Multiboot_info_t] at [a]; the symbol table takes the words from 28 to 44 *)
Definition info_at m a : Multiboot_info_t :=
  MultibootInfo (le32 m a) (le32 m (a + 4)) (le32 m (a + 8)) (le32 m (a + 12)) (le32 m (a + 16))
    (le32 m (a + 20)) (le32 m (a + 24)) (le32 m (a + 44)) (le32 m (a + 48)).
(** the union [u] at offset 28 *)
Definition aout_sym_at m a : Multiboot_aout_symbol_table_t :=
  AoutSymbolTable (le32 m (a + 28)) (le32 m (a + 32)) (le32 m (a + 36)) (le32 m (a + 40)).
Definition elf_sec_at m a : Multiboot_elf_section_header_table_t :=
  ElfSectionHeaderTable (le32 m (a + 28)) (le32 m (a + 32)) (le32 m (a + 36)) (le32 m (a + 40)).
Definition header_at m a : Multiboot_header_t :=
  MultibootHeader (le32 m a) (le32 m (a + 4)) (le32 m (a + 8)) (le32 m (a + 12)) (le32 m (a + 16)) (le32 m (a + 20))
    (le32 m (a + 24)) (le32 m (a + 28)) (le32 m (a + 32)) (le32 m (a + 36)) (le32 m (a + 40)) (le32 m (a + 44)).
(** [Multiboot_mmap_entry_t], packed *)
Definition mmap_entry_at m a : Multiboot_mmap_entry_t :=
  MmapEntry (le32 m a) (le64 m (a + 4)) (le64 m (a + 12)) (le32 m (a + 20)).
Definition mod_at m a : Multiboot_mod_list := ModList (le32 m a) (le32 m (a + 4)) (le32 m (a + 8)) (le32 m (a + 12)).
(** what the page component reads of it *)
Definition boot_memory_of m : boot_memory := BootMemory (le32 m) (mmap_entry_at m).
End Read.
