(* ===== verification/Timer.v ===== *)
(** The interrupt handlers of [core/main.cpp]: the timer, which acknowledges its
    interrupt and switches tasks, and the keyboard; [init_timer], which
    programs the timer; and the proof that the timer makes every running task
    run. *)
From S2P Require Import Prelude Common Rbt RbtRep RbtFind Port Klog DescTab Sigset Task TaskQueue TaskOk TaskProps TaskDemo.

(** the ports and the variables of the two handlers *)
Record devices : Type := Devices { d_ports : ports; d_tick : Z; last_key : Z }.

Section Handlers.
Context {X : Type} `{HT : !TaskEnv X}.
#[local] Abbreviation DM := (M (devices * (tasks * X))).

#[local] Instance devices_ports : HasPorts (devices * (tasks * X)) := {|
  get_ports s := d_ports s.1;
  set_ports p s := (Devices p (d_tick s.1) (last_key s.1), s.2)
|}.
Definition on_tasks {A} (m : M (tasks * X) A) : DM A := λ s,
  match m s.2 with
  | Ret (a, t) => Ret (a, (s.1, t)) | Panic msg => Panic msg | Fault => Fault | NoFuel => NoFuel
  end.
Definition upd_devices (f : devices → devices) : DM unit := λ s, Ret (tt, (f s.1, s.2)).
Definition set_last_key (v : Z) : DM unit := upd_devices (λ d, Devices (d_ports d) (d_tick d) v).

(** [reg] is the frame the stub pushed; [esp], [ebp], [eip] are the registers at
    [schedule]'s switch *)
Definition timer_tick (reg : Isr_registers) (esp ebp eip : Z) : DM (control unit) :=
  upd_devices (λ d, Devices (d_ports d) (s32 (d_tick d + 1)) (last_key d)) ;;
  isr_eoi (r_int_no reg) ;;
  on_tasks (schedule esp ebp eip).

Definition isr_kbd (reg : Isr_registers) : DM unit :=
  set_last_key 0 ;;
  code ← inb 0x60;
  set_last_key code ;;
  isr_eoi (r_int_no reg).
End Handlers.

(** [timer_tick_addr]: the handler's address *)
Definition init_timer (timer_tick_addr : Z) : M desc_tables unit :=
  isr_register (ISR_GET_NUM_BY_IRQ 0) timer_tick_addr ;;
  let divisor := CLOCK_TICK_RATE / KERNEL_HZ in
  outb 0x43 0x36 ;;
  port_wait ;;
  outb 0x40 (u8 (Z.land divisor 0xFF)) ;;
  port_wait ;;
  outb 0x40 (u8 (Z.land (Z.shiftr divisor 8) 0xFF)).

Section Preemption.
Context {X : Type} `{HT : !TaskEnv X} `{HL : !TaskEnvLaws X}.
Context (NIL_task : Z) `{!NilAddr (P:=task_pool) NIL_task}.
Implicit Types (t : tasks) (x : X) (d : devices) (ls : queue → list Z) (order : list Z).
#[local] Abbreviation tasks_ok := (tasks_ok NIL_task).

(** One tick of whatever task runs, for each element. *)
Definition ticks (regs : list (Isr_registers * (Z * Z * Z))) : M (devices * (tasks * X)) unit :=
  for_each regs (λ '(reg, (esp, ebp, eip)), timer_tick reg esp ebp eip ;; mret tt).

(** The devices after [n] ticks, every one acknowledged at the master. *)
Definition ticked (n : nat) d d' : Prop :=
  io_log (d_ports d') = io_log (d_ports d) ++ replicate n (Out 0x20 0x20) ∧
  reply (d_ports d') = reply (d_ports d) ∧ last_key d' = last_key d ∧
  s32 (d_tick d') = s32 (d_tick d + Z.of_nat n).

Lemma s32_s32_add a b : s32 (s32 a + b) = s32 (a + b).
Proof.
  unfold s32. f_equal. replace ((a + 2 ^ 31) mod 2 ^ 32 - 2 ^ 31 + b + 2 ^ 31) with ((a + 2 ^ 31) mod 2 ^ 32 + b) by lia.
  rewrite Zplus_mod_idemp_l. f_equal. lia.
Qed.

Lemma ticks_run regs d t x t' x' :
  Forall (λ r, r_int_no r.1 = ISR_GET_NUM_BY_IRQ 0) regs →
  schedules regs.*2 (t, x) = Ret (tt, (t', x')) →
  ∃ d', ticks regs (d, (t, x)) = Ret (tt, (d', (t', x'))) ∧ ticked (length regs) d d'.
Proof.
  revert d t x; induction regs as [|[reg [[esp ebp] eip]] regs IH]; intros d t x Hirq Hs.
  - injection Hs as <- <-. exists d. split; [done|]. unfold ticked. simpl. rewrite app_nil_r, Z.add_0_r. done.
  - apply Forall_cons in Hirq as [Hreg Hirq]. simpl in Hreg, Hs. unfold schedules in Hs. simpl in Hs.
    unfold mbind at 1, M_bind at 1 in Hs. unfold mbind at 1, M_bind at 1 in Hs.
    destruct (schedule esp ebp eip (t, x)) as [[c [t1 x1]]| | |] eqn:Hrun; [|done..].
    set (d1 := Devices (Ports (io_log (d_ports d) ++ [Out 0x20 0x20]) (reply (d_ports d))) (s32 (d_tick d + 1)) (last_key d)).
    destruct (IH d1 t1 x1 Hirq Hs) as (d' & Hrun' & Hl & Hr & Hk & Ht).
    exists d'. split.
    + unfold ticks. simpl. unfold timer_tick, isr_eoi. rewrite Hreg. unfold mbind, M_bind. simpl.
      unfold on_tasks. simpl. rewrite Hrun. exact Hrun'.
    + unfold ticked. rewrite Hl, Hr, Hk, Ht. unfold d1. simpl. split_and!; [by rewrite <- (assoc_L (++))|done|done|].
      rewrite s32_s32_add. f_equal. lia.
Qed.

(** C12: the timer preempts: with the handler registered and the timer
    programmed for [KERNEL_HZ], after fewer interrupts than there are running
    tasks any of them is the one that runs, each interrupt was acknowledged so
    that the next can come, and the tasks are as consistent as before. *)
Theorem timer_preempts d t x ls order regs b :
  tasks_ok t x ls order → order ≠ [] → current_task t ∈ ls running → b ∈ ls running →
  Forall (λ r, r_int_no r.1 = ISR_GET_NUM_BY_IRQ 0) regs → Forall (λ r, r.2.2 ≠ 0xFFFFFFFF) regs →
  length regs = length (ls running) →
  ∃ (n : nat) d' t' x', (n < length (ls running))%nat ∧
    ticks (take n regs) (d, (t, x)) = Ret (tt, (d', (t', x'))) ∧
    current_task t' = b ∧ tasks_ok t' x' ls order ∧ ticked n d d'.
Proof.
  intros Hok Hne Hcur Hb Hirq Hregs Hlen.
  destruct (schedules_reach NIL_task t x ls order regs.*2 b Hok Hne Hcur) as (n & t' & x' & Hn & Hrun & Hc & Hok');
    [by apply Forall_fmap|by rewrite length_fmap|done|].
  rewrite <- fmap_take in Hrun.
  destruct (ticks_run (take n regs) d t x t' x' (Forall_take _ _ _ Hirq) Hrun) as (d' & Hrun' & Ht).
  exists n, d', t', x'. split; [done|]. split; [exact Hrun'|]. split; [done|]. split; [done|].
  rewrite length_take in Ht. by rewrite Nat.min_l in Ht by lia.
Qed.
End Preemption.

(** * Preemption with two tasks *)
Definition irq0_frame : Isr_registers := IsrFrame 0x10 0 0 0 0 0 0 0 0 (ISR_GET_NUM_BY_IRQ 0) 0 0x100000 0x08 0x202 0 0x10.
Definition two_ticks : list (Isr_registers * (Z * Z * Z)) := (irq0_frame,.) <$> two_regs.
Definition quiet_devices : devices := Devices (Ports [] (λ _ _, 0)) 0 0.

Lemma timer_preempts_witness :
  ∃ (n : nat) d' t' x', (n < 2)%nat ∧ ticks (take n two_ticks) (quiet_devices, two_tasks) = Ret (tt, (d', (t', x'))) ∧
    current_task t' = C ∧ ticked n quiet_devices d'.
Proof.
  destruct two_tasks_ok as [Hok Hcur].
  destruct (timer_preempts demo_NIL quiet_devices two_tasks.1 two_tasks.2 two_queues [A; C] two_ticks C Hok AC_some)
    as (n & d' & t' & x' & Hn & Hrun & Hc & _ & Ht).
  - rewrite Hcur. exact A_in.
  - exact C_in.
  - repeat constructor.
  - repeat constructor; discriminate.
  - reflexivity.
  - rewrite <- surjective_pairing in Hrun. exists n, d', t', x'. split; [exact Hn|]. split; [exact Hrun|]. split; [exact Hc|exact Ht].
Defined.
