(* ===== verification/KernelEnv.v ===== *)
(** The services of the real heap and page tables behind the interfaces of the
    components above them: what the tasks, the move of the boot stack, the ELF
    loader, the RAM disk and the system calls are given when the whole kernel
    runs. *)
From S2P Require Import Prelude Common Rbt TreeMm Kheap Page PageInit PageHeap Errno Ctype Bytes Sigset Fs Elf Task Stack Syscall.

Section Services.
Context `{HeapLink} `{FreshNode} `{PageLink}.
#[local] Abbreviation PM := (M kstate).

(** [Page::current_page_dir->...] *)
Definition current_dir : PM Z := p ← getp; mret (current_page_dir p).
Definition current_get_page (a : Z) (make : bool) : PM Z := d ← current_dir; get_page kernel_kmalloc d a make.
Definition current_alloc_interval (b e : Z) (user_ writable : bool) : PM unit :=
  d ← current_dir; dir_alloc_interval kernel_kmalloc d b e user_ writable.
Definition current_lazy_alloc_interval (b e : Z) (user_ writable fill_zero : bool) : PM unit :=
  d ← current_dir; dir_lazy_alloc_interval kernel_kmalloc d b e user_ writable fill_zero.

(** [memcpy], [memset] and 32-bit accesses of kernel code, byte by byte through
    the page tables *)
Definition kernel_memcpy (dest src n : Z) : PM unit :=
  for_each (upto 0 n) (λ i, l ← kernel_read (u32 (src + i)) 1; kernel_write (u32 (dest + i)) l).
Definition kernel_memset (a v n : Z) : PM unit := kernel_write a (replicate (Z.to_nat n) (u8 v)).
Definition word_of (l : list Z) : Z := foldr (λ b acc, b + 256 * acc) 0 l.
Definition kernel_load32 (a : Z) : PM Z := l ← kernel_read a 4; mret (word_of l).
Definition kernel_store32 (a v : Z) : PM unit := kernel_write a (bytes_of_u32 v).
(** what a load through the current directory finds, without its faults *)
Definition current_mem (p : paging) : mem := λ a,
  match pte p !! page_of p a with
  | Some e => phys_at p (Z.shiftl (e_addr e) 12 + a mod 4096)
  | None => 0
  end.

(** * The boot stack *)
#[local] Instance kernel_stack_mem : StackMem kstate := {|
  sm_alloc_interval := current_alloc_interval;
  sm_memcpy := kernel_memcpy;
  sm_load := kernel_load32;
  sm_store := kernel_store32
|}.

(** * Tasks *)

(** What the tasks are given. [set_current_page_dir] is the assignment to
    [current_page_dir] only: [cr3] is loaded by the jump of [switch_task], whose
    [cpu] carries the value. [stack_at] is [esp] and [ebp] where [move_stack] is
    called. *)
Context (initial_stack_pointer : Z) (stack_at : Z * Z).
#[local] Instance kernel_task_env : TaskEnv kstate := {|
  operator_new size := kernel_kmalloc size 0;
  env_clone_directory := clone_directory kernel_kmalloc;
  get_current_page_dir := current_dir;
  set_current_page_dir d := p ← getp; putp (with_current p d (cr3 p));
  dir_phyaddr d := r ← rd_dir d; mret (phyaddr r);
  env_move_stack := move_stack initial_stack_pointer stack_at.1 stack_at.2 ;; mret tt;
  env_log msg := Klog_log msg []
|}.

(** * The loader and the RAM disk: the open file beside the tasks *)
#[local] Abbreviation loading := (Ramdisk_file_node * (tasks * kstate))%type.
Definition on_file {A} (m : M (tasks * kstate) A) : M loading A := λ s,
  match m s.2 with
  | Ret (a, t) => Ret (a, (s.1, t)) | Panic msg => Panic msg | Fault => Fault | NoFuel => NoFuel
  end.
Definition on_memory {A} (m : PM A) : M loading A := on_file (lift m).
#[local] Instance loading_errno : Errno loading := {| set_errno e := on_file (set_errno e) |}.
#[local] Instance loading_disk : RamDisk loading := {|
  ram_disk_errno := loading_errno;
  ram_node := fst;
  set_ram_node f s := (f, s.2);
  ram_memcpy d s n := on_memory (kernel_memcpy d s n)
|}.
#[local] Instance loading_elf : ElfEnv loading := {|
  elf_errno := loading_errno;
  elf_mem s := current_mem s.2.2.2;
  elf_memset a v n := on_memory (kernel_memset a v n);
  elf_alloc_interval b e u w := on_memory (current_alloc_interval b e u w);
  elf_page_alloc a u w := on_memory (page ← current_get_page a true; Table_entry_alloc page u w);
  elf_lazy_alloc_interval b e u w f := on_memory (current_lazy_alloc_interval b e u w f)
|}.

(** * System calls read the program's memory *)
#[local] Instance kernel_user_mem : UserMem kstate := {| user_mem s := current_mem s.2 |}.
End Services.
