(* ===== verification/BootStack.v ===== *)
(** The move of the boot stack on the kernel's own pages: the new page is made,
    the old stack is read through the kernel's tables, and nothing of the heap
    or of the other address spaces changes. *)
From S2P Require Import Prelude Rbt TreeMm Common Kheap KheapSpec KheapOk Page PageInit PageOk PageFrames PageHeap PageCow KernelHeap Quiet Space SpaceOps CloneStack CloneTable CloneDir.
From S2P Require Import Errno Ctype Bytes Sigset Fs Elf Task Stack Syscall KernelEnv.

Section BootStack.
Context `{HLo : HeapLinkOk} `{FN : FreshNode} `{PL : PageLink} `{PLok : !PageLinkOk}.
Context (F : gset Z) (K : Z → Z).
Implicit Types (h : kheap) (p q : paging) (a t z f g i j : Z) (e : Table_entry_t) (d : Directory_t) (fr : list Block_t).
Implicit Types (st : list Z) (al : list alloc) (E : string → Prop).

(** * One entry of a user table changes, or the bytes of its frame *)
Lemma user_step_ok st fr al h p q a e e' :
  space_state F K fr al no_hole (h, p) → KERNEL_HEAP_BEGIN ≤ a → pte p !! a = Some e → pte q = <[a:=e']> (pte p) →
  dirs q = dirs p → current_page_dir q = current_page_dir p → kernel_low_ntable q = kernel_low_ntable p →
  init_finished q = init_finished p → empty_page0_ptr q = empty_page0_ptr p → empty_page1_ptr q = empty_page1_ptr p →
  (∀ x, phys_at q x = phys_at p x) → frames_ok F st q → user_entry F e' →
  (e_addr e' = e_addr e ∨ mappers p (e_addr e') = ∅) → space_state F K fr al no_hole (h, q).
Proof.
  intros Hss Ha He Hq Ed Ec El Ei E0 E1 Hph Hf Hu Hm. pose proof (sp_inv _ _ _ _ _ _ Hss) as Hi. destruct Hss as [Hk Hs]. cbn [snd] in *.
  assert (Hfo : foreign p a) by (by eapply space_foreign).
  assert (Hdom : ∀ b, is_Some (pte q !! b) ↔ is_Some (pte p !! b)).
  { intros b. rewrite Hq. destruct (decide (b = a)) as [->|Hb]; [rewrite lookup_insert_eq, He; naive_solver|]. by rewrite lookup_insert_ne. }
  assert (Hqu : quiet p q).
  { split; [rewrite Ed, Ec; exact (pi_dir _ _ Hi)| |exact E0|exact E1|intros b; apply Hdom| |intros; apply Hph].
    - intros z _. unfold page_of. by rewrite Ed, Ec.
    - intros b _. rewrite Hq. destruct (decide (b = a)) as [->|Hb]; [right|left; by apply lookup_insert_ne].
      split; [exact Hfo|]. rewrite lookup_insert_eq. intros e1 [= <-]. destruct Hm as [->|Hm].
      + by eapply foreign_frame.
      + by apply free_frame. }
  split; [by eapply kheap_ok_quiet|]. cbn [snd].
  eapply space_entries; [exact Hs|exact Ed|exact Ec|exact El|exact Ei|exact E0|exact E1| | | |].
  - intros b. apply Hdom.
  - intros b Hb. left. by apply Hdom.
  - intros b e1 _ _ Hb. rewrite Hq in Hb. apply lookup_insert_Some in Hb as [[<- <-]|[_ Hb]]; [by right|by left].
  - intros z pa. by apply quiet_backed.
Qed.
Lemma frame_bytes_ok fr al h p a e m :
  space_state F K fr al no_hole (h, p) → foreign p a → pte p !! a = Some e →
  (∀ x, ¬ (Z.shiftl (e_addr e) 12 ≤ x < Z.shiftl (e_addr e) 12 + 4096) → phys_at (with_phys p m) x = phys_at p x) →
  space_state F K fr al no_hole (h, with_phys p m).
Proof.
  intros Hss Ha He Hm. pose proof (sp_inv _ _ _ _ _ _ Hss) as Hi. destruct Hss as [Hk Hs]. cbn [snd] in *.
  destruct (pi_frames _ _ Hi) as [st Hf].
  assert (Hqu : quiet p (with_phys p m)).
  { split; [exact (pi_dir _ _ Hi)|reflexivity|reflexivity|reflexivity|done|by left|].
    intros f i Hhf Hi'. apply Hm. intros Hr. apply (foreign_frame F p a e Hi Ha He). replace (e_addr e) with f; [done|].
    rewrite !Z.shiftl_mul_pow2 in Hr by lia. change (2 ^ 12) with 4096 in Hr. lia. }
  split; [eapply kheap_ok_quiet; [exact Hk|exact Hqu|by apply frames_ok_phys]|]. cbn [snd].
  eapply space_entries; [exact Hs|reflexivity|reflexivity|reflexivity|reflexivity|reflexivity|reflexivity| | | |].
  - done.
  - by left.
  - by left.
  - intros z pa. by apply quiet_backed.
Qed.

(** * Pages the processor reads without a fault *)
#[local] Arguments translate : simpl never.
(** the entry of [z] in the current directory *)
Definition present_at p z (w : bool) e : Prop :=
  ∃ d, dirs p !! current_page_dir p = Some d ∧ table_of d (tb_idx z) ≠ 0 ∧
    entry_ptr (table_of d (tb_idx z)) (tb_offset z) ≠ 0 ∧
    pte p !! entry_ptr (table_of d (tb_idx z)) (tb_offset z) = Some e ∧ present e = 1 ∧ (w = true → rw e = 1).
Lemma translate_present_ok h p z w e n E :
  present_at p z w e → wp (translate (S n) z 0 w false) (λ r s', r = Z.shiftl (e_addr e) 12 + z mod 4096 ∧ s' = (h, p)) E (h, p).
Proof.
  intros (d & Hd & Ht & Ha & He & Hp & Hw). rewrite translate_S. wp_step. apply wp_getp. cbn [snd]. unfold find_page.
  wp_step. wp_step. eapply wp_rd_dir; [exact Hd|]. apply Z.eqb_neq in Ht as ->. apply wp_ret. apply Z.eqb_neq in Ha as ->.
  wp_step. eapply wp_rd_pte; [exact He|]. unfold fault_code. rewrite Hp. cbn [Z.eqb].
  assert (Hn : w && (rw e =? 0) = false) by (destruct w; [by rewrite Hw|done]). rewrite Hn. cbn [orb andb].
  apply wp_ret. by rewrite land_fff.
Qed.
Lemma kernel_read_present_ok h p a n E :
  (∀ z, a ≤ z < a + Z.of_nat n → ∃ e, present_at p z false e) →
  wp (kernel_read a n) (λ l s', length l = n ∧ s' = (h, p)) E (h, p).
Proof.
  revert a; induction n as [|n IH]; intros a Hz; [by apply wp_ret|]. simpl kernel_read.
  destruct (Hz a) as [e He]; [lia|]. wp_step. eapply wp_mono; [by eapply translate_present_ok|]. intros ? ? [-> ->].
  wp_step. apply wp_getp. wp_step. eapply wp_mono; [apply IH; intros z Hr; apply Hz; lia|].
  intros l ? [Hl ->]. apply wp_ret. by rewrite <- Hl.
Qed.

(** * The pages of the two stacks *)
(** the boot stack: from [esp] to where the boot loader entered the kernel *)
Context (isp esp : Z) (Hrange : 0 ≤ esp ≤ isp) (Hisp : isp ≤ KERNEL_STACK_POS) (Hsize : isp - esp ≤ KERNEL_STACK_SIZE).
Definition boot_entry (z : Z) : Z := entry_ptr (K (tb_idx z)) (tb_offset z).
Definition boot_stack p : Prop :=
  ∀ z, esp ≤ z < isp → tb_idx z < kernel_low_ntable p ∧ 0 < K (tb_idx z) ∧ foreign p (boot_entry z) ∧
    ∃ e, pte p !! boot_entry z = Some e ∧ present e = 1.
Definition stack_ready p : Prop := ∃ e, present_at p stack_page true e ∧ e_addr e ∈ F ∧
  ∃ d, dirs p !! current_page_dir p = Some d ∧ KERNEL_HEAP_BEGIN ≤ table_of d 1023 ∧ pte p !! entry_ptr (table_of d 1023) 1022 = Some e.

Lemma boot_stack_extends X p q : extends X p q → boot_stack p → boot_stack q.
Proof.
  intros Hx Hb z Hz. destruct (Hb z Hz) as (H1 & H2 & H3 & e & H4 & H5). split; [by rewrite (ex_low _ _ _ Hx)|].
  split; [done|]. split; [by apply (ex_foreign X p q _ Hx)|]. destruct (ex_pte _ _ _ Hx _ e H3 H4) as (e' & He' & Hc).
  exists e'. split; [done|]. by destruct Hc as [->|(_ & _ & ->)].
Qed.
Lemma boot_present fr al h p z :
  space_state F K fr al no_hole (h, p) → boot_stack p → esp ≤ z < isp → ∃ e, present_at p z false e.
Proof.
  intros Hss Hb Hz. destruct (Hb z Hz) as (H1 & H2 & _ & e & H4 & H5). exists e.
  destruct (sp_cur_dir _ _ _ _ _ _ Hss) as [d Hd]. pose proof (sp_space _ _ _ _ _ _ Hss) as Hs. cbn [snd] in *.
  assert (Hk : kernel_index p (tb_idx z)).
  { left. split; [|done]. unfold tb_idx. apply Z.shiftr_nonneg. lia. }
  pose proof (proj1 (index_range p _ (sp_low _ _ _ _ _ Hs)) (or_introl Hk)) as Hr.
  pose proof (sl_kernel _ _ _ _ _ (sp_slot _ _ _ _ _ Hs _ d _ Hd Hr id) Hk) as Ht. pose proof (tb_offset_range z).
  exists d. rewrite Ht. split; [done|]. split; [lia|]. split; [unfold entry_ptr; lia|]. split; [exact H4|]. done.
Qed.
Lemma stack_page_eq : stack_page = 0xFFFFE000.
Proof. by vm_compute. Qed.
Lemma stack_slot_of z : stack_page ≤ z < stack_page + 4096 → tb_idx z = 1023 ∧ tb_offset z = 1022.
Proof.
  rewrite stack_page_eq. intros Hz. assert (Hf : z / 4096 * 4096 = 0xFFFFE000).
  { pose proof (Z.div_mod z 4096 ltac:(lia)). pose proof (Z.mod_pos_bound z 4096 ltac:(lia)). lia. }
  destruct (tb_floor z) as [<- <-]. rewrite Hf. by vm_compute.
Qed.
Lemma stack_ready_at p z : stack_ready p → stack_page ≤ z < stack_page + 4096 → ∃ e, present_at p z true e.
Proof.
  intros (e & (d & H1 & H2 & H3 & H4 & H5) & _) Hz. exists e, d. destruct (stack_slot_of z Hz) as [-> ->].
  destruct (stack_slot_of stack_page) as [E1 E2]; [lia|]. rewrite E1, E2 in *. done.
Qed.

(** * The new page *)
Definition memory_left (E : string → Prop) : Prop := ∀ n fr size palign msg, kmalloc_fails n fr size palign msg → E msg.
(** what the kernel may stop with: no block, no tree node, no frame *)
Definition kernel_fails (msg : string) : Prop := msg = out_of_memory ∨ msg = no_tree_node ∨ msg = no_free_frame.
Lemma kernel_fails_left : memory_left kernel_fails.
Proof. intros n fr size palign msg [[-> _]|[[_ ->]|[-> _]]]; unfold kernel_fails; auto. Qed.
Lemma alloc_stack_page_ok st fr al h p E d e :
  memory_left E → space_state F K fr al no_hole (h, p) → frames_ok F st p → boot_stack p →
  dirs p !! current_page_dir p = Some d → KERNEL_HEAP_BEGIN ≤ table_of d 1023 →
  pte p !! entry_ptr (table_of d 1023) 1022 = Some e → user_entry F e →
  wp (Table_entry_alloc (entry_ptr (table_of d 1023) 1022) false true)
    (λ _ s', space_state F K fr al no_hole s' ∧ boot_stack s'.2 ∧ stack_ready s'.2 ∧ dirs s'.2 = dirs p ∧
       current_page_dir s'.2 = current_page_dir p) E (h, p).
Proof.
  intros HE Hss Hf Hb Hd Hk He Hu. set (a := entry_ptr (table_of d 1023) 1022) in *.
  pose proof (sp_inv _ _ _ _ _ _ Hss) as Hi. pose proof (sp_space _ _ _ _ _ _ Hss) as Hs. cbn [snd] in *.
  assert (Hka : KERNEL_HEAP_BEGIN ≤ a) by (unfold a, entry_ptr; lia).
  assert (Hfo : foreign p a) by (by eapply space_foreign).
  assert (Hdone : ∀ q e', pte q = <[a:=e']> (pte p) → dirs q = dirs p → current_page_dir q = current_page_dir p →
     kernel_low_ntable q = kernel_low_ntable p → empty_page0_ptr q = empty_page0_ptr p → empty_page1_ptr q = empty_page1_ptr p →
     e_addr e' ∈ F → present e' = 1 → rw e' = 1 → boot_stack q ∧ stack_ready q).
  { intros q e' Hq Ed Ec El E0 E1 HF Hp Hrw. split.
    - intros z Hz. destruct (Hb z Hz) as (H1 & H2 & H3 & e1 & H4 & H5). split; [by rewrite El|]. split; [done|].
      assert (Hne : boot_entry z ≠ a).
      { intros Heq. assert (Hki : kernel_index p (tb_idx z)) by (left; split; [unfold tb_idx; apply Z.shiftr_nonneg; lia|done]).
        pose proof (sp_kernel _ _ _ _ _ Hs _ Hki). pose proof (tb_offset_range z). unfold boot_entry, entry_ptr in *. lia. }
      split; [|exists e1; by rewrite Hq, lookup_insert_ne]. destruct H3 as [S1 S2]. split.
      + unfold scratch in *. by rewrite E0, E1.
      + intros (z' & Hz' & Heq). apply S2. exists z'. split; [done|]. rewrite Heq. unfold page_of. by rewrite Ed, Ec.
    - destruct stack_page_slot as (Hi1 & Hi2 & _). rewrite KERNEL_HEAP_BEGIN_eq in Hk, Hka. exists e'.
      split; [|split; [done|exists d; rewrite Ed, Ec, Hq; split; [done|]; rewrite KERNEL_HEAP_BEGIN_eq; split; [done|]; apply lookup_insert_eq]].
      exists d. rewrite Ed, Ec, Hi1, Hi2, Hq. split; [done|]. split; [lia|]. fold a. split; [lia|]. by rewrite lookup_insert_eq. }
  destruct (decide (e_addr e = 0)) as [H0|H0].
  - destruct st as [|f st _] using rev_ind.
    { eapply wp_mono_E; [eapply (alloc_new_ok _ _ _ _ _ _ 0 (λ msg, msg = no_free_frame)); try done| |].
      - intros Hn. by rewrite (fo_n _ _ _ Hf) in Hn.
      - intros ? ? [Hn _]. by rewrite (fo_n _ _ _ Hf) in Hn.
      - intros ? ->. exact (HE _ _ _ _ _ kmalloc_no_frame). }
    destruct (frames_ok_top _ _ _ _ Hf) as (Hnz & Htop & HfF & Hfm). destruct (fo_range _ _ _ Hf f HfF) as [Hr Hrl].
    eapply wp_mono; [eapply (alloc_new_ok _ _ _ _ _ _ f); [exact He|exact H0|done|]|].
    { intros _. split; [exact Htop|]. split; [lia|exact Hrl]. }
    intros _ ? [_ ->]. cbn [snd]. set (q := alloc_state p a e false true f).
    assert (Hfe : e_addr (alloc_entry false true f e) = f) by (simpl; rewrite Z.mod_small; lia).
    destruct (Hdone q (alloc_entry false true f e)) as [B1 B2]; try reflexivity; [by rewrite Hfe|].
    split; [|split; [exact B1|split; [exact B2|split; reflexivity]]].
    eapply (user_step_ok st fr al h p q a e (alloc_entry false true f e) Hss Hka He); try reflexivity.
    + by apply frames_ok_alloc; [..|apply Hfo|exact He|exact H0].
    + intros _. by rewrite Hfe.
    + right. by rewrite Hfe.
  - eapply wp_mono; [by apply alloc_have_ok|]. intros _ ? ->. cbn [snd]. set (q := with_pte p _).
    destruct (Hu H0) as [HF Hp].
    destruct (Hdone q (perm_entry false true e)) as [B1 B2]; try reflexivity; [exact HF|exact Hp|].
    split; [|split; [exact B1|split; [exact B2|split; reflexivity]]].
    eapply (user_step_ok st fr al h p q a e (perm_entry false true e) Hss Hka He); try reflexivity.
    + by eapply frames_ok_perm.
    + intros _. done.
    + by left.
Qed.

Lemma current_alloc_ok fr al h p E :
  memory_left E → space_state F K fr al no_hole (h, p) → boot_stack p →
  wp (current_alloc_interval (KERNEL_STACK_POS - KERNEL_STACK_SIZE) KERNEL_STACK_POS false true)
    (λ _ s', ∃ fr' new, space_state F K fr' (new ++ al) no_hole s' ∧ boot_stack s'.2 ∧ stack_ready s'.2 ∧
       current_page_dir s'.2 = current_page_dir p ∧ ∀ a, phyaddr <$> dirs s'.2 !! a = phyaddr <$> dirs p !! a) E (h, p).
Proof.
  intros HE Hss Hb. destruct (sp_cur_dir _ _ _ _ _ _ Hss) as [d Hd]. pose proof (sp_space _ _ _ _ _ _ Hss) as Hs.
  destruct stack_page_slot as (Hi1 & Hi2 & _). cbn [snd] in *.
  unfold current_alloc_interval, current_dir. wp_step. wp_step. apply wp_getp. apply wp_ret. cbn [snd].
  unfold dir_alloc_interval. wp_step. apply kassert_page_ok; [by vm_compute|by split; vm_compute|].
  wp_step. apply kassert_page_ok; [by vm_compute|by split; vm_compute|].
  change (pages_fuel _ _) with 1%nat. cbn [for_pages]. change (u32 _ <? KERNEL_STACK_POS) with false.
  change (_ <? KERNEL_STACK_POS) with true. cbv iota. change (KERNEL_STACK_POS - KERNEL_STACK_SIZE) with stack_page.
  wp_step. wp_step.
  destruct (decide (table_of d 1023 = 0)) as [H0|H0].
  - eapply wp_mono; [apply (get_page_new_ok F K E HE (λ _, False) h p fr al no_hole (current_page_dir p) stack_page d Hss Hd)|].
    { rewrite Hi1. by right. } { by rewrite Hi1. } { by intros ?. }
    rewrite Hi1, Hi2. intros r [h1 p1] (t & d1 & fr1 & u & -> & Hss1 & Hx & Hd1 & [Hso Hph] & Ht & Hnt & Hz & _). cbn [fst snd] in *.
    destruct (pi_frames _ _ (sp_inv _ _ _ _ _ _ Hss1)) as [st1 Hf1]. destruct (nt_heap _ _ Hnt) as [Hk _].
    assert (Hd1' : dirs p1 !! current_page_dir p1 = Some d1) by (rewrite Hd1, (ex_cur _ _ _ Hx); apply lookup_insert_eq).
    rewrite <- Ht in Hk, Hz |- *.
    eapply wp_mono; [apply (alloc_stack_page_ok st1 fr1 (Alloc (table_of d1 1023) sizeof_Table_t u :: al) h1 p1 E d1 entry_zero HE)|].
    + by rewrite Ht in *.
    + exact Hf1.
    + by eapply boot_stack_extends.
    + exact Hd1'.
    + exact Hk.
    + apply Hz. lia.
    + by intros [].
    + intros _ s' (Hss2 & Hb2 & Hr2 & Hd2 & Hc2). apply wp_ret. exists fr1, [Alloc (table_of d1 1023) sizeof_Table_t u].
      split; [exact Hss2|]. split; [exact Hb2|]. split; [exact Hr2|]. split; [by rewrite Hc2, (ex_cur _ _ _ Hx)|].
      intros a. rewrite Hd2, Hd1. destruct (decide (a = current_page_dir p)) as [->|Ha]; [|by rewrite lookup_insert_ne].
      rewrite lookup_insert_eq, Hd. simpl. by rewrite Hph.
  - destruct (stack_slot_ok F K fr al no_hole h p _ d Hss Hd id H0) as (Hk & Hfo & e & He & Hu).
    unfold get_page. rewrite Hi1, Hi2. wp_step. eapply wp_rd_dir; [exact Hd|]. apply Z.eqb_neq in H0 as ->. apply wp_ret.
    destruct (pi_frames _ _ (sp_inv _ _ _ _ _ _ Hss)) as [st Hf].
    eapply wp_mono; [by apply (alloc_stack_page_ok st fr al h p E d e HE Hss Hf Hb Hd Hk He Hu)|].
    intros _ s' (Hss2 & Hb2 & Hr2 & Hd2 & Hc2). apply wp_ret. exists fr, [].
    split; [exact Hss2|]. split; [exact Hb2|]. split; [exact Hr2|]. split; [exact Hc2|]. intros a. by rewrite Hd2.
Qed.

(** * Copying and relocating *)
Section Moving.
Context (fr : list Block_t) (al : list alloc) (D : gmap Z Directory_t) (c : Z) (E : string → Prop).
Definition moving (s : kstate) : Prop :=
  space_state F K fr al no_hole s ∧ boot_stack s.2 ∧ stack_ready s.2 ∧ dirs s.2 = D ∧ current_page_dir s.2 = c.

Lemma store_byte_ok s z v :
  moving s → stack_page ≤ z < stack_page + 4096 →
  wp (a ← translate 3 z 0 true false; write_phys a [v]) (λ _ s', moving s') E s.
Proof.
  destruct s as [h p]. intros (Hss & Hb & Hr & Hd & Hc) Hz. pose proof Hr as (e & (d & P1 & P2 & P3 & P4 & P5 & P6) & HF & d' & Hdc & Hk & He).
  cbn [snd] in *. assert (d' = d) as -> by congruence. pose proof (sp_inv _ _ _ _ _ _ Hss) as Hi. cbn [snd] in Hi.
  assert (Hpa : present_at p z true e).
  { exists d. destruct (stack_slot_of z Hz) as [-> ->]. split; [done|]. rewrite KERNEL_HEAP_BEGIN_eq in Hk. split; [lia|].
    split; [unfold entry_ptr; lia|done]. }
  wp_step. eapply wp_mono; [by apply translate_present_ok|]. intros ? ? [-> ->]. apply wp_write_phys. cbn [fst snd].
  match goal with |- moving (h, with_phys p ?m) => set (m' := m) end.
  assert (Hm : m' = write_phys_map [v] (Z.shiftl (e_addr e) 12 + z mod 4096) (phys p)) by done.
  split; [|split; [exact Hb|split; [exact Hr|done]]].
  apply (frame_bytes_ok fr al h p (entry_ptr (table_of d 1023) 1022) e m' Hss); [|exact He|].
  - eapply space_foreign; [exact (sp_space _ _ _ _ _ _ Hss)|exact Hi|]. unfold entry_ptr. lia.
  - intros x Hx. unfold phys_at. cbn [phys phys0 with_phys]. rewrite Hm, lookup_write_phys_map.
    pose proof (Z.mod_pos_bound z 4096 ltac:(lia)). rewrite decide_False; [done|]. cbn [length]. lia.
Qed.
Lemma store_bytes_ok s a l :
  moving s → stack_page ≤ a → a + Z.of_nat (length l) ≤ stack_page + 4096 → wp (kernel_write a l) (λ _ s', moving s') E s.
Proof.
  intros Hm Ha Hl. unfold kernel_write. eapply wp_mono; [apply (wp_for_each (λ _, moving))|]; [|exact Hm|done].
  intros pre [i v] post s' Heq Hm'. apply store_byte_ok; [done|].
  assert (Hin : (i, v) ∈ zip (Z.of_nat <$> seq 0 (length l)) l) by (rewrite Heq; set_solver).
  apply elem_of_zip_l, list_elem_of_fmap in Hin as (n & -> & Hn). apply elem_of_seq in Hn. lia.
Qed.
Lemma load_bytes_ok s a n (w : bool) :
  moving s → (∀ z, a ≤ z < a + Z.of_nat n → esp ≤ z < isp ∨ stack_page ≤ z < stack_page + 4096) →
  wp (kernel_read a n) (λ l s', length l = n ∧ s' = s) E s.
Proof.
  destruct s as [h p]. intros (Hss & Hb & Hr & _) Hz. apply kernel_read_present_ok. intros z Hr'. destruct (Hz z Hr') as [Hz'|Hz'].
  - by eapply boot_present.
  - destruct (stack_ready_at p z Hr Hz') as (e & d & P1 & P2 & P3 & P4 & P5 & _). by exists e, d.
Qed.
Lemma kernel_memcpy_ok s dest src n :
  moving s → esp ≤ src → src + n ≤ isp → stack_page ≤ dest → dest + n ≤ stack_page + 4096 →
  wp (kernel_memcpy dest src n) (λ _ s', moving s') E s.
Proof.
  intros Hm Hs1 Hs2 Hd1 Hd2. unfold KERNEL_STACK_POS in Hisp. rewrite stack_page_eq in *.
  unfold kernel_memcpy. eapply wp_mono; [apply (wp_for_each (λ _, moving))|]; [|exact Hm|done].
  intros pre i post s' Heq Hm'. assert (Hi : 0 ≤ i < n) by (apply elem_of_upto; rewrite Heq; set_solver).
  rewrite !u32_small by lia. wp_step. eapply wp_mono; [apply (load_bytes_ok s' (src + i) 1 true Hm')|].
  - intros z Hz. left. lia.
  - intros l ? [Hl ->]. apply store_bytes_ok; [done|rewrite stack_page_eq; lia|rewrite stack_page_eq, Hl; lia].
Qed.
#[local] Existing Instance kernel_stack_mem.
Lemma relocate_ok fuel s i new_esp old_esp offset :
  moving s → stack_page ≤ new_esp → i + 4 ≤ stack_page + 4096 → i - new_esp ≤ 4 * Z.of_nat fuel →
  wp (relocate isp fuel i new_esp old_esp offset) (λ _ s', moving s') E s.
Proof.
  revert s i; induction fuel as [|fuel IH]; intros s i Hm Hn Hi Hf; simpl relocate.
  - rewrite (proj2 (Z.ltb_ge _ _)) by lia. by apply wp_ret.
  - destruct (Z.ltb_spec new_esp i); [|by apply wp_ret]. wp_step. unfold kernel_load32. wp_step.
    eapply wp_mono; [apply (load_bytes_ok s i 4 true Hm); intros z Hz; right; lia|]. intros l ? [Hl ->]. apply wp_ret.
    wp_step. eapply (wp_mono _ (λ _ s', moving s')).
    + case_match; [|by apply wp_ret]. apply store_bytes_ok; [done|lia|]. unfold bytes_of_u32. cbn [length]. lia.
    + intros [] s' Hm'. rewrite u32_small by (rewrite stack_page_eq in *; lia). apply IH; [done|done|lia|lia].
Qed.
End Moving.

(** [move_stack], whatever the frame pointer it is called with *)
Lemma kernel_move_stack_ok ebp fr al h p E :
  memory_left E → space_state F K fr al no_hole (h, p) → boot_stack p →
  wp (@move_stack kstate kernel_stack_mem isp esp ebp)
    (λ _ s', ∃ fr' new, space_state F K fr' (new ++ al) no_hole s' ∧ boot_stack s'.2 ∧ stack_ready s'.2 ∧
       current_page_dir s'.2 = current_page_dir p ∧ ∀ a, phyaddr <$> dirs s'.2 !! a = phyaddr <$> dirs p !! a) E (h, p).
Proof.
  intros HE Hss Hb. unfold move_stack. wp_step. eapply wp_mono; [by apply (current_alloc_ok fr al h p E HE Hss Hb)|].
  intros _ s1 (fr1 & new & Hss1 & Hb1 & Hr1 & Hc1 & Hd1). cbv zeta.
  assert (Hm1 : moving fr1 (new ++ al) (dirs s1.2) (current_page_dir s1.2) s1) by done.
  assert (Hoff : u32 (KERNEL_STACK_POS - isp) = KERNEL_STACK_POS - isp).
  { unfold KERNEL_STACK_POS in *. rewrite u32_small by lia. done. }
  assert (Hesp : u32 (esp + (KERNEL_STACK_POS - isp)) = stack_page + 4096 - (isp - esp)).
  { unfold KERNEL_STACK_POS, KERNEL_STACK_SIZE in *. rewrite stack_page_eq. destruct (decide (esp = isp)) as [->|Hne].
    - rewrite u32_small by lia. lia.
    - rewrite u32_small by lia. lia. }
  assert (Hn : u32 (isp - esp) = isp - esp) by (unfold KERNEL_STACK_SIZE in *; apply u32_small; lia).
  assert (Hs4 : KERNEL_STACK_SIZE = 4096) by done. rewrite Hoff, Hesp, Hn. wp_step.
  eapply wp_mono; [apply (kernel_memcpy_ok fr1 (new ++ al) _ _ E s1 _ esp (isp - esp) Hm1); lia|].
  intros ? s2 Hm2. wp_step. eapply wp_mono; [apply (relocate_ok fr1 (new ++ al) _ _ E _ s2 _ _ _ _ Hm2)|].
  - lia.
  - rewrite stack_page_eq. unfold KERNEL_STACK_POS. lia.
  - change (Z.of_nat (Z.to_nat (KERNEL_STACK_SIZE / 4))) with 1024. rewrite stack_page_eq. unfold KERNEL_STACK_POS. lia.
  - intros _ s3 (Hss3 & Hb3 & Hr3 & Hd3 & Hc3). apply wp_ret. exists fr1, new. split; [exact Hss3|]. split; [exact Hb3|].
    split; [exact Hr3|]. split; [by rewrite Hc3|]. intros b. by rewrite Hd3.
Qed.
End BootStack.
