(* ===== verification/CloneProps.v ===== *)
(** What an address space sees of the memory, and the property of
    [clone_directory]: the new task sees what the old one saw, and neither can
    change what the other sees. *)
From S2P Require Import Prelude Rbt TreeMm Common Kheap KheapSpec KheapOk Page PageInit PageOk PageFrames PageHeap PageCow KernelHeap Quiet Space SpaceOps CloneStack CloneTable CloneDir BootStack.

(** * The view through a directory *)
Definition entry_at (p : paging) (d : Directory_t) (z : Z) : option Table_entry_t :=
  if table_of d (tb_idx z) =? 0 then None else pte p !! entry_ptr (table_of d (tb_idx z)) (tb_offset z).
Definition frame_at p d z : option Z :=
  e ← entry_at p d z; if e_addr e =? 0 then None else Some (e_addr e).
Definition seen p d z : option Z := (λ f, phys_at p (Z.shiftl f 12 + z mod 4096)) <$> frame_at p d z.
(** the memory of the program; the page of the kernel stack *)
Definition user_range (p : paging) (z : Z) : Prop := kernel_low_ntable p ≤ tb_idx z < 959.
Definition on_stack_page (z : Z) : Prop := tb_idx z = 1023 ∧ tb_offset z = 1022.
Definition write_protected p d z : Prop := ∀ e, entry_at p d z = Some e → e_addr e ≠ 0 → rw e = 0.

Section View.
Context `{HLo : HeapLinkOk} `{FN : FreshNode} `{PL : PageLink} `{PLok : !PageLinkOk}.
Context (F : gset Z) (K : Z → Z).
Implicit Types (h : kheap) (p q : paging) (a t z f i j : Z) (e : Table_entry_t) (d : Directory_t) (fr : list Block_t) (al : list alloc).
#[local] Opaque read_frame.

Lemma page_offset z : 0 ≤ z mod 4096 < 4096.
Proof. apply Z.mod_pos_bound. lia. Qed.
Lemma entry_at_table p d z t : table_of d (tb_idx z) = t → t ≠ 0 → entry_at p d z = pte p !! entry_ptr t (tb_offset z).
Proof. intros <- H0. unfold entry_at. by apply Z.eqb_neq in H0 as ->. Qed.
Lemma entry_at_none p d z : table_of d (tb_idx z) = 0 → entry_at p d z = None.
Proof. intros H0. unfold entry_at. by rewrite H0. Qed.
Lemma frame_at_entry p d z e : entry_at p d z = Some e → e_addr e ≠ 0 → frame_at p d z = Some (e_addr e).
Proof. intros He H0. unfold frame_at. rewrite He. simpl. by apply Z.eqb_neq in H0 as ->. Qed.
Lemma frame_at_none p d z e : entry_at p d z = Some e → e_addr e = 0 → frame_at p d z = None.
Proof. intros He H0. unfold frame_at. rewrite He. simpl. by rewrite H0. Qed.
Lemma frame_at_inv p d z f : frame_at p d z = Some f → ∃ e, entry_at p d z = Some e ∧ e_addr e = f ∧ f ≠ 0.
Proof.
  unfold frame_at. destruct (entry_at p d z) as [e|] eqn:He; [|done]. simpl.
  destruct (Z.eqb_spec (e_addr e) 0); [done|]. intros [= <-]. by exists e.
Qed.

(** In a space in good order, an entry of a task's own is a page of the heap. *)
Lemma entry_at_user fr p a d z :
  space F K fr no_hole p → dirs p !! a = Some d → user_index p (tb_idx z) → table_of d (tb_idx z) ≠ 0 →
  KERNEL_HEAP_BEGIN ≤ table_of d (tb_idx z) ∧
  ∃ e, entry_at p d z = Some e ∧ pte p !! entry_ptr (table_of d (tb_idx z)) (tb_offset z) = Some e ∧ user_entry F e.
Proof.
  intros Hs Hd Hu H0. pose proof (proj1 (index_range p _ (sp_low _ _ _ _ _ Hs)) (or_intror Hu)) as Hr.
  destruct (sl_user _ _ _ _ _ (sp_slot _ _ _ _ _ Hs a d _ Hd Hr id) Hu) as [?|[[Hk _] He]]; [done|]. split; [done|].
  destruct (He (tb_offset z) (tb_offset_range z)) as (e & He1 & He2). exists e. by rewrite (entry_at_table _ _ _ _ eq_refl H0).
Qed.
Lemma entry_foreign fr p t j : space F K fr no_hole p → page_inv F p → KERNEL_HEAP_BEGIN ≤ t → 0 ≤ j → foreign p (entry_ptr t j).
Proof. intros Hs Hi Ht Hj. eapply space_foreign; [exact Hs|exact Hi|unfold entry_ptr; lia]. Qed.

(** A page keeps its frame and the frame its bytes. *)
Lemma seen_extends fr X p q a d z :
  space F K fr no_hole p → page_inv F p → extends X p q → dirs p !! a = Some d → user_index p (tb_idx z) →
  frame_at q d z = frame_at p d z ∧ seen q d z = seen p d z.
Proof.
  intros Hs Hi Hx Hd Hu. unfold seen. destruct (Z.eq_dec (table_of d (tb_idx z)) 0) as [H0|H0].
  { unfold frame_at. by rewrite !entry_at_none. }
  destruct (entry_at_user fr p a d z Hs Hd Hu H0) as (Hk & e & He & Hpe & _). pose proof (tb_offset_range z) as Hor.
  pose proof (entry_foreign fr p _ _ Hs Hi Hk (proj1 Hor)) as Hfo.
  destruct (ex_pte _ _ _ Hx _ e Hfo Hpe) as (e' & Hqe & Hc).
  assert (Ha : e_addr e' = e_addr e) by (by destruct Hc as [->|(_ & _ & ->)]).
  assert (He' : entry_at q d z = Some e') by (by rewrite (entry_at_table _ _ _ _ eq_refl H0)).
  destruct (Z.eq_dec (e_addr e) 0) as [Hz|Hz].
  { rewrite (frame_at_none _ _ _ _ He Hz), (frame_at_none _ _ _ _ He') by congruence. done. }
  rewrite (frame_at_entry _ _ _ _ He Hz), (frame_at_entry _ _ _ _ He') by congruence. rewrite Ha. split; [done|]. cbn [fmap option_fmap option_map].
  f_equal. eapply ex_phys; [exact Hx|exact Hfo|exact Hpe|exact Hz|apply page_offset].
Qed.

(** What a cloned slot shows. *)
Lemma seen_cloned fr X p q a ds dd z :
  space F K fr no_hole p → page_inv F p → extends X p q → dirs p !! a = Some ds → user_range p z →
  slot_cloned p q ds dd (tb_idx z) →
  frame_at q dd z = frame_at p ds z ∧ seen q dd z = seen p ds z ∧ write_protected q ds z ∧ write_protected q dd z.
Proof.
  intros Hs Hi Hx Hd Hr Hc. assert (Hu : user_index p (tb_idx z)) by (by left).
  destruct (seen_extends fr X p q a ds z Hs Hi Hx Hd Hu) as [Hfq Hsq]. rewrite <- Hfq, <- Hsq.
  destruct Hc as [[H0 H0']|(H0 & Hnt & Hcl)].
  { unfold seen, frame_at, write_protected. rewrite !entry_at_none by done. split; [done|]. split; [done|]. by split. }
  destruct (entry_at_user fr p a ds z Hs Hd Hu H0) as (_ & e & _ & Hpe & _).
  destruct (Hcl _ e (tb_offset_range z) Hpe) as [H1 H2].
  assert (Ht : table_of dd (tb_idx z) ≠ 0) by (destruct (nt_heap _ _ Hnt) as [Hk _]; rewrite KERNEL_HEAP_BEGIN_eq in Hk; lia).
  rewrite <- (entry_at_table q ds z _ eq_refl H0) in H1. rewrite <- (entry_at_table q dd z _ eq_refl Ht) in H2.
  unfold seen, frame_at, write_protected. rewrite H1, H2. split; [done|]. split; [done|].
  assert (Hw : ∀ e', Some (shared_entry e) = Some e' → e_addr e' ≠ 0 → rw e' = 0).
  { intros e' [= <-]. unfold shared_entry. by destruct (Z.eqb_spec (e_addr e) 0). }
  by split.
Qed.

(** The stack's page of the clone. *)
Lemma stack_entry p q t : stack_copy F p q t → (∃ st, frames_ok F st p) → ∃ f,
  pte q !! entry_ptr t 1022 = Some (alloc_entry false true f entry_zero) ∧ e_addr (alloc_entry false true f entry_zero) = f ∧
  f ∈ F ∧ f ≠ 0 ∧ unused_frame p f ∧ (stack_frame p ≠ 0 → read_frame q f = read_frame p (stack_frame p)).
Proof.
  intros [(f & HF & He & Hr & Hu) _] [st Hst].
  destruct (fo_range _ _ _ Hst f HF) as [Hfr _]. exists f. split; [done|]. split; [simpl; rewrite Z.mod_small; lia|].
  split; [done|]. split; [lia|]. by split.
Qed.
Lemma read_frame_byte p q f g i : read_frame q f = read_frame p g → 0 ≤ i < 4096 →
  phys_at q (Z.shiftl f 12 + i) = phys_at p (Z.shiftl g 12 + i).
Proof.
  intros Heq Hi. assert (H1 : read_frame q f !! Z.to_nat i = read_frame p g !! Z.to_nat i) by (by rewrite Heq).
  rewrite !lookup_read_frame in H1 by lia. rewrite !Z2Nat.id in H1 by lia. by injection H1.
Qed.
Lemma stack_seen fr p q dc dd z :
  space F K fr no_hole p → page_inv F p → dirs p !! current_page_dir p = Some dc → on_stack_page z →
  new_table p (table_of dd 1023) → stack_copy F p q (table_of dd 1023) →
  ∃ f, frame_at q dd z = Some f ∧ unused_frame p f ∧ (frame_at p dc z ≠ None → seen q dd z = seen p dc z).
Proof.
  intros Hs Hi Hdc [Hz1 Hz2] Hnt Hsk. destruct (stack_entry p q _ Hsk (pi_frames _ _ Hi)) as (f & He & Ha & _ & Hf0 & Hu & Hr).
  assert (Ht : table_of dd 1023 ≠ 0) by (destruct (nt_heap _ _ Hnt) as [Hk _]; rewrite KERNEL_HEAP_BEGIN_eq in Hk; lia).
  assert (Heq : entry_at q dd z = Some (alloc_entry false true f entry_zero)).
  { rewrite (entry_at_table q dd z (table_of dd 1023)); [by rewrite Hz2|by rewrite Hz1|done]. }
  assert (Hfr : frame_at q dd z = Some f) by (rewrite (frame_at_entry _ _ _ _ Heq); rewrite Ha; done).
  exists f. split; [exact Hfr|]. split; [exact Hu|]. intros Hsome.
  destruct (frame_at p dc z) as [g|] eqn:Hg; [|done]. unfold seen. rewrite Hfr, Hg. cbn [fmap option_fmap option_map]. f_equal.
  apply frame_at_inv in Hg as (e & He' & Hge & Hg0).
  assert (Hsf : stack_frame p = g).
  { unfold entry_at in He'. rewrite Hz1, Hz2 in He'. unfold stack_frame. rewrite Hdc. destruct (table_of dc 1023 =? 0); [done|]. by rewrite He'. }
  apply read_frame_byte; [|apply page_offset]. rewrite <- Hsf. apply Hr. by rewrite Hsf.
Qed.
(** a frame that was unused is behind no page of the old directories *)
Lemma unused_not_at fr p a d z f :
  space F K fr no_hole p → page_inv F p → dirs p !! a = Some d → user_index p (tb_idx z) → unused_frame p f →
  frame_at p d z ≠ Some f.
Proof.
  intros Hs Hi Hd Hu Hf (e & He & Ha & H0)%frame_at_inv. destruct (Z.eq_dec (table_of d (tb_idx z)) 0) as [Hz|Hz].
  { by rewrite entry_at_none in He. }
  destruct (entry_at_user fr p a d z Hs Hd Hu Hz) as (Hk & e' & He' & Hpe & _). rewrite He in He'. injection He' as <-.
  by apply (Hf _ e (entry_foreign fr p _ _ Hs Hi Hk (proj1 (tb_offset_range z))) Hpe).
Qed.

(** C6: After [clone_directory] the address spaces are in order again.  Every old
    space sees what it saw; the new directory has the kernel's tables, sees
    of the program's memory what its source saw, with every page
    write-protected on both sides; its stack page shows what the running
    task's shows, in a frame no other page of any task has.  The only failures
    are the lack of a block, of a tree node or of a frame. *)
Theorem clone_directory_correct h p fr al src ds dc :
  space_state F K fr al no_hole (h, p) → dirs p !! src = Some ds → dirs p !! current_page_dir p = Some dc →
  wp (clone_directory kernel_kmalloc src)
    (λ dest s', let q := s'.2 in ∃ fr' new dd, space_state F K fr' (new ++ al) no_hole s' ∧
       dirs p !! dest = None ∧ dirs q = <[dest:=dd]> (dirs p) ∧ current_page_dir q = current_page_dir p ∧
       (∀ i, kernel_index p i → table_of dd i = table_of ds i) ∧
       (∀ a d z, dirs p !! a = Some d → user_index p (tb_idx z) → seen q d z = seen p d z) ∧
       (∀ z, user_range p z → seen q dd z = seen p ds z ∧ write_protected q ds z ∧ write_protected q dd z) ∧
       ∀ z, on_stack_page z → (frame_at p dc z ≠ None → seen q dd z = seen p dc z) ∧
         ∀ a d z', dirs q !! a = Some d → user_index p (tb_idx z') → frame_at q d z' = frame_at q dd z →
           a = dest ∧ on_stack_page z')
    kernel_fails (h, p).
Proof.
  intros Hss Hds Hdc. pose proof (sp_inv _ _ _ _ _ _ Hss) as Hi. pose proof (sp_space _ _ _ _ _ _ Hss) as Hs. cbn [snd] in *.
  eapply wp_mono; [by apply (clone_directory_ok F K kernel_fails kernel_fails_left fr al h p src ds)|].
  intros dest [h' q] (fr' & new & dd & Hss' & Hx & Hn & Hq & [Hck Hcu [Hnt Hsk]]). cbn [snd] in *. cbv zeta.
  exists fr', new, dd. split; [exact Hss'|]. split; [exact Hn|]. split; [exact Hq|]. split; [exact (ex_cur _ _ _ Hx)|].
  split; [exact Hck|]. split.
  { intros a d z Hd Hu. exact (proj2 (seen_extends fr _ p q a d z Hs Hi Hx Hd Hu)). }
  split.
  { intros z Hr. exact (proj2 (seen_cloned fr _ p q src ds dd z Hs Hi Hx Hds Hr (Hcu _ Hr))). }
  intros z Hz. destruct (stack_seen fr p q dc dd z Hs Hi Hdc Hz Hnt Hsk) as (f & Hf & Hu & Hsee). split; [exact Hsee|].
  intros a d z' Hd Hu' Heq. rewrite Hf, Hq in *. apply lookup_insert_Some in Hd as [[<- <-]|[_ Hd]].
  - split; [done|]. destruct Hu' as [Hr|Hr].
    + destruct (seen_cloned fr _ p q src ds dd z' Hs Hi Hx Hds Hr (Hcu _ Hr)) as [Hfz _]. rewrite Hfz in Heq.
      by destruct (unused_not_at fr p src ds z' f Hs Hi Hds (or_introl Hr) Hu).
    + split; [exact Hr|]. destruct (Z.eq_dec (tb_offset z') 1022) as [|Hne]; [done|].
      apply frame_at_inv in Heq as (e & He & Ha & H0). unfold entry_at in He. rewrite Hr in He.
      destruct (table_of dd 1023 =? 0); [done|]. rewrite (sk_rest _ _ _ _ Hsk _ (tb_offset_range z') Hne) in He.
      injection He as <-. subst f. by destruct H0.
  - destruct (seen_extends fr _ p q a d z' Hs Hi Hx Hd Hu') as [Hfz _]. rewrite Hfz in Heq.
    by destruct (unused_not_at fr p a d z' f Hs Hi Hd Hu' Hu).
Qed.
End View.
