(* ===== verification/KernelTasks.v ===== *)
(** The tasks on the kernel's own heap and page tables: the services of
    [KernelEnv] keep the promises the task component relies on, so what is
    proved of the tasks holds for the whole kernel. *)
From S2P Require Import Prelude Rbt RbTree RbtRep TreeMm Common Kheap KheapSpec KheapOk Page PageInit PageOk PageFrames PageHeap PageCow KernelHeap Quiet Space SpaceOps CloneStack CloneTable CloneDir.
From S2P Require Import Errno Ctype Bytes Sigset Fs Elf Task TaskQueue TaskOk TaskOps TaskSleep TaskProps Stack Syscall KernelEnv BootStack.

Section KernelTasks.
Context `{HLo : HeapLinkOk} `{FN : FreshNode} `{PL : PageLink} `{PLok : !PageLinkOk}.
Context (F : gset Z).
Implicit Types (h : kheap) (p q : paging) (a b z : Z) (fr : list Block_t) (al : list alloc) (B : gset Z) (s : kstate).

(** * Another directory becomes the current one *)
Section Switch.
Context (K : Z → Z) (fr : list Block_t) (al : list alloc) (h : kheap) (p : paging) (a c : Z) (d : Directory_t).
Context (Hss : space_state F K fr al no_hole (h, p)) (Hd : dirs p !! a = Some d).
Lemma switch_page z : in_heap_range z → page_of (with_current p a c) z = page_of p z.
Proof.
  intros Hz. pose proof (sp_inv _ _ _ _ _ _ Hss) as Hi. pose proof (sp_space _ _ _ _ _ _ Hss) as Hs. cbn [snd] in *.
  destruct (space_page_of F K fr no_hole p z Hs Hi Hz) as [-> _]. unfold page_of. cbn [dirs current_page_dir with_current].
  rewrite Hd. f_equal. pose proof (tb_idx_heap z Hz).
  eapply sl_kernel; [eapply (sp_slot _ _ _ _ _ Hs _ _ _ Hd); [lia|by intros ?]|by apply heap_index].
Qed.
Lemma switch_quiet : quiet p (with_current p a c).
Proof.
  pose proof (sp_inv _ _ _ _ _ _ Hss) as Hi. pose proof (sp_space _ _ _ _ _ _ Hss) as Hs. cbn [snd] in *.
  split; [|exact switch_page|reflexivity|reflexivity|done|by left|done].
  exists d. split; [exact Hd|]. intros i Hr. destruct (pi_dir _ _ Hi) as (dc & Hdc & Hpos).
  assert (Hk : kernel_index p i) by (by right).
  rewrite (sl_kernel _ _ _ _ _ (sp_slot _ _ _ _ _ Hs a d i Hd ltac:(lia) id) Hk).
  rewrite <- (sl_kernel _ _ _ _ _ (sp_slot _ _ _ _ _ Hs _ dc i Hdc ltac:(lia) id) Hk). by apply Hpos.
Qed.
Lemma switch_ok : space_state F K fr al no_hole (h, with_current p a c).
Proof.
  pose proof (sp_inv _ _ _ _ _ _ Hss) as Hi. destruct (pi_frames _ _ Hi) as [st Hf]. cbn [snd] in *. split.
  - eapply kheap_ok_quiet; [exact (sp_heap _ _ _ _ _ _ Hss)|exact switch_quiet|]. by eapply frames_ok_ext.
  - assert (Hb : ∀ t pa, hw p t pa → hw (with_current p a c) t pa).
    { intros t pa. apply hw_mono. intros z x. apply backed_page_of; [exact switch_page|done..]. }
    destruct (sp_space _ _ _ _ _ _ Hss) as [H1 H2 H3 H4 H5 H6 H7 H8 H9 H10 H11]. cbn [snd] in *. split; try assumption.
    + intros b db Hdb. apply Hb. by apply H8.
    + intros b db i Hdb Hi' Hn. destruct (H9 b db i Hdb Hi' Hn) as [S1 S2 S3]. split; [exact S1| |].
      * intros Hu. destruct (S2 Hu) as [?|[U1 U2]]; [by left|by right].
      * intros Hne. destruct (S3 Hne) as (W1 & W2 & W3 & W4). split; [done|]. split; [done|]. split; [done|]. by apply Hb.
Qed.
Lemma switch_boot isp esp : boot_stack K isp esp p → boot_stack K isp esp (with_current p a c).
Proof.
  intros Hb z Hz. destruct (Hb z Hz) as (H1 & H2 & [S1 S2] & H4). split; [done|]. split; [done|]. split; [|done].
  split; [exact S1|]. intros (z' & Hz' & Heq). apply S2. exists z'. split; [done|]. by rewrite Heq, switch_page.
Qed.
End Switch.

(** * The promises *)
Context (isp esp ebp : Z) (Hrange : 0 ≤ esp ≤ isp) (Hisp : isp ≤ KERNEL_STACK_POS) (Hsize : isp - esp ≤ KERNEL_STACK_SIZE).
(** the address spaces are in order, the boot stack is mapped, and the memory
    given out for the tasks of [B] is allocated *)
Definition kernel_ok s B : Prop :=
  ∃ K fr al, space_state F K fr al no_hole s ∧ boot_stack K isp esp s.2 ∧
    ∀ a, a ∈ B → ∃ u, Alloc a sizeof_Task_t u ∈ al.
Definition kernel_dirs s (a : Z) : option Z := phyaddr <$> dirs s.2 !! a.

Lemma kernel_new_ok s B :
  kernel_ok s B →
  wp (kernel_kmalloc sizeof_Task_t 0) (λ a s', task_region a ∧ (∀ b, b ∈ B → tasks_apart a b) ∧
    kernel_dirs s' = kernel_dirs s ∧ current_page_dir s'.2 = current_page_dir s.2 ∧ kernel_ok s' ({[a]} ∪ B)) kernel_fails s.
Proof.
  intros (K & fr & al & Hss & Hb & HB).
  eapply wp_mono; [apply (new_object_ok F K kernel_fails kernel_fails_left (λ _, False) sizeof_Task_t 0 s fr al no_hole Hss); unfold sizeof_Task_t; lia|].
  intros a s' (fr' & u & Hss' & Hx & Hd & [_ Hheap _ _ _ _] & _). split; [exact Hheap|]. split; [|split; [|split]].
  - intros b Hbin. destruct (HB b Hbin) as [ub Hub].
    pose proof (heap_layout _ _ _ (sp_heap _ _ _ _ _ _ Hss')) as Hl. pose proof (heap_al _ _ _ (sp_heap _ _ _ _ _ _ Hss')) as Hal.
    apply Forall_cons in Hal as [Ha Hal]. rewrite Forall_forall in Hal. specialize (Hal _ Hub).
    pose proof (lay_disj _ _ Hl) as Hdj. apply pairwise_app in Hdj as (_ & Hdj & _). cbn [fmap list_fmap] in Hdj.
    apply pairwise_cons in Hdj as [Hdj _]. rewrite Forall_forall in Hdj. specialize (Hdj ub).
    assert (Hin : ub ∈ a_blk <$> al) by (apply list_elem_of_fmap; by exists (Alloc b sizeof_Task_t ub)).
    specialize (Hdj Hin). destruct Ha as [A1 _ A3 _ _], Hal as [B1 _ B3 _ _]. unfold tasks_apart, bdisj, sizeof_Block_t in *. cbn in *. lia.
  - unfold kernel_dirs. by rewrite Hd.
  - exact (ex_cur _ _ _ Hx).
  - exists K, fr', (Alloc a sizeof_Task_t u :: al). split; [exact Hss'|]. split; [by eapply boot_stack_extends|].
    intros b [->%elem_of_singleton|Hbin]%elem_of_union; [exists u; by left|]. destruct (HB b Hbin) as [ub Hub]. exists ub. by right.
Qed.
Lemma kernel_clone_ok s B d :
  kernel_ok s B → is_Some (kernel_dirs s d) →
  wp (clone_directory kernel_kmalloc d) (λ d' s', is_Some (kernel_dirs s' d') ∧
    (∀ e, is_Some (kernel_dirs s e) → kernel_dirs s' e = kernel_dirs s e) ∧
    current_page_dir s'.2 = current_page_dir s.2 ∧ kernel_ok s' B) kernel_fails s.
Proof.
  intros (K & fr & al & Hss & Hb & HB) [pa Hd]. destruct s as [h p]. unfold kernel_dirs in *. cbn [snd] in *.
  destruct (dirs p !! d) as [ds|] eqn:Hds; [|done].
  eapply wp_mono; [by apply (clone_directory_ok F K kernel_fails kernel_fails_left fr al h p d ds Hss)|].
  intros d' s' (fr' & new & dd & Hss' & Hx & Hn & Hd' & _). rewrite Hd'. split; [rewrite lookup_insert_eq; by eexists|].
  split; [|split; [exact (ex_cur _ _ _ Hx)|]].
  - intros e He. rewrite lookup_insert_ne; [done|]. intros ->. rewrite Hn in He. by destruct He.
  - exists K, fr', (new ++ al). split; [exact Hss'|]. split; [by eapply boot_stack_extends|].
    intros b Hbin. destruct (HB b Hbin) as [ub Hub]. exists ub. apply elem_of_app. by right.
Qed.
Lemma kernel_set_dir_ok s B d :
  kernel_ok s B → is_Some (kernel_dirs s d) →
  ∃ s', (p ← getp; putp (with_current p d (cr3 p))) s = Ret (tt, s') ∧ current_page_dir s'.2 = d ∧
    kernel_dirs s' = kernel_dirs s ∧ kernel_ok s' B.
Proof.
  intros (K & fr & al & Hss & Hb & HB) [pa Hd]. destruct s as [h p]. unfold kernel_dirs in *. cbn [snd] in *.
  destruct (dirs p !! d) as [ds|] eqn:Hds; [|done]. exists (h, with_current p d (cr3 p)). split; [reflexivity|].
  split; [reflexivity|]. split; [reflexivity|]. exists K, fr, al. split; [by eapply switch_ok|]. split; [by eapply switch_boot|done].
Qed.
Lemma kernel_move_ok s B :
  kernel_ok s B →
  wp (@move_stack kstate kernel_stack_mem isp esp ebp ;; mret tt)
    (λ _ s', (∀ d, kernel_dirs s' d = kernel_dirs s d) ∧ current_page_dir s'.2 = current_page_dir s.2 ∧ kernel_ok s' B) kernel_fails s.
Proof.
  intros (K & fr & al & Hss & Hb & HB). destruct s as [h p]. wp_step.
  eapply wp_mono; [by apply (kernel_move_stack_ok F K isp esp Hrange Hisp Hsize ebp fr al h p kernel_fails kernel_fails_left Hss Hb)|].
  intros _ s' (fr' & new & Hss' & Hb' & _ & Hc & Hd). apply wp_ret. split; [exact Hd|]. split; [exact Hc|].
  exists K, fr', (new ++ al). split; [exact Hss'|]. split; [exact Hb'|].
  intros b Hbin. destruct (HB b Hbin) as [ub Hub]. exists ub. apply elem_of_app. by right.
Qed.

Definition kernel_tasks : @TaskEnvLaws kstate (kernel_task_env isp (esp, ebp)).
Proof.
  refine (@Build_TaskEnvLaws kstate (kernel_task_env isp (esp, ebp)) kernel_ok kernel_dirs (λ s, current_page_dir s.2) kernel_fails
    _ kernel_new_ok kernel_clone_ok _ kernel_set_dir_ok _ kernel_move_ok).
  - intros s B B' (K & fr & al & Hss & Hb & HB) Hsub. exists K, fr, al. split; [done|]. split; [done|]. intros a Ha. by apply HB, Hsub.
  - by intros [h p].
  - intros [h p] d pa Hd. unfold kernel_dirs in Hd. cbn [snd] in Hd. destruct (dirs p !! d) as [ds|] eqn:Hds; [|done].
    injection Hd as <-. unfold dir_phyaddr. cbn. unfold rd_dir, getp, mbind, M_bind. cbn [snd]. by rewrite Hds.
Defined.

(** * The task system on the kernel *)
#[local] Abbreviation env := (kernel_task_env isp (esp, ebp)).
Context (NIL_task : Z) `{!NilAddr (P:=task_pool) NIL_task} (junk_node : node Pair_id_task) (junk_id : Z).
(** the first task, then any calls *)
Lemma kernel_task_init nil0 flags s sp bp eip :
  kernel_ok s ∅ → eip ≠ 0xFFFFFFFF →
  wp (@task_init kstate env NIL_task junk_node junk_id sp bp eip)
    (λ _ r, @good kstate env kernel_tasks NIL_task r) kernel_fails (tasks_boot NIL_task nil0 flags, s).
Proof.
  intros Hi Heip. assert (Hd : is_Some (kernel_dirs s (current_page_dir s.2))).
  { destruct Hi as (K & fr & al & Hss & _). destruct (sp_cur_dir _ _ _ _ _ _ Hss) as [d Hd].
    exists (phyaddr d). unfold kernel_dirs. by rewrite Hd. }
  eapply wp_mono; [exact (@task_init_ok kstate env kernel_tasks NIL_task _ junk_node junk_id nil0 flags s sp bp eip Hi Hd Heip)|].
  intros c r1 (a & k & Hok & _). by eexists _, _.
Qed.
Lemma kernel_calls_good calls (r : tasks * kstate) :
  @good kstate env kernel_tasks NIL_task r → Forall call_ok calls →
  wp (for_each calls (@run_call kstate env NIL_task junk_node junk_id))
    (λ _ r, @good kstate env kernel_tasks NIL_task r) kernel_fails r.
Proof. intros Hg Hc. exact (@run_calls_good kstate env kernel_tasks NIL_task _ junk_node junk_id calls r Hg Hc). Qed.
(** the tasks and the memory together *)
Definition kernel_tasks_good (r : tasks * kstate) : Prop :=
  ∃ ls order, @tasks_ok kstate env kernel_tasks NIL_task r.1 r.2 ls order ∧ order ≠ [] ∧
    (∀ a k, store r.1 !! a = Some k → is_Some (dirs r.2.2 !! t_page_dir k)) ∧
    kernel_ok r.2 (list_to_set order).
Lemma good_kernel (r : tasks * kstate) : @good kstate env kernel_tasks NIL_task r → kernel_tasks_good r.
Proof.
  intros (ls & order & Hok' & Hne). exists ls, order. split; [exact Hok'|]. split; [exact Hne|]. split.
  - intros b kb Hb. destruct (tk_dirs _ _ _ _ _ _ _ Hok' b kb Hb) as [pa Hpa]. simpl in Hpa. unfold kernel_dirs in Hpa.
    by destruct (dirs r.2.2 !! t_page_dir kb) as [d|]; [exists d|].
  - exact (tk_env _ _ _ _ _ _ _ Hok').
Qed.

(** C3: On the kernel's own heap and page tables: after the boot and any sequence
    of calls the queues partition the tasks, the tree lists them, every task's
    directory is there, and the heap and all address spaces are in order, with
    the memory of every task still allocated.  No call faults or loops; the
    kernel stops only for lack of memory. *)
Theorem kernel_task_system nil0 flags s sp bp eip calls :
  kernel_ok s ∅ → eip ≠ 0xFFFFFFFF → Forall call_ok calls →
  wp (@task_init kstate env NIL_task junk_node junk_id sp bp eip ;;
      for_each calls (@run_call kstate env NIL_task junk_node junk_id))
    (λ _ (r : tasks * kstate), ∃ ls order, @tasks_ok kstate env kernel_tasks NIL_task r.1 r.2 ls order ∧ order ≠ [] ∧
       (∀ a k, store r.1 !! a = Some k → is_Some (dirs r.2.2 !! t_page_dir k)) ∧
       kernel_ok r.2 (list_to_set order))
    kernel_fails (tasks_boot NIL_task nil0 flags, s).
Proof.
  intros Hi Heip Hcalls. apply wp_bind.
  eapply wp_mono; [exact (kernel_task_init nil0 flags s sp bp eip Hi Heip)|]. intros c r1 Hg.
  eapply wp_mono; [exact (kernel_calls_good calls r1 Hg Hcalls)|]. intros [] r Hr. exact (good_kernel r Hr).
Qed.
End KernelTasks.
