(* ===== verification/PageBoot.v ===== *)
(** [Page::init] from the state the boot loader leaves: afterwards the heap and
    the address space are in order, every frame the allocator has is real
    memory that no page uses, and the kernel's pages are mapped where they are. *)
From S2P Require Import Prelude Rbt TreeMm Common Kheap KheapTrees KheapSpec KheapOk Page PageInit PageOk PageFrames PageHeap PageCow KernelHeap Quiet Space SpaceOps BootTables BootFrames Booted.
From S2P Require Import BootStack KernelTasks.

Section PageBoot.
Context `{HLo : HeapLinkOk} `{FN : FreshNode} `{PL : PageLink} `{PLok : !PageLinkOk}.
Implicit Types (h : kheap) (p q : paging) (a z i j t f A da : Z) (d : Directory_t) (fr : list Block_t).

(** * The heap without its two pages for copying *)
Lemma kheap_scratch F e da d h p a0 len u fr e0 e1 b0 b1 :
  built e da d p → kheap_ok F (h, p) fr [Alloc a0 len u] → page_aligned a0 →
  KERNEL_HEAP_BEGIN + 4096 ≤ a0 → a0 + 8192 ≤ KERNEL_HEAP_END → (∀ z, a0 - 8 ≤ z < a0 + 8192 → in_block z u) →
  pte p !! page_of p a0 = Some e0 → pte p !! page_of p (a0 + 0x1000) = Some e1 →
  empty_page0_ptr p = 0 → empty_page1_ptr p = 0 →
  kheap_ok F (h, with_scratch_pages p (page_of p a0) (page_of p (a0 + 0x1000)) e0 e1 b0 b1) fr [Alloc a0 0 u].
Proof.
  intros Hb [K1 K2 K3 K4 K5 K6] Hal Hlo Hhi Hu He0 He1 Hs0 Hs1. cbn [fst snd] in *.
  set (q := with_scratch_pages _ _ _ _ _ _ _).
  assert (Hz0 : in_heap_range a0) by (unfold in_heap_range; lia).
  assert (Hz1 : in_heap_range (a0 + 0x1000)) by (unfold in_heap_range; lia).
  unfold page_aligned in Hal. pose proof (Z.div_mod a0 4096 ltac:(lia)) as Hdm.
  assert (Hd1 : (a0 + 0x1000) / 4096 = a0 / 4096 + 1) by (replace (a0 + 0x1000) with (a0 + 1 * 4096) by lia; by rewrite Z.div_add).
  assert (Hne : a0 / 4096 ≠ (a0 + 0x1000) / 4096) by lia.
  change (env_inv p) with (page_inv F p) in K2.
  assert (Hkeep : ∀ z, ¬ (a0 ≤ z < a0 + 8192) → (page_mapped p z → page_mapped q z) ∧ ∀ v, page_byte p z = Some v → page_byte q z = Some v).
  { intros z Hz. pose proof (Z.div_mod z 4096 ltac:(lia)). pose proof (Z.mod_pos_bound z 4096 ltac:(lia)).
    apply (scratch_keep e da d p _ _ e0 e1 b0 b1 a0 (a0 + 0x1000) Hb); try done; lia. }
  split; cbn [fst snd].
  - exact K1.
  - exact (scratch_page_inv e da d F p _ _ e0 e1 b0 b1 a0 (a0 + 0x1000) Hb K2 Hz0 Hz1 eq_refl eq_refl Hne He0 He1 Hs0 Hs1).
  - exact K3.
  - exact K4.
  - apply Forall_cons in K5 as [[A1 A2 A3 A4 A5] _]. constructor; [|constructor]. cbn in *. unfold sizeof_Block_t in *.
    split; cbn; unfold sizeof_Block_t; [exact A1|lia|lia| |].
    + intros i v Hv. apply Hkeep; [|by apply A4]. apply lookup_lt_Some in Hv. cbn in Hv. lia.
    + intros z Hz. apply Hkeep; [lia|]. apply A5. lia.
  - intros z (b & Hbl & Hzb) [Hz Hsc].
    assert (Hin : a0 ≤ z < a0 + 8192).
    { pose proof (Z.div_mod z 4096 ltac:(lia)). pose proof (Z.mod_pos_bound z 4096 ltac:(lia)).
      destruct Hsc as [Hsc|Hsc]; cbn in Hsc; apply (built_page_inj e da d p Hb) in Hsc; try done; lia. }
    pose proof (lay_disj _ _ K4) as Hdj. apply pairwise_app in Hdj as (_ & _ & Hdj). rewrite Forall_forall in Hdj.
    specialize (Hdj b Hbl). cbn in Hdj. rewrite Forall_forall in Hdj. specialize (Hdj u ltac:(by left)).
    specialize (Hu z ltac:(lia)). unfold in_block, bdisj in *. lia.
Qed.

(** * The heap's trees *)
Definition tree_fields h := (size_nodes h, size_root h, start_nodes h, start_root h, mm h).
Lemma heap_trees_same h h' fr : tree_fields h' = tree_fields h → heap_trees h fr → heap_trees h' fr.
Proof.
  intros Ht (lz & ls & [T1 T2 T3 T4] & Hp). injection Ht as E1 E2 E3 E4 E5. exists lz, ls. split; [|done].
  unfold size_tree, start_tree in *. split; unfold size_tree, start_tree; rewrite ?E1, ?E2, ?E3, ?E4, ?E5; done.
Qed.
(** * The pages for copying *)
Definition init_scratch : M kstate unit :=
  a0 ← kernel_kmalloc (Z.shiftl 1 13) 12;
  p ← getp;
  p0 ← get_page kernel_kmalloc (current_page_dir p) a0 false;
  (if p0 =? 0 then panic "empty_page0_ptr" else mret tt) ;;
  p1 ← get_page kernel_kmalloc (current_page_dir p) (u32 (a0 + 0x1000)) false;
  (if p1 =? 0 then panic "empty_page1_ptr" else mret tt) ;;
  p ← getp;
  putp (with_empty p a0 (u32 (a0 + 0x1000)) p0 p1) ;;
  upd_pte p0 (set_present 1) ;;
  upd_pte p1 (set_present 1) ;;
  p ← getp;
  size ← kheap_get_size_pre_init;
  Klog_log "page initialization completed. kernel static memory usage: %d kb, available 4k frames: %d (%d mb)"
    [Z.shiftr (u32 (size - 0x100000)) 10; nframes p; nframes p * 4 / 1024].

(** the kernel's pages below [limit] are mapped where they are *)
Definition maps_kernel (K : Z → Z) (limit : Z) p : Prop :=
  ∀ z, 0x1000 ≤ z < limit → tb_idx z < kernel_low_ntable p ∧ 0 < K (tb_idx z) ∧ foreign p (boot_entry K z) ∧
    pte p !! boot_entry K z = Some (ident (z / 4096)).
Lemma klog_quiet F p k : page_inv F p → quiet p (with_klog p k).
Proof.
  intros Hi. destruct (pi_dir _ _ Hi) as (d & Hd & Hpos). split; try done.
  - by exists d.
  - intros a Ha. by left.
Qed.

(** The heap's first allocation cannot fail, while there is a frame. *)
Lemma first_kmalloc (n : Z) msg : 0 < n → ¬ kmalloc_fails n [whole_heap] 8192 12 msg.
Proof.
  intros Hn [[_ Hno]|[[Hlen _]|[_ (got & (->%list_elem_of_singleton & _) & Hp)]]].
  - apply (Hno whole_heap); [by left|]. split; by vm_compute.
  - cbn in Hlen. lia.
  - assert (Hone : pages_touched (payload 12 whole_heap - sizeof_Block_t) sizeof_Block_t = 1) by (by vm_compute). lia.
Qed.
Lemma init_scratch_ok F e da d h p limit :
  built e da d p → kheap_ok F (h, p) [whole_heap] [] → empty_page0_ptr p = 0 → empty_page1_ptr p = 0 →
  init_finished p = true → 0 < nframes p → maps_kernel (table_of d) limit p →
  wp init_scratch
    (λ _ s', ∃ fr al, space_state F (table_of d) fr al no_hole s' ∧ maps_kernel (table_of d) limit s'.2) (λ _, False) (h, p).
Proof.
  intros Hb Hk H0 H1 Hini Hn Hmap. unfold init_scratch. change (Z.shiftl 1 13) with 8192. wp_step.
  eapply wp_mono_E; [apply (kernel_kmalloc_space F 8192 12 (h, p) _ _ Hk); unfold sizeof_Block_t; lia| |intros msg; by apply first_kmalloc].
  intros a0 [h1 p1] (got & fr0 & u & ps & Hbest & Hfr & Ha0 & Hc & Hk1 & _ & _ & [(_ & _ & Hss) _]). cbn [snd] in *.
  destruct Hbest as (Hg%list_elem_of_singleton & (_ & Hfit) & _). subst got.
  assert (Hpay : payload 12 whole_heap = KERNEL_HEAP_BEGIN + 4096) by (by vm_compute). rewrite Hpay in *. subst a0.
  destruct (carve_spec (KERNEL_HEAP_BEGIN + 4096) 8192 whole_heap u ps ltac:(by vm_compute) ltac:(by vm_compute) ltac:(lia) Hfit Hc) as (_ & Hu1 & Hu2 & _).
  set (a0 := KERNEL_HEAP_BEGIN + 4096) in *. unfold sizeof_Block_t in Hu1.
  assert (Hb1 : built e da d p1) by (eapply built_ext; [exact Hb|apply Hss..]).
  pose proof (heap_env _ _ _ Hk1) as Hi1. change (page_inv F p1) in Hi1.
  assert (Hz0 : in_heap_range a0) by (by vm_compute). assert (Hz1 : in_heap_range (a0 + 0x1000)) by (by vm_compute).
  assert (Hu32 : u32 (a0 + 0x1000) = a0 + 0x1000) by (by vm_compute). rewrite Hu32.
  assert (Hal : page_aligned a0) by (by vm_compute). assert (Hlo : KERNEL_HEAP_BEGIN + 4096 ≤ a0 ∧ a0 + 8192 ≤ KERNEL_HEAP_END) by (by vm_compute).
  clearbody a0. destruct Hlo as [Hlo Hhi].
  wp_step. apply wp_getp. wp_step. eapply wp_mono; [apply (get_page_ok F h1 p1 a0); [done|done]|]. intros ? ? [-> ->].
  rewrite (page_of_pos F) by done. wp_step. apply wp_ret. wp_step.
  eapply wp_mono; [apply (get_page_ok F h1 p1 (a0 + 0x1000)); [done|done]|]. intros ? ? [-> ->].
  rewrite (page_of_pos F) by done. wp_step. apply wp_ret. wp_step. apply wp_getp. wp_step. apply wp_putp. cbn [fst snd].
  destruct (pi_entry _ _ Hi1 a0 Hz0) as (e0 & He0 & _). destruct (pi_entry _ _ Hi1 (a0 + 0x1000) Hz1) as (e1 & He1 & _).
  set (x0 := page_of p1 a0) in *. set (x1 := page_of p1 (a0 + 0x1000)) in *.
  assert (Hne : a0 / 4096 ≠ (a0 + 0x1000) / 4096).
  { replace (a0 + 0x1000) with (a0 + 1 * 4096) by lia. rewrite Z.div_add by lia. lia. }
  assert (Hx : x0 ≠ x1) by (intros Heq; apply Hne; by apply (built_page_inj e da d p1 Hb1)).
  wp_step. eapply wp_upd_pte; [cbn; exact He0|]. cbn [fst snd].
  wp_step. eapply wp_upd_pte; [cbn; rewrite lookup_insert_ne by done; exact He1|]. cbn [fst snd].
  wp_step. apply wp_getp. wp_step. eapply wp_of_run; [reflexivity|].
  unfold Klog_log. wp_step. apply wp_getp. apply wp_putp. cbn [fst snd].
  assert (E0 : empty_page0_ptr p1 = 0) by (etrans; [apply Hss|done]). assert (E1 : empty_page1_ptr p1 = 0) by (etrans; [apply Hss|done]).
  assert (Hu : ∀ z, a0 - 8 ≤ z < a0 + 8192 → in_block z u) by (intros z Hz; unfold in_block; lia).
  pose proof (kheap_scratch F e da d h1 p1 a0 8192 u _ e0 e1 a0 (a0 + 0x1000) Hb1 Hk1 Hal Hlo Hhi Hu He0 He1 E0 E1) as Hk2.
  fold x0 x1 in Hk2. set (q := with_scratch_pages _ _ _ _ _ _ _) in Hk2.
  match goal with |- ∃ fr al, space_state _ _ _ _ _ (_, with_klog ?q' ?k) ∧ _ => change q' with q; set (lg := k) end.
  assert (Hdom : ∀ a, is_Some (pte q !! a) ↔ is_Some (pte p1 !! a)).
  { intros a. cbn. rewrite !lookup_insert_is_Some. split; [intros [<-|[_ [<-|[_ ?]]]]; by eauto|].
    intros Ha. destruct (decide (x1 = a)); [by left|right; split; [done|]]. destruct (decide (x0 = a)); [by left|by right]. }
  assert (Hbq : built e da d (with_klog q lg)) by (eapply built_ext; [exact Hb1|done|done|done|exact Hdom]).
  pose proof (heap_env _ _ _ Hk2) as Hiq. change (page_inv F q) in Hiq.
  assert (Hsl : ∀ a, scratch q a → is_Some (pte p1 !! a)) by (intros a [->| ->]; cbn; eauto).
  assert (Hpage : ∀ z, in_heap_range z → page_of p1 z = page_of p z).
  { intros z Hz. by rewrite (built_page e da d p1 Hb1), (built_page e da d p Hb). }
  assert (Hcx : ∀ z, foreign p (boot_entry (table_of d) z) →
    boot_entry (table_of d) z ≠ x0 ∧ boot_entry (table_of d) z ≠ x1 ∧ ¬ heap_page p1 (boot_entry (table_of d) z)).
  { intros z [_ Hh]. split; [|split].
    - intros Heq. apply Hh. exists a0. split; [done|]. by rewrite <- Hpage.
    - intros Heq. apply Hh. exists (a0 + 0x1000). split; [done|]. by rewrite <- Hpage.
    - intros (z' & Hz' & Heq). apply Hh. exists z'. split; [done|]. by rewrite <- Hpage. }
  exists (ps ++ fr0), [Alloc a0 0 u]. split; [split|]; cbn [fst snd].
  - destruct (pi_frames _ _ Hiq) as [st Hst]. eapply (kheap_ok_quiet F h1 q); [exact Hk2|by apply (klog_quiet F)|].
    by eapply frames_ok_ext; [exact Hst|..].
  - apply (built_space e da d _ Hbq).
    + etrans; [apply Hss|exact Hini].
    + split; [|split; [|exact Hx]]; apply Hdom; eauto.
    + intros a Ha%Hsl. destruct (built_key e da d p1 Hb1 a Ha). pose proof (bt_end _ _ _ _ Hb1). lia.
    + pose proof (lay_heap _ _ (heap_layout _ _ _ Hk1)) as Hl. by apply Forall_app in Hl as [Hl _].
  - intros z Hz. destruct (Hmap z Hz) as (M1 & M2 & M3 & M4). destruct (Hcx z M3) as (Hn0 & Hn1 & Hnh).
    split; [cbn; by rewrite (ss_low _ _ Hss)|]. split; [done|]. split.
    + split; [intros [Hs|Hs]; cbn in Hs; congruence|]. intros (z' & Hz' & Heq). apply Hnh. by exists z'.
    + cbn. rewrite !lookup_insert_ne by congruence. by rewrite (ss_pte _ _ Hss).
Qed.

(** * Paging is turned on *)
Definition init_mapping : M kstate unit :=
  p ← getp;
  lo ← top_frame;
  hi ← (match frames p !! 0 with Some f => mret f | None => fault end);
  kernel_kmalloc (4 * u32 (hi - lo + 1)) 0 ;;
  p ← getp;
  putp (with_refs p ∅ lo (u32 (hi - lo + 1))) ;;
  map_kernel (Z.to_nat (2 ^ 20)) 0x1000 ;;
  size ← kheap_get_size_pre_init;
  p ← getp;
  putp (with_low_ntable p (Z.shiftr (u32 (size - 1)) 22 + 1)) ;;
  p ← getp;
  drop_frames (Z.to_nat (nframes p)) ;;
  p ← getp;
  upd_dir (current_page_dir p) (dir_set_phyaddr (u32 (current_page_dir p + 4096))) ;;
  enable (current_page_dir p) ;;
  p ← getp;
  putp (with_init_finished p true) ;;
  @kheap_finish_init paging kernel_env ;;
  mret tt ;;
  init_scratch.

(** page number [n] when the tables are complete *)
Definition mapped_entry (e n : Z) : Table_entry_t :=
  if (0x1000 <=? 4096 * n) && (4096 * n <? e) then ident n else entry_zero.
Definition low_tables (e : Z) : Z := Z.shiftr (u32 (e - 1)) 22 + 1.
Lemma building_built A da d h p q :
  let e := kheap_static_end h in
  building A da (mapped_entry e) d (h, p) → 0x1000 ≤ e →
  (∀ i, is_Some (tables d !! i) → 959 ≤ i < 1023 ∨ ∃ z, 0x1000 ≤ z < e ∧ i = tb_idx z) →
  (∀ z, in_heap_range z → is_Some (tables d !! tb_idx z)) →
  pte q = pte p → dirs q = {[da := dir_set_phyaddr (da + 4096) d]} → current_page_dir q = da → kernel_low_ntable q = low_tables e →
  built e da (dir_set_phyaddr (da + 4096) d) q.
Proof.
  intros e Hb He Hsl Hheap Hpte Hd Hc Hl. destruct (static_bound _ _ _ _ _ Hb) as [Hs HA]. cbn [fst] in Hs. fold e in Hs.
  destruct (bd_end _ _ _ _ _ Hb) as [Hda [Hde _]]. cbn [fst] in Hde. fold e in Hde.
  assert (Hlow : low_tables e = (e - 1) / 4194304 + 1).
  { unfold low_tables. rewrite KERNEL_HEAP_BEGIN_eq in *. rewrite u32_small, Z.shiftr_div_pow2 by lia. done. }
  assert (Hidx : ∀ z, 0x1000 ≤ z < e → 0 ≤ tb_idx z < low_tables e).
  { intros z Hz. rewrite Hlow. unfold tb_idx. rewrite Z.shiftr_div_pow2 by lia. change (2 ^ 22) with 4194304.
    pose proof (Z.div_le_mono z (e - 1) 4194304 ltac:(lia) ltac:(lia)). assert (0 ≤ z / 4194304) by (apply Z.div_pos; lia). lia. }
  split.
  - rewrite KERNEL_HEAP_BEGIN_eq in *. lia.
  - done.
  - done.
  - done.
  - done.
  - rewrite Hl, Hlow. rewrite KERNEL_HEAP_BEGIN_eq in *. assert ((e - 1) / 4194304 < 959) by (apply Z.div_lt_upper_bound; lia).
    assert (0 ≤ (e - 1) / 4194304) by (apply Z.div_pos; lia). lia.
  - intros i t Hi. destruct (bd_table _ _ _ _ _ Hb i t Hi) as (_ & B1 & B2 & B3). rewrite Hl. split; [|done].
    destruct (Hsl i) as [?|(z & Hz & ->)]; [by eexists|by right|left; by apply Hidx].
  - exact (bd_inj _ _ _ _ _ Hb).
  - exact (bd_walk _ _ _ _ _ Hb).
  - intros a. rewrite Hpte. split; [apply (bd_key _ _ _ _ _ Hb)|]. intros (i & j & t & Ht & Hj & ->).
    eexists. exact (bd_entry _ _ _ _ _ Hb i j t Ht Hj).
  - exact Hheap.
Qed.
(** What the tables then hold. *)
Lemma built_entries A da d h p q :
  let e := kheap_static_end h in let d' := dir_set_phyaddr (da + 4096) d in
  building A da (mapped_entry e) d (h, p) → pte q = pte p → empty_page0_ptr q = 0 → empty_page1_ptr q = 0 →
  (∀ z, 0x1000 ≤ z < e → is_Some (tables d !! tb_idx z)) → built e da d' q →
  (∀ z, in_heap_range z → pte q !! page_of q z = Some entry_zero) ∧ maps_kernel (table_of d') e q ∧
  (∀ a x, pte q !! a = Some x → 0 ≤ e_addr x ≤ Z.shiftr e 12).
Proof.
  intros e d' Hb Hpte E0 E1 Hlow Hbt. destruct (static_bound _ _ _ _ _ Hb) as [Hs _]. cbn [fst] in Hs. fold e in Hs.
  assert (Hentry : ∀ z t, tables d !! tb_idx z = Some t → pte q !! entry_ptr t (tb_offset z) = Some (mapped_entry e (z / 4096))).
  { intros z t Ht. rewrite Hpte, <- page_number. exact (bd_entry _ _ _ _ _ Hb _ _ _ Ht (tb_offset_range z)). }
  pose proof (bt_end _ _ _ _ Hbt) as Hend. split; [|split].
  - intros z Hz. destruct (built_heap_page _ _ _ _ Hbt z Hz) as (t & Ht & -> & _). rewrite (Hentry z t Ht). f_equal.
    unfold mapped_entry. destruct Hz as [Hz _]. rewrite KERNEL_HEAP_BEGIN_eq in *.
    assert (KERNEL_HEAP_BEGIN / 4096 ≤ z / 4096) as Hd by (apply Z.div_le_mono; [lia|by rewrite KERNEL_HEAP_BEGIN_eq]).
    change (KERNEL_HEAP_BEGIN / 4096) with 0xEFC00 in Hd. destruct (Z.ltb_spec (4096 * (z / 4096)) e); [lia|]. by rewrite andb_false_r.
  - intros z Hz. destruct (Hlow z Hz) as [t Ht]. destruct (bt_table _ _ _ _ Hbt _ _ Ht) as (Hr & _ & Hlo & _).
    unfold boot_entry. rewrite (table_of_some d' _ _ Ht). pose proof (bt_da _ _ _ _ Hbt). unfold sizeof_Directory_t in *.
    assert (Hix : tb_idx z < 959).
    { unfold tb_idx. rewrite Z.shiftr_div_pow2 by lia. apply Z.div_lt_upper_bound; [lia|]. rewrite KERNEL_HEAP_BEGIN_eq in *. lia. }
    split; [lia|]. split; [lia|]. split.
    + split.
      * unfold scratch. rewrite E0, E1. pose proof (tb_offset_range z). unfold entry_ptr. lia.
      * intros (z' & Hz' & Heq). destruct (built_heap_page _ _ _ _ Hbt z' Hz') as (t' & Ht' & Hp & _). rewrite Hp in Heq.
        destruct (entry_ptr_same _ _ _ _ Hbt _ _ _ _ _ _ Ht Ht' (tb_offset_range z) (tb_offset_range z') Heq) as [Hi _].
        pose proof (tb_idx_heap z' Hz'). lia.
    + rewrite (Hentry z t Ht). f_equal. unfold mapped_entry. pose proof (Z.div_mod z 4096 ltac:(lia)). pose proof (Z.mod_pos_bound z 4096 ltac:(lia)).
      assert (1 ≤ z / 4096) by (apply Z.div_le_lower_bound; lia).
      destruct (Z.leb_spec 0x1000 (4096 * (z / 4096))); [|lia]. destruct (Z.ltb_spec (4096 * (z / 4096)) e); [done|lia].
  - intros a x Ha. destruct (proj1 (bt_dom _ _ _ _ Hbt a)) as (i & j & t & Ht & Hj & ->); [by eexists|].
    pose proof (bd_entry _ _ _ _ _ Hb _ _ _ Ht Hj) as Hx. cbn [snd] in Hx. rewrite Hpte, Hx in Ha. injection Ha as <-. rewrite Z.shiftr_div_pow2 by lia. change (2 ^ 12) with 4096.
    assert (0 ≤ e / 4096) by (apply Z.div_pos; lia).
    unfold mapped_entry. destruct (Z.leb_spec 0x1000 (4096 * (i * 1024 + j))); [|cbn; lia].
    destruct (Z.ltb_spec (4096 * (i * 1024 + j)) e) as [Hlt|]; [|cbn; lia]. cbn.
    assert (i * 1024 + j ≤ e / 4096) by (apply Z.div_le_lower_bound; lia). rewrite KERNEL_HEAP_BEGIN_eq in *.
    rewrite Z.mod_small by lia. lia.
Qed.

(** room for [n] reference counts and every table *)
Definition count_limit A n : Z := A + get_aligned (4 * n) 12.
Lemma building_counts A da m d h p n q :
  building A da m d (h, p) → 0 ≤ n ≤ 2 ^ 20 → count_limit A n + 0x400000 ≤ KERNEL_HEAP_BEGIN → q = with_refs p (frame_ref_cnt q) (ref_lo q) (ref_len q) →
  building (count_limit A n) da m d (with_static_end h (kheap_static_end h + 4 * n), q).
Proof.
  intros Hb Hn Hl Hq. destruct (get_aligned_spec (4 * n) 12) as [Hg Hm]; [lia..|]. change (2 ^ 12) with 4096 in *.
  destruct Hb as [B1 B2 B3 B4 B5 B6 B7 B8 B9 B10 B11 B12]. cbn [fst snd] in *. unfold count_limit in *. rewrite Hq. split; cbn [fst snd]; try assumption.
  - split; [|lia]. unfold page_aligned in *. rewrite Z.add_mod, Hm by lia. destruct B2 as [-> _]. done.
  - cbn. lia.
  - intros i t Hi. destruct (B7 i t Hi) as (? & ? & ? & ?). cbn. split; [done|]. split; [done|]. lia.
Qed.

(** The heap and the tables when paging has been turned on. *)
Lemma booted_ok A da d h h' p q top n :
  let e := kheap_static_end h in let d' := dir_set_phyaddr (da + 4096) d in
  building A da (mapped_entry e) d (h, p) → 0x1000 ≤ e →
  (∀ i, is_Some (tables d !! i) → 959 ≤ i < 1023 ∨ ∃ z, 0x1000 ≤ z < e ∧ i = tb_idx z) →
  (∀ z, in_heap_range z → is_Some (tables d !! tb_idx z)) → (∀ z, 0x1000 ≤ z < e → is_Some (tables d !! tb_idx z)) →
  pte q = pte p → dirs q = {[da := d']} → current_page_dir q = da → kernel_low_ntable q = low_tables e →
  empty_page0_ptr q = 0 → empty_page1_ptr q = 0 → frames_down top n q → n ≤ frames_len q → top < 2 ^ 20 →
  Z.shiftr e 12 ≤ top - n → ref_lo q ≤ top + 1 - n → top < ref_lo q + ref_len q →
  heap_trees h' [whole_heap] → kheap_finish_init_called h' = true →
  built e da d' q ∧ kheap_ok (down_set top n) (h', q) [whole_heap] [] ∧ maps_kernel (table_of d') e q.
Proof.
  intros e d' Hb He Hsl Hheap Hlow Hpte Hd Hc Hl E0 E1 Hdn Hlen Htop Hend Hr1 Hr2 Ht Hf.
  assert (Hbt : built e da d' q) by exact (building_built A da d h p q Hb He Hsl Hheap Hpte Hd Hc Hl).
  destruct (built_entries A da d h p q Hb Hpte E0 E1 Hlow Hbt) as (Hz & Hmap & Haddr). fold e d' in Hmap, Haddr.
  split; [exact Hbt|]. split; [|exact Hmap].
  assert (H1 : 1 ≤ Z.shiftr e 12).
  { rewrite Z.shiftr_div_pow2 by lia. change (2 ^ 12) with 4096. apply Z.div_le_lower_bound; lia. }
  assert (Hfr : frames_ok (down_set top n) (down_list top n) q).
  { apply (built_frames e da d' q Hbt top n Hdn); [lia|lia|lia|lia|lia|]. intros a x Ha. destruct (Haddr a x Ha). lia. }
  split; cbn [fst snd].
  - exact Hf.
  - exact (built_page_inv e da d' q Hbt _ _ Hfr Hz).
  - exact Ht.
  - exact whole_layout.
  - constructor.
  - intros z _ [Hr Hs]. destruct (built_heap_page _ _ _ _ Hbt z Hr) as (t & _ & Hp & Hpos). pose proof (tb_offset_range z).
    unfold scratch in Hs. rewrite E0, E1, Hp in Hs. unfold entry_ptr in Hs. lia.
Qed.

Lemma init_mapping_ok A da d h p top n :
  building A da (λ _, entry_zero) d (h, p) → heap_trees h [whole_heap] →
  tables_grow (λ k, 959 ≤ k < 1023) directory_zero d → (∀ z, in_heap_range z → is_Some (tables d !! tb_idx z)) →
  frames_down top n p → 0 < n ≤ frames_len p → top < 2 ^ 20 → 0 ≤ top + 1 - n → empty_page0_ptr p = 0 → empty_page1_ptr p = 0 →
  0x1000 ≤ kheap_static_end h → count_limit A n + 0x400000 ≤ KERNEL_HEAP_BEGIN → Z.shiftr (count_limit A n + 0x400000) 12 < top →
  wp init_mapping
    (λ _ s', ∃ e F K fr al, kheap_static_end h ≤ e ∧ e ≤ KERNEL_HEAP_BEGIN ∧ Z.shiftr e 12 < top ∧ space_state F K fr al no_hole s' ∧ maps_kernel K e s'.2 ∧
       F = down_set top (Z.min n (top - Z.shiftr e 12))) (λ _, False) (h, p).
Proof.
  intros Hb Ht Hg Hheap Hd Hn Htop Hlo0 E0 E1 He Hlim Hroom. unfold init_mapping. pose proof Hd as (Hd1 & Hd2 & Hd3).
  destruct (static_bound _ _ _ _ _ Hb) as [Hs HA]. cbn [fst] in Hs.
  assert (Hal : 0 ≤ get_aligned (4 * n) 12 ∧ 4 * n ≤ get_aligned (4 * n) 12) by (destruct (get_aligned_spec (4 * n) 12); lia).
  unfold count_limit in *. rewrite KERNEL_HEAP_BEGIN_eq in *.
  wp_step. apply wp_getp. wp_step. unfold top_frame at 1. wp_step. apply wp_getp. cbn [snd]. rewrite Hd1, Hd3 by lia. apply wp_ret.
  wp_step. rewrite Hd3 by lia. apply wp_ret. replace (top - 0 - (top - (n - 1)) + 1) with n by lia. rewrite (u32_small n) by lia.
  wp_step. eapply wp_of_run; [apply pre_kmalloc_run, (bd_flag _ _ _ _ _ Hb)|]. rewrite get_aligned_0, u32_small by lia.
  wp_step. apply wp_getp. wp_step. apply wp_putp. cbn [fst snd].
  set (h1 := with_static_end h (kheap_static_end h + 4 * n)). set (p1 := with_refs p ∅ (top - (n - 1)) n).
  assert (Hb1 : building (count_limit A n) da (λ _, entry_zero) d (h1, p1)).
  { eapply building_counts; [exact Hb|lia|unfold count_limit; rewrite KERNEL_HEAP_BEGIN_eq; lia|done]. }
  wp_step. eapply wp_mono; [apply (boot_map_kernel _ da _ 0x1000 _ d (h1, p1) Hb1)|].
  1: by vm_compute. 1: lia. 1: rewrite Z2Nat.id by lia; lia. 1: done.
  intros _ [h2 p2] (d2 & Hb2 & Hg2 & Hz2 & Hr2 & Hr3 & e' & Hr4). cbn [fst snd] in *.
  set (e := kheap_static_end h2) in *. injection Hr2 as R1 R2 R3 R4 R5 R6 R7 R8 R9.
  assert (Hee : kheap_static_end h ≤ e) by (cbn in Hr3; lia). destruct (static_bound _ _ _ _ _ Hb2) as [Hs2 _]. cbn [fst] in Hs2. fold e in Hs2.
  unfold count_limit in Hs2.
  assert (Htop' : Z.shiftr e 12 < top).
  { eapply Z.le_lt_trans; [|exact Hroom]. rewrite !Z.shiftr_div_pow2 by lia. apply Z.div_le_mono; lia. }
  wp_step. eapply wp_of_run; [reflexivity|]. cbn [fst snd]. wp_step. apply wp_getp. wp_step. apply wp_putp. cbn [fst snd].
  wp_step. apply wp_getp. cbn [fst snd]. fold e.
  change (Z.shiftr (u32 (e - 1)) 22 + 1) with (low_tables e). set (p3 := with_low_ntable p2 (low_tables e)).
  assert (Hd3' : frames_down top n p3) by (split; [cbn; congruence|split; [lia|intros k Hk; cbn; rewrite R1; by apply Hd3]]).
  wp_step. eapply wp_mono; [apply (drop_frames_ok _ top n h2 p3 Hd3' Htop'); [cbn; lia|lia]|].
  intros _ s4 ->. fold e. set (n' := Z.min n (top - Z.shiftr e 12)).
  wp_step. apply wp_getp. cbn [fst snd]. pose proof (bd_cur _ _ _ _ _ Hb2) as Hc. pose proof (bd_dirs _ _ _ _ _ Hb2) as Hdr. cbn [snd] in Hc, Hdr.
  assert (Hlk : dirs p2 !! da = Some d2) by (rewrite Hdr; apply lookup_singleton_eq).
  change (current_page_dir (with_frames _ _ _ _)) with (current_page_dir p2). rewrite Hc.
  destruct (bd_end _ _ _ _ _ Hb) as [Hda0 [Hda1 _]]. cbn [fst] in Hda1. unfold sizeof_Directory_t in Hda1. rewrite u32_small by lia.
  wp_step. eapply wp_upd_dir; [exact Hlk|]. cbn [fst snd].
  wp_step. unfold enable. wp_step. eapply wp_rd_dir; [cbn; apply lookup_insert_eq|]. wp_step. apply wp_getp. apply wp_putp. cbn [fst snd].
  wp_step. apply wp_getp. wp_step. apply wp_putp. cbn [fst snd].
  wp_step. unfold kheap_finish_init. wp_step. apply wp_get. cbn [fst snd].
  wp_step. apply wp_put. cbn [log_info kernel_env page_env]. unfold Klog_log. wp_step. apply wp_getp. apply wp_putp. cbn [fst snd].
  wp_step. apply wp_ret.
  match goal with |- wp _ _ _ (?h', ?q') => set (h3 := h'); set (q := q') end.
  set (d3 := dir_set_phyaddr (da + 4096) d2).
  assert (Hdq : dirs q = {[da := d3]}) by (cbn; rewrite Hdr; apply insert_singleton_eq).
  assert (Hn' : n' ≤ n ∧ 0 < n' ∧ Z.shiftr e 12 ≤ top - n') by lia.
  destruct (booted_ok (count_limit A n) da d2 h2 h3 p2 q top n') as (Hbt & Hk & Hmap).
  - exact Hb2.
  - lia.
  - intros i Hi. destruct (tables_grow_inv _ _ _ i Hg2 Hi) as [Hi1|Hi1]; [left|right; exact Hi1].
    destruct (tables_grow_inv _ _ _ i Hg Hi1) as [[t Ht0]|Hi2]; [discriminate Ht0|exact Hi2].
  - intros z Hz. destruct (Hheap z Hz) as [t Hzt]. exists t. by eapply tables_grow_some.
  - exact Hz2.
  - reflexivity.
  - exact Hdq.
  - reflexivity.
  - reflexivity.
  - exact (eq_trans R7 E0).
  - exact (eq_trans R8 E1).
  - destruct Hd3' as (_ & _ & Hk3). split; [reflexivity|]. split; [lia|]. intros k Hk. apply Hk3. lia.
  - change (frames_len q) with (frames_len p2). rewrite R2. lia.
  - exact Htop.
  - exact (proj2 (proj2 Hn')).
  - change (ref_lo q) with (ref_lo p2). lia.
  - change (ref_lo q) with (ref_lo p2). change (ref_len q) with (ref_len p2). lia.
  - eapply heap_trees_same; [|exact Ht]. unfold h3; rewrite Hr4; reflexivity.
  - reflexivity.
  - fold e d3 in Hbt, Hmap.
    eapply wp_mono; [apply (init_scratch_ok (down_set top n') e da d3 h3 q e Hbt Hk)|].
    + exact (eq_trans R7 E0).
    + exact (eq_trans R8 E1).
    + reflexivity.
    + exact (proj1 (proj2 Hn')).
    + exact Hmap.
    + intros _ s' (fr & al & Hss & Hm'). exists e, (down_set top n'), (table_of d3), fr, al.
      split; [exact Hee|]. split; [fold e; lia|]. split; [exact Htop'|]. split; [exact Hss|]. split; [exact Hm'|]. reflexivity.
Qed.

(** * The steps of [Page::init] *)
Section Run.
Context (boot : boot_memory) (mbd : Multiboot_info_t).
#[local] Existing Instance kernel_env.

Definition same_tables p q : Prop :=
  pte q = pte p ∧ dirs q = dirs p ∧ current_page_dir q = current_page_dir p ∧ init_finished q = init_finished p ∧
  empty_page0_ptr q = empty_page0_ptr p ∧ empty_page1_ptr q = empty_page1_ptr p.
Lemma only_frames_tables p q : only_frames p q → same_tables p q ∧ frames_len q = frames_len p.
Proof. unfold only_frames. intros ->. done. Qed.

(** the static heap's end behind the first module *)
Definition first_module : Z := u32 (boot_word boot (u32 (mb_mods_addr mbd + 4)) + 4).
Definition preserved h : Z :=
  if mb_mods_count mbd =? 0 then kheap_static_end h else cmax first_module (kheap_static_end h).

(** What the boot loader and the linker provide: a memory map with one region
    of available memory behind the kernel's image, with room for the tables of
    [Page::init]; every other one ends below the static heap's end. *)
Record bootable (l1 : list Multiboot_mmap_entry_t) (r : Multiboot_mmap_entry_t) (l2 : list Multiboot_mmap_entry_t) (s : kstate) : Prop := {
  bo_flags : Z.land (mb_flags mbd) MULTIBOOT_INFO_MEM_MAP ≠ 0;
  bo_flag : kheap_finish_init_called s.1 = false;
  bo_mm : mm s.1 = tree_mm_start;
  bo_dirs : dirs s.2 = ∅;
  bo_pte : pte s.2 = ∅;
  bo_init : init_finished s.2 = false;
  bo_empty : empty_page0_ptr s.2 = 0 ∧ empty_page1_ptr s.2 = 0;
  bo_addr : 0 ≤ mb_mmap_addr mbd ∧ 0 ≤ mb_mmap_length mbd ∧ mb_mmap_addr mbd + mb_mmap_length mbd < 2 ^ 32;
  bo_list : mmap_list boot mbd (mb_mmap_addr mbd) (l1 ++ r :: l2);
  bo_memory : Forall in_memory (l1 ++ r :: l2);
  bo_high : available r ∧ mm_addr r ≤ preserved s.1 ∧ preserved s.1 + 0xD00000 ≤ region_end r;
  bo_low : Forall (low_region (preserved s.1)) (l1 ++ l2);
  bo_end : 0x1000 ≤ preserved s.1 ∧ preserved s.1 + 0xD00000 ≤ KERNEL_HEAP_BEGIN
}.

Definition frame_count (r : Multiboot_mmap_entry_t) : Z := Z.shiftr (region_end r) 12.
Lemma frame_count_range r : available r → in_memory r → 0 ≤ frame_count r < 2 ^ 20.
Proof.
  intros Hav Hm. destruct (Hm Hav) as (H1 & H2 & H3). unfold frame_count, region_end in *. rewrite Z.shiftr_div_pow2 by lia.
  change (2 ^ 12) with 4096. split; [apply Z.div_pos; lia|apply Z.div_lt_upper_bound; lia].
Qed.
Lemma init_frames_ok l1 r l2 s h p :
  bootable l1 r l2 s → kheap_finish_init_called h = false →
  preserved s.1 ≤ kheap_static_end h ≤ preserved s.1 + 0x4000 →
  wp (init_frames boot mbd)
    (λ _ s', ∃ q, let e := kheap_static_end h + 4 * frame_count r in
       s' = (with_static_end h e, q) ∧ same_tables p q ∧ frames_len q = frame_count r ∧
       frames_down (region_top r) (region_top r + 1 - region_lo e r) q) (λ _, False) (h, p).
Proof.
  intros Hbo Hf Hend. pose proof (bo_addr _ _ _ _ Hbo) as (A1 & A2 & A3). pose proof (bo_high _ _ _ _ Hbo) as (Hav & Hr1 & Hr2).
  pose proof (bo_end _ _ _ _ Hbo) as (He1 & He2). pose proof (bo_memory _ _ _ _ Hbo) as Hmem. pose proof (bo_low _ _ _ _ Hbo) as Hlow.
  assert (Hmr : in_memory r) by (rewrite Forall_forall in Hmem; apply Hmem; set_solver).
  pose proof (frame_count_range r Hav Hmr) as Hfc. destruct (Hmr Hav) as (M1 & M2 & M3). rewrite KERNEL_HEAP_BEGIN_eq in *.
  unfold init_frames. wp_step.
  eapply wp_mono; [apply (mmap_memsize_ok boot mbd _ _ _ _ h p (bo_list _ _ _ _ Hbo)); [by apply walks_start|done|lia]|].
  intros m s1 (-> & k & ->). assert (Hms : memsize_of (l1 ++ r :: l2) 0 = region_end r).
  { apply memsize_max; [unfold region_end in *; lia| |right; exists r; set_solver].
    intros e' He' Hav'. assert (e' = r ∨ e' ∈ l1 ++ l2) as [->|Hin] by set_solver; [lia|].
    rewrite Forall_forall in Hlow. destruct (Hlow e' Hin Hav'). lia. }
  rewrite Hms. fold (frame_count r). wp_step. eapply wp_of_run; [apply pre_kmalloc_run, Hf|].
  rewrite get_aligned_0 by lia. rewrite u32_small by lia. set (e := kheap_static_end h + 4 * frame_count r).
  wp_step. apply wp_getp. wp_step. apply wp_putp. cbn [fst snd]. set (p1 := with_frames _ _ _ _).
  assert (Hlo : region_lo e r ≤ region_top r).
  { unfold region_lo, region_start, region_top, e, frame_count in *. rewrite !Z.shiftr_div_pow2 in * by lia. change (2 ^ 12) with 4096 in *.
    apply Z.max_lub.
    - destruct (Z.eqb_spec (mm_addr r) 0); [|].
      + assert (2 ≤ region_end r / 4096) by (apply Z.div_le_lower_bound; lia). lia.
      + assert ((mm_addr r - 1) / 4096 + 3 ≤ region_end r / 4096); [|lia]. apply Z.div_le_lower_bound; [lia|].
        pose proof (Z.mul_div_le (mm_addr r - 1) 4096 ltac:(lia)). lia.
    - assert ((kheap_static_end h + 4 * (region_end r / 4096)) / 4096 + 3 ≤ region_end r / 4096); [|lia].
      apply Z.div_le_lower_bound; [lia|]. pose proof (Z.mul_div_le (kheap_static_end h + 4 * (region_end r / 4096)) 4096 ltac:(lia)). lia. }
  eapply wp_mono; [apply (mmap_frames_ok boot mbd _ l1 r l2 (with_static_end h e) p1)|].
  - exact (bo_list _ _ _ _ Hbo).
  - by apply walks_start.
  - done.
  - eapply Forall_impl; [exact Hlow|]. intros e' Hl Hav'. destruct (Hl Hav'). cbn. lia.
  - done.
  - cbn. lia.
  - exact Hlo.
  - cbn. unfold frame_count. lia.
  - done.
  - intros _ s' (q & -> & Ho & Hd). destruct (only_frames_tables _ _ Ho) as [Ht Hlen]. exists q. split; [done|]. split; [exact Ht|].
    split; [exact Hlen|exact Hd].
Qed.

(** ** The heap's trees and tables *)
Lemma kheap_init_ok A da d h p nil_size nil_start :
  building A da (λ _, entry_zero) d (h, p) → mm h = tree_mm_start →
  wp (kheap_init nil_size nil_start)
    (λ _ s', ∃ d', building A da (λ _, entry_zero) d' s' ∧ heap_trees s'.1 [whole_heap] ∧
       tables_grow (λ k, 959 ≤ k < 1023) d d' ∧ (∀ z, in_heap_range z → is_Some (tables d' !! tb_idx z)) ∧
       frame_fields s'.2 = frame_fields p ∧ kheap_static_end h ≤ kheap_static_end s'.1) (λ _, False) (h, p).
Proof.
  intros Hb Hmm. unfold kheap_init. apply construct_trees_ok; [done|]. intros h1 Ho Ht. injection Ho as Hfl Hse _ _.
  set (n := Z.to_nat ((KERNEL_HEAP_END - KERNEL_HEAP_BEGIN) / 0x1000)).
  assert (Hn : KERNEL_HEAP_BEGIN + 4096 * Z.of_nat n = KERNEL_HEAP_END).
  { unfold n. rewrite Z2Nat.id by (by vm_compute). by vm_compute. }
  assert (Hb1 : building A da (λ _, entry_zero) d (h1, p)).
  { destruct Hb as [B1 B2 B3 B4 B5 B6 B7 B8 B9 B10 B11 B12]. split; cbn [fst snd] in *; try assumption; [by rewrite Hfl|by rewrite Hse|by rewrite Hse]. }
  clearbody n. assert (Hlt : KERNEL_HEAP_BEGIN + 4096 * Z.of_nat n < 2 ^ 32) by (rewrite Hn; by vm_compute).
  eapply wp_mono; [apply (boot_get_pages A da n KERNEL_HEAP_BEGIN _ d (h1, p) Hb1); [by vm_compute|by vm_compute|exact Hlt]|].
  intros _ s' (d' & Hb' & Hg & Hz & Hr1 & Hr2 & e & Hr3). rewrite Hn in *. cbn [fst snd] in *. exists d'. split; [done|]. split.
  { eapply heap_trees_same; [|exact Ht]. by rewrite Hr3. }
  split; [eapply tables_grow_weaken; [|exact Hg]; intros k (z & Hzr & ->); by apply tb_idx_heap|].
  split; [intros z Hzr; by apply Hz|]. split; [done|]. rewrite Hse in Hr2. exact Hr2.
Qed.

(** ** The whole of [Page::init] *)
(** the first frames of a region, with the static heap below [e] left out *)
Lemma region_frames e e' r n top :
  e ≤ e' → top = region_top r → n = top + 1 - region_lo e r →
  0 ≤ n → Z.shiftr e' 12 < top → ∀ f, f ∈ down_set top (Z.min n (top - Z.shiftr e' 12)) ↔ region_lo e' r ≤ f ≤ top.
Proof.
  intros He -> -> Hn Ht f. rewrite elem_of_down_set by lia. unfold region_lo in *.
  assert (Z.shiftr e 12 ≤ Z.shiftr e' 12) by (rewrite !Z.shiftr_div_pow2 by lia; apply Z.div_le_mono; lia). lia.
Qed.
Lemma region_frame_memory e r f :
  available r → in_memory r → 0 ≤ e → region_lo e r ≤ f ≤ region_top r →
  mm_addr r ≤ 4096 * f ∧ e ≤ 4096 * f ∧ 4096 * f + 4096 ≤ region_end r.
Proof.
  intros Hav Hm He Hf. destruct (Hm Hav) as (M1 & M2 & M3). unfold region_lo, region_start, region_top in Hf.
  rewrite !Z.shiftr_div_pow2 in Hf by lia. change (2 ^ 12) with 4096 in Hf.
  pose proof (Z.div_mod e 4096 ltac:(lia)). pose proof (Z.mod_pos_bound e 4096 ltac:(lia)).
  pose proof (Z.div_mod (mm_addr r - 1) 4096 ltac:(lia)). pose proof (Z.mod_pos_bound (mm_addr r - 1) 4096 ltac:(lia)).
  pose proof (Z.div_mod (region_end r) 4096 ltac:(lia)). pose proof (Z.mod_pos_bound (region_end r) 4096 ltac:(lia)).
  destruct (Z.eqb_spec (mm_addr r) 0); lia.
Qed.
Lemma preserve_run (s : kstate) :
  (if mb_mods_count mbd =? 0 then mret tt else kheap_preserve_mem first_module) s =
    Ret (tt, (with_static_end s.1 (preserved s.1), s.2)).
Proof.
  destruct s as [[]]. unfold preserved, kheap_preserve_mem, get, mbind, M_bind, cmax. cbn [fst snd].
  destruct (mb_mods_count mbd =? 0); [done|]. cbn. by destruct (_ <? _).
Qed.

(** The arithmetic of the static heap: the directory, one word for each frame,
    one count for each free one, and the tables fit below [preserved + 0xD00000]. *)
Lemma boot_room l1 r l2 s (e0 : Z) (da := get_aligned (preserved s.1) 12) (e1 := e0 + 4 * frame_count r) (A := get_aligned e1 12)
    (n := region_top r + 1 - region_lo e1 r) :
  bootable l1 r l2 s → e0 = da + sizeof_Directory_t →
  preserved s.1 ≤ da ∧ page_aligned da ∧ e0 ≤ preserved s.1 + 0x4000 ∧ page_aligned A ∧ e1 ≤ A ∧ 0 < n ≤ frame_count r ∧
  region_top r < 2 ^ 20 ∧ 0 ≤ region_top r + 1 - n ∧ count_limit A n + 0x400000 ≤ preserved s.1 + 0xD00000 ∧
  A + 0x400000 ≤ preserved s.1 + 0xD00000 ∧ Z.shiftr (count_limit A n + 0x400000) 12 < region_top r.
Proof.
  intros Hbo He0. destruct (bo_high _ _ _ _ Hbo) as (Hav & Hr1 & Hr2). destruct (bo_end _ _ _ _ Hbo) as [He1 He2].
  pose proof (bo_memory _ _ _ _ Hbo) as Hmem. assert (Hmr : in_memory r) by (rewrite Forall_forall in Hmem; apply Hmem; set_solver).
  pose proof (frame_count_range r Hav Hmr) as Hfc. destruct (Hmr Hav) as (M1 & M2 & M3). rewrite KERNEL_HEAP_BEGIN_eq in *.
  unfold sizeof_Directory_t in *. destruct (get_aligned_spec (preserved s.1) 12) as [G1 G2]; [lia..|]. fold da in G1, G2.
  destruct (get_aligned_spec e1 12) as [G3 G4]; [unfold e1; lia..|]. fold A in G3, G4. change (2 ^ 12) with 4096 in *.
  assert (Hlo : Z.shiftr e1 12 + 1 ≤ region_lo e1 r) by (unfold region_lo; lia).
  assert (Htop : region_lo e1 r ≤ region_top r ∧ 0 ≤ region_lo e1 r).
  { unfold region_lo, region_start, region_top. rewrite !Z.shiftr_div_pow2 by lia. change (2 ^ 12) with 4096.
    assert (e1 / 4096 ≤ region_end r / 4096 - 3).
    { replace (region_end r / 4096 - 3) with ((region_end r + -3 * 4096) / 4096) by (rewrite Z.div_add by lia; lia). apply Z.div_le_mono; unfold e1; lia. }
    assert ((mm_addr r - 1) / 4096 ≤ e1 / 4096) by (apply Z.div_le_mono; unfold e1; lia).
    assert (0 ≤ e1 / 4096) by (apply Z.div_pos; unfold e1; lia).
    destruct (Z.eqb_spec (mm_addr r) 0); lia. }
  assert (Hrt : region_top r = frame_count r - 2) by done.
  assert (Hn : 0 < n ≤ frame_count r) by lia.
  destruct (get_aligned_spec (4 * n) 12) as [G5 G6]; [lia..|]. change (2 ^ 12) with 4096 in *.
  assert (Hlim : count_limit A n + 0x400000 ≤ preserved s.1 + 0xC07000) by (unfold count_limit, e1 in *; lia).
  repeat split; try lia; try assumption.
  rewrite Hrt. unfold frame_count. rewrite !Z.shiftr_div_pow2 by lia. change (2 ^ 12) with 4096.
  assert ((count_limit A n + 0x400000) / 4096 ≤ region_end r / 4096 - 3); [|lia].
  replace (region_end r / 4096 - 3) with ((region_end r + -3 * 4096) / 4096) by (rewrite Z.div_add by lia; lia). apply Z.div_le_mono; lia.
Qed.

(** The first tables: none. *)
Lemma building_start A da e h (p : paging) :
  page_aligned A → A + 0x400000 ≤ KERNEL_HEAP_BEGIN → 0 < da → da + sizeof_Directory_t ≤ e ≤ A →
  kheap_finish_init_called h = false → dirs p = {[da := directory_zero]} → current_page_dir p = da → init_finished p = false → pte p = ∅ →
  building A da (λ _, entry_zero) directory_zero (with_static_end h e, p).
Proof.
  intros HA Hl Hda He Hf Hd Hc Hi Hp. split; cbn [fst snd]; try done.
  - cbn. lia.
  - intros a [x Ha]. by rewrite Hp, lookup_empty in Ha.
Qed.

(** [Page::init] establishes the invariant of heap and address spaces: the
    kernel's pages below the end [e] of the static heap are mapped where they
    are, and the free frames are the region's whole frames above [e], but for
    its last one. *)
Lemma page_init_ok l1 r l2 s nil_size nil_start :
  bootable l1 r l2 s →
  wp (page_init (mret tt) boot mbd nil_size nil_start)
    (λ _ s', ∃ e F K fr al, preserved s.1 ≤ e ∧ e ≤ KERNEL_HEAP_BEGIN ∧ (∀ f, f ∈ F ↔ region_lo e r ≤ f ≤ region_top r) ∧
       space_state F K fr al no_hole s' ∧ maps_kernel K e s'.2) (λ _, False) s.
Proof.
  intros Hbo. set (da := get_aligned (preserved s.1) 12). set (e0 := da + sizeof_Directory_t).
  destruct (boot_room l1 r l2 s e0 Hbo eq_refl) as (Hda & Hal & He0 & HA & HeA & Hn & Htop & Hlo & Hlim & HlA & Hroom). fold da in Hda, Hal.
  set (e1 := e0 + 4 * frame_count r) in *. set (A := get_aligned e1 12) in *. set (n := region_top r + 1 - region_lo e1 r) in *.
  destruct (bo_end _ _ _ _ Hbo) as [Hp1 Hp2]. assert (Hfc : 0 ≤ frame_count r) by lia.
  assert (Hde : e0 = da + 8196) by reflexivity. assert (He1 : e1 = e0 + 4 * frame_count r) by reflexivity.
  unfold page_init.
  wp_step. destruct (Z.eqb_spec (Z.land (mb_flags mbd) MULTIBOOT_INFO_MEM_MAP) 0) as [Hfl|_]; [by destruct (bo_flags _ _ _ _ Hbo)|]. apply wp_ret.
  wp_step. eapply wp_of_run; [apply (preserve_run s)|].
  wp_step. eapply wp_of_run; [apply pre_kmalloc_run; exact (bo_flag _ _ _ _ Hbo)|]. cbn [fst snd].
  change (kheap_static_end (with_static_end s.1 (preserved s.1))) with (preserved s.1). fold da. fold e0.
  rewrite (u32_small e0) by (rewrite KERNEL_HEAP_BEGIN_eq in *; lia).
  wp_step. apply wp_getp. wp_step. apply wp_putp. cbn [fst snd]. rewrite (bo_dirs _ _ _ _ Hbo), insert_empty.
  set (h0 := with_static_end _ e0). set (p0 := with_current _ _ _).
  wp_step. eapply wp_mono; [apply (init_frames_ok l1 r l2 s h0 p0 Hbo); [exact (bo_flag _ _ _ _ Hbo)|cbn; lia]|].
  intros _ s1 (q & -> & (Q1 & Q2 & Q3 & Q4 & Q5 & Q6) & Hlen & Hfr). change (kheap_static_end h0) with e0 in *. fold e1 in Hfr |- *. fold n in Hfr.
  assert (Hb : building A da (λ _, entry_zero) directory_zero (with_static_end h0 e1, q)).
  { destruct (bo_empty _ _ _ _ Hbo). apply building_start; [exact HA|lia|lia|unfold sizeof_Directory_t; lia|exact (bo_flag _ _ _ _ Hbo)|..].
    - by rewrite Q2.
    - by rewrite Q3.
    - rewrite Q4. exact (bo_init _ _ _ _ Hbo).
    - rewrite Q1. exact (bo_pte _ _ _ _ Hbo). }
  wp_step. eapply wp_mono; [apply (kheap_init_ok A da _ _ q nil_size nil_start Hb); exact (bo_mm _ _ _ _ Hbo)|].
  intros _ [h2 p2] (d & Hb2 & Ht & Hg & Hheap & Hff & Hmono). cbn [fst snd] in *. change (kheap_static_end (with_static_end h0 e1)) with e1 in Hmono.
  injection Hff as R1 R2 R3 R4 R5 R6 R7 R8 R9.
  assert (Hfr2 : frames_down (region_top r) n p2).
  { destruct Hfr as (F1 & F2 & F3). split; [congruence|]. split; [done|]. intros k Hk. rewrite R1. by apply F3. }
  eapply wp_mono; [apply (init_mapping_ok A da d h2 p2 (region_top r) n Hb2 Ht Hg Hheap Hfr2)|].
  - rewrite R2, Hlen. lia.
  - exact Htop.
  - exact Hlo.
  - rewrite R7, Q5. exact (proj1 (bo_empty _ _ _ _ Hbo)).
  - rewrite R8, Q6. exact (proj2 (bo_empty _ _ _ _ Hbo)).
  - lia.
  - lia.
  - exact Hroom.
  - intros _ s' (e & F & K & fr & al & He & Hle & Het & Hss & Hmap & ->).
    exists e, (down_set (region_top r) (Z.min n (region_top r - Z.shiftr e 12))), K, fr, al. split; [lia|]. split; [lia|].
    split; [|split; [exact Hss|exact Hmap]]. apply (region_frames e1 e); [lia|reflexivity|reflexivity|lia|exact Het].
Qed.

(** the pages from [lo] to [hi] are where the processor finds them without
    paging, present, writable and the kernel's own *)
Definition mapped_1to1 lo hi (p : paging) : Prop :=
  ∀ z, lo ≤ z < hi → pte p !! page_of p z = Some (ident (z / 4096)).
Lemma maps_1to1 F K fr al e (s : kstate) :
  space_state F K fr al no_hole s → maps_kernel K e s.2 → e ≤ 2 ^ 32 → mapped_1to1 0x1000 e s.2.
Proof.
  intros Hss Hmap He z Hz. destruct (Hmap z Hz) as (M1 & _ & _ & M4). destruct (sp_cur_dir _ _ _ _ _ _ Hss) as [d Hd].
  pose proof (tb_idx_range z ltac:(lia)) as Hr. pose proof (sp_space _ _ _ _ _ _ Hss) as Hs.
  unfold page_of. rewrite Hd. rewrite (sl_kernel _ _ _ _ _ (sp_slot _ _ _ _ _ Hs _ _ _ Hd Hr id)); [exact M4|].
  left. lia.
Qed.

(** What the kernel has once [Page::init] is done. *)
Definition booted r (limit isp esp : Z) (s' : kstate) : Prop :=
  ∃ e F, limit ≤ e ≤ KERNEL_HEAP_BEGIN ∧ (∀ f, f ∈ F ↔ region_lo e r ≤ f ≤ region_top r) ∧
    mapped_1to1 0x1000 e s'.2 ∧ kernel_ok F isp esp s' ∅.
Lemma page_init_booted l1 r l2 s nil_size nil_start isp esp :
  bootable l1 r l2 s → 0x1000 ≤ esp → isp ≤ preserved s.1 →
  wp (page_init (mret tt) boot mbd nil_size nil_start) (λ _ s', booted r (preserved s.1) isp esp s') (λ _, False) s.
Proof.
  intros Hbo Hesp Hisp. eapply wp_mono; [exact (page_init_ok l1 r l2 s nil_size nil_start Hbo)|].
  intros _ s' (e & F & K & fr & al & He & Hle & HF & Hss & Hmap). exists e, F. split; [split; [exact He|exact Hle]|]. split; [exact HF|]. split.
  - apply (maps_1to1 F K fr al e s' Hss Hmap). rewrite KERNEL_HEAP_BEGIN_eq in *. lia.
  - exists K, fr, al. split; [exact Hss|]. split.
    + intros z Hz. destruct (Hmap z ltac:(lia)) as (M1 & M2 & M3 & M4). split; [exact M1|]. split; [exact M2|]. split; [exact M3|].
      exists (ident (z / 4096)). split; [exact M4|reflexivity].
    + intros a Ha. by apply elem_of_empty in Ha.
Qed.

(** C4: [Page::init], from what the boot loader leaves — a memory map with one
    region of available memory behind the kernel's image — always returns, with
    heap and address spaces in order: the allocator's frames are exactly the
    whole frames of that region above the static heap (but its last), the
    kernel's pages are mapped where they are, and the boot stack is mapped. *)
Theorem page_init_correct l1 r l2 s nil_size nil_start isp esp :
  bootable l1 r l2 s → 0x1000 ≤ esp → isp ≤ preserved s.1 →
  ∃ s' e F, page_init (mret tt) boot mbd nil_size nil_start s = Ret (tt, s') ∧
    preserved s.1 ≤ e ≤ KERNEL_HEAP_BEGIN ∧ (∀ f, f ∈ F ↔ region_lo e r ≤ f ≤ region_top r) ∧
    (∀ f, f ∈ F → mm_addr r ≤ 4096 * f ∧ e ≤ 4096 * f ∧ 4096 * f + 4096 ≤ region_end r) ∧
    mapped_1to1 0x1000 e s'.2 ∧ kernel_ok F isp esp s' ∅.
Proof.
  intros Hbo Hesp Hisp.
  destruct (wp_returns _ _ _ (page_init_booted l1 r l2 s nil_size nil_start isp esp Hbo Hesp Hisp)) as ([] & s' & Hrun & e & F & He & HF & Hm & Hk).
  exists s', e, F. split; [exact Hrun|]. split; [exact He|]. split; [exact HF|]. split; [|by split].
  intros f Hf%HF. destruct (bo_end _ _ _ _ Hbo), (bo_high _ _ _ _ Hbo) as (Hav & _).
  apply region_frame_memory; [exact Hav| |lia|exact Hf].
  pose proof (bo_memory _ _ _ _ Hbo) as Hmem. rewrite Forall_forall in Hmem. apply Hmem. set_solver.
Qed.
End Run.
End PageBoot.
