(* ===== verification/SpaceDemo.v ===== *)
(** The address space of the concrete machine, and the properties of the clone
    and of the tasks there. *)
From S2P Require Import Prelude Rbt RbTree RbtFind TreeMm Common Kheap KheapTrees Demo KheapSpec KheapOk.
From S2P Require Import Page PageInit PageOk PageFrames PageHeap PageCow KernelHeap Machine Quiet Space SpaceOps BootStack CloneProps.
From S2P Require Import Errno Sigset Task TaskQueue TaskOk TaskOps TaskProps TaskDemo KernelEnv KernelTasks.

Definition demo_K : Z → Z := table_of demo_dir.

Lemma demo_slot_tables i : 0 ≤ i < 1024 → i ∉ demo_slots → table_of demo_dir i = 0.
Proof.
  intros Hr Hi. unfold table_of, demo_dir. cbn [tables]. rewrite not_elem_of_list_to_map_1; [done|].
  intros (x & -> & Hx)%list_elem_of_fmap. apply list_elem_of_fmap in Hx as (j & -> & Hj). done.
Qed.
Lemma demo_slots_spec i : i ∈ demo_slots ↔ i = 0 ∨ 959 ≤ i < 1023.
Proof. unfold demo_slots. rewrite elem_of_cons, elem_of_upto. done. Qed.
Lemma demo_walks i : i ∈ demo_slots → walk_ok demo_paging (table_of demo_dir i) (dir_entry_of demo_dir i).
Proof.
  assert (Hall : Forall (λ i, table_of demo_dir i < KERNEL_HEAP_BEGIN ∧ d_present (dir_entry_of demo_dir i) = 1 ∧
    d_rw (dir_entry_of demo_dir i) = 1 ∧ d_user (dir_entry_of demo_dir i) = 1 ∧
    Z.shiftl (d_addr (dir_entry_of demo_dir i)) 12 = table_of demo_dir i) demo_slots).
  { apply (bool_decide_unpack (Forall _ demo_slots)). by vm_compute. }
  rewrite Forall_forall in Hall. intros Hi. destruct (Hall i Hi) as (H1 & H2 & H3 & H4 & H5).
  split; [exact H2|]. split; [exact H3|]. split; [exact H4|]. right. rewrite H5. split; [|done].
  unfold in_heap_range. lia.
Qed.
Lemma demo_low_tables i : i ∈ demo_slots → table_of demo_dir i + 4096 ≤ KERNEL_HEAP_BEGIN.
Proof.
  assert (Hall : Forall (λ i, table_of demo_dir i + 4096 ≤ KERNEL_HEAP_BEGIN) demo_slots).
  { apply (bool_decide_unpack (Forall _ demo_slots)). by vm_compute. }
  rewrite Forall_forall in Hall. apply Hall.
Qed.
Lemma empty_entries_key n a b e : empty_entries n a !! b = Some e → ∃ k, 0 ≤ k < Z.of_nat n ∧ b = a + 4 * k.
Proof.
  revert a; induction n as [|n IH]; intros a; simpl; [by rewrite lookup_empty|].
  intros [[<- _]|[_ (k & Hk & ->)%IH]]%lookup_insert_Some; [exists 0; lia|exists (k + 1); lia].
Qed.
#[local] Opaque demo_count.
Lemma demo_pte_key a : is_Some (demo_pte !! a) → 0 ≤ a < 0x240000 ∧ a mod 4 = 0.
Proof.
  intros [e He]. apply with_scratch_lookup in He as [[-> _]|[[-> _]|He]]; [by split|by split|].
  unfold demo_tables in He. apply lookup_insert_Some in He as [[<- _]|[_ He]]; [by split|].
  apply empty_entries_key in He as (k & Hk & ->). rewrite demo_count_eq in Hk. split; [lia|].
  replace (0x200000 + 4 * k) with ((k + 0x80000) * 4) by lia. apply Z.mod_mul. lia.
Qed.
Lemma not_in_whole a : a < KERNEL_HEAP_BEGIN → ¬ in_blocks a [whole_heap].
Proof. intros Ha (b & ->%list_elem_of_singleton & Hz). unfold in_block, whole_heap in Hz. cbn [start] in Hz. lia. Qed.

Lemma demo_dirs a d : dirs demo_paging !! a = Some d → a = 0x148000 ∧ d = demo_dir.
Proof. unfold demo_paging. cbn [dirs]. rewrite lookup_singleton_Some. by intros [<- <-]. Qed.
Lemma demo_kernel_index i : kernel_index demo_paging i ↔ i ∈ demo_slots.
Proof. rewrite demo_slots_spec. unfold kernel_index. change (kernel_low_ntable demo_paging) with 1. lia. Qed.
Lemma demo_user_index i : user_index demo_paging i → 0 ≤ i < 1024 ∧ table_of demo_dir i = 0.
Proof.
  intros Hi. unfold user_index in Hi. change (kernel_low_ntable demo_paging) with 1 in Hi.
  split; [lia|]. apply demo_slot_tables; [lia|]. rewrite demo_slots_spec. lia.
Qed.

Lemma demo_space : space demo_F demo_K [whole_heap] no_hole demo_paging.
Proof.
  split.
  - done.
  - done.
  - split; [|split; [|done]]; eexists; (apply lookup_insert_eq || (etrans; [apply lookup_insert_ne; done|apply lookup_insert_eq])).
  - intros a [->| ->]; exact eq_refl.
  - intros i Hi%demo_kernel_index. by apply demo_low_tables.
  - intros a Ha. apply demo_pte_key in Ha as [Ha Hm]. split; [lia|]. split; [exact Hm|]. apply not_in_whole.
    rewrite KERNEL_HEAP_BEGIN_eq. lia.
  - intros a d z [-> ->]%demo_dirs Hz. apply not_in_whole. rewrite KERNEL_HEAP_BEGIN_eq. unfold sizeof_Directory_t in Hz. lia.
  - intros a d [-> ->]%demo_dirs. right. split; [|done]. unfold in_heap_range. rewrite KERNEL_HEAP_BEGIN_eq. lia.
  - intros a d i [-> ->]%demo_dirs Hi _. split.
    + done.
    + intros [_ Hu]%demo_user_index. by left.
    + intros H0. apply demo_walks. destruct (decide (i ∈ demo_slots)) as [|Hn]; [done|]. by rewrite demo_slot_tables in H0.
  - intros a d i b d' j [-> ->]%demo_dirs [-> ->]%demo_dirs Hi%demo_user_index _ _ _ H0 _. destruct Hi. done.
  - intros i _ Hf. exact Hf.
Qed.
Lemma demo_machine_pages : demo_machine.2 = demo_paging.
Proof.
  destruct (wp_returns _ _ _ (heap_boot_ok demo_kheap_boot demo_paging (λ _, False) eq_refl)) as ([] & s' & Hrun & h' & -> & _ & _).
  unfold demo_machine, boot_at. by rewrite Hrun.
Qed.
Lemma demo_space_state : space_state demo_F demo_K [whole_heap] [] no_hole demo_machine.
Proof. split; [exact demo_machine_ok|]. rewrite demo_machine_pages. exact demo_space. Qed.

(** ** The boot stack: sixteen bytes of the page mapped to itself *)
Definition demo_isp : Z := 0x8000.
Definition demo_esp : Z := 0x7FF0.
Lemma demo_boot_stack : boot_stack demo_K demo_isp demo_esp demo_paging.
Proof.
  intros z Hz. unfold demo_isp, demo_esp in Hz.
  assert (Hs : tb_idx z = 0 ∧ tb_offset z = 7).
  { unfold tb_idx, tb_offset. change 0x3FF with (Z.ones 10). rewrite Z.land_ones, !Z.shiftr_div_pow2 by lia.
    change (2 ^ 22) with 4194304. change (2 ^ 12) with 4096. change (2 ^ 10) with 1024.
    replace (z / 4096) with 7 by (apply Z.div_unique with (z - 7 * 4096); lia). split; [apply Z.div_small; lia|done]. }
  unfold boot_entry. destruct Hs as [-> ->]. change (demo_K 0) with demo_low_table.
  split; [done|]. split; [done|]. split; [split|].
  - by intros [?|?].
  - intros (z' & Hz' & Heq). rewrite demo_page_of in Heq by done. unfold in_heap_range in Hz'. rewrite KERNEL_HEAP_BEGIN_eq in Hz'.
    assert (0xEFC00 ≤ z' / 4096) by (apply Z.div_le_lower_bound; lia). unfold entry_ptr, demo_low_table in Heq. lia.
  - exists demo_boot_page. split; [|done]. unfold demo_paging, demo_pte. cbn [pte]. rewrite with_scratch_at by done.
    apply lookup_insert_eq.
Qed.
Lemma demo_kernel_ok : kernel_ok demo_F demo_isp demo_esp demo_machine ∅.
Proof.
  exists demo_K, [whole_heap], []. split; [exact demo_space_state|]. split; [rewrite demo_machine_pages; exact demo_boot_stack|].
  intros a Ha. by apply elem_of_empty in Ha.
Qed.

(** ** The properties there *)
Lemma demo_boot_range : 0 ≤ demo_esp ≤ demo_isp ∧ demo_isp ≤ KERNEL_STACK_POS ∧ demo_isp - demo_esp ≤ KERNEL_STACK_SIZE.
Proof. by vm_compute. Qed.
(** a new directory for a task of the machine *)
Definition demo_clone : kstate * Z :=
  match clone_directory kernel_kmalloc 0x148000 demo_machine with Ret (d, s) => (s, d) | _ => (demo_machine, 0) end.
Definition clone_returns : bool :=
  match clone_directory kernel_kmalloc 0x148000 demo_machine with Ret _ => true | _ => false end.
Lemma demo_clone_run :
  clone_returns = true → clone_directory kernel_kmalloc 0x148000 demo_machine = Ret (demo_clone.2, demo_clone.1).
Proof. unfold clone_returns, demo_clone. by destruct (clone_directory _ _ _) as [[]| | |]. Qed.
Lemma clone_directory_correct_witness :
  clone_directory kernel_kmalloc 0x148000 demo_machine = Ret (demo_clone.2, demo_clone.1) ∧
  ∃ fr' new dd, space_state demo_F demo_K fr' (new ++ []) no_hole demo_clone.1 ∧
    dirs demo_clone.1.2 = <[demo_clone.2:=dd]> (dirs demo_machine.2) ∧
    table_of dd 1000 = table_of demo_dir 1000.
Proof.
  assert (Hr : clone_returns = true) by (vm_compute; reflexivity). apply demo_clone_run in Hr. split; [exact Hr|].
  pose proof demo_space_state as Hss. pose proof demo_machine_pages as Hp. revert Hr Hss Hp.
  generalize demo_clone demo_machine. intros [s' d] [h p] Hr Hss Hp. cbn [snd] in Hp. subst p. cbn [fst snd] in *.
  pose proof (clone_directory_correct demo_F demo_K h demo_paging [whole_heap] [] 0x148000 demo_dir demo_dir Hss
    (lookup_singleton_eq _ _) (lookup_singleton_eq _ _)) as Hwp.
  unfold wp in Hwp. rewrite Hr in Hwp. destruct Hwp as (fr' & new & dd & H1 & _ & H2 & _ & H3 & _).
  exists fr', new, dd. split; [exact H1|]. split; [exact H2|]. apply H3, demo_kernel_index, demo_slots_spec. right. lia.
Defined.

Definition after {T} (r : res (unit * T)) (s : T) : T := match r with Ret (_, s') => s' | _ => s end.
Definition succeeds {T} (r : res (unit * T)) : bool := match r with Ret _ => true | _ => false end.
Lemma after_run {T} (r : res (unit * T)) (s : T) : succeeds r = true → r = Ret (tt, after r s).
Proof. by destruct r as [[[] ?]| | |]. Qed.
(** two tasks, a switch between them, a task put to sleep and woken up *)
Definition kernel_calls : list task_call :=
  [CFork 1 2 3; CSchedule 4 5 6; CSleep 1 Sigset_init 7 8 9; CErrno EPERM; CWakeup 1; CSchedule 10 11 12].
#[local] Abbreviation demo_env := (@kernel_task_env demo_link demo_fresh demo_page_link demo_isp (demo_esp, 0x7FF8)).
Definition kernel_run : M (tasks * kstate) unit :=
  @task_init kstate demo_env demo_NIL demo_junk 0 0x7FF0 0x7FF8 0x300 ;;
  for_each kernel_calls (@run_call kstate demo_env demo_NIL demo_junk 0).
Definition kernel_boot : tasks * kstate := (tasks_boot demo_NIL demo_junk 0x202, demo_machine).
Definition kernel_after : tasks * kstate := after (kernel_run kernel_boot) kernel_boot.
Lemma kernel_task_system_witness :
  kernel_run kernel_boot = Ret (tt, kernel_after) ∧
  ∃ order, order ≠ [] ∧ kernel_ok demo_F demo_isp demo_esp kernel_after.2 (list_to_set order).
Proof.
  assert (Hr : succeeds (kernel_run kernel_boot) = true) by (vm_compute; reflexivity).
  pose proof (after_run _ kernel_boot Hr) as Hrun. fold kernel_after in Hrun. split; [exact Hrun|]. clear Hr.
  assert (Hcalls : Forall call_ok kernel_calls) by (repeat constructor; done).
  destruct demo_boot_range as (R1 & R2 & R3).
  pose proof (kernel_task_system demo_F demo_isp demo_esp 0x7FF8 R1 R2 R3 demo_NIL demo_junk 0 demo_junk 0x202 demo_machine
    0x7FF0 0x7FF8 0x300 kernel_calls demo_kernel_ok ltac:(done) Hcalls) as Hwp.
  fold kernel_run in Hwp. fold kernel_boot in Hwp. revert Hrun Hwp. generalize kernel_after. intros r Hrun Hwp.
  unfold wp in Hwp. rewrite Hrun in Hwp. destruct Hwp as (ls & order & _ & Hne & _ & Hok). exists order. exact (conj Hne Hok).
Defined.
