(* ===== verification/Main.v ===== *)
(** [core/main.cpp]: [kmain], which brings the kernel up component by
    component and starts the first program, and the tests it can run instead;
    over one machine that holds every component's state. *)
From S2P Require Import Prelude Common Rbt TreeMm Kheap Page PageInit Errno Ctype Bytes Sigset Port Printf Klog DescTab Fs Elf Task Stack Syscall Cxx Multiboot Timer KernelEnv.

(** The ports are the machine's; the screen and the tables see them while they
    run. [m_tick], [m_last_key] are the variables of the two handlers. *)
Record core : Type := Core {
  m_ports : ports;
  m_tables : desc_tables;
  m_screen : screen;
  m_tick : Z;
  m_last_key : Z;
  m_tasks : tasks * kstate
}.
#[local] Abbreviation machine := (cxx * core)%type.

Definition with_core (f : core → core) (s : machine) : machine := (s.1, f s.2).
Definition set_core_tables (t : desc_tables) (c : core) : core :=
  Core (dt_dev t) t (m_screen c) (m_tick c) (m_last_key c) (m_tasks c).
Definition set_core_screen (t : screen) (c : core) : core :=
  Core (dev t) (m_tables c) t (m_tick c) (m_last_key c) (m_tasks c).
Definition set_core_tasks (t : tasks * kstate) (c : core) : core :=
  Core (m_ports c) (m_tables c) (m_screen c) (m_tick c) (m_last_key c) t.
Definition set_core_key (k : Z) (c : core) : core :=
  Core (m_ports c) (m_tables c) (m_screen c) (m_tick c) k (m_tasks c).
Definition set_core_devices (d : devices) (c : core) : core :=
  Core (d_ports d) (m_tables c) (m_screen c) (d_tick d) (last_key d) (m_tasks c).

(** Running a component on its part of the machine. *)
Section Parts.
Context {S A : Type}.
Definition on_part (part : core → S) (set_part : S → core → core) (m : M S A) : M machine A := λ s,
  match m (part s.2) with
  | Ret (a, t) => Ret (a, with_core (set_part t) s) | Panic msg => Panic msg | Fault => Fault | NoFuel => NoFuel
  end.
Lemma on_part_run part set_part (m : M S A) s a t :
  m (part s.2) = Ret (a, t) → on_part part set_part m s = Ret (a, with_core (set_part t) s).
Proof. unfold on_part. by intros ->. Qed.
End Parts.
Definition on_tables {A} : M desc_tables A → M machine A :=
  on_part (λ c, set_ports (m_ports c) (m_tables c)) set_core_tables.
Definition on_screen {A} : M screen A → M machine A :=
  on_part (λ c, set_ports (m_ports c) (m_screen c)) set_core_screen.
Definition on_tasks {A} : M (tasks * kstate) A → M machine A := on_part m_tasks set_core_tasks.
Definition on_kernel {A} (m : M kstate A) : M machine A := on_tasks (lift m).
Definition on_devices {A} : M (devices * (tasks * kstate)) A → M machine A :=
  on_part (λ c, (Devices (m_ports c) (m_tick c) (m_last_key c), m_tasks c))
    (λ p c, set_core_devices p.1 (set_core_tasks p.2 c)).

Section Main.
Context `{HeapLink} `{FreshNode} `{PageLink} `{DescLink} `{!CxxEnv core}.
Context (ctors dtors : list Z).
(** what the boot loader left, the byte at 0x410, the entry's stack pointer *)
Context (boot : boot_memory) (mbd : Multiboot_info_t) (bios initial_stack_pointer : Z).
(** fresh memory, the tree sentinels, addresses of handlers and of locals *)
Context (nil_size : node Block_size_t) (nil_start : node Block_start_t).
Context (NIL_task : Z) (junk_node : node Pair_id_task) (junk_id : Z).
Context (page_fault_addr timer_tick_addr isr_kbd_addr ehdr_at phdr_at buf_at : Z).
(** the stack registers at [move_stack], and the registers at a switch *)
Context (stack_at : Z * Z) (kc : kcontext).
#[local] Existing Instance kernel_task_env.
#[local] Abbreviation KM := (M machine).
#[local] Abbreviation env := (kernel_task_env initial_stack_pointer stack_at).

Definition kprintf (fmt : string) (args : list arg) : KM unit := on_screen (Klog.printf fmt args).
Definition nl (s : string) : string := s +:+ newline_str.

(** ** The tests *)
(** what interrupts do while the kernel waits, and how many are waited for *)
Context (interrupts : KM unit) (max_wait : nat).
Fixpoint wait_loop (fuel : nat) : KM unit :=
  s ← get;
  if m_last_key s.2 =? 0 then
    match fuel with
    | O => nofuel
    | Datatypes.S fuel => interrupts ;; wait_loop fuel
    end
  else mret tt.
Definition wait_key : KM unit :=
  kprintf (nl "press any key to continue...") [] ;;
  (λ s, Ret (tt, with_core (set_core_key 0) s)) ;;
  wait_loop max_wait.

(** [Page::current_page_dir->get_physical_addr(ptr)], printed *)
Definition print_phyaddr (ptr : Z) : KM unit :=
  pa ← on_kernel (d ← current_dir; get_physical_addr d ptr false false true);
  kprintf (nl "phyaddr=%p") [ArgInt pa].
#[local] Existing Instance kernel_env.
Definition debug_msg : KM unit := on_kernel kheap_output_debug_msg ;; mret tt.

(** the loop with the buffer's first byte written; the loop that frees them *)
Definition test_alloc_one (i : Z) : KM Z :=
  kprintf (newline_str +:+ nl "subloop %d") [ArgInt i] ;;
  ptr ← on_kernel (kernel_kmalloc (8 + i) (12 - i));
  kprintf "arg=%d,%d  ptr[%d]=%p " [ArgInt (8 + i); ArgInt (12 - i); ArgInt i; ArgInt ptr] ;;
  on_kernel (kernel_write ptr [120]) ;;
  print_phyaddr ptr ;;
  debug_msg ;;
  wait_key ;;
  mret ptr.
Definition test_free_one (i : Z) (ptr : Z) : KM unit :=
  kprintf (newline_str +:+ nl "subloop %d") [ArgInt i] ;;
  on_kernel (kernel_kfree ptr) ;;
  kprintf (nl "ptr[%d] freed (orig addr=%p)") [ArgInt i; ArgInt ptr] ;;
  debug_msg ;;
  wait_key.
Definition test_alloc_small (i : Z) : KM unit :=
  let palign := if Z.odd i then 12 else 0 in
  x ← on_kernel (kernel_kmalloc 4 palign);
  kprintf "arg=%d,%d addr=%p " [ArgInt 4; ArgInt palign; ArgInt x] ;;
  on_kernel (kernel_store32 x 1) ;;
  print_phyaddr x ;;
  on_kernel (kernel_kfree x) ;;
  wait_key.
Definition test_alloc : KM unit :=
  for_each (upto 0 3) (λ l,
    kprintf (newline_str +:+ newline_str +:+ nl "Loop %d:") [ArgInt l] ;;
    p0 ← test_alloc_one 0; p1 ← test_alloc_one 1; p2 ← test_alloc_one 2;
    test_free_one 0 p0 ;; test_free_one 1 p1 ;; test_free_one 2 p2) ;;
  for_each (upto 0 4) test_alloc_small ;;
  ptr ← on_kernel (operator_new_array (4 * 8192));
  kprintf "new int[8192]: addr=%p " [ArgInt ptr] ;;
  on_kernel (kernel_memset ptr 0 (4 * 8192)) ;;
  print_phyaddr ptr ;;
  debug_msg ;;
  wait_key ;;
  on_kernel (operator_delete_array ptr).

(** A file beside the tasks: [ramdisk_get_file_node] makes it, and the
    operations on it see it. *)
Definition with_file {A} (f : Ramdisk_file_node) (m : M (Ramdisk_file_node * (tasks * kstate)) A) :
    KM (A * Ramdisk_file_node) := on_tasks (λ t,
  match m (f, t) with
  | Ret (a, (f', t')) => Ret ((a, f'), t') | Panic msg => Panic msg | Fault => Fault | NoFuel => NoFuel
  end).
Definition find_ramdisk : KM (Z * Z) :=
  start ← on_kernel (kernel_load32 (mb_mods_addr mbd));
  end_ ← on_kernel (kernel_load32 (u32 (mb_mods_addr mbd + 4)));
  mret (start, end_).
#[local] Existing Instance loading_disk.

(** the text of a buffer up to its terminator *)
Fixpoint text_of (l : list Z) : option (list Z) :=
  match l with [] => None | c :: l => if u8 c =? 0 then Some [] else cons c <$> text_of l end.
(** one turn of the loop over the RAM disk: the buffer's first byte changes *)
Definition test_fork_file (pid : Z) (f : Ramdisk_file_node) : KM Ramdisk_file_node :=
  '(_, f) ← with_file f (ramdisk_read buf_at 256);
  l ← on_kernel (kernel_read buf_at 256);
  match text_of l with
  | Some txt => kprintf (nl "(pid %d) ramdisk: %s") [ArgInt pid; ArgStr (Some txt)]
  | None => fault
  end ;;
  on_kernel (kernel_write buf_at [u8 (48 + pid)]) ;;
  '(_, f) ← with_file f (ramdisk_write buf_at 256);
  mret f.
(** up to the endless loop *)
Definition test_fork : KM unit :=
  fork_ret ← on_tasks (@Task.fork _ env NIL_task junk_node junk_id (kc_esp kc) (kc_ebp kc) (kc_eip kc));
  kprintf (nl "fork returned %d") [ArgInt fork_ret] ;;
  pid ← on_tasks Task.getpid;
  for_each (upto 0 5) (λ _, kprintf (nl "fork returned: %d   pid: %d") [ArgInt fork_ret; ArgInt pid]) ;;
  (if mb_mods_count mbd =? 0 then mret tt
   else
     '(start, end_) ← find_ramdisk;
     on_screen (Klog.log INFO "ramdisk found: start=0x%x end=0x%x" [ArgInt start; ArgInt end_]) ;;
     on_kernel (kernel_memset buf_at 0 256) ;;
     f ← test_fork_file pid (ramdisk_get_file_node start end_);
     test_fork_file pid f ;;
     mret tt) ;;
  kprintf (nl "(pid %d) done") [ArgInt pid].

(** [Task::sleep] returns, or the rest waits until the task is switched back
    to *)
Definition kernel_sleep (id : Z) (k : KM (control unit)) : KM (control unit) :=
  c ← on_tasks (@Task.sleep _ env NIL_task junk_id id Sigset_init (kc_esp kc) (kc_ebp kc) (kc_eip kc));
  match c with Return _ => k | Jump c => mret (Jump c) end.
Definition kernel_wakeup (id : Z) : KM unit := on_tasks (@Task.wakeup kstate NIL_task junk_id id) ;; mret tt.
(** the turns of the endless loop from the [i]th on, [n] of them *)
Fixpoint test_sleep_loop (n : nat) (pid i : Z) : KM (control unit) :=
  match n with
  | O => mret (Return tt)
  | Datatypes.S n =>
    let turn :=
      (if (i =? 20) && (pid =? 0) then kernel_wakeup 1 else mret tt) ;;
      kprintf (nl "pid %d: %d") [ArgInt pid; ArgInt i] ;;
      test_sleep_loop n pid (i + 1) in
    if (i =? 10) && (pid =? 1) then kernel_wakeup 0 ;; turn
    else if (i =? 10) && (pid =? 0) then kernel_sleep 1 turn
    else turn
  end.
Definition test_sleep (n : nat) : KM (control unit) :=
  on_tasks (@Task.fork _ env NIL_task junk_node junk_id (kc_esp kc) (kc_ebp kc) (kc_eip kc)) ;;
  pid ← on_tasks Task.getpid;
  if pid =? 0 then kernel_sleep 0 (test_sleep_loop n pid 0) else test_sleep_loop n pid 0.

(** what the program starts with: the frame [iret] takes, and its segments *)
Definition test_elf : KM (iret_frame * Z) :=
  (if mb_mods_count mbd =? 0 then panic "mbd->mods_count" else mret tt) ;;
  '(start, end_) ← find_ramdisk;
  s ← get;
  let h := (m_tasks s.2).2.1 in
  '(entry, _) ← with_file (ramdisk_get_file_node start end_)
    (@load_elf _ loading_elf (USER_MEM_LOW h) (USER_MEM_HIGH h) ehdr_at phdr_at (Some ramdisk_ops));
  let stack := 0xC0000000 in
  on_kernel (page ← current_get_page stack true; Table_entry_alloc page true true) ;;
  on_tasks (switch_to_user_mode (u32 entry) (stack + 0x1000 - 4)).

(** the reading loop over a page: the first word that is not zero *)
Fixpoint find_nonzero (n : nat) (ptr : Z) : KM (option (Z * Z)) :=
  match n with
  | O => mret None
  | Datatypes.S n =>
    v ← on_kernel (kernel_load32 ptr);
    if v =? 0 then find_nonzero n (ptr + 4) else mret (Some (ptr, v))
  end.
Definition test_lazy_alloc : KM unit :=
  for_each (upto 0 6) (λ i,
    on_kernel (
      pg ← current_get_page (0x60000000 + i * 0x1000) true;
      Table_entry_alloc pg false true ;;
      Table_entry_fill_uint32 pg 12345)) ;;
  for_each (upto 0 6) (λ i, on_kernel (pg ← current_get_page (0x60000000 + i * 0x1000) false; Table_entry_free pg)) ;;
  kprintf (nl "lazy alloc (not filling)") [] ;;
  on_kernel (pg ← current_get_page 0x67890000 true; Table_entry_lazy_alloc pg false true false) ;;
  kprintf (nl "checking...") [] ;;
  r ← find_nonzero 1024 0x67890000;
  (match r with
   | Some (ptr, v) => kprintf (nl "%p: %d") [ArgInt ptr; ArgInt v]
   | None => mret tt
   end) ;;
  kprintf (nl "lazy alloc (filling)") [] ;;
  on_kernel (pg ← current_get_page 0x67891000 true; Table_entry_lazy_alloc pg false true true) ;;
  kprintf (nl "checking...") [] ;;
  r ← find_nonzero 1024 0x67891000;
  match r with
  | Some _ => panic "not zero!"
  | None => panic "done"
  end.

(** ** [kmain] *)
Definition sti : KM unit := on_tasks (modt (λ t, with_eflags (Z.lor (eflags t) EFLAGS_IF) t)).
(** [None]: it returned, to the loop of [loader] that halts. [Page::init]
    registers [page_fault] itself, before its last allocations; the tables are
    not in the part of the state it works on, so it is registered after it:
    kernel memory has its pages, and no fault comes in between. *)
Definition kmain (magic : Z) : KM (option (iret_frame * Z)) :=
  on_tables init_descriptor_tables ;;
  on_screen (klog_init bios) ;;
  if negb (magic =? MULTIBOOT_BOOTLOADER_MAGIC) then
    kprintf (nl "invalid magic: 0x%x") [ArgInt magic] ;; mret None
  else
    on_kernel (page_init (mret tt) boot mbd nil_size nil_start) ;;
    on_tables (isr_register 14 page_fault_addr) ;;
    cxxsupport_init ctors ;;
    on_tasks (@task_init _ env NIL_task junk_node junk_id (kc_esp kc) (kc_ebp kc) (kc_eip kc)) ;;
    on_screen (Klog.log INFO "tasking initialized" []) ;;
    on_tables (init_timer timer_tick_addr) ;;
    on_tables (isr_register (ISR_GET_NUM_BY_IRQ 1) isr_kbd_addr) ;;
    sti ;;
    kprintf (nl "hello, world!") [] ;;
    r ← test_elf;
    mret (Some r).
End Main.
