(* ===== verification/MainProps.v ===== *)
(** The kernel's entry: what it does with a boot loader it does not know, and
    how its text reaches the screen. *)
From S2P Require Import Prelude Common Rbt TreeMm Kheap Page PageInit Demo Machine Errno Ctype Port Printf Denoted Klog KlogOk KlogProps DescTab RbTree RbtRep RbtFind Task TaskQueue TaskOk TaskOps TaskProps TaskDemo Syscall Cxx Multiboot Timer Main.

Section Entry.
Context `{HeapLink} `{FreshNode} `{PageLink} `{DescLink} `{!CxxEnv core}.
Context (ctors dtors : list Z) (boot : boot_memory) (mbd : Multiboot_info_t) (bios initial_stack_pointer : Z).
Context (nil_size : node Block_size_t) (nil_start : node Block_start_t).
Context (NIL_task : Z) (junk_node : node Pair_id_task) (junk_id : Z).
Context (page_fault_addr timer_tick_addr isr_kbd_addr ehdr_at phdr_at : Z) (stack_at : Z * Z) (kc : kcontext).
Implicit Types (c : cxx) (co : core) (s : cxx * core) (p : ports).
#[local] Abbreviation entry := (kmain ctors boot mbd bios initial_stack_pointer nil_size nil_start NIL_task junk_node
  junk_id page_fault_addr timer_tick_addr isr_kbd_addr ehdr_at phdr_at stack_at kc).

(** The machine as the boot loader leaves it: the static tables and the screen
    before their initialization. *)
Definition fresh_core (d : ports) (m : mem) (tick key : Z) (t : tasks * kstate) : core :=
  Core d (desc_start d) (screen_start d m) tick key t.

(** Printing on the machine's screen. *)
Lemma kprintf_run fmt args out s t :
  format_text FLOAT_PRECESION (chars fmt) args = Some out → screen_ok (m_screen s.2) → shows (m_screen s.2) t →
  ∃ d sc, kprintf fmt args s = Ret (tt, (s.1, Core d (m_tables s.2) sc (m_tick s.2) (m_last_key s.2) (m_tasks s.2))) ∧
    screen_ok sc ∧ shows sc (foldl (λ t ch, term_putc ch t) t out).
Proof.
  intros Hf Hok Hsh. destruct s as [c co]. simpl in *. unfold kprintf, on_screen, on_part. simpl.
  destruct (vprintf_ok (chars fmt) args out (with_dev (m_ports co) (m_screen co)) t Hf) as (s' & Hrun & Hok' & Hsh' & _).
  { by destruct Hok. } { by destruct Hsh. }
  unfold printf. rewrite Hrun. eexists _, _. split; [reflexivity|]. done.
Qed.

Definition refused_text (magic : Z) : list Z :=
  init_text bios ++ chars "invalid magic: 0x" ++ numeral 16 magic ++ chars newline_str.

(** C33: a boot loader that is not the expected one is refused: [kmain] says so
    on the screen and returns; nothing of the memory, the tasks or the runtime
    has been touched, and every interrupt goes to the default handler. *)
Theorem kmain_rejects magic c d m tick key t :
  (∀ n, 0 ≤ isr_stub n < 2 ^ 32) → 0 ≤ magic < 2 ^ 32 → magic ≠ MULTIBOOT_BOOTLOADER_MAGIC →
  ∃ co', entry magic (c, fresh_core d m tick key t) = Ret (None, (c, co')) ∧
    m_tasks co' = t ∧ m_tick co' = tick ∧ m_last_key co' = key ∧
    shows (m_screen co') (text_screen (refused_text magic)) ∧
    ∀ n, 0 ≤ n < 256 → dispatch n (m_tables co') = if decide (0 ≤ n < 48 ∨ n = 0x80) then Some isr_unhandled_addr else None.
Proof.
  intros Hstub Hm Hne. unfold kmain.
  destruct (init_tables_run d) as (t0 & Hrun0 & Hsp & Hcb).
  set (s0 := (c, fresh_core d m tick key t)).
  rewrite (run_bind (on_tables init_descriptor_tables) _ s0 _ _ (on_part_run _ _ _ s0 tt t0 Hrun0)).
  destruct (klog_init_ok bios (dt_dev t0) m) as (sc & Hrun1 & Hok & Hsh & _).
  set (s1 := with_core (set_core_tables t0) s0).
  rewrite (run_bind (on_screen (klog_init bios)) _ s1 _ _ (on_part_run _ _ _ s1 tt sc Hrun1)).
  set (s2 := with_core (set_core_screen sc) s1).
  apply Z.eqb_neq in Hne as ->. cbn [negb].
  assert (Hf : format_text FLOAT_PRECESION (chars (nl "invalid magic: 0x%x")) [ArgInt magic] =
    Some (chars "invalid magic: 0x" ++ numeral 16 magic ++ chars newline_str)).
  { rewrite <- (u2s_numeral magic 16) by lia. rewrite <- (u32_small magic) at 2 by done. reflexivity. }
  destruct (kprintf_run _ _ _ s2 _ Hf Hok Hsh) as (d' & sc' & Hr & _ & Hsh').
  rewrite (run_bind _ _ _ _ _ Hr). eexists. split; [reflexivity|].
  split; [reflexivity|]. split; [reflexivity|]. split; [reflexivity|]. split.
  - unfold refused_text, text_screen in *. rewrite foldl_app. exact Hsh'.
  - intros n Hn. change (m_tables _) with t0. rewrite dispatch_at by done. case_decide; [|reflexivity].
    rewrite Hcb. apply lookup_replicate_2. lia.
Qed.
End Entry.

(** * A kernel entered with the number 0 *)
Definition no_calls : CxxEnv core := {|
  call_func _ _ := mret tt; call_void _ := mret tt; cxx_log _ := mret tt
|}.
Definition demo_kc : kcontext := KContext 0x10 0x20 0x30.
Definition demo_boot_memory : boot_memory := BootMemory (λ _, 0) (λ _, MmapEntry 20 0 0 1).
Definition demo_mbd : Multiboot_info_t := MultibootInfo 0 0 0 0 0 0 0 0 0.
Definition demo_kmain (magic : Z) : M (cxx * core) (option (iret_frame * Z)) :=
  @kmain demo_link demo_fresh demo_page_link demo_desc_link no_calls [] demo_boot_memory demo_mbd 0 0x7FFC
    fresh_size fresh_start demo_NIL demo_junk 0 0x101000 0x102000 0x103000 0xFFFFE800 0xFFFFE900
    (0x7F00, 0x7F20) demo_kc magic.
Lemma kmain_rejects_witness :
  ∃ co', demo_kmain 0 (cxx_start, fresh_core (Ports [] (λ _ _, 0)) (λ _, 0) 0 0 (tasks_boot demo_NIL demo_junk 0x202, demo_machine)) =
      Ret (None, (cxx_start, co')) ∧
    shows (m_screen co') (text_screen (chars (nl "video intialized. mode: color" +:+ nl "invalid magic: 0x0"))) ∧
    @dispatch demo_desc_link 32 (m_tables co') = Some (@isr_unhandled_addr demo_desc_link).
Proof.
  destruct (@kmain_rejects demo_link demo_fresh demo_page_link demo_desc_link no_calls [] demo_boot_memory demo_mbd 0 0x7FFC
    fresh_size fresh_start demo_NIL demo_junk 0 0x101000 0x102000 0x103000 0xFFFFE800 0xFFFFE900 (0x7F00, 0x7F20) demo_kc
    0 cxx_start (Ports [] (λ _ _, 0)) (λ _, 0) 0 0 (tasks_boot demo_NIL demo_junk 0x202, demo_machine))
    as (co' & H1 & _ & _ & _ & H2 & H3).
  - intros n. simpl. pose proof (Z.mod_pos_bound n 1024). lia.
  - lia.
  - discriminate.
  - exists co'. split; [exact H1|]. split; [exact H2|]. exact (H3 32 ltac:(lia)).
Defined.
