(* ===== verification/KernelBoot.v ===== *)
(** [kmain] from the boot loader to the first program: every component is
    brought up, and the tasks run on the heap and the pages that [Page::init]
    has built. *)
From S2P Require Import Prelude Common Rbt RbTree RbtRep RbtFind TreeMm Kheap KheapSpec KheapOk Page PageInit PageOk PageFrames PageHeap PageCow KernelHeap.
From S2P Require Import Quiet Space SpaceOps BootTables BootFrames Booted Errno Ctype Bytes Sigset Port Printf Klog KlogOk KlogProps DescTab Fs Elf.
From S2P Require Import Task TaskQueue TaskOk TaskOps TaskSleep TaskProps Stack Syscall Cxx Multiboot Timer KernelEnv BootStack KernelTasks PageBoot Main MainProps.

(** * Sequencing *)
Section Sequence.
Context {S A B : Type}.
Lemma bind_ext (m : M S A) (f g : A → M S B) s : (∀ a s, f a s = g a s) → (m ≫= f) s = (m ≫= g) s.
Proof. intros He. unfold mbind, M_bind. destruct (m s) as [[? ?]| | |]; [apply He|done..]. Qed.
End Sequence.
Lemma wp_on_part {S A} (part : core → S) (set_part : S → core → core) (m : M S A) (Q : A → cxx * core → Prop) E s :
  wp m (λ a t, Q a (with_core (set_part t) s)) E (part s.2) → wp (on_part part set_part m) Q E s.
Proof. unfold wp, on_part. by destruct (m (part s.2)) as [[? ?]| | |]. Qed.

(** The timer's registers are written; its handler is registered. *)
Lemma init_timer_run `{DescLink} a t :
  ∃ d, init_timer a t = Ret (tt, set_ports d (with_callbacks (<[32%nat := a]> (isr_callback_table t)) t)).
Proof.
  unfold init_timer. rewrite (run_bind _ _ _ _ _ (isr_register_run _ _ _)). change (ISR_GET_NUM_BY_IRQ 0) with 32.
  change ((0 <=? 32) && (32 <? 256)) with true. change (Z.to_nat 32) with 32%nat. cbv iota. set (t1 := with_callbacks _ t).
  destruct t1 as [? ? ? ? ? ? ? ? ? [l r]]. eexists. unfold port_wait, outb, mbind, M_bind, mret, M_ret. cbn. reflexivity.
Qed.

Section Boot.
Context `{HLo : HeapLinkOk} `{FN : FreshNode} `{PL : PageLink} `{PLok : !PageLinkOk} `{DescLink} `{!CxxEnv Main.core}.
Context (ctors : list Z) (boot : boot_memory) (mbd : Multiboot_info_t) (bios isp esp ebp : Z).
Context (nil_size : node Block_size_t) (nil_start : node Block_start_t).
Context (NIL_task : Z) `{!NilAddr (P:=task_pool) NIL_task} (junk_node : node Pair_id_task) (junk_id : Z).
Context (page_fault_addr timer_tick_addr isr_kbd_addr ehdr_at phdr_at : Z) (kc : kcontext).
#[local] Abbreviation env := (kernel_task_env isp (esp, ebp)).
#[local] Abbreviation KM := (M (cxx * Main.core)).
#[local] Abbreviation entry := (kmain ctors boot mbd bios isp nil_size nil_start NIL_task junk_node
  junk_id page_fault_addr timer_tick_addr isr_kbd_addr ehdr_at phdr_at (esp, ebp) kc).

(** [kmain] up to the first program *)
Definition bring_up : KM unit :=
  on_tables init_descriptor_tables ;;
  on_screen (klog_init bios) ;;
  on_kernel (page_init (mret tt) boot mbd nil_size nil_start) ;;
  on_tables (isr_register 14 page_fault_addr) ;;
  cxxsupport_init ctors ;;
  on_tasks (@task_init _ env NIL_task junk_node junk_id (kc_esp kc) (kc_ebp kc) (kc_eip kc)) ;;
  on_screen (Klog.log INFO "tasking initialized" []) ;;
  on_tables (init_timer timer_tick_addr) ;;
  on_tables (isr_register (ISR_GET_NUM_BY_IRQ 1) isr_kbd_addr) ;;
  sti ;;
  kprintf (nl "hello, world!") [].
Lemma kmain_bring_up s :
  entry MULTIBOOT_BOOTLOADER_MAGIC s = (bring_up ;; r ← test_elf mbd ehdr_at phdr_at; mret (Some r)) s.
Proof.
  unfold kmain, bring_up. rewrite Z.eqb_refl. cbn [negb]. do 10 (rewrite bind_assoc; apply bind_ext; clear s; intros ? s). reflexivity.
Qed.

(** ** The machine on the way *)
(** every vector has its gate, and the callback [g] says; the screen shows
    what has been printed; the tasks are [t] *)
Record up (g : Z → Z) (t : tasks * kstate) (s : cxx * Main.core) : Prop := {
  up_gates : dispatch_spec (m_tables s.2);
  up_callbacks n : 0 ≤ n < 256 → isr_callback_table (m_tables s.2) !! Z.to_nat n = Some (g n);
  up_screen : screen_ok (m_screen s.2) ∧ ∃ v, shows (m_screen s.2) v;
  up_tasks : m_tasks s.2 = t
}.
Definition upd_callback (n a : Z) (g : Z → Z) : Z → Z := λ k, if k =? n then a else g k.
Lemma up_insert n a g t s (d : ports) (tb : desc_tables) :
  up g t s → 0 ≤ n < 256 → tb = set_ports d (with_callbacks (<[Z.to_nat n := a]> (isr_callback_table (m_tables s.2))) (m_tables s.2)) →
  up (upd_callback n a g) t (with_core (set_core_tables tb) s).
Proof.
  intros [[Ul Ug] U2 U3 U4] Hn ->. split; [split|..]; cbn.
  - by rewrite length_insert.
  - exact Ug.
  - intros k Hk. unfold upd_callback. destruct (Z.eqb_spec k n) as [->|Hne]; [apply list_lookup_insert_eq; lia|].
    rewrite list_lookup_insert_ne by lia. by apply U2.
  - exact U3.
  - exact U4.
Qed.
Lemma up_register n a g t s E :
  up g t s → 0 ≤ n < 256 → wp (on_tables (isr_register n a)) (λ _ s', up (upd_callback n a g) t s') E s.
Proof.
  intros Hu Hn. apply wp_on_part. eapply wp_of_run; [apply isr_register_run|].
  destruct (Z.leb_spec 0 n), (Z.ltb_spec n 256); try lia. cbn [andb]. by apply (up_insert n a g t s (m_ports s.2)).
Qed.
Lemma up_timer g t s E :
  up g t s → wp (on_tables (init_timer timer_tick_addr)) (λ _ s', up (upd_callback 32 timer_tick_addr g) t s') E s.
Proof.
  intros Hu. apply wp_on_part. destruct (init_timer_run timer_tick_addr (set_ports (m_ports s.2) (m_tables s.2))) as [d Hr].
  eapply wp_of_run; [exact Hr|]. by apply (up_insert 32 timer_tick_addr g t s d).
Qed.
Lemma up_run {A} (m : M (tasks * kstate) A) (Q : A → cxx * Main.core → Prop) E g t s :
  up g t s → wp m (λ a t', ∀ s', up g t' s' → Q a s') E t → wp (on_tasks m) Q E s.
Proof.
  intros [U1 U2 U3 U4] Hm. apply wp_on_part. rewrite U4. eapply wp_mono; [exact Hm|]. intros a t' HQ. apply HQ. by split.
Qed.
Lemma up_print fmt args out g t s E :
  up g t s → format_text FLOAT_PRECESION (chars fmt) args = Some out → wp (kprintf fmt args) (λ _ s', up g t s') E s.
Proof.
  intros [U1 U2 [U3 [v U5]] U4] Hf. destruct (kprintf_run _ _ _ s v Hf U3 U5) as (d & sc & Hr & Hok & Hsh).
  eapply wp_of_run; [exact Hr|]. split; cbn; [exact U1|exact U2|by eauto|exact U4].
Qed.
Lemma up_log level fmt args out g t s E :
  up g t s → format_text FLOAT_PRECESION (chars fmt) args = Some out → wp (on_screen (Klog.log level fmt args)) (λ _ s', up g t s') E s.
Proof.
  intros [U1 U2 [U3 _] U4] Hf. apply wp_on_part.
  destruct (log_ok level fmt args out (with_dev (m_ports s.2) (m_screen s.2)) Hf) as (sc & Hr & Hok); [by destruct U3|].
  eapply wp_of_run; [exact Hr|]. split; cbn; [exact U1|exact U2| |exact U4]. destruct (screen_ok_shows sc Hok) as [v Hv].
  split; [by destruct Hok|]. exists v. by destruct Hv.
Qed.
(** the constructors of the global objects leave the machine as it is *)
Definition quiet_ctors : Prop := ∀ f c co, f ∈ ctors → ∃ c', call_void f (c, co) = Ret (tt, (c', co)).
Lemma up_ctors g t s E : quiet_ctors → up g t s → wp (cxxsupport_init ctors) (λ _ s', up g t s') E s.
Proof.
  intros Hq Hu. destruct s as [c co]. assert (∃ c', cxxsupport_init ctors (c, co) = Ret (tt, (c', co))) as [c' Hr].
  2:{ eapply wp_of_run; [exact Hr|]. by destruct Hu. }
  revert Hq. unfold quiet_ctors, cxxsupport_init. clear Hu. revert c. induction ctors as [|f fs IH]; intros c Hq; [by exists c|].
  destruct (Hq f c co ltac:(by left)) as [c1 H1]. destruct (IH c1) as [c2 H2]; [intros f1 ?? Hf1; apply Hq; by right|].
  exists c2. cbn [for_each]. by rewrite (run_bind _ _ _ _ _ H1).
Qed.

(** ** Up to the first program *)
Lemma up_start d m c tick key t E :
  wp (on_tables init_descriptor_tables ;; on_screen (klog_init bios)) (λ _ s', up (λ _, isr_unhandled_addr) t s') E
    (c, fresh_core d m tick key t).
Proof.
  destruct (init_tables_run d) as (t0 & Hrun0 & Hsp & Hcb). destruct (klog_init_ok bios (dt_dev t0) m) as (sc & Hrun1 & Hok & Hsh & _).
  wp_step. apply wp_on_part. eapply wp_of_run; [exact Hrun0|]. apply wp_on_part. eapply wp_of_run; [exact Hrun1|].
  split; cbn; [exact Hsp| |by eauto|done]. intros n Hn. rewrite Hcb. apply lookup_replicate_2. lia.
Qed.
Definition handlers : Z → Z :=
  upd_callback 33 isr_kbd_addr (upd_callback 32 timer_tick_addr (upd_callback 14 page_fault_addr (λ _, isr_unhandled_addr))).
Context (R1 : 0 ≤ esp ≤ isp) (R2 : isp ≤ KERNEL_STACK_POS) (R3 : isp - esp ≤ KERNEL_STACK_SIZE).
#[local] Abbreviation good F := (@TaskProps.good kstate env (kernel_tasks F isp esp ebp R1 R2 R3) NIL_task).
(** the components are up, with the frames of the region of [r] from [limit] on *)
Definition kernel_up (r : Multiboot_mmap_entry_t) (limit : Z) (s : cxx * Main.core) : Prop :=
  ∃ e F, limit ≤ e ∧ (∀ f, f ∈ F ↔ region_lo e r ≤ f ≤ region_top r) ∧ ∃ t, good F t ∧ up handlers t s.
Lemma good_sti F t x : good F (t, x) → good F (with_eflags (Z.lor (eflags t) EFLAGS_IF) t, x).
Proof. intros (ls & order & Hok & Hne). exists ls, order. split; [by apply inv_eflags|done]. Qed.

Lemma bring_up_ok l1 r l2 c d m tick key nil0 flags (s : kstate) :
  quiet_ctors → bootable boot mbd l1 r l2 s → 0x1000 ≤ esp → isp ≤ preserved boot mbd s.1 → kc_eip kc ≠ 0xFFFFFFFF →
  wp bring_up (λ _ s', kernel_up r (preserved boot mbd s.1) s') kernel_fails
    (c, fresh_core d m tick key (tasks_boot NIL_task nil0 flags, s)).
Proof.
  intros Hq Hbo Hesp Hisp Heip. unfold bring_up. eapply wp_same; [symmetry; apply bind_assoc|].
  wp_step. eapply wp_mono_E; [apply up_start| |done]. intros [] s1 Hu. wp_step.
  eapply (up_run _ _ _ _ _ _ Hu), lift_wp.
  eapply (wp_mono_E _ _ _ (λ _, False)); [exact (page_init_booted boot mbd l1 r l2 s nil_size nil_start isp esp Hbo Hesp Hisp)| |done].
  intros [] s2 (e & F & [He _] & HF & _ & Hk) s3 Hu3.
  wp_step. eapply wp_mono; [apply (up_register 14 page_fault_addr _ _ _ kernel_fails Hu3); lia|]. intros [] s4 Hu4.
  wp_step. eapply wp_mono; [apply (up_ctors _ _ _ kernel_fails Hq Hu4)|]. intros [] s5 Hu5.
  wp_step. eapply (up_run _ _ _ _ _ _ Hu5).
  eapply wp_mono; [exact (kernel_task_init F isp esp ebp R1 R2 R3 NIL_task junk_node junk_id nil0 flags s2 _ _ _ Hk Heip)|].
  intros c6 [t6 x6] Hg s5' Hu5'.
  wp_step. eapply wp_mono; [apply (up_log INFO _ _ (chars "tasking initialized") _ _ _ kernel_fails Hu5'); reflexivity|]. intros [] s6 Hu6.
  wp_step. eapply wp_mono; [apply (up_timer _ _ _ kernel_fails Hu6)|]. intros [] s7 Hu7.
  wp_step. eapply wp_mono; [apply (up_register (ISR_GET_NUM_BY_IRQ 1) isr_kbd_addr _ _ _ kernel_fails Hu7); by vm_compute|]. intros [] s8 Hu8.
  wp_step. apply (up_run _ _ _ _ _ _ Hu8). eapply wp_of_run; [reflexivity|]. intros s9 Hu9.
  eapply wp_mono; [apply (up_print _ _ (chars (nl "hello, world!")) _ _ _ kernel_fails Hu9); reflexivity|].
  intros [] s10 Hu10. exists e, F. split; [exact He|]. split; [exact HF|]. eexists. split; [exact (good_sti F _ _ Hg)|exact Hu10].
Qed.

(** C5: [kmain] brings the kernel up: with the expected boot loader it does what
    [bring_up] does and goes on to the first program; [bring_up], and any calls
    of the task component after it, end with the descriptor tables in place, the
    handlers registered, the screen in order, the tasks in their queues and tree,
    and the heap, the frames and all address spaces in order.  Nothing faults or
    loops; the kernel stops only for lack of memory. *)
Theorem kmain_boots l1 r l2 c d m tick key nil0 flags (s : kstate) calls :
  quiet_ctors → bootable boot mbd l1 r l2 s → 0x1000 ≤ esp → isp ≤ preserved boot mbd s.1 → kc_eip kc ≠ 0xFFFFFFFF →
  (∀ n, 0 ≤ isr_stub n < 2 ^ 32) → Forall call_ok calls →
  (∀ s, entry MULTIBOOT_BOOTLOADER_MAGIC s = (bring_up ;; r ← test_elf mbd ehdr_at phdr_at; mret (Some r)) s) ∧
  wp (bring_up ;; on_tasks (for_each calls (@run_call kstate env NIL_task junk_node junk_id)))
    (λ _ s', ∃ e F, preserved boot mbd s.1 ≤ e ∧ (∀ f, f ∈ F ↔ region_lo e r ≤ f ≤ region_top r) ∧
       kernel_tasks_good F isp esp ebp R1 R2 R3 NIL_task (m_tasks s'.2) ∧ screen_ok (m_screen s'.2) ∧
       ∀ n, 0 ≤ n < 256 → dispatch n (m_tables s'.2) = if decide (0 ≤ n < 48 ∨ n = 0x80) then Some (handlers n) else None)
    kernel_fails (c, fresh_core d m tick key (tasks_boot NIL_task nil0 flags, s)).
Proof.
  intros Hq Hbo Hesp Hisp Heip Hstub Hcalls. split; [exact kmain_bring_up|].
  wp_step. eapply wp_mono; [exact (bring_up_ok l1 r l2 c d m tick key nil0 flags s Hq Hbo Hesp Hisp Heip)|].
  intros [] s1 (e & F & He & HF & t & Hg & Hu). apply (up_run _ _ _ _ _ _ Hu).
  eapply wp_mono; [exact (kernel_calls_good F isp esp ebp R1 R2 R3 NIL_task junk_node junk_id calls t Hg Hcalls)|].
  intros [] t' Hg' s' [U1 U2 [U3 _] U4]. exists e, F. split; [exact He|]. split; [exact HF|]. rewrite U4.
  split; [exact (good_kernel F isp esp ebp R1 R2 R3 NIL_task t' Hg')|]. split; [exact U3|].
  intros n Hn. rewrite dispatch_at by done. case_decide; [|done]. by apply U2.
Qed.
End Boot.
