(* ===== verification/BootDemo.v ===== *)
(** A machine as a boot loader leaves it: two regions of available memory, the
    kernel's image at the start of the second one and a module behind it; and
    the properties of the boot there. *)
From S2P Require Import Prelude Common Rbt RbTree RbtRep RbtFind TreeMm Kheap KheapTrees Demo KheapSpec KheapOk Page PageInit PageOk PageFrames PageHeap PageCow KernelHeap Machine.
From S2P Require Import Quiet Space SpaceOps BootTables BootFrames Booted Errno Ctype Bytes Sigset Port Printf Klog KlogOk KlogProps DescTab Fs Elf.
From S2P Require Import Task TaskQueue TaskOk TaskOps TaskSleep TaskProps TaskDemo Stack Syscall Cxx Multiboot Timer KernelEnv BootStack KernelTasks PageBoot SpaceDemo Main MainProps KernelBoot.

Definition low_memory : Multiboot_mmap_entry_t := MmapEntry 20 0 0x9FC00 1.
Definition high_memory : Multiboot_mmap_entry_t := MmapEntry 20 0x100000 0x1400000 1.
Definition module_end : Z := 0x160000.
Definition loaded_memory : boot_memory :=
  BootMemory (λ a, if a =? 0x9104 then module_end else 0) (λ a, if a =? 0x9000 then low_memory else high_memory).
Definition loaded_mbd : Multiboot_info_t := MultibootInfo MULTIBOOT_INFO_MEM_MAP 0 0 0 0 1 0x9100 48 0x9000.
Definition loaded : kstate :=
  (Kheap false 0x140004 ∅ 0 ∅ 0 tree_mm_start 0 0, Paging ∅ ∅ 0 0 ∅ 0 0 ∅ 0 0 0 0 0 0 0 false ∅ (λ _, 0) []).
Definition loaded_init : M kstate unit := page_init (mret tt) loaded_memory loaded_mbd fresh_size fresh_start.

(** the module is kept: the static heap goes on behind it *)
Lemma loaded_preserved : preserved loaded_memory loaded_mbd loaded.1 = 0x160004.
Proof. by vm_compute. Qed.
Lemma loaded_bootable : bootable loaded_memory loaded_mbd [low_memory] high_memory [] loaded.
Proof.
  split.
  - by vm_compute.
  - reflexivity.
  - reflexivity.
  - reflexivity.
  - reflexivity.
  - reflexivity.
  - split; reflexivity.
  - split; [by vm_compute|]. split; by vm_compute.
  - change (mb_mmap_addr loaded_mbd) with 0x9000. cbn [app mmap_list]. repeat split; by vm_compute.
  - apply Forall_cons; split; [intros _; repeat split; by vm_compute|].
    apply Forall_cons; split; [intros _; repeat split; by vm_compute|constructor].
  - rewrite loaded_preserved. repeat split; by vm_compute.
  - rewrite loaded_preserved. apply Forall_cons; split; [intros _; split; by vm_compute|constructor].
  - rewrite loaded_preserved. split; by vm_compute.
Qed.
Lemma page_init_correct_witness :
  ∃ s' e F, loaded_init loaded = Ret (tt, s') ∧ 0x160004 ≤ e ∧ (∀ f, f ∈ F ↔ region_lo e high_memory ≤ f ≤ 0x14FE) ∧
    mapped_1to1 0x1000 e s'.2 ∧ kernel_ok F demo_isp demo_esp s' ∅.
Proof.
  destruct (page_init_correct loaded_memory loaded_mbd [low_memory] high_memory [] loaded fresh_size fresh_start demo_isp demo_esp
    loaded_bootable) as (s' & e & F & Hrun & [He _] & HF & _ & Hm & Hk).
  - by vm_compute.
  - rewrite loaded_preserved. by vm_compute.
  - exists s', e, F. rewrite loaded_preserved in He. exact (conj Hrun (conj He (conj HF (conj Hm Hk)))).
Defined.

(** * The whole of [kmain] up to the first program *)
Definition demo_ebp : Z := 0x7FF8.
Definition loaded_core : Main.core :=
  fresh_core (Ports [] (λ _ _, 0)) (λ _, 0) 0 0 (tasks_boot demo_NIL demo_junk 0x202, loaded).
#[local] Abbreviation demo_env := (@kernel_task_env demo_link demo_fresh demo_page_link demo_isp (demo_esp, demo_ebp)).
Definition demo_bring_up : M (cxx * Main.core) unit :=
  @bring_up demo_link demo_fresh demo_page_link demo_desc_link no_calls [1; 2] loaded_memory loaded_mbd 0 demo_isp demo_esp demo_ebp
    fresh_size fresh_start demo_NIL demo_junk 0 0x101000 0x102000 0x103000 demo_kc.
Lemma kmain_boots_witness :
  wp (demo_bring_up ;; on_tasks (for_each kernel_calls (@run_call kstate demo_env demo_NIL demo_junk 0)))
    (λ _ s', @dispatch demo_desc_link 32 (m_tables s'.2) = Some 0x102000 ∧ screen_ok (m_screen s'.2) ∧
       ∃ F order, kernel_ok F demo_isp demo_esp (m_tasks s'.2).2 (list_to_set order))
    kernel_fails (cxx_start, loaded_core).
Proof.
  destruct demo_boot_range as (R1 & R2 & R3).
  assert (Hcalls : Forall call_ok kernel_calls) by (repeat constructor; done).
  destruct (@kmain_boots demo_link demo_link_ok demo_fresh demo_page_link demo_page_link_ok demo_desc_link no_calls [1; 2] loaded_memory loaded_mbd 0
    demo_isp demo_esp demo_ebp fresh_size fresh_start demo_NIL _ demo_junk 0 0x101000 0x102000 0x103000 0xFFFFE800 0xFFFFE900 demo_kc R1 R2 R3
    [low_memory] high_memory [] cxx_start (Ports [] (λ _ _, 0)) (λ _, 0) 0 0 demo_junk 0x202 loaded kernel_calls) as [_ Hwp].
  - intros f c co _. by exists c.
  - exact loaded_bootable.
  - by vm_compute.
  - rewrite loaded_preserved. by vm_compute.
  - discriminate.
  - intros n. simpl. pose proof (Z.mod_pos_bound n 1024). lia.
  - exact Hcalls.
  - eapply wp_mono; [exact Hwp|]. intros _ s' (e & F & _ & _ & (ls & order & _ & _ & _ & Hk) & Hsc & Hd).
    split; [exact (Hd 32 ltac:(lia))|]. split; [exact Hsc|]. exists F, order. exact Hk.
Defined.
